(* ===== verification/_CoqProject ===== *)
-Q . S2P
Prelude.v
Db.v
FeedServer.v
FeedRace.v
FeedClient.v
Pagination.v
Games.v
Crew.v
Vault.v
VaultPage.v
Auth.v
CrewCreate.v
GameViews.v
Forms.v
AppShell.v
Home.v
CrewPage.v
Server.v
App.v
Legacy.v
