(* ===== verification/Prelude.v ===== *)
(** * Project-Dank: a verification development

    Project-Dank is a private community web application: a React single
    page client ([src/projectdank/src]) over an Express/PostgreSQL server
    ([src/server]).  This development models the parts of it that carry
    state or decisions and proves what they guarantee.

    ** The program and how its parts interact

    - The persistence layer (PostgreSQL, not in the repository) holds the
      tables [feeds], [feed_likes], [feed_comments], [games], [quotes],
      [notes], [crew_members], [clips], [users].  Every route reads and
      writes it through [pool.query]; [gameRoutes.js] groups its writes in
      BEGIN/COMMIT/ROLLBACK transactions, the other routes autocommit each
      statement.
    - The feed routes ([src/server/routes/feedRoutes.js]) serve one page of
      posts with aggregated like/comment counts, create posts, toggle likes
      and add comments; all four sit behind [ensureAuth]
      ([vaultRoutes.js]).
    - The feed client ([components/Feed.tsx]) keeps the fetched posts, the
      paging offset and the has-more flag, appends pages, prepends new
      posts and patches likes and comments from the server's answers.
    - The game routes ([gameRoutes.js]) write [games] with its [quotes]
      and [notes] in transactions; [EditGame.tsx] loads a game and PUTs
      the edited object back; [Home.tsx] joins games and quotes and keeps
      an active-games window.
    - The crew routes ([crewRoutes.js]) autocommit one statement each;
      [Crew.tsx] shows statistics and [EditCrew.tsx] edits a member.
    - The vault: [uploadRoutes.js] stores a file with multer and inserts a
      [clips] row; [vaultRoutes.js] merges the clips with the playlist
      items of [youtubeService.js]; [Vault.tsx] filters the cards and
      [UploadClipModal.tsx] builds the upload form.
    - Authentication: passport's Discord strategy in [server.js] looks
      the user up and stores the row in the session; [authRoutes.js],
      [ensureAuth], [AuthContext.tsx] and [ProtectedRoute.tsx] read it.
    - The application ([server.js]) mounts the routers under [/api/...],
      then serves [uploads/] statically, then [GET /] and
      [GET /test-users]; the game and crew routers are mounted without
      [ensureAuth], and [adminRoutes.js] is mounted nowhere.
    - The client's router ([Routes.tsx]) picks a page for the pathname;
      [Navbar.tsx] marks the current section; the admin pages
      ([CreateGame], [EditGame], [CreateCrew], [EditCrew]) check the
      role of the context user before their hooks.

    ** Files (in the order of _CoqProject)

    - [Prelude]: this file.  JavaScript values as the code inspects them
      ([number] with its truthiness, [jsval] for a request body field,
      [trim] on strings, [js_set] and [remove_index] on arrays), the
      state-and-error monad [act] in which every server handler is
      written (with [transaction] for BEGIN/ROLLBACK), the HTTP
      [response] type and axios' [http_ok], React's update pattern
      [map_where] and its rule of hooks ([hook], [renders_ok]), the paging
      lemma on [take]/[drop], SQL's [ORDER BY ... DESC] as a relation
      ([order_by_desc]: any permutation sorted by the key, unique when the
      keys are distinct) and [LEFT JOIN] as a nested loop with a NULL row
      ([left_join]), and the [dank] hint database.
    - [Db]: the feed tables as lists of rows (a SQL table is a bag; the
      list order is the heap order in which a query without ORDER BY
      returns them), the schema constraints the server relies on
      (primary keys, foreign keys, the optional unique (feed, user)
      pair on likes), and the single SQL statements of [feedRoutes.js].
      The constraint checks are Postgres behaviour and are modelled from
      the spec; the statements are translated from the source.
    - [FeedServer]: the four feed routes as handlers
      [get_feed], [create_post], [toggle_like], [add_comment] of type
      [db -> response * db], with the aggregation query ([feed_page]: the
      product of the two LEFT JOINs ([feed_join]) grouped by post
      ([group_of]), COUNT(DISTINCT), BOOL_OR, JSON_AGG(DISTINCT),
      ORDER BY created_at DESC, LIMIT/OFFSET) and the query-string
      defaults [Number(x) || d].  A handler that throws outside its
      [try] is [comment_handler]'s rejected promise, which Express 4
      leaves unanswered ([handle]).  Theorems: the database invariant
      (unique ids, foreign keys, at most one like per pair) holds in
      every reachable state; reported counts equal the number of rows
      referencing the post (a refinement of the spec's view); toggling
      twice restores the like relation; validation and authentication
      errors leave the database unchanged; a page is the window of the
      listing at the offset, bounded by the limit.
    - [FeedRace]: the like toggle as the three statements it really is
      (SELECT, then DELETE or INSERT, then COUNT): a request in flight is
      a [thread] with a program counter at its next [await]; a pool of
      requests runs under a [schedule] (the event loop's choice of the
      request that resumes).  Theorems: every schedule that runs each
      request three times answers all of them with 200 or 500 (a
      measure, [remaining], drops with each step); without the
      constraint, on any database where a user does not like a post, the
      interleaving of two toggles of that user leaves two like rows for
      the pair and answers "liked" twice with the count raised by two,
      while the same two requests served one after the other leave none.
    - [FeedClient]: [Feed.tsx] and [CommentInput] as a state record (one
      field per [useState]) and one function per handler, split at its
      [await]; [render] is what the JSX shows; an [event] is a user action
      paired with the answer it got.  Theorem: every session keeps each
      shown comment count equal to the length of the shown comment list.
    - [Pagination]: the client's requests answered by the server model.
      Theorems (on feeds with distinct [created_at], where ORDER BY has
      one answer): "Load more" against an unchanged feed ends with exactly
      the server's listing; posting between two pages repeats a post;
      after a failed first load the first five posts are never shown.
    - [Games]: the five game routes over [gdb] (tables, the [serial]
      sequence, [NOW()]), BEGIN/COMMIT/ROLLBACK as an explicit snapshot,
      and the JavaScript tests on [quotes]/[notes] (a [list_field] is
      [undefined], an array, a string or another object, with or without
      a [length]).  Theorems: create is atomic and reads back; an update
      restamps [created_at]; PUT on an unknown game answers an empty 200;
      delete answers 404 or removes the game with its rows.
    - [Crew]: the crew routes, [Crew.tsx]'s statistics and [EditCrew.tsx].
      Theorems: the average panic level is [Math.round] of the mean;
      load-and-save is a round trip; saving after a failed load wipes
      the member.
    - [Vault]: the upload route (multer's disk write under the name
      [multer_filename] builds with Node's [path.extname], then the row), the
      [/vault] listing with the YouTube items, and the reachable states of
      the two.  Theorems: a failed upload leaks its file; every stored
      clip's file is on disk.
    - [VaultPage]: [Vault.tsx] (cards, filters, statistics, page state,
      [VideoModal], what the page renders, with a JSON value as a React
      child) and [UploadClipModal.tsx] (form state and actions, submit,
      what the form shows).  Theorems: the form's tags stay distinct; an
      upload comes back as a card with the stored file's URL and its tag
      chips; card ids are distinct; the filters select exactly; a local
      card opens a file that is on disk; an object tag, once stored,
      makes the page throw for everyone.
    - [Auth]: login, sessions, [/auth/check], logout and the client's use
      of them.  Theorems: a renamed user is logged in under the old name
      and posts under it; a session survives deactivation.
    - [CrewCreate]: [CreateCrew.tsx]'s form and its POST, with the text
      of each number input read by Postgres as a 32-bit [integer]
      ([pg_int_text]).  Theorem: the route accepts the form exactly when
      each input reads as an integer in range.
    - [GameViews]: [EditGame.tsx], [CreateGame.tsx], [GamesHall.tsx] and
      [GameDetail.tsx] over [Games].  Theorems: the editor's save erases
      the image; the hall's local delete equals a reload; the hall shows
      no quotes; a created game's detail page shows what was sent.
    - [Forms]: the inputs of the four admin forms as rendered (name
      attribute, [value] prop, [onChange] with its dispatch on
      [e.target.name]) and React's reconciliation of an input's text
      with its value, behind the [FormPage] interface; [Number()] is the
      [JsNumber] interface, of which only [Number("") = 0] is used.
      Theorems: every input of CreateGame, CreateCrew and EditCrew shows
      what was typed (a cleared EditCrew number shows 0), and so does
      EditGame's but for the image input of a game with an image, which
      stays frozen while the save stores the last keystroke's text; the
      DOM runs of EditGame refine the edit model of [GameViews].
    - [AppShell]: [Routes.tsx] with react-router's ranking and matching,
      [Navbar.tsx], [VaultWrapper.tsx] and the renders of the admin pages
      under [AuthContext].  Theorems: [/games/create] and [/games/<id>]
      resolve as intended; one nav link at most is active; every admin
      page crashes when loaded directly; without an auth provider
      CreateCrew throws (it reads the context without [|| {}], see
      [read_user]) and the other three show "Forbidden".
    - [Home]: the home page over [Games].  Theorems: the active-games
      window and the quote shown stay well formed in every state; each
      active card links to the detail page of a game of the database.
    - [CrewPage]: [Crew.tsx]'s state, fetch, confirmed delete and what
      it renders.  Theorems: the local delete equals a reload; "Loading..."
      ends whatever the fetch answers; every Edit link opens the editor
      of its member.
    - [Server]: [server.js]'s layers and Express's dispatch over every
      route of every router, [requireAdmin] and [/test-users], and the
      browser's reading of a media URL ([url_request_path]: the path ends
      at [?] or [#]).  Theorems: an anonymous request differs from an
      authenticated one only by the 401 of [ensureAuth]; games and crew
      members are written without a session; a local card's file is
      served, to anyone; a file whose extension holds [#] is never.
    - [App]: the whole server: one state with every component's tables,
      an HTTP request (method, path segments, session, body and the
      random values as inputs) dispatched by [Server] and handed to the
      handler of its router ([handle_endpoint], [serve_http]), time
      passing ([app_tick]); the verify callback's failing user query
      answers 500.  Requests are served one at a time; the interleaving
      of concurrent requests is [FeedRace]'s subject.  Theorems: a
      request without a session never changes the feed or the vault;
      the login flow (the Discord link, the callback, [/api/auth/check]
      read by the navbar) ends with the user's row and Logout shown.
    - [Legacy]: the two components no module imports, as written:
      [VideoPlayerModal.tsx] (its effect on the body's overflow and the
      Escape listener, over renders with new callbacks, clicks and keys)
      and [CommunityFeed.tsx] (its fetches, which carry no session, go
      through [App]).  Theorems: one Escape listener at most, calling
      the current [onClose]; the cleanup leaves the overflow [""];
      CommunityFeed's requests are refused with 401.

    ** Bounds and fuel

    Integers are kept at the width the code gives them: LIMIT/OFFSET are
    Postgres [bigint]s (below 2^63), ids and [integer] columns are 32-bit
    ([int4_range]), and a [serial] sequence stops at 2^31 - 1; theorems
    that need it carry the bound as a hypothesis.  [Pagination.load_pages]
    takes fuel, one round per click; [length feed / 5] rounds are enough,
    and [load_all_complete] proves it.  JavaScript arithmetic on small
    integers (sums of panic levels, counts) is exact in doubles and is
    modelled on [Z].

    ** Modelling choices

    - [crypto.randomUUID()] is an input of the handler (the random value
      it produced), of type [uuid := N]; its order on [N] stands for the
      text order of the UUID strings, which Postgres uses when it sorts.
      A duplicate value is rejected by the primary key, as in Postgres.
    - [NOW()] is the field [now] of the database state; the environment
      advances it ([tick]), so two statements may share a timestamp.
    - [Number(...)] of a query string is an input of type [number]: the
      code only tests its truthiness and Postgres only accepts it as a
      non-negative 64-bit integer.
    - Strings are Rocq strings of 8-bit characters; [trim] removes the
      characters JavaScript treats as white space among them.
    - The schema is not in the repository: constraints and foreign keys
      are parameters ([schema], [gschema], [cschema], [vschema]) and the
      theorems hold for every choice or name the one they need.
    - Random values ([Math.random()], [Date.now()] in file names) and the
      YouTube answer are inputs.
    - [ORDER BY created_at DESC] without a tie-breaker may return rows of
      equal [created_at] in any order; the listing fixes one order
      ([sort_by]) and the theorems that compare two queries assume
      distinct timestamps, under which every order the database may
      return is that one ([order_by_desc_unique]).
    - The repository has no [package.json]; the server is taken to run
      Express 4, the version whose API its code uses: a rejected handler
      promise is not caught, and the request gets no answer.  Express 5
      would answer 500 instead; the theorem about that case also states
      the rejection itself, which holds under either version.

    ** What modelling showed

    The unknown-post errors of the like and comment routes are 500, not
    404; a limit of 0 is served as 5; a non-string comment text leaves the
    request unanswered; [comment_list] is ordered by comment id, not by
    time; the toggle races without a pair constraint; the feed client
    duplicates or skips posts when a post is created between pages or the
    first load fails.  Saving the game editor erases the image, and typing into its image
    input changes nothing visible but stores the last keystroke's text; an update
    restamps [created_at]; PUT on an unknown game or member answers an
    empty 200; the games hall shows 0 quotes.  The crew editor wipes a
    member after a failed load; a cleared number input of CreateCrew
    makes the route fail.  Every admin page crashes on a direct load.  A
    failed upload leaks its file and shows no message; an upload whose
    tags hold a JSON object breaks the vault page for every user.  A renamed Discord
    user keeps the old name for a whole session, and a deactivated user
    keeps access until the cookie expires.  Games and crew members can be
    written without a session; [/test-users] and [/uploads] are public; an
    uploaded file whose extension holds [#] is stored but its link never
    loads it; CreateCrew throws without an auth provider.

    ** Not modelled

    Styling, and the markup beyond the texts, links and buttons the page
    models hold; the static markup of [Root.tsx],
    [Footer.tsx] and [LoginPage.tsx] (its one link is the build-time
    [VITE_DISCORD_AUTH]); [GamesData.tsx], a constant imported nowhere;
    the browser's checks of [required], [min] and [max] before a form is
    submitted; the router of [adminRoutes.js] (mounted nowhere, and it would throw
    when loaded); the edit branch of [CreateCrew.tsx] (the router never
    gives it an id); the mount of [AuthProvider] (no [main.tsx] in the
    repository: both cases are modelled); the [/feed] page's wrapper
    [FeedWrapper.tsx] and [Api.ts], imported but absent from the
    repository; the OAuth exchange, cookies,
    CORS, body parsing and the network; date formatting (the vault
    cards' dates, which no theorem reads); the percent-decoding of
    [express.static] (the theorems about served files take names
    without [%]); a [/quotes] request of the home page that never
    answers (the page then stays as it is, as it does before any
    answer). *)

From Stdlib Require Import ZArith Lia Ascii String Sorted.
From stdpp Require Import base list strings pretty.
From stdpp Require sorting.

Declare Scope dank_scope.
Delimit Scope dank_scope with dank.

Create HintDb dank discriminated.
Create Rewrite HintDb dank_rw.

(** ** JavaScript numbers, as far as the code inspects them *)

(** The value of [Number(x)]: [NaN], an integer, or anything else (a
    finite non-integer or an infinity). *)
Inductive number : Type :=
| NaN
| Int (z : Z)
| Frac.

(** JavaScript truthiness of a number: [NaN] and [0] are falsy. *)
Definition truthy_number (n : number) : bool :=
  match n with
  | NaN => false
  | Int z => negb (Z.eqb z 0)
  | Frac => true
  end.

(** [Number(x) || d] *)
Definition number_or (n : number) (d : Z) : number :=
  if truthy_number n then n else Int d.

(** ** SQL parameters *)

(** A text parameter as Postgres receives it from node-postgres: NULL
    ([undefined] or [null]) or a text. *)
Definition sqltext := option string.

(** A route parameter ([req.params.id]) bound to an integer column:
    Postgres casts the text, so it either is an integer literal or the
    query fails. *)
Inductive param := PInt (z : Z) | PText (s : string).

(** An [integer] column accepts the values of 32-bit two's complement. *)
Definition int4_range (z : Z) : bool := (- 2 ^ 31 <=? z)%Z && (z <? 2 ^ 31)%Z.

Lemma int4_range_pos z : (1 <= z < 2 ^ 31)%Z -> int4_range z = true.
Proof. intros Hz. unfold int4_range. apply andb_true_intro. split; [apply Z.leb_le|apply Z.ltb_lt]; lia. Qed.

(** ** JSON values of a request body field *)

Inductive jsval : Type :=
| JUndefined
| JNull
| JBool (b : bool)
| JNum (n : number)
| JStr (s : string)
| JArr
| JObj.

(** ** [String.prototype.trim] on 8-bit strings *)

(** TAB, LF, VT, FF, CR, SPACE and NO-BREAK SPACE: the JavaScript white
    space and line terminators below code point 256. *)
Definition is_js_space (c : ascii) : bool :=
  let n := nat_of_ascii c in
  (n =? 9) || (n =? 10) || (n =? 11) || (n =? 12) || (n =? 13)
  || (n =? 32) || (n =? 160).

Fixpoint ltrim (l : list ascii) : list ascii :=
  match l with
  | [] => []
  | c :: l' => if is_js_space c then ltrim l' else l
  end.

Definition trim_chars (l : list ascii) : list ascii := rev (ltrim (rev (ltrim l))).

Definition trim (s : string) : string :=
  string_of_list_ascii (trim_chars (list_ascii_of_string s)).

(** Every character is white space. *)
Definition all_space (s : string) : Prop :=
  Forall (fun c => is_js_space c = true) (list_ascii_of_string s).

(** ** The state-and-error monad of the server handlers *)

(** A computation over a state [S] that may fail with [E].  The state
    reached before a failure is kept: this is what a sequence of
    autocommitted [pool.query] calls does. *)
Definition act (S E A : Type) : Type := S -> (E + A) * S.

Definition ret {S E A} (a : A) : act S E A := fun s => (inr a, s).

Definition bind {S E A B} (m : act S E A) (k : A -> act S E B) : act S E B :=
  fun s => match m s with
           | (inr a, s') => k a s'
           | (inl e, s') => (inl e, s')
           end.

Definition throw {S E A} (e : E) : act S E A := fun s => (inl e, s).

(** [try { m } catch (e) { h(e) }] *)
Definition try_catch {S E A} (m : act S E A) (h : E -> act S E A) : act S E A :=
  fun s => match m s with
           | (inl e, s') => h e s'
           | r => r
           end.

(** BEGIN; m; COMMIT, with ROLLBACK to the snapshot when [m] fails. *)
Definition transaction {S E A} (m : act S E A) : act S E A :=
  fun s => match m s with
           | (inl e, _) => (inl e, s)
           | r => r
           end.

Notation "x <- m ;; k" := (bind m (fun x => k))
  (at level 60, m at next level, right associativity) : dank_scope.
Notation "m ;;; k" := (bind m (fun _ => k))
  (at level 60, right associativity) : dank_scope.

Open Scope dank_scope.

(** ** HTTP responses *)

(** [res.status(code).json(body)]; [NoReply] is a request the handler
    never answers (an exception thrown outside its [try]). *)
Inductive response (B : Type) : Type :=
| Reply (code : nat) (body : B)
| NoReply.
Arguments Reply {B} code body.
Arguments NoReply {B}.

Definition status_of {B} (r : response B) : option nat :=
  match r with Reply c _ => Some c | NoReply => None end.

(** ** The React update [prev.map(x => p(x) ? f(x) : x)] *)

Definition map_where {A} (p : A -> bool) (f : A -> A) (l : list A) : list A :=
  map (fun x => if p x then f x else x) l.

(** ** Array updates of the React forms *)

(** [arr[i] = x]: past the end a JavaScript array grows, and the slots
    in between are holes, given here as [hole]. *)
Definition js_set {A} (hole : A) (i : nat) (x : A) (l : list A) : list A :=
  if decide (i < length l) then <[i := x]> l else l ++ replicate (i - length l) hole ++ [x].

(** [arr.filter((_, j) => j !== i)] *)
Definition remove_index {A} (i : nat) (l : list A) : list A :=
  snd <$> filter (fun p => p.1 <> i) (zip (seq 0 (length l)) l).

(** axios resolves on a 2xx status and rejects otherwise. *)
Definition http_ok (c : nat) : bool := (200 <=? c) && (c <? 300).

(** ** React's rule of hooks *)

(** The hooks a render calls, in order. *)
Inductive hook := UseState | UseEffect | UseContext | UseNavigate | UseParams | UseLocation.

#[export] Instance hook_eq_dec : EqDecision hook.
Proof. solve_decision. Defined.

(** A mounted component must call the same hooks in the same order on
    every render: React throws ("Rendered more hooks than during the
    previous render", "Rendered fewer hooks than expected") when the
    number changes, and mixes up the hooks' state when the order does.
    [renders_ok first later] checks the renders after the first. *)
Fixpoint renders_ok (prev : list hook) (later : list (list hook)) : bool :=
  match later with
  | [] => true
  | hs :: rest => bool_decide (hs = prev) && renders_ok hs rest
  end.

(** ** Sorting (the ORDER BY of a query, and the sort behind a DISTINCT
    aggregate): a stable insertion sort on a boolean order [le]. *)

Fixpoint insert_by {A} (le : A -> A -> bool) (x : A) (l : list A) : list A :=
  match l with
  | [] => [x]
  | y :: l' => if le x y then x :: l else y :: insert_by le x l'
  end.

Fixpoint sort_by {A} (le : A -> A -> bool) (l : list A) : list A :=
  match l with
  | [] => []
  | x :: l' => insert_by le x (sort_by le l')
  end.

(** ** Generic lemmas *)

Lemma bind_ret_l {S E A B} (a : A) (k : A -> act S E B) s :
  bind (ret a) k s = k a s.
Proof. reflexivity. Qed.

Lemma bind_throw {S E A B} (e : E) (k : A -> act S E B) s :
  bind (throw e) k s = (inl e, s).
Proof. reflexivity. Qed.

(** A statement [preserves] a predicate of the state when every run
    from a state satisfying it ends in one, failing or not. *)
Section Preserves.
Context {S E : Type} (P : S -> Prop).

Definition preserves {A} (m : act S E A) : Prop := forall s, P s -> P (snd (m s)).

Lemma preserves_ret {A} (a : A) : preserves (ret a).
Proof. by intros s. Qed.

Lemma preserves_throw {A} (e : E) : preserves (@throw S E A e).
Proof. by intros s. Qed.

Lemma preserves_bind {A B} (m : act S E A) (k : A -> act S E B) :
  preserves m -> (forall a, preserves (k a)) -> preserves (bind m k).
Proof.
  intros Hm Hk s Hs. unfold bind. specialize (Hm s Hs).
  destruct (m s) as [[e|a] s']; [exact Hm|]. by apply Hk.
Qed.

Lemma preserves_try_catch {A} (m : act S E A) (h : E -> act S E A) :
  preserves m -> (forall e, preserves (h e)) -> preserves (try_catch m h).
Proof.
  intros Hm Hh s Hs. unfold try_catch. specialize (Hm s Hs).
  destruct (m s) as [[e|a] s']; [by apply Hh|exact Hm].
Qed.

End Preserves.

#[export] Hint Resolve preserves_ret preserves_throw : dank.

(** Split a [preserves] goal along the structure of the program: binds,
    handlers, and the matches the program branches on. *)
Ltac preserves_split :=
  repeat match goal with
  | |- forall _, _ => intros
  | |- preserves _ (bind _ _) => apply preserves_bind
  | |- preserves _ (try_catch _ _) => apply preserves_try_catch
  | |- preserves _ (ret _) => apply preserves_ret
  | |- preserves _ (throw _) => apply preserves_throw
  | |- preserves _ (if ?b then _ else _) => destruct b
  | |- preserves _ (match ?x with _ => _ end) => destruct x
  end.

Lemma transaction_error {S E A} (m : act S E A) s e s' :
  m s = (inl e, s') -> transaction m s = (inl e, s).
Proof. unfold transaction. intros ->. reflexivity. Qed.

Lemma transaction_ok {S E A} (m : act S E A) s a s' :
  m s = (inr a, s') -> transaction m s = (inr a, s').
Proof. unfold transaction. intros ->. reflexivity. Qed.

Lemma length_map_where {A} (p : A -> bool) f (l : list A) :
  length (map_where p f l) = length l.
Proof. unfold map_where. apply length_map. Qed.

Lemma map_where_id {A} (p : A -> bool) f (l : list A) :
  Forall (fun x => p x = false) l -> map_where p f l = l.
Proof. unfold map_where. induction 1 as [|x l Hx _ IH]; simpl; [done|]. by rewrite Hx, IH. Qed.

(** Projections that [f] does not change are not changed by [map_where]. *)
Lemma map_map_where {A B} (g : A -> B) (p : A -> bool) f (l : list A) :
  (forall x, g (f x) = g x) -> map g (map_where p f l) = map g l.
Proof.
  intros Hg. unfold map_where. rewrite map_map. apply map_ext.
  intros x. destruct (p x); auto.
Qed.

Lemma map_where_app {A} (p : A -> bool) f (l1 l2 : list A) :
  map_where p f (l1 ++ l2) = map_where p f l1 ++ map_where p f l2.
Proof. unfold map_where. apply map_app. Qed.

Lemma Forall_map_where {A} (P : A -> Prop) (p : A -> bool) f (l : list A) :
  (forall x, P x -> P (f x)) -> Forall P l -> Forall P (map_where p f l).
Proof.
  intros Hf Hl. unfold map_where. apply Forall_forall. intros y Hy.
  apply list_elem_of_In, in_map_iff in Hy as (x & <- & Hx). apply list_elem_of_In in Hx.
  eapply Forall_forall in Hl; [|exact Hx]. destruct (p x); auto.
Qed.

(** [map_where] leaves the elements it does not select where they are. *)
Lemma filter_map_where_out {A} (P : A -> Prop) `{forall x, Decision (P x)} f (l : list A) :
  (forall x, P (f x) <-> P x) ->
  filter (fun x => ~ P x) (map_where (fun x => bool_decide (P x)) f l)
  = filter (fun x => ~ P x) l.
Proof.
  intros Hf. induction l as [|x l IH]; [done|]. simpl. rewrite !filter_cons.
  case_bool_decide as Hp.
  - rewrite !decide_False by (rewrite ?Hf; tauto). exact IH.
  - rewrite !decide_True by done. by rewrite IH.
Qed.

Lemma filter_map_where_in {A} (P : A -> Prop) `{forall x, Decision (P x)} f (l : list A) :
  (forall x, P (f x) <-> P x) ->
  filter P (map_where (fun x => bool_decide (P x)) f l) = map f (filter P l).
Proof.
  intros Hf. induction l as [|x l IH]; [done|]. simpl. rewrite !filter_cons.
  case_bool_decide as Hp.
  - rewrite !decide_True by (rewrite ?Hf; done). simpl. by rewrite IH.
  - rewrite !decide_False by done. exact IH.
Qed.

(** Two consecutive pages of a listing are the page of their joint size. *)
Lemma take_drop_pages {A} (l : list A) (o a b : nat) :
  take a (drop o l) ++ take b (drop (o + a) l) = take (a + b) (drop o l).
Proof. rewrite <- drop_drop, <- take_take_drop. reflexivity. Qed.

Lemma ltrim_nil_iff (l : list ascii) :
  ltrim l = [] <-> Forall (fun c => is_js_space c = true) l.
Proof.
  induction l as [|c l IH]; simpl; [split; auto|].
  destruct (is_js_space c) eqn:Hc.
  - rewrite IH. split; [constructor; auto|]. intros H. by inversion H.
  - split; [discriminate|]. intros H. inversion H; congruence.
Qed.

Lemma string_of_list_ascii_nil (l : list ascii) :
  string_of_list_ascii l = EmptyString <-> l = [].
Proof. destruct l; simpl; split; congruence. Qed.

(** A trimmed prefix that is all white space is empty. *)
Lemma ltrim_all_space (l : list ascii) :
  Forall (fun c => is_js_space c = true) (ltrim l) -> ltrim l = [].
Proof.
  induction l as [|c l IH]; simpl; [done|].
  destruct (is_js_space c) eqn:Hc; [exact IH|].
  intros H. inversion H; congruence.
Qed.

(** [trim s] is empty exactly when [s] is all white space. *)
Lemma trim_empty_iff (s : string) : trim s = EmptyString <-> all_space s.
Proof.
  unfold trim, trim_chars, all_space.
  rewrite string_of_list_ascii_nil, <- ltrim_nil_iff.
  split.
  - intros H. apply (f_equal (@rev ascii)) in H. rewrite rev_involutive in H.
    apply ltrim_nil_iff in H. apply ltrim_all_space.
    rewrite <- (rev_involutive (ltrim _)). by apply Forall_rev.
  - intros H. by rewrite H.
Qed.

(** ** Sorting lemmas *)

Section SortBy.
Context {A : Type} (le : A -> A -> bool).
Hypothesis le_total : forall x y, le x y = false -> le y x = true.

Lemma insert_by_perm x (l : list A) : insert_by le x l ≡ₚ x :: l.
Proof.
  induction l as [|y l IH]; simpl; [done|].
  destruct (le x y); [done|]. rewrite IH. constructor.
Qed.

Lemma sort_by_perm (l : list A) : sort_by le l ≡ₚ l.
Proof.
  induction l as [|x l IH]; simpl; [done|].
  rewrite insert_by_perm, IH. done.
Qed.

Lemma insert_by_sorted x (l : list A) :
  Sorted (fun a b => le a b = true) l ->
  Sorted (fun a b => le a b = true) (insert_by le x l).
Proof.
  induction 1 as [|y l Hl IH Hhd]; simpl; [by repeat constructor|].
  destruct (le x y) eqn:Hxy.
  - by repeat constructor.
  - constructor; [done|]. destruct l as [|z l]; simpl; [constructor; auto|].
    inversion Hhd; subst. destruct (le x z); constructor; auto.
Qed.

Lemma sort_by_sorted (l : list A) : Sorted (fun a b => le a b = true) (sort_by le l).
Proof. induction l; simpl; [constructor|]. by apply insert_by_sorted. Qed.

Hypothesis le_trans : forall x y z, le x y = true -> le y z = true -> le x z = true.

Lemma insert_by_head x (l : list A) : Forall (fun y => le x y = true) l -> insert_by le x l = x :: l.
Proof. destruct l as [|y l]; simpl; [done|]. intros Hl. inversion Hl as [|? ? Hxy]. by rewrite Hxy. Qed.

(** Removing rows from a sorted listing is sorting the remaining rows. *)
Lemma filter_insert_by (P : A -> Prop) `{forall x, Decision (P x)} x (l : list A) :
  Sorted (fun a b => le a b = true) l ->
  filter P (insert_by le x l) = if decide (P x) then insert_by le x (filter P l) else filter P l.
Proof.
  intros Hs. apply Sorted_StronglySorted in Hs; [|intros ???; apply le_trans].
  induction Hs as [|y l Hs IH Hy]; simpl.
  { rewrite filter_cons. by case_decide. }
  destruct (le x y) eqn:Hxy.
  - rewrite (filter_cons P x). case_decide as Hx; [|done].
    rewrite insert_by_head; [done|]. apply Forall_forall. intros z Hz.
    apply list_elem_of_filter in Hz as [_ [->|Hz]%elem_of_cons]; [done|].
    eapply Forall_forall in Hy; [|exact Hz]. by apply (le_trans x y z).
  - rewrite !(filter_cons P y), IH. case_decide as Hx; case_decide as HyP; simpl; try done.
    by rewrite Hxy.
Qed.

Lemma filter_sort_by (P : A -> Prop) `{forall x, Decision (P x)} (l : list A) :
  filter P (sort_by le l) = sort_by le (filter P l).
Proof.
  induction l as [|x l IH]; simpl; [done|].
  rewrite filter_insert_by by apply sort_by_sorted. rewrite IH, filter_cons. by case_decide.
Qed.
End SortBy.

(** ** Decimal text of numbers *)

(** [String(x)] of a number is never empty: stdpp's [pretty] emits at
    least one digit. *)
Lemma pretty_N_go_nonempty x c s : pretty_N_go x (String c s) <> "".
Proof.
  revert c s. induction x as [x IH] using (well_founded_induction N.lt_wf_0). intros c s.
  destruct (decide (x = 0)%N) as [->|Hx]; [by rewrite pretty_N_go_0|].
  rewrite pretty_N_go_step by lia. apply IH. apply N.div_lt; lia.
Qed.

Lemma pretty_Z_nonempty (z : Z) : pretty z = "" -> False.
Proof.
  destruct z as [|p|p]; [discriminate| |discriminate].
  change (pretty (Z.pos p)) with (pretty (N.pos p)). unfold pretty, pretty_N.
  rewrite decide_False by done. rewrite pretty_N_go_step by lia. apply pretty_N_go_nonempty.
Qed.

(** The first character of [String(x)] is a digit or, for a negative
    number, "-". *)
Lemma pretty_N_go_head x s :
  pretty_N_go x s = s \/ exists d s', pretty_N_go x s = String (pretty_N_char d) s'.
Proof.
  revert s. induction x as [x IH] using (well_founded_induction N.lt_wf_0). intros s.
  destruct (decide (x = 0)%N) as [->|Hx]; [left; by rewrite pretty_N_go_0|].
  rewrite pretty_N_go_step by lia. right.
  destruct (IH (x / 10)%N ltac:(apply N.div_lt; lia) (String (pretty_N_char (x mod 10)) s)) as [->|H];
    [by eauto|exact H].
Qed.

Lemma pretty_Z_head (z : Z) :
  exists c s, pretty z = String c s /\ (c = "-"%char \/ exists d, c = pretty_N_char d).
Proof.
  destruct z as [|p|p].
  - exists "0"%char, "". split; [done|]. right. by exists 0%N.
  - change (pretty (Z.pos p)) with (pretty (N.pos p)). unfold pretty, pretty_N.
    rewrite decide_False by done. rewrite pretty_N_go_step by lia.
    destruct (pretty_N_go_head (N.pos p / 10) (String (pretty_N_char (N.pos p mod 10)) "")) as [->|(d & s' & ->)];
      eauto 6.
  - exists "-"%char, (pretty (N.pos p)). split; [reflexivity|by left].
Qed.

(** ** Array updates *)

Lemma remove_index_from {A} k i (l : list A) :
  snd <$> filter (fun p => p.1 <> i) (zip (seq k (length l)) l)
  = if decide (k <= i) then take (i - k) l ++ drop (S (i - k)) l else l.
Proof.
  revert k. induction l as [|x l IH]; intros k.
  { simpl. case_decide; [by rewrite take_nil|done]. }
  cbn [length seq zip]. rewrite filter_cons. simpl.
  destruct (decide (k <= i)) as [Hki|Hki].
  - destruct (decide (k = i)) as [->|Hk].
    + rewrite decide_False by (intros H; apply H; done). rewrite IH, decide_False by lia.
      by rewrite Nat.sub_diag.
    + rewrite decide_True by done. simpl. rewrite IH, decide_True by lia.
      by replace (i - k) with (S (i - S k)) by lia.
  - rewrite decide_True by lia. simpl. rewrite IH, decide_False by lia. done.
Qed.

(** The code's filter on indices removes the [i]-th element. *)
Lemma remove_index_spec {A} i (l : list A) : remove_index i l = take i l ++ drop (S i) l.
Proof. unfold remove_index. rewrite remove_index_from. case_decide; [|lia]. by rewrite Nat.sub_0_r. Qed.

Lemma js_set_in {A} (hole x : A) i l : i < length l -> js_set hole i x l = <[i := x]> l.
Proof. intros Hi. unfold js_set. by rewrite decide_True. Qed.

Lemma Forall_js_set {A} (Q : A -> Prop) hole x i l :
  Q hole -> Q x -> Forall Q l -> Forall Q (js_set hole i x l).
Proof.
  intros Hh Hx Hl. unfold js_set. case_decide.
  - by apply Forall_insert.
  - apply Forall_app. split; [done|]. apply Forall_app. split; [by apply Forall_replicate|by constructor].
Qed.

Lemma Forall_remove_index {A} (Q : A -> Prop) i l : Forall Q l -> Forall Q (remove_index i l).
Proof. rewrite remove_index_spec. intros Hl. apply Forall_app. split; [by apply Forall_take|by apply Forall_drop]. Qed.

(** ** Lists of rows: keys after filtering and appending *)

Lemma elem_of_map_filter {A B} (f : A -> B) (P : A -> Prop) `{forall x, Decision (P x)}
    (l : list A) y :
  y ∈ map f (filter P l) -> y ∈ map f l.
Proof.
  rewrite !list_elem_of_In, !in_map_iff. intros (x & Hx & Hin).
  exists x. split; [done|]. apply list_elem_of_In in Hin.
  apply list_elem_of_In. by apply list_elem_of_filter in Hin as [_ ?].
Qed.

Lemma NoDup_map_filter {A B} (f : A -> B) (P : A -> Prop) `{forall x, Decision (P x)}
    (l : list A) :
  NoDup (map f l) -> NoDup (map f (filter P l)).
Proof.
  induction l as [|x l IH]; simpl; [done|].
  intros Hnd. apply NoDup_cons in Hnd as [Hx Hl].
  rewrite filter_cons. case_decide; simpl; [|by apply IH].
  apply NoDup_cons. split; [|by apply IH].
  intros Hin. apply Hx. by eapply elem_of_map_filter.
Qed.

Lemma NoDup_map_snoc {A B} (f : A -> B) (l : list A) x :
  NoDup (map f l) -> f x ∉ map f l -> NoDup (map f (l ++ [x])).
Proof.
  intros Hl Hx. rewrite map_app. apply NoDup_app. split; [done|]. split.
  - intros y Hy Hy'. simpl in Hy'. apply list_elem_of_singleton in Hy'. subst. done.
  - simpl. apply NoDup_singleton.
Qed.

Lemma Forall_filter_of {A} (Q P : A -> Prop) `{forall x, Decision (P x)} (l : list A) :
  Forall Q l -> Forall Q (filter P l).
Proof.
  intros HQ. apply Forall_forall. intros x Hx.
  apply list_elem_of_filter in Hx as [_ Hx]. by eapply Forall_forall in HQ.
Qed.

Lemma remove_dups_NoDup_id {A} `{EqDecision A} (l : list A) :
  NoDup l -> remove_dups l = l.
Proof.
  induction 1 as [|x l Hx Hl IH]; simpl; [done|].
  case_decide; [contradiction|]. by rewrite IH.
Qed.

(** [SELECT DISTINCT] of rows that hold the same values as a list
    without repeats gives that list, up to order. *)
Lemma remove_dups_perm {A} `{EqDecision A} (l k : list A) :
  NoDup k -> (forall x, x ∈ l <-> x ∈ k) -> remove_dups l ≡ₚ k.
Proof.
  intros Hk Hiff. apply NoDup_Permutation; [apply NoDup_remove_dups|done|].
  intros x. by rewrite elem_of_remove_dups.
Qed.

(** [COUNT(DISTINCT k)] over rows holding the same values as a table
    whose key [k] is unique is the size of that table. *)
Lemma length_remove_dups_map {A B} `{EqDecision B} (k : A -> B) (l m : list A) :
  NoDup (map k m) -> (forall x, x ∈ l <-> x ∈ m) -> length (remove_dups (map k l)) = length m.
Proof.
  intros Hnd Hiff.
  assert (forall y, y ∈ map k l <-> y ∈ map k m) as Hk
    by (intros y; rewrite !list_elem_of_fmap; by setoid_rewrite Hiff).
  by rewrite (Permutation_length (remove_dups_perm (map k l) (map k m) Hnd Hk)), length_map.
Qed.

(** ** [LEFT JOIN] *)

(** The right-hand rows a left row joins: its matches, or one [NULL]
    row when it has none. *)
Definition opt_rows {B} (ys : list B) : list (option B) :=
  match ys with [] => [None] | _ => Some <$> ys end.

(** [xs LEFT JOIN ys ON kx(x) = ky(y)], in the order of a nested loop. *)
Definition left_join {A B K} `{EqDecision K} (kx : A -> K) (ky : B -> K) (xs : list A) (ys : list B)
    : list (A * option B) :=
  xs ≫= (fun x => pair x <$> opt_rows (filter (fun y => ky y = kx x) ys)).

Lemma elem_of_opt_rows_Some {B} (ys : list B) y : Some y ∈ opt_rows ys <-> y ∈ ys.
Proof.
  unfold opt_rows. destruct ys as [|y0 ys].
  - split; [intros ?%list_elem_of_singleton; done|by intros ?%not_elem_of_nil].
  - rewrite list_elem_of_fmap. split; [by intros (z & [= ->] & Hz)|by eexists].
Qed.

Lemma opt_rows_inhabited {B} (ys : list B) : exists o, o ∈ opt_rows ys.
Proof. destruct ys as [|y ys]; simpl; [exists None; by left|exists (Some y); by left]. Qed.

Lemma elem_of_left_join {A B K} `{EqDecision K} (kx : A -> K) (ky : B -> K) xs ys x oy :
  (x, oy) ∈ left_join kx ky xs ys <-> x ∈ xs /\ oy ∈ opt_rows (filter (fun y => ky y = kx x) ys).
Proof.
  unfold left_join. rewrite list_elem_of_bind. split.
  - intros (x' & Hin & Hx'). apply list_elem_of_fmap in Hin as (oy' & [= <- <-] & Hoy). done.
  - intros [Hx Hoy]. exists x. split; [|done]. apply list_elem_of_fmap. by exists oy.
Qed.

(** Keys that are distinct stay distinct through a map that keeps them. *)
Lemma NoDup_map_key {A B C} (k : A -> C) (k' : B -> C) (f : A -> B) (l : list A) :
  (forall x, k' (f x) = k x) -> NoDup (map k l) -> NoDup (map f l).
Proof.
  intros Hk. induction l as [|x l IH]; simpl; [intros; constructor|].
  intros Hnd. apply NoDup_cons in Hnd as [Hx Hl]. apply NoDup_cons. split; [|by apply IH].
  intros Hin. apply Hx. apply list_elem_of_In in Hin. apply in_map_iff in Hin as (y & Hy & Hin).
  apply list_elem_of_In, in_map_iff. exists y. split; [|done].
  rewrite <- (Hk y), <- (Hk x), Hy. done.
Qed.

Lemma Exists_filter_iff {A} (P Q : A -> Prop) `{forall x, Decision (P x)} (l : list A) :
  Exists Q (filter P l) <-> Exists (fun x => P x /\ Q x) l.
Proof.
  rewrite !Exists_exists. split.
  - intros (x & Hin & Hq). apply list_elem_of_filter in Hin as [Hp Hin]. eauto.
  - intros (x & Hin & Hp & Hq). exists x. split; [|done]. by apply list_elem_of_filter.
Qed.

Lemma map_filter_comm {A B} (g : A -> B) (P : A -> Prop) (Q : B -> Prop)
    `{forall x, Decision (P x)} `{forall y, Decision (Q y)} (l : list A) :
  (forall x, P x <-> Q (g x)) -> map g (filter P l) = filter Q (map g l).
Proof.
  intros HPQ. induction l as [|x l IH]; simpl; [done|].
  rewrite !filter_cons. specialize (HPQ x).
  case_decide as Hp; case_decide as Hq; simpl; rewrite ?IH; [done| | |done]; tauto.
Qed.

Lemma filter_all_id {A} (P : A -> Prop) `{forall x, Decision (P x)} (l : list A) :
  Forall P l -> filter P l = l.
Proof.
  induction 1 as [|x l Hx _ IH]; [done|]. rewrite filter_cons. case_decide; [|done].
  by rewrite IH.
Qed.

Lemma filter_none {A} (P : A -> Prop) `{forall x, Decision (P x)} (l : list A) :
  Forall (fun x => ~ P x) l -> filter P l = [].
Proof.
  induction 1 as [|x l Hx _ IH]; [done|]. rewrite filter_cons. by case_decide.
Qed.

(** In a list without duplicates, an element that occurs is its only copy. *)
Lemma filter_not_neq_single {A} `{EqDecision A} (l : list A) x :
  NoDup l -> x ∈ l -> filter (fun y => ~ y <> x) l = [x].
Proof.
  induction 1 as [|y l Hy Hl IH]; [by intros ?%not_elem_of_nil|].
  intros Hin. rewrite filter_cons. case_decide as Hyx.
  - assert (y = x) as -> by (destruct (decide (y = x)); tauto).
    rewrite filter_none; [done|]. apply Forall_forall. intros z Hz Hzx.
    apply Hzx. intros ->. contradiction.
  - apply IH. apply elem_of_cons in Hin as [->|]; [|done]. by destruct Hyx.
Qed.

Lemma filter_ext_in {A} (P Q : A -> Prop) `{forall x, Decision (P x)} `{forall x, Decision (Q x)}
    (l : list A) :
  (forall x, x ∈ l -> P x <-> Q x) -> filter P l = filter Q l.
Proof.
  induction l as [|x l IH]; intros Hiff; [done|]. rewrite !filter_cons.
  rewrite IH by (intros y Hy; apply Hiff; by right).
  specialize (Hiff x ltac:(by left)). by repeat case_decide; tauto.
Qed.

(** Two rows of a table with the same unique key are the same row. *)
Lemma NoDup_map_same_key {A K} (k : A -> K) (l : list A) x y :
  NoDup (map k l) -> x ∈ l -> y ∈ l -> k x = k y -> x = y.
Proof.
  induction l as [|h l IH]; intros Hnd Hx Hy Heq; [by apply not_elem_of_nil in Hx|].
  simpl in Hnd. apply NoDup_cons in Hnd as [Hh Hnd].
  apply elem_of_cons in Hx as [->|Hx]; apply elem_of_cons in Hy as [->|Hy]; try done.
  - exfalso. apply Hh. rewrite Heq. apply list_elem_of_fmap. by exists y.
  - exfalso. apply Hh. rewrite <- Heq. apply list_elem_of_fmap. by exists x.
  - by apply IH.
Qed.

(** Selecting by a key that is unique in the table gives the one row. *)
Lemma filter_key_single {A K} `{EqDecision K} (k : A -> K) (l : list A) (x : A) :
  NoDup (map k l) -> x ∈ l -> filter (fun y => k y = k x) l = [x].
Proof.
  induction l as [|h l IH]; intros Hnd Hin; [by apply not_elem_of_nil in Hin|].
  simpl in Hnd. apply NoDup_cons in Hnd as [Hh Hnd]. rewrite filter_cons.
  apply elem_of_cons in Hin as [->|Hin].
  - rewrite decide_True by done. f_equal. apply filter_none, Forall_forall.
    intros y Hy Heq. apply Hh. apply list_elem_of_fmap. by exists y.
  - rewrite decide_False; [by apply IH|]. intros Heq. apply Hh. rewrite Heq.
    apply list_elem_of_fmap. by exists x.
Qed.

(** ** What [ORDER BY key DESC] may return *)

(** Postgres answers [ORDER BY key DESC] with the rows in any arrangement
    whose keys do not increase: rows with equal keys come in an order it
    does not specify, which may differ from one query to the next (a
    [LIMIT]/[OFFSET] window included). *)
Definition order_by_desc {A} (key : A -> nat) (rows out : list A) : Prop :=
  out ≡ₚ rows /\ Sorted (fun a b => key b <= key a) out.

(** The model's stable sort is one of them. *)
Lemma sort_by_order_by_desc {A} (key : A -> nat) (rows : list A) :
  order_by_desc key rows (sort_by (fun a b => Nat.leb (key b) (key a)) rows).
Proof.
  split; [apply sort_by_perm|].
  assert (forall a b, Nat.leb (key b) (key a) = false -> Nat.leb (key a) (key b) = true) as Htot
    by (intros a b; rewrite Nat.leb_gt, Nat.leb_le; lia).
  induction (sort_by_sorted _ Htot rows) as [|a l _ IH Hhd]; constructor; [done|].
  destruct Hhd; constructor. by apply Nat.leb_le.
Qed.

(** With distinct keys there is only one: every query of the rows gets
    the same order, the model's. *)
Lemma order_by_desc_unique {A} (key : A -> nat) (rows o1 o2 : list A) :
  NoDup (map key rows) -> order_by_desc key rows o1 -> order_by_desc key rows o2 -> o1 = o2.
Proof.
  intros Hnd [P1 S1] [P2 S2].
  apply (sorting.StronglySorted_unique_strong (fun a b => key b <= key a)).
  - intros x y Hx Hy H1 H2. apply (NoDup_map_same_key key rows); [done| |by rewrite <- P2|lia].
    by rewrite <- P1.
  - apply Sorted_StronglySorted; [intros ???; lia|done].
  - apply Sorted_StronglySorted; [intros ???; lia|done].
  - by rewrite P1, P2.
Qed.

Lemma sort_by_desc_unique {A} (key : A -> nat) (rows o : list A) :
  NoDup (map key rows) -> order_by_desc key rows o ->
  o = sort_by (fun a b => Nat.leb (key b) (key a)) rows.
Proof. intros Hnd Ho. exact (order_by_desc_unique key rows _ _ Hnd Ho (sort_by_order_by_desc key rows)). Qed.

(** A row appended with a key above all others sorts first. *)
Lemma sort_by_desc_snoc_newest {A} (key : A -> nat) (rows : list A) x :
  Forall (fun y => key y < key x) rows ->
  sort_by (fun a b => Nat.leb (key b) (key a)) (rows ++ [x])
    = x :: sort_by (fun a b => Nat.leb (key b) (key a)) rows.
Proof.
  induction 1 as [|y rows Hy _ IH]; [done|]. cbn [app sort_by]. rewrite IH. simpl.
  assert (Nat.leb (key x) (key y) = false) as -> by (apply Nat.leb_gt; lia). done.
Qed.



(** ** Windows [take n (drop m l)] of a listing *)

Lemma NoDup_take_drop {A} (l : list A) n m :
  NoDup l -> NoDup (take n (drop m l)).
Proof.
  intros Hnd. apply (sublist_NoDup _ l Hnd).
  transitivity (drop m l); [apply sublist_take | apply sublist_drop].
Qed.

Lemma Sorted_drop {A} (R : A -> A -> Prop) (l : list A) m :
  Sorted R l -> Sorted R (drop m l).
Proof.
  revert l. induction m as [|m IH]; intros l Hs; [done|].
  destruct l as [|x l]; [constructor|]. simpl. apply IH. by apply Sorted_inv in Hs as [? _].
Qed.

Lemma Sorted_take {A} (R : A -> A -> Prop) (l : list A) n :
  Sorted R l -> Sorted R (take n l).
Proof.
  revert n. induction l as [|x l IH]; intros n Hs; [by rewrite take_nil|].
  destruct n as [|n]; [constructor|]. simpl.
  apply Sorted_inv in Hs as [Hs Hhd]. constructor; [by apply IH|].
  destruct l as [|y l], n as [|n]; simpl; constructor. by inversion Hhd.
Qed.

Lemma Sorted_take_drop {A} (R : A -> A -> Prop) (l : list A) n m :
  Sorted R l -> Sorted R (take n (drop m l)).
Proof. intros Hs. by apply Sorted_take, Sorted_drop. Qed.

Lemma Sorted_map {A B} (f : A -> B) (R : B -> B -> Prop) (l : list A) :
  Sorted (fun x y => R (f x) (f y)) l -> Sorted R (map f l).
Proof.
  induction 1 as [|x l Hs IH Hhd]; simpl; constructor; [done|].
  destruct Hhd; simpl; by constructor.
Qed.

Lemma NoDup_map_take_drop {A B} (f : A -> B) (l : list A) n m :
  NoDup (map f l) -> NoDup (map f (take n (drop m l))).
Proof. rewrite <- firstn_map, <- skipn_map. apply NoDup_take_drop. Qed.

(** A window shorter than asked for reaches the end of the listing. *)
Lemma take_drop_short {A} (l : list A) n m m' :
  length (take n (drop m l)) < n -> m + length (take n (drop m l)) <= m' -> drop m' l = [].
Proof.
  rewrite length_take, length_drop. intros Hlt Hle.
  apply length_zero_iff_nil. rewrite length_drop. lia.
Qed.

#[export] Hint Resolve length_map_where map_where_id NoDup_map_filter NoDup_map_snoc Forall_filter_of : dank.
#[export] Hint Rewrite @bind_ret_l @bind_throw @length_map_where : dank_rw.

(** Close a decidable proposition about concrete data by evaluation. *)
Ltac by_eval := apply (bool_decide_unpack _); vm_compute; exact I.

(** Case analysis on the [if] and [match] of a handler body, closing what
    [simpl] and [congruence] can. *)
Ltac dank_cases :=
  repeat match goal with
         | |- context [if ?b then _ else _] => destruct b eqn:?
         | H : context [if ?b then _ else _] |- _ => destruct b eqn:?
         end; simpl in *; try congruence.
