(* ===== verification/Db.v ===== *)
(** * Db: the feed tables and the SQL statements of the feed routes

    The tables [feeds], [feed_likes] and [feed_comments] as lists of rows
    in heap order, the database clock [now] (the value of [NOW()]), the
    constraints Postgres enforces on them ([schema]: primary keys always,
    foreign keys to [feeds] and a unique (feed_id, user_id) pair on likes
    when the schema declares them), and one definition per SQL statement
    of [src/server/routes/feedRoutes.js], written in the monad [act] of
    [Prelude].  The well-formedness invariant [db_wf] and the lemmas that
    say how each statement changes the tables are at the end. *)

From Stdlib Require Import ZArith Lia Ascii String.
From stdpp Require Import base list strings.
From S2P Require Import Prelude.

Module Db.

(** ** Data *)

(** A value of [crypto.randomUUID()]. *)
Definition uuid := N.

(** The identity [req.user.id] of the session's user. *)
Definition user_key := string.

(** [type: 'status' | 'achievement' | 'meme' | 'announcement'] *)
Inductive post_type := Status | Achievement | Meme | Announcement.

(** A row of [feeds]: [(id, author, avatar, content, type)] as inserted,
    and [created_at] from its default [NOW()]. *)
Record feed_row := mk_feed {
  feed_id : uuid;
  feed_author : string;
  feed_avatar : option string;
  feed_content : string;
  feed_type : post_type;
  feed_created_at : nat
}.

(** A row of [feed_likes]: [(id, feed_id, user_id)]. *)
Record like_row := mk_like {
  like_id : uuid;
  like_feed_id : uuid;
  like_user_id : user_key
}.

(** A row of [feed_comments]: [(id, feed_id, user_id, author, content)]
    and [created_at] from its default. *)
Record comment_row := mk_comment {
  comment_id : uuid;
  comment_feed_id : uuid;
  comment_user_id : user_key;
  comment_author : string;
  comment_content : string;
  comment_created_at : nat
}.

(** The constraints the schema declares beyond the primary keys. *)
Record schema := mk_schema {
  fk_enforced : bool;        (** likes and comments reference [feeds(id)] *)
  like_pair_unique : bool    (** UNIQUE (feed_id, user_id) on [feed_likes] *)
}.

Record db := mk_db {
  feeds : list feed_row;
  feed_likes : list like_row;
  feed_comments : list comment_row;
  now : nat
}.

(** The exceptions a route can raise: those Postgres raises, and the
    JavaScript [TypeError] of calling [.trim] on a value that is not a
    string. *)
Inductive exn := UniqueViolation | ForeignKeyViolation | InvalidParameter | TypeError.

Definition query (A : Type) := act db exn A.

#[export] Instance post_type_eq_dec : EqDecision post_type.
Proof. solve_decision. Defined.
#[export] Instance feed_row_eq_dec : EqDecision feed_row.
Proof. solve_decision. Defined.
#[export] Instance like_row_eq_dec : EqDecision like_row.
Proof. solve_decision. Defined.
#[export] Instance comment_row_eq_dec : EqDecision comment_row.
Proof. solve_decision. Defined.
#[export] Instance exn_eq_dec : EqDecision exn.
Proof. solve_decision. Defined.

(** ** Constraint checks (Postgres behaviour) *)

Definition feed_exists (fid : uuid) (d : db) : Prop := fid ∈ map feed_id (feeds d).

#[export] Instance feed_exists_dec fid d : Decision (feed_exists fid d).
Proof. unfold feed_exists. apply _. Defined.

(** [feed_id=$1 AND user_id=$2] *)
Definition like_matches (fid : uuid) (uid : user_key) (l : like_row) : Prop :=
  like_feed_id l = fid /\ like_user_id l = uid.

#[export] Instance like_matches_dec fid uid l : Decision (like_matches fid uid l).
Proof. unfold like_matches. apply _. Defined.

(** The check of an INSERT into [feed_likes]: primary key, foreign key,
    and the pair constraint when declared. *)
Definition like_insert_ok (sch : schema) (l : like_row) (d : db) : option exn :=
  if decide (like_id l ∈ map like_id (feed_likes d)) then Some UniqueViolation
  else if fk_enforced sch && negb (bool_decide (feed_exists (like_feed_id l) d))
  then Some ForeignKeyViolation
  else if like_pair_unique sch
          && bool_decide (Exists (like_matches (like_feed_id l) (like_user_id l)) (feed_likes d))
  then Some UniqueViolation
  else None.

Definition comment_insert_ok (sch : schema) (c : comment_row) (d : db) : option exn :=
  if decide (comment_id c ∈ map comment_id (feed_comments d)) then Some UniqueViolation
  else if fk_enforced sch && negb (bool_decide (feed_exists (comment_feed_id c) d))
  then Some ForeignKeyViolation
  else None.

(** ** The statements of feedRoutes.js *)

(** [INSERT INTO feeds (id, author, avatar, content, type) VALUES (...)
    RETURNING *]; [created_at] takes [NOW()]. *)
Definition insert_feed (fid : uuid) (author : string) (avatar : option string)
    (content : string) (ty : post_type) : query feed_row :=
  fun d =>
    let r := mk_feed fid author avatar content ty (now d) in
    if decide (feed_exists fid d) then (inl UniqueViolation, d)
    else (inr r, mk_db (feeds d ++ [r]) (feed_likes d) (feed_comments d) (now d)).

(** [SELECT id FROM feed_likes WHERE feed_id=$1 AND user_id=$2] *)
Definition select_like_ids (fid : uuid) (uid : user_key) : query (list uuid) :=
  fun d => (inr (map like_id (filter (like_matches fid uid) (feed_likes d))), d).

(** [DELETE FROM feed_likes WHERE feed_id=$1 AND user_id=$2] *)
Definition delete_likes (fid : uuid) (uid : user_key) : query unit :=
  fun d => (inr tt, mk_db (feeds d)
                          (filter (fun l => ~ like_matches fid uid l) (feed_likes d))
                          (feed_comments d) (now d)).

(** [INSERT INTO feed_likes (id, feed_id, user_id) VALUES ($1,$2,$3)] *)
Definition insert_like (sch : schema) (lid fid : uuid) (uid : user_key) : query unit :=
  fun d =>
    let l := mk_like lid fid uid in
    match like_insert_ok sch l d with
    | Some e => (inl e, d)
    | None => (inr tt, mk_db (feeds d) (feed_likes d ++ [l]) (feed_comments d) (now d))
    end.

(** [SELECT COUNT( * ) FROM feed_likes WHERE feed_id=$1] *)
Definition count_likes (fid : uuid) : query nat :=
  fun d => (inr (length (filter (fun l => like_feed_id l = fid) (feed_likes d))), d).

(** [INSERT INTO feed_comments (id, feed_id, user_id, author, content)
    VALUES (...) RETURNING *] *)
Definition insert_comment (sch : schema) (cid fid : uuid) (uid : user_key)
    (author content : string) : query comment_row :=
  fun d =>
    let c := mk_comment cid fid uid author content (now d) in
    match comment_insert_ok sch c d with
    | Some e => (inl e, d)
    | None => (inr c, mk_db (feeds d) (feed_likes d) (feed_comments d ++ [c]) (now d))
    end.

(** The clock moves on between requests. *)
Definition tick (d : db) : db :=
  mk_db (feeds d) (feed_likes d) (feed_comments d) (S (now d)).

(** ** Well-formedness *)

(** The likes of a post by a user, and all likes / comments of a post. *)
Definition likes_of_pair (fid : uuid) (uid : user_key) (d : db) : list like_row :=
  filter (like_matches fid uid) (feed_likes d).

Definition likes_of (fid : uuid) (d : db) : list like_row :=
  filter (fun l => like_feed_id l = fid) (feed_likes d).

Definition comments_of (fid : uuid) (d : db) : list comment_row :=
  filter (fun c => comment_feed_id c = fid) (feed_comments d).

(** The (post, user) pairs of the like relation. *)
Definition like_pairs (d : db) : list (uuid * user_key) :=
  map (fun l => (like_feed_id l, like_user_id l)) (feed_likes d).

(** What the primary and foreign keys guarantee. *)
Record keys_ok (sch : schema) (d : db) : Prop := {
  feeds_pk : NoDup (map feed_id (feeds d));
  likes_pk : NoDup (map like_id (feed_likes d));
  comments_pk : NoDup (map comment_id (feed_comments d));
  likes_fk : fk_enforced sch = true ->
             Forall (fun l => feed_exists (like_feed_id l) d) (feed_likes d);
  comments_fk : fk_enforced sch = true ->
                Forall (fun c => feed_exists (comment_feed_id c) d) (feed_comments d)
}.

(** The application's invariant: at most one like per (post, user). *)
Definition likes_unique (d : db) : Prop := NoDup (like_pairs d).

Definition db_wf (sch : schema) (d : db) : Prop := keys_ok sch d /\ likes_unique d.

(** ** How each statement changes the tables *)

Lemma feed_exists_snoc fid r d likes comments t :
  feed_exists fid d -> feed_exists fid (mk_db (feeds d ++ [r]) likes comments t).
Proof. unfold feed_exists. simpl. rewrite map_app. intros H. apply elem_of_app. by left. Qed.

Lemma Forall_feed_exists_snoc {A} (k : A -> uuid) (xs : list A) r d likes comments t :
  Forall (fun x => feed_exists (k x) d) xs ->
  Forall (fun x => feed_exists (k x) (mk_db (feeds d ++ [r]) likes comments t)) xs.
Proof. intros H. eapply Forall_impl; [exact H|]. intros x. apply feed_exists_snoc. Qed.

(** The primary and foreign keys hold after every statement: Postgres
    rejects the statements that would break them. *)
Lemma insert_feed_keys_ok sch fid author avatar content ty d :
  keys_ok sch d -> keys_ok sch (snd (insert_feed fid author avatar content ty d)).
Proof.
  intros [Hf Hl Hc Hlf Hcf]. unfold insert_feed.
  case_decide as Hex; simpl; [by constructor|].
  constructor; simpl; auto.
  - by apply NoDup_map_snoc.
  - intros Hfk. by apply Forall_feed_exists_snoc, Hlf.
  - intros Hfk. by apply Forall_feed_exists_snoc, Hcf.
Qed.

Lemma delete_likes_keys_ok sch fid uid d :
  keys_ok sch d -> keys_ok sch (snd (delete_likes fid uid d)).
Proof.
  intros [Hf Hl Hc Hlf Hcf]. constructor; simpl; auto with dank.
Qed.

Lemma like_insert_ok_None sch l d :
  like_insert_ok sch l d = None ->
  (like_id l ∉ map like_id (feed_likes d)) /\
  (fk_enforced sch = true -> feed_exists (like_feed_id l) d) /\
  (like_pair_unique sch = true ->
     ~ Exists (like_matches (like_feed_id l) (like_user_id l)) (feed_likes d)).
Proof.
  unfold like_insert_ok. case_decide as Hpk; [discriminate|].
  destruct (fk_enforced sch), (like_pair_unique sch); simpl;
    repeat case_bool_decide; simpl; try discriminate; intros _;
    repeat split; auto; discriminate.
Qed.

Lemma insert_like_keys_ok sch lid fid uid d :
  keys_ok sch d -> keys_ok sch (snd (insert_like sch lid fid uid d)).
Proof.
  intros Hk. unfold insert_like.
  destruct (like_insert_ok sch _ d) eqn:Hok; [done|].
  apply like_insert_ok_None in Hok as (Hpk & Hfk & _).
  destruct Hk as [Hf Hl Hc Hlf Hcf]. constructor; simpl; auto.
  - by apply NoDup_map_snoc.
  - intros E. apply Forall_app. split; [by apply Hlf|]. constructor; auto.
Qed.

Lemma comment_insert_ok_None sch c d :
  comment_insert_ok sch c d = None ->
  (comment_id c ∉ map comment_id (feed_comments d)) /\
  (fk_enforced sch = true -> feed_exists (comment_feed_id c) d).
Proof.
  unfold comment_insert_ok. case_decide as Hpk; [discriminate|].
  destruct (fk_enforced sch); simpl; repeat case_bool_decide; simpl;
    try discriminate; intros _; split; auto; discriminate.
Qed.

Lemma insert_comment_keys_ok sch cid fid uid author content d :
  keys_ok sch d -> keys_ok sch (snd (insert_comment sch cid fid uid author content d)).
Proof.
  intros Hk. unfold insert_comment.
  destruct (comment_insert_ok sch _ d) eqn:Hok; [done|].
  apply comment_insert_ok_None in Hok as (Hpk & Hfk).
  destruct Hk as [Hf Hl Hc Hlf Hcf]. constructor; simpl; auto.
  - by apply NoDup_map_snoc.
  - intros E. apply Forall_app. split; [by apply Hcf|]. constructor; auto.
Qed.

Lemma tick_keys_ok sch d : keys_ok sch d -> keys_ok sch (tick d).
Proof. intros [Hf Hl Hc Hlf Hcf]. by constructor. Qed.

(** The pair invariant: deleting keeps it, inserting keeps it when the
    pair is new. *)
Lemma delete_likes_unique fid uid d :
  likes_unique d -> likes_unique (snd (delete_likes fid uid d)).
Proof. unfold likes_unique, like_pairs. simpl. auto with dank. Qed.

Lemma like_pair_in_iff fid uid d :
  (fid, uid) ∈ like_pairs d <-> Exists (like_matches fid uid) (feed_likes d).
Proof.
  unfold like_pairs, like_matches. rewrite list_elem_of_In, in_map_iff, Exists_exists.
  split.
  - intros (l & Heq & Hin). exists l. rewrite list_elem_of_In. split; [done|].
    by injection Heq.
  - intros (l & Hin & Hf & Hu). exists l. rewrite Hf, Hu. split; [done|].
    by apply list_elem_of_In.
Qed.

Lemma insert_like_unique sch lid fid uid d :
  likes_unique d ->
  (like_pair_unique sch = true \/ ~ Exists (like_matches fid uid) (feed_likes d)) ->
  likes_unique (snd (insert_like sch lid fid uid d)).
Proof.
  intros Hu Hnew. unfold insert_like.
  destruct (like_insert_ok sch _ d) eqn:Hok; [done|].
  apply like_insert_ok_None in Hok as (_ & _ & Hp). simpl in Hp.
  unfold likes_unique, like_pairs in *. simpl.
  apply (NoDup_map_snoc (fun l => (like_feed_id l, like_user_id l))); [done|]. simpl.
  fold (like_pairs d). rewrite like_pair_in_iff. destruct Hnew; auto.
Qed.

End Db.
