(* ===== verification/FeedServer.v ===== *)
(** * FeedServer: the routes of [src/server/routes/feedRoutes.js]

    Each route is a function [route := db -> response body * db] built the
    way the Express handler is: [ensureAuth] first, then the body inside
    its [try] (as a [query] of [Db]), with the [catch] answering 500.
    [feed_page] is the aggregation SELECT of GET /, over the rows of the
    two LEFT JOINs grouped by post ([feed_join], [group_of],
    [aggregate]); [serve] dispatches a
    request to its route and [reachable] collects the databases a run of
    requests can produce.

    Theorems: every route preserves [db_wf] (so every reachable database
    satisfies it); the counts, the liked flag and the comment list of a
    page agree with an abstract view of the tables (counts are
    cardinalities, never cached, and the DISTINCT of the counts undoes
    the repetition of each like on every comment row of the join); the like toggle flips the pair and
    reports the fresh count, and two toggles restore the like relation;
    validation and authentication failures leave the tables unchanged;
    pages are bounded by the limit, sorted newest first, and consecutive
    pages concatenate; and the error paths the spec describes differently
    (unknown post, limit 0, non-string text, comment order). *)

From Stdlib Require Import ZArith Lia Ascii String Sorted.
From stdpp Require Import base list strings.
From S2P Require Import Prelude Db.

Module FeedServer.
Import Db.

(** ** Data *)

(** [req.user] as the session stores it (the [users] row). *)
Record user := mk_user {
  user_id : user_key;
  user_username : string;
  user_avatar : option string
}.

(** [JSONB_BUILD_OBJECT('id', c.id, 'author', c.author, 'content',
    c.content, 'created_at', c.created_at)] *)
Record comment_json := mk_comment_json {
  cj_id : uuid;
  cj_author : string;
  cj_content : string;
  cj_created_at : nat
}.

#[export] Instance comment_json_eq_dec : EqDecision comment_json.
Proof. solve_decision. Defined.

(** One row of the GET query: [f.*, likes, comments, liked, comment_list]. *)
Record post_json := mk_post_json {
  pj_post : feed_row;
  pj_likes : nat;
  pj_comments : nat;
  pj_liked : option bool;          (** BOOL_OR is NULL when there is no like *)
  pj_comment_list : list comment_json
}.

(** The JSON bodies the routes send. *)
Inductive body :=
| BPosts (ps : list post_json)
| BPost (r : feed_row)
| BLike (liked : bool) (totalLikes : nat)
| BComment (c : comment_row)
| BError (msg : string).

Definition route := db -> response body * db.

(** ** The aggregation query of GET / *)

(** [ORDER BY f.created_at DESC] *)
Definition created_desc (a b : feed_row) : bool :=
  Nat.leb (feed_created_at b) (feed_created_at a).

Definition comment_json_of (c : comment_row) : comment_json :=
  mk_comment_json (comment_id c) (comment_author c) (comment_content c) (comment_created_at c).

(** The order in which [JSON_AGG(DISTINCT ...)] emits the objects: Postgres
    sorts the DISTINCT input by jsonb comparison, which for objects with
    the same keys compares the values in key storage order ([id] is the
    shortest key, so it comes first). *)
Definition jsonb_order (a b : comment_json) : bool := N.leb (cj_id a) (cj_id b).

(** One row of [feeds f LEFT JOIN feed_likes l ON f.id = l.feed_id
    LEFT JOIN feed_comments c ON f.id = c.feed_id]: a post, one of its
    likes or [NULL], one of its comments or [NULL].  A post with [n]
    likes and [m] comments has [max 1 n * max 1 m] rows. *)
Definition join_row : Type := feed_row * option like_row * option comment_row.

Definition feed_join (d : db) : list join_row :=
  left_join (fun p : feed_row * option like_row => feed_id p.1) comment_feed_id
    (left_join feed_id like_feed_id (feeds d) (feed_likes d)) (feed_comments d).

(** [GROUP BY f.id]: the joined rows of one post. *)
Definition group_of (f : feed_row) (d : db) : list join_row :=
  filter (fun r : join_row => feed_id r.1.1 = feed_id f) (feed_join d).

(** The GROUP BY row of one post, for the requesting user [uid], over
    the non-[NULL] likes and comments of its joined rows (each repeated
    once per row of the other table): [COUNT(DISTINCT l.id)],
    [COUNT(DISTINCT c.id)], [BOOL_OR(l.user_id = $1)] ([NULL] when no row
    has a like) and [COALESCE(JSON_AGG(DISTINCT ...) FILTER (WHERE c.id IS
    NOT NULL), '[]')]. *)
Definition aggregate (uid : user_key) (d : db) (f : feed_row) : post_json :=
  let g := group_of f d in
  let ls := omap (fun r : join_row => r.1.2) g in
  let cs := omap (fun r : join_row => r.2) g in
  mk_post_json f
    (length (remove_dups (map like_id ls)))
    (length (remove_dups (map comment_id cs)))
    (match ls with
     | [] => None
     | _ => Some (bool_decide (Exists (fun l => like_user_id l = uid) ls))
     end)
    (sort_by jsonb_order (remove_dups (map comment_json_of cs))).

(** A LIMIT or OFFSET parameter: Postgres accepts a non-negative bigint. *)
Definition pg_bigint (n : number) : option nat :=
  match n with
  | Int z => if (0 <=? z)%Z && (z <? 2 ^ 63)%Z then Some (Z.to_nat z) else None
  | _ => None
  end.

(** The sorted, aggregated listing the LIMIT/OFFSET window is cut from. *)
Definition listing (uid : user_key) (d : db) : list post_json :=
  map (aggregate uid d) (sort_by created_desc (feeds d)).

(** The SELECT of GET / with [LIMIT $2 OFFSET $3]. *)
Definition feed_page (uid : user_key) (limit offset : number) : query (list post_json) :=
  fun d =>
    match pg_bigint limit, pg_bigint offset with
    | Some l, Some o => (inr (take l (drop o (listing uid d))), d)
    | _, _ => (inl InvalidParameter, d)
    end.

(** ** Express plumbing *)

(** [ensureAuth]: 401 unless the session is authenticated. *)
Definition ensure_auth (u : option user) (k : user -> route) : route :=
  fun d => match u with
           | None => (Reply 401 (BError "Unauthorized"), d)
           | Some u => k u d
           end.

(** Run a handler body; an exception that escapes it rejects the async
    handler's promise.  Express 4 does not catch that rejection, so the
    request is left unanswered ([NoReply]); the repository pins no
    Express version, and Express 5 would answer 500 from its default
    error handler instead. *)
Definition handle (m : query (response body)) : route :=
  fun d => match m d with
           | (inr r, d') => (r, d')
           | (inl _, d') => (NoReply, d')
           end.

(** [try { ... } catch (err) { res.status(500).json({ error: msg }) }] *)
Definition catch_500 (msg : string) (m : query (response body)) : query (response body) :=
  try_catch m (fun _ => ret (Reply 500 (BError msg))).

(** [text?.trim()]: [undefined] for a missing or null field, a
    [TypeError] for a value without a [trim] method. *)
Definition opt_trim (v : jsval) : query (option string) :=
  match v with
  | JUndefined | JNull => ret None
  | JStr s => ret (Some (trim s))
  | _ => throw TypeError
  end.

(** [req.user.avatar ? `https://cdn.discordapp.com/avatars/${id}/${avatar}.png` : null] *)
Definition avatar_url (u : user) : option string :=
  match user_avatar u with
  | Some a =>
      if String.eqb a "" then None
      else Some ("https://cdn.discordapp.com/avatars/" ++ user_id u ++ "/" ++ a ++ ".png")%string
  | None => None
  end.

(** ** The routes *)

(** GET / *)
Definition get_feed (u : option user) (qlimit qoffset : number) : route :=
  ensure_auth u (fun u => handle (catch_500 "Failed to fetch feeds" (
    let limit := number_or qlimit 5 in
    let offset := number_or qoffset 0 in
    rows <- feed_page (user_id u) limit offset ;;
    ret (Reply 200 (BPosts rows))))).

(** POST / *)
Definition create_post (u : option user) (fid : uuid) (text : jsval) : route :=
  ensure_auth u (fun u => handle (catch_500 "Failed to create feed" (
    t <- opt_trim text ;;
    match t with
    | Some content =>
        if String.eqb content "" then ret (Reply 400 (BError "Text required"))
        else r <- insert_feed fid (user_username u) (avatar_url u) content Status ;;
             ret (Reply 201 (BPost r))
    | None => ret (Reply 400 (BError "Text required"))
    end))).

(** POST /:id/like *)
Definition toggle_like (sch : schema) (u : option user) (fid lid : uuid) : route :=
  ensure_auth u (fun u => handle (catch_500 "Like failed" (
    existing <- select_like_ids fid (user_id u) ;;
    liked <- (if decide (0 < length existing)
              then delete_likes fid (user_id u) ;;; ret false
              else insert_like sch lid fid (user_id u) ;;; ret true) ;;
    total <- count_likes fid ;;
    ret (Reply 200 (BLike liked total))))).

(** POST /:id/comment: the validation runs before the [try]. *)
(** The body of the async handler of POST /:id/comment: the check of
    [text?.trim()] comes before the [try]. *)
Definition comment_handler (sch : schema) (u : user) (fid cid : uuid) (text : jsval) : query (response body) :=
    t <- opt_trim text ;;
    match t with
    | Some content =>
        if String.eqb content "" then ret (Reply 400 (BError "Comment text required"))
        else catch_500 "Comment failed" (
               c <- insert_comment sch cid fid (user_id u) (user_username u) content ;;
               ret (Reply 200 (BComment c)))
    | None => ret (Reply 400 (BError "Comment text required"))
    end.

Definition add_comment (sch : schema) (u : option user) (fid cid : uuid) (text : jsval) : route :=
  ensure_auth u (fun u => handle (comment_handler sch u fid cid text)).

(** ** Requests and runs *)

(** A request to one of the routes, with the values [crypto.randomUUID()]
    returns during it; [Tick] is time passing between requests. *)
Inductive request :=
| GetFeed (u : option user) (limit offset : number)
| CreatePost (u : option user) (fid : uuid) (text : jsval)
| ToggleLike (u : option user) (fid lid : uuid)
| AddComment (u : option user) (fid cid : uuid) (text : jsval)
| Tick.

Definition serve (sch : schema) (r : request) : route :=
  match r with
  | GetFeed u l o => get_feed u l o
  | CreatePost u fid t => create_post u fid t
  | ToggleLike u fid lid => toggle_like sch u fid lid
  | AddComment u fid cid t => add_comment sch u fid cid t
  | Tick => fun d => (Reply 200 (BError ""), tick d)
  end.

Definition empty_db : db := mk_db [] [] [] 0.

(** The databases a sequence of requests produces from the empty one. *)
Inductive reachable (sch : schema) : db -> Prop :=
| reach_init : reachable sch empty_db
| reach_step r d : reachable sch d -> reachable sch (snd (serve sch r d)).

(** ** What each route does to the tables *)

Lemma handle_catch_state msg (m : query (response body)) d :
  snd (handle (catch_500 msg m) d) = snd (m d).
Proof. unfold handle, catch_500, try_catch. by destruct (m d) as [[e|r] d']. Qed.

Lemma get_feed_state u l o d : snd (get_feed u l o d) = d.
Proof.
  destruct u as [u|]; [|done]. unfold get_feed, ensure_auth.
  rewrite handle_catch_state. unfold bind, feed_page.
  by destruct (pg_bigint (number_or l 5)), (pg_bigint (number_or o 0)).
Qed.

Lemma toggle_like_state sch u fid lid d :
  snd (toggle_like sch (Some u) fid lid d) =
  match likes_of_pair fid (user_id u) d with
  | [] => snd (insert_like sch lid fid (user_id u) d)
  | _ => snd (delete_likes fid (user_id u) d)
  end.
Proof.
  unfold toggle_like, ensure_auth. rewrite handle_catch_state.
  unfold bind, select_like_ids, likes_of_pair. simpl. rewrite length_map.
  destruct (filter _ _) as [|x l]; simpl; [|done].
  by destruct (insert_like sch lid fid (user_id u) d) as [[e|[]] d'].
Qed.

Lemma create_post_state u fid text d :
  snd (create_post (Some u) fid text d) =
  match text with
  | JStr s => if String.eqb (trim s) "" then d
              else snd (insert_feed fid (user_username u) (avatar_url u) (trim s) Status d)
  | _ => d
  end.
Proof.
  unfold create_post, ensure_auth. rewrite handle_catch_state.
  destruct text; try done. unfold bind, opt_trim, ret. simpl.
  destruct (String.eqb (trim s) ""); [done|].
  by destruct (insert_feed _ _ _ _ _ d) as [[e|r] d'].
Qed.

Lemma add_comment_state sch u fid cid text d :
  snd (add_comment sch (Some u) fid cid text d) =
  match text with
  | JStr s => if String.eqb (trim s) "" then d
              else snd (insert_comment sch cid fid (user_id u) (user_username u) (trim s) d)
  | _ => d
  end.
Proof.
  unfold add_comment, comment_handler, ensure_auth, handle.
  destruct text; try done. unfold bind, opt_trim, ret. simpl.
  destruct (String.eqb (trim s) ""); [done|].
  unfold catch_500, try_catch.
  by destruct (insert_comment _ _ _ _ _ _ d) as [[e|r] d'].
Qed.

Lemma ensure_auth_none k d : ensure_auth None k d = (Reply 401 (BError "Unauthorized"), d).
Proof. reflexivity. Qed.

Lemma filter_nil_not_Exists {A} (P : A -> Prop) `{forall x, Decision (P x)} (l : list A) :
  filter P l = [] -> ~ Exists P l.
Proof.
  intros Hnil Hex. apply Exists_exists in Hex as (x & Hin & Hx).
  assert (x ∈ filter P l) as Hf by (apply list_elem_of_filter; auto).
  rewrite Hnil in Hf. by apply not_elem_of_nil in Hf.
Qed.

Lemma toggle_like_wf sch u fid lid d :
  db_wf sch d -> db_wf sch (snd (toggle_like sch u fid lid d)).
Proof.
  destruct u as [u|]; [|done]. intros [Hk Hu]. rewrite toggle_like_state.
  destruct (likes_of_pair fid (user_id u) d) eqn:E.
  - split; [by apply insert_like_keys_ok|].
    apply insert_like_unique; [done|]. right.
    unfold likes_of_pair in E. by apply filter_nil_not_Exists in E.
  - split; [by apply delete_likes_keys_ok | by apply delete_likes_unique].
Qed.

(** Inserting a post or a comment leaves the likes alone. *)
Lemma insert_feed_likes fid a av c ty d :
  feed_likes (snd (insert_feed fid a av c ty d)) = feed_likes d.
Proof. unfold insert_feed. by case_decide. Qed.

Lemma insert_comment_likes sch cid fid uid a c d :
  feed_likes (snd (insert_comment sch cid fid uid a c d)) = feed_likes d.
Proof. unfold insert_comment. by destruct (comment_insert_ok _ _ _). Qed.

(** Every request keeps the invariant. *)
Lemma serve_wf sch r d : db_wf sch d -> db_wf sch (snd (serve sch r d)).
Proof.
  intros Hwf. destruct r as [u l o|[u|] fid t|u fid lid|[u|] fid cid t|]; cbn [serve];
    try exact Hwf.
  - by rewrite get_feed_state.
  - rewrite create_post_state. destruct Hwf as [Hk Hu].
    destruct t; try done. destruct (String.eqb _ _); [done|]. split.
    + by apply insert_feed_keys_ok.
    + unfold likes_unique, like_pairs in *. by rewrite insert_feed_likes.
  - by apply toggle_like_wf.
  - rewrite add_comment_state. destruct Hwf as [Hk Hu].
    destruct t; try done. destruct (String.eqb _ _); [done|]. split.
    + by apply insert_comment_keys_ok.
    + unfold likes_unique, like_pairs in *. by rewrite insert_comment_likes.
  - destruct Hwf as [Hk Hu]. split; [by apply tick_keys_ok | done].
Qed.

(** ** The feed as the spec describes it *)

(** A post as the spec sees it: the numbers of likes and comments that
    reference it, and whether the requesting user is among the likers. *)
Record post_view := mk_view {
  pv_post : feed_row;
  pv_likes : nat;
  pv_comments : nat;
  pv_liked : bool
}.

Definition spec_view (uid : user_key) (d : db) (f : feed_row) : post_view :=
  mk_view f (length (likes_of (feed_id f) d)) (length (comments_of (feed_id f) d))
          (bool_decide ((feed_id f, uid) ∈ like_pairs d)).

(** The feed newest first, as the spec describes it. *)
Definition spec_feed (uid : user_key) (d : db) : list post_view :=
  map (spec_view uid d) (sort_by created_desc (feeds d)).

(** What the client keeps of a row ([liked: post.liked || false]). *)
Definition view_of (p : post_json) : post_view :=
  mk_view (pj_post p) (pj_likes p) (pj_comments p) (default false (pj_liked p)).

Lemma like_pair_in_likes_of fid uid d :
  (fid, uid) ∈ like_pairs d <-> Exists (fun l => like_user_id l = uid) (likes_of fid d).
Proof. rewrite like_pair_in_iff. unfold likes_of. by rewrite Exists_filter_iff. Qed.

(** The joined rows of a post of the table: the post, each of its
    likes or [NULL], each of its comments or [NULL]. *)
Lemma elem_of_group sch f d r :
  keys_ok sch d -> f ∈ feeds d ->
  r ∈ group_of f d <->
    r.1.1 = f /\ r.1.2 ∈ opt_rows (likes_of (feed_id f) d) /\ r.2 ∈ opt_rows (comments_of (feed_id f) d).
Proof.
  intros [Hf _ _ _ _] Hin. destruct r as [[f' ol] oc]. unfold group_of, feed_join, likes_of, comments_of.
  rewrite list_elem_of_filter, elem_of_left_join. cbn. rewrite elem_of_left_join. split.
  - intros (Hid & [Hf' Hol] & Hoc). by assert (f' = f) as -> by (by apply (NoDup_map_same_key feed_id (feeds d))).
  - by intros (-> & Hol & Hoc).
Qed.

(** The likes its joined rows carry are the likes of the post. *)
Lemma group_likes sch f d l :
  keys_ok sch d -> f ∈ feeds d ->
  l ∈ omap (fun r : join_row => r.1.2) (group_of f d) <-> l ∈ likes_of (feed_id f) d.
Proof.
  intros Hk Hin. rewrite list_elem_of_omap. split.
  - intros ([[f' ol] oc] & Hr & Hl). cbn in Hl. subst ol.
    apply (elem_of_group sch f d) in Hr as (_ & Hol & _); [|done..]. by apply elem_of_opt_rows_Some.
  - intros Hl. destruct (opt_rows_inhabited (comments_of (feed_id f) d)) as [oc Hoc].
    exists (f, Some l, oc). split; [|done]. apply (elem_of_group sch); [done..|].
    split_and!; [done|by apply elem_of_opt_rows_Some|done].
Qed.

Lemma group_comments sch f d c :
  keys_ok sch d -> f ∈ feeds d ->
  c ∈ omap (fun r : join_row => r.2) (group_of f d) <-> c ∈ comments_of (feed_id f) d.
Proof.
  intros Hk Hin. rewrite list_elem_of_omap. split.
  - intros ([[f' ol] oc] & Hr & Hc). cbn in Hc. subst oc.
    apply (elem_of_group sch f d) in Hr as (_ & _ & Hoc); [|done..]. by apply elem_of_opt_rows_Some.
  - intros Hc. destruct (opt_rows_inhabited (likes_of (feed_id f) d)) as [ol Hol].
    exists (f, ol, Some c). split; [|done]. apply (elem_of_group sch); [done..|].
    split_and!; [done|done|by apply elem_of_opt_rows_Some].
Qed.

(** [COUNT(DISTINCT l.id)] and [COUNT(DISTINCT c.id)] count the post's
    likes and comments once each, however many rows the join repeats
    them on. *)
Lemma aggregate_likes sch uid d f :
  keys_ok sch d -> f ∈ feeds d -> pj_likes (aggregate uid d f) = length (likes_of (feed_id f) d).
Proof.
  intros Hk Hin. apply length_remove_dups_map.
  - unfold likes_of. apply NoDup_map_filter, (likes_pk _ _ Hk).
  - intros l. by apply (group_likes sch).
Qed.

Lemma aggregate_comments sch uid d f :
  keys_ok sch d -> f ∈ feeds d -> pj_comments (aggregate uid d f) = length (comments_of (feed_id f) d).
Proof.
  intros Hk Hin. apply length_remove_dups_map.
  - unfold comments_of. apply NoDup_map_filter, (comments_pk _ _ Hk).
  - intros c. by apply (group_comments sch).
Qed.

(** One GROUP BY row against the spec's view of the post. *)
Lemma aggregate_view sch uid d f :
  keys_ok sch d -> f ∈ feeds d -> view_of (aggregate uid d f) = spec_view uid d f.
Proof.
  intros Hk Hin. unfold view_of, spec_view.
  rewrite (aggregate_likes sch), (aggregate_comments sch) by done. f_equal.
  pose proof (like_pair_in_likes_of (feed_id f) uid d) as Hiff.
  pose proof (fun l => group_likes sch f d l Hk Hin) as Hls. cbn.
  destruct (omap (fun r : join_row => r.1.2) (group_of f d)) as [|l0 ls]; cbn.
  - symmetry. apply bool_decide_eq_false. rewrite Hiff. intros (l & Hl & _)%Exists_exists.
    apply Hls in Hl. by apply not_elem_of_nil in Hl.
  - apply bool_decide_ext. rewrite Hiff, !Exists_exists.
    split; intros (l & Hl & Hu); exists l; split; try done; by apply Hls.
Qed.

(** ** The like toggle, branch by branch *)

Definition del_db (fid : uuid) (uid : user_key) (d : db) : db :=
  snd (delete_likes fid uid d).

Definition ins_db (lid fid : uuid) (uid : user_key) (d : db) : db :=
  mk_db (feeds d) (feed_likes d ++ [mk_like lid fid uid]) (feed_comments d) (now d).

Lemma toggle_like_unlike sch u fid lid d :
  likes_of_pair fid (user_id u) d <> [] ->
  toggle_like sch (Some u) fid lid d =
  (Reply 200 (BLike false (length (likes_of fid (del_db fid (user_id u) d)))),
   del_db fid (user_id u) d).
Proof.
  unfold toggle_like, ensure_auth, handle, catch_500, try_catch, bind,
    select_like_ids, likes_of_pair. simpl. rewrite length_map.
  by destruct (filter _ _).
Qed.

Lemma toggle_like_like sch u fid lid d :
  likes_of_pair fid (user_id u) d = [] ->
  like_insert_ok sch (mk_like lid fid (user_id u)) d = None ->
  toggle_like sch (Some u) fid lid d =
  (Reply 200 (BLike true (length (likes_of fid (ins_db lid fid (user_id u) d)))),
   ins_db lid fid (user_id u) d).
Proof.
  intros Hnil Hok.
  unfold toggle_like, ensure_auth, handle, catch_500, try_catch, bind,
    select_like_ids, insert_like. unfold likes_of_pair in Hnil. simpl.
  rewrite Hnil. simpl. by rewrite Hok.
Qed.

Lemma toggle_like_insert_fails sch u fid lid d e :
  likes_of_pair fid (user_id u) d = [] ->
  like_insert_ok sch (mk_like lid fid (user_id u)) d = Some e ->
  toggle_like sch (Some u) fid lid d = (Reply 500 (BError "Like failed"), d).
Proof.
  intros Hnil Hok.
  unfold toggle_like, ensure_auth, handle, catch_500, try_catch, bind,
    select_like_ids, insert_like. unfold likes_of_pair in Hnil. simpl.
  rewrite Hnil. simpl. by rewrite Hok.
Qed.

Lemma pair_in_iff_likes_of_pair fid uid d :
  (fid, uid) ∈ like_pairs d <-> likes_of_pair fid uid d <> [].
Proof.
  rewrite like_pair_in_iff. unfold likes_of_pair. split.
  - intros Hex Hnil. by apply filter_nil_not_Exists in Hnil.
  - intros Hne. destruct (filter _ _) as [|l ls] eqn:E; [done|].
    apply Exists_exists. exists l.
    assert (l ∈ filter (like_matches fid uid) (feed_likes d)) as Hin
      by (rewrite E; left).
    by apply list_elem_of_filter in Hin as [? ?].
Qed.

Lemma like_pairs_del fid uid d :
  like_pairs (del_db fid uid d) = filter (fun p => p <> (fid, uid)) (like_pairs d).
Proof.
  unfold like_pairs, del_db, delete_likes. simpl.
  apply map_filter_comm. intros [i f' u']. unfold like_matches. simpl.
  split; intros H1 H2; apply H1; [injection H2 as ? ?; by split | destruct H2; by subst].
Qed.

Lemma like_pairs_ins lid fid uid d :
  like_pairs (ins_db lid fid uid d) = like_pairs d ++ [(fid, uid)].
Proof. unfold like_pairs, ins_db. simpl. by rewrite map_app. Qed.

(** ** The like toggle against its abstract specification *)

(** The spec's toggle on the like relation: remove the pair if present,
    add it otherwise. *)
Definition toggle_pair (p : uuid * user_key) (ps : list (uuid * user_key)) :=
  if decide (p ∈ ps) then filter (fun q => q <> p) ps else ps ++ [p].

Lemma toggle_pair_twice p ps :
  NoDup ps -> toggle_pair p (toggle_pair p ps) ≡ₚ ps.
Proof.
  intros Hnd. destruct (decide (p ∈ ps)) as [Hin|Hin].
  - assert (toggle_pair p ps = filter (fun q => q <> p) ps) as ->
      by (unfold toggle_pair; by rewrite decide_True).
    unfold toggle_pair. rewrite decide_False.
    + rewrite <- (filter_not_neq_single ps p Hnd Hin). apply filter_app_complement.
    + intros Hf. apply list_elem_of_filter in Hf as [? _]. done.
  - assert (toggle_pair p ps = ps ++ [p]) as ->
      by (unfold toggle_pair; by rewrite decide_False).
    unfold toggle_pair. rewrite decide_True by (apply elem_of_app; right; left).
    rewrite filter_app, filter_all_id.
    + rewrite filter_cons, decide_False, filter_nil, app_nil_r; [done|].
      intros Hne. by apply Hne.
    + apply Forall_forall. intros q Hq ->. contradiction.
Qed.

Lemma like_insert_ok_fresh sch lid fid uid d :
  lid ∉ map like_id (feed_likes d) ->
  (fk_enforced sch = true -> feed_exists fid d) ->
  likes_of_pair fid uid d = [] ->
  like_insert_ok sch (mk_like lid fid uid) d = None.
Proof.
  intros Hid Hfk Hnil. unfold like_insert_ok. simpl.
  rewrite decide_False by done.
  unfold likes_of_pair in Hnil. apply filter_nil_not_Exists in Hnil.
  destruct (fk_enforced sch); simpl; [rewrite bool_decide_eq_true_2 by auto; simpl|];
    (destruct (like_pair_unique sch); simpl; [by rewrite bool_decide_eq_false_2|done]).
Qed.

Lemma toggle_like_feeds sch u fid lid d :
  feeds (snd (toggle_like sch (Some u) fid lid d)) = feeds d.
Proof.
  rewrite toggle_like_state. destruct (likes_of_pair _ _ _); [|done].
  unfold insert_like. by destruct (like_insert_ok _ _ _).
Qed.

Lemma toggle_like_ids sch u fid lid d i :
  i ∉ map like_id (feed_likes d) -> i <> lid ->
  i ∉ map like_id (feed_likes (snd (toggle_like sch (Some u) fid lid d))).
Proof.
  intros Hi Hne. rewrite toggle_like_state. destruct (likes_of_pair _ _ _).
  - unfold insert_like. destruct (like_insert_ok _ _ _); simpl; [done|].
    rewrite map_app, elem_of_app. intros [?|?%list_elem_of_singleton]; done.
  - simpl. intros Hin. by apply elem_of_map_filter in Hin.
Qed.

(** [C3] The like toggle, on a post that exists and with a fresh row id:
    the like relation afterwards is the abstract toggle of the pair, and
    the response reports the new state of the pair and the recounted
    number of likes of the post. *)
Theorem toggle_like_spec sch u fid lid d :
  db_wf sch d ->
  (fk_enforced sch = true -> feed_exists fid d) ->
  lid ∉ map like_id (feed_likes d) ->
  like_pairs (snd (toggle_like sch (Some u) fid lid d))
    = toggle_pair (fid, user_id u) (like_pairs d) /\
  fst (toggle_like sch (Some u) fid lid d)
    = Reply 200 (BLike (bool_decide ((fid, user_id u) ∈ like_pairs
                                        (snd (toggle_like sch (Some u) fid lid d))))
                       (length (likes_of fid (snd (toggle_like sch (Some u) fid lid d))))).
Proof.
  intros Hwf Hfk Hid. unfold toggle_pair.
  destruct (decide ((fid, user_id u) ∈ like_pairs d)) as [Hin|Hin].
  - pose proof Hin as Hne. apply pair_in_iff_likes_of_pair in Hne.
    rewrite (toggle_like_unlike sch u fid lid d Hne). simpl.
    rewrite like_pairs_del, bool_decide_eq_false_2; [done|].
    intros Hf. apply list_elem_of_filter in Hf as [? _]. done.
  - assert (likes_of_pair fid (user_id u) d = []) as Hnil.
    { destruct (likes_of_pair _ _ _) eqn:E; [done|].
      exfalso. apply Hin, pair_in_iff_likes_of_pair. by rewrite E. }
    rewrite (toggle_like_like sch u fid lid d Hnil) by (by apply like_insert_ok_fresh). simpl.
    rewrite like_pairs_ins, bool_decide_eq_true_2; [done|].
    apply elem_of_app. right. by left.
Qed.

Lemma length_likes_of fid d :
  length (likes_of fid d) = length (filter (fun p => p.1 = fid) (like_pairs d)).
Proof.
  unfold likes_of, like_pairs.
  rewrite <- (map_filter_comm (fun l => (like_feed_id l, like_user_id l))
                (fun l => like_feed_id l = fid) (fun p => p.1 = fid) (feed_likes d));
    [by rewrite length_map | done].
Qed.

Lemma toggle_like_feed_exists sch u fid lid d f :
  feed_exists f d -> feed_exists f (snd (toggle_like sch (Some u) fid lid d)).
Proof. unfold feed_exists. by rewrite toggle_like_feeds. Qed.

(** [C4] Two toggles of the same pair, each with a fresh row id, return
    the like relation to what it was (as a bag of pairs), and the second
    response reports the original liked state and the original number of
    likes of the post. *)
Theorem toggle_like_twice sch u fid lid1 lid2 d :
  db_wf sch d ->
  (fk_enforced sch = true -> feed_exists fid d) ->
  lid1 ∉ map like_id (feed_likes d) ->
  lid2 ∉ map like_id (feed_likes d) ->
  lid2 <> lid1 ->
  like_pairs (snd (toggle_like sch (Some u) fid lid2
                     (snd (toggle_like sch (Some u) fid lid1 d)))) ≡ₚ like_pairs d /\
  fst (toggle_like sch (Some u) fid lid2 (snd (toggle_like sch (Some u) fid lid1 d)))
    = Reply 200 (BLike (bool_decide ((fid, user_id u) ∈ like_pairs d)) (length (likes_of fid d))).
Proof.
  intros Hwf Hfk Hid1 Hid2 Hne.
  set (d1 := snd (toggle_like sch (Some u) fid lid1 d)).
  assert (db_wf sch d1) as Hwf1 by apply toggle_like_wf, Hwf.
  assert (fk_enforced sch = true -> feed_exists fid d1) as Hfk1
    by (intros E; apply toggle_like_feed_exists, Hfk, E).
  assert (lid2 ∉ map like_id (feed_likes d1)) as Hid21 by (by apply toggle_like_ids).
  destruct (toggle_like_spec sch u fid lid1 d Hwf Hfk Hid1) as [Hp1 _].
  destruct (toggle_like_spec sch u fid lid2 d1 Hwf1 Hfk1 Hid21) as [Hp2 Hr2].
  assert (like_pairs (snd (toggle_like sch (Some u) fid lid2 d1)) ≡ₚ like_pairs d) as Hperm.
  { rewrite Hp2. fold d1 in Hp1. rewrite Hp1. apply toggle_pair_twice, Hwf. }
  split; [done|]. rewrite Hr2. do 2 f_equal.
  - apply bool_decide_ext. by rewrite Hperm.
  - by rewrite !length_likes_of, Hperm.
Qed.

(** ** Pages *)

Lemma get_feed_run u ql qo d n m :
  pg_bigint (number_or ql 5) = Some n -> pg_bigint (number_or qo 0) = Some m ->
  get_feed (Some u) ql qo d = (Reply 200 (BPosts (take n (drop m (listing (user_id u) d)))), d).
Proof.
  intros Hn Hm. unfold get_feed, ensure_auth, handle, catch_500, try_catch, bind, feed_page.
  cbv zeta. by rewrite Hn, Hm.
Qed.

Lemma get_feed_bad_param u ql qo d :
  pg_bigint (number_or ql 5) = None \/ pg_bigint (number_or qo 0) = None ->
  get_feed (Some u) ql qo d = (Reply 500 (BError "Failed to fetch feeds"), d).
Proof.
  intros Hbad. unfold get_feed, ensure_auth, handle, catch_500, try_catch, bind, feed_page.
  cbv zeta. destruct Hbad as [-> | ->]; [done|]. by destruct (pg_bigint (number_or ql 5)).
Qed.

Lemma pg_bigint_number_or z dflt :
  (0 <= z < 2 ^ 63)%Z -> (z = 0 -> dflt = 0)%Z ->
  pg_bigint (number_or (Int z) dflt) = Some (Z.to_nat z).
Proof.
  intros Hz Hd. unfold number_or, truthy_number.
  destruct (Z.eqb_spec z 0) as [->|Hne]; simpl.
  - rewrite Hd by done. done.
  - unfold pg_bigint. destruct (Z.leb_spec 0 z), (Z.ltb_spec z (2 ^ 63)); simpl; lia || done.
Qed.

Lemma listing_posts uid d : map pj_post (listing uid d) = sort_by created_desc (feeds d).
Proof. unfold listing. rewrite map_map. apply map_id. Qed.

Lemma created_desc_total a b : created_desc a b = false -> created_desc b a = true.
Proof. unfold created_desc. rewrite !Nat.leb_le, Nat.leb_gt. lia. Qed.

Lemma listing_sorted uid d :
  Sorted (fun p q => created_desc (pj_post p) (pj_post q) = true) (listing uid d).
Proof.
  unfold listing. apply (Sorted_map (aggregate uid d) (fun p q => created_desc (pj_post p) (pj_post q) = true)).
  apply sort_by_sorted, created_desc_total.
Qed.

Lemma listing_ids_NoDup sch uid d :
  keys_ok sch d -> NoDup (map (fun p => feed_id (pj_post p)) (listing uid d)).
Proof.
  intros [Hf _ _ _ _]. rewrite <- (map_map pj_post feed_id), listing_posts.
  rewrite (sort_by_perm created_desc). done.
Qed.

(** With distinct [created_at], every arrangement Postgres may give the
    GROUP BY rows for [ORDER BY f.created_at DESC] is the listing's: each
    query, whatever its [LIMIT] and [OFFSET], cuts its window from the
    same list. *)
Lemma listing_order_unique uid d o :
  NoDup (map feed_created_at (feeds d)) -> order_by_desc feed_created_at (feeds d) o ->
  map (aggregate uid d) o = listing uid d.
Proof. intros Hnd Ho. unfold listing. f_equal. exact (sort_by_desc_unique feed_created_at _ _ Hnd Ho). Qed.

(** A post inserted at [NOW()], later than every post, heads the
    listing; the other rows keep their order. *)
Lemma listing_ids_newest uid d d' r :
  feeds d' = feeds d ++ [r] -> Forall (fun f => feed_created_at f < feed_created_at r) (feeds d) ->
  map (fun p => feed_id (pj_post p)) (listing uid d') = feed_id r :: map (fun p => feed_id (pj_post p)) (listing uid d).
Proof.
  intros Hd Hnew. rewrite <- !(map_map pj_post feed_id), !listing_posts, Hd.
  unfold created_desc. by rewrite (sort_by_desc_snoc_newest feed_created_at).
Qed.

(** [C10] A page is the window of the listing that starts at the
    offset and holds at most [limit] posts, and a page shorter than the
    limit is the last one: the listing is empty from the end of that page
    on, so every later offset yields an empty page. *)
Theorem get_feed_page_bound u ql qo d n m :
  pg_bigint (number_or ql 5) = Some n -> pg_bigint (number_or qo 0) = Some m ->
  exists page,
    get_feed (Some u) ql qo d = (Reply 200 (BPosts page), d) /\
    page = take n (drop m (listing (user_id u) d)) /\
    length page <= n /\
    (length page < n -> forall m', m + length page <= m' -> drop m' (listing (user_id u) d) = []).
Proof.
  intros Hn Hm. eexists. split; [by apply get_feed_run|]. split; [done|]. split.
  - rewrite length_take. lia.
  - intros Hlt m' Hle. by eapply take_drop_short.
Qed.

(** Against an unchanged feed, the page at offset [m] and the page
    at offset [m + n] (both of size [n]) are consecutive: together they
    are the window of size [2n] at [m], no post appears twice, and the
    newest-first order holds across the boundary. *)
Theorem consecutive_pages sch u d n m :
  keys_ok sch d -> (0 < n)%Z -> (0 <= m)%Z -> (m + n < 2 ^ 63)%Z ->
  exists pg1 pg2,
    get_feed (Some u) (Int n) (Int m) d = (Reply 200 (BPosts pg1), d) /\
    get_feed (Some u) (Int n) (Int (m + n)) d = (Reply 200 (BPosts pg2), d) /\
    pg1 ++ pg2 = take (Z.to_nat n + Z.to_nat n) (drop (Z.to_nat m) (listing (user_id u) d)) /\
    NoDup (map (fun p => feed_id (pj_post p)) (pg1 ++ pg2)) /\
    Sorted (fun p q => created_desc (pj_post p) (pj_post q) = true) (pg1 ++ pg2).
Proof.
  intros Hk Hn Hm Hmn. do 2 eexists. split; [|split].
  - apply get_feed_run; apply pg_bigint_number_or; lia.
  - apply get_feed_run; apply pg_bigint_number_or; lia.
  - rewrite Z2Nat.inj_add, take_drop_pages by lia.
    split; [done|]. split.
    + apply NoDup_map_take_drop. by eapply listing_ids_NoDup.
    + apply Sorted_take_drop, listing_sorted.
Qed.

(** ** Validation and error paths *)

Lemma trim_eqb_empty s : String.eqb (trim s) "" = true <-> all_space s.
Proof. rewrite String.eqb_eq. apply trim_empty_iff. Qed.

Lemma trim_eqb_nonempty s : ~ all_space s -> String.eqb (trim s) "" = false.
Proof. intros Hs. apply not_true_is_false. by rewrite trim_eqb_empty. Qed.

(** Under the foreign keys, a post that does not exist has no likes and
    no comments. *)
Lemma likes_of_missing sch fid d :
  keys_ok sch d -> fk_enforced sch = true -> ~ feed_exists fid d -> likes_of fid d = [].
Proof.
  intros Hk Hfk Hno. apply filter_none. eapply Forall_impl; [by apply (likes_fk _ _ Hk)|].
  intros l He Heq. apply Hno. rewrite <- Heq. exact He.
Qed.

Lemma comments_of_missing sch fid d :
  keys_ok sch d -> fk_enforced sch = true -> ~ feed_exists fid d -> comments_of fid d = [].
Proof.
  intros Hk Hfk Hno. apply filter_none. eapply Forall_impl; [by apply (comments_fk _ _ Hk)|].
  intros c He Heq. apply Hno. rewrite <- Heq. exact He.
Qed.

Lemma likes_of_pair_missing sch fid uid d :
  keys_ok sch d -> fk_enforced sch = true -> ~ feed_exists fid d -> likes_of_pair fid uid d = [].
Proof.
  intros Hk Hfk Hno. apply filter_none. eapply Forall_impl; [by apply (likes_fk _ _ Hk)|].
  intros l He [Heq _]. apply Hno. rewrite <- Heq. exact He.
Qed.

(** A post whose text is missing, null, or white space only is
    rejected with 400 and no row is written. *)
Theorem create_post_blank_rejected u fid text d :
  (text = JUndefined \/ text = JNull \/ exists s, text = JStr s /\ all_space s) ->
  create_post (Some u) fid text d = (Reply 400 (BError "Text required"), d).
Proof.
  intros [->|[->|(s & -> & Hs)]]; try reflexivity.
  unfold create_post, ensure_auth, handle, catch_500, try_catch, bind, opt_trim, ret. simpl.
  apply trim_eqb_empty in Hs. by rewrite Hs.
Qed.

(** A post with text stores one row: the trimmed text, the user's
    name and avatar URL, type [status], the current time; the answer is
    201 with that row, and the new post has no like and no comment. *)
Theorem create_post_ok sch u fid s d :
  keys_ok sch d -> fk_enforced sch = true -> ~ all_space s -> ~ feed_exists fid d ->
  let r := mk_feed fid (user_username u) (avatar_url u) (trim s) Status (now d) in
  let d' := mk_db (feeds d ++ [r]) (feed_likes d) (feed_comments d) (now d) in
  create_post (Some u) fid (JStr s) d = (Reply 201 (BPost r), d') /\
  spec_view (user_id u) d' r = mk_view r 0 0 false.
Proof.
  intros Hk Hfk Hs Hno r d'. split.
  - unfold create_post, ensure_auth, handle, catch_500, try_catch, bind, opt_trim, ret,
      insert_feed. simpl. rewrite trim_eqb_nonempty by done. by rewrite decide_False.
  - unfold spec_view. simpl.
    assert (likes_of fid d' = []) as Hl by exact (likes_of_missing sch fid d Hk Hfk Hno).
    assert (comments_of fid d' = []) as Hc by exact (comments_of_missing sch fid d Hk Hfk Hno).
    rewrite Hl, Hc. f_equal. apply bool_decide_eq_false. rewrite like_pair_in_likes_of, Hl.
    by inversion 1.
Qed.

(** Commenting on a post that does not exist answers 500
    ("Comment failed"), not 404, and writes nothing. *)
Theorem add_comment_unknown_post sch u fid cid s d :
  fk_enforced sch = true -> ~ feed_exists fid d -> ~ all_space s ->
  add_comment sch (Some u) fid cid (JStr s) d = (Reply 500 (BError "Comment failed"), d).
Proof.
  intros Hfk Hno Hs.
  unfold add_comment, comment_handler, ensure_auth, handle, catch_500, try_catch, bind, opt_trim, ret,
    insert_comment, comment_insert_ok. simpl. rewrite trim_eqb_nonempty by done.
  case_decide; [done|]. rewrite Hfk, bool_decide_eq_false_2 by done. done.
Qed.

(** Liking a post that does not exist answers 500 ("Like failed"),
    not 404, and writes nothing. *)
Theorem toggle_like_unknown_post sch u fid lid d :
  keys_ok sch d -> fk_enforced sch = true -> ~ feed_exists fid d ->
  toggle_like sch (Some u) fid lid d = (Reply 500 (BError "Like failed"), d).
Proof.
  intros Hk Hfk Hno.
  assert (likes_of_pair fid (user_id u) d = []) as Hnil by (by eapply likes_of_pair_missing).
  destruct (like_insert_ok sch (mk_like lid fid (user_id u)) d) as [e|] eqn:Hok.
  - by eapply toggle_like_insert_fails.
  - apply like_insert_ok_None in Hok as (_ & Hex & _). by destruct Hno; apply Hex.
Qed.

(** [Number(req.query.limit) || 5]: a limit that is missing, not a
    number, or 0 is served as 5. *)
Theorem get_feed_falsy_limit u ql qo d :
  truthy_number ql = false -> get_feed (Some u) ql qo d = get_feed (Some u) (Int 5) qo d.
Proof. intros H. unfold get_feed, ensure_auth, number_or. by rewrite H. Qed.

(** [C12] A comment text that is neither a string, null nor missing
    makes [text.trim] throw before the [try]: the comment handler's
    promise rejects with the TypeError, so the route never answers (under
    Express 4), while the post route, whose check is inside its [try],
    answers 500. *)
Theorem add_comment_non_string_unanswered sch u fid cid v d :
  (forall s, v <> JStr s) -> v <> JUndefined -> v <> JNull ->
  comment_handler sch u fid cid v d = (inl TypeError, d) /\
  add_comment sch (Some u) fid cid v d = (NoReply, d) /\
  create_post (Some u) fid v d = (Reply 500 (BError "Failed to create feed"), d).
Proof.
  intros Hs Hu Hn.
  destruct v as [| |b|n|s| |]; try congruence; try (by destruct (Hs s)); split_and!; reflexivity.
Qed.

(** Under the primary key, the comment list is a permutation of the
    post's comments. *)
Lemma comment_list_perm sch uid d f :
  keys_ok sch d -> f ∈ feeds d ->
  pj_comment_list (aggregate uid d f) ≡ₚ map comment_json_of (comments_of (feed_id f) d).
Proof.
  intros Hk Hin. cbn. rewrite sort_by_perm. apply remove_dups_perm.
  - apply (NoDup_map_key comment_id cj_id); [done|]. unfold comments_of.
    apply NoDup_map_filter, (comments_pk _ _ Hk).
  - intros x. rewrite !list_elem_of_fmap. by setoid_rewrite (group_comments sch f d _ Hk Hin).
Qed.

Lemma empty_db_wf sch : db_wf sch empty_db.
Proof. split; [constructor; simpl; try constructor; by intros _|constructor]. Qed.

(** [C1] Every database a run of requests produces from the empty one
    satisfies the invariant: the primary and foreign keys hold and no
    (post, user) pair is liked twice. *)
Theorem reachable_wf sch d : reachable sch d -> db_wf sch d.
Proof. induction 1 as [|r d _ IH]; [apply empty_db_wf|by apply serve_wf]. Qed.

(** [C2] The aggregation query refines the spec's view of the feed: for
    every post, newest first, the reported like and comment counts are the
    numbers of rows that reference the post (computed, never cached), and
    the liked flag (after the client's [|| false]) says whether the
    requesting user is among the likers. *)
Theorem listing_refines sch uid d :
  keys_ok sch d -> map view_of (listing uid d) = spec_feed uid d.
Proof.
  intros Hk. unfold listing, spec_feed. rewrite map_map. apply map_ext_in. intros f Hf.
  apply (aggregate_view sch); [done|]. apply list_elem_of_In in Hf. by rewrite sort_by_perm in Hf.
Qed.

(** ** Concrete runs *)

(** A schema with foreign keys and without the pair constraint. *)
Definition sch_fk : schema := mk_schema true false.

Definition alice : user := mk_user "alice" "Alice" (Some "a1").
Definition bob : user := mk_user "bob" "Bob" None.

Definition ex_post (i : nat) : feed_row := mk_feed (N.of_nat i) "Alice" None "gg" Status i.

(** Seven posts created at times 1 to 7; Bob likes post 7, Alice post 6;
    post 7 has a comment with id 200 written at time 8 and a later one
    with id 150 written at time 9. *)
Definition ex_db : db :=
  mk_db (map ex_post [1; 2; 3; 4; 5; 6; 7])
        [mk_like 100%N 7%N "bob"; mk_like 101%N 6%N "alice"]
        [mk_comment 200%N 7%N "bob" "Bob" "first" 8; mk_comment 150%N 7%N "alice" "Alice" "second" 9]
        10.

Lemma ex_db_keys_ok : keys_ok sch_fk ex_db.
Proof. constructor; try intros _; by_eval. Qed.

Lemma ex_db_wf : db_wf sch_fk ex_db.
Proof. split; [exact ex_db_keys_ok | by_eval]. Qed.

Example ex_page_first :
  get_feed (Some alice) NaN NaN ex_db
  = (Reply 200 (BPosts (take 5 (listing "alice" ex_db))), ex_db).
Proof. reflexivity. Qed.

Example ex_pages_ids :
  map (fun p => feed_id (pj_post p)) (take 5 (drop 0 (listing "alice" ex_db))) = [7; 6; 5; 4; 3]%N /\
  map (fun p => feed_id (pj_post p)) (take 5 (drop 5 (listing "alice" ex_db))) = [2; 1]%N.
Proof. split; reflexivity. Qed.

Lemma reachable_wf_witness :
  db_wf sch_fk (snd (serve sch_fk (CreatePost (Some alice) 1%N (JStr "hi")) empty_db)).
Proof. apply reachable_wf. apply reach_step. apply reach_init. Defined.

Lemma listing_refines_witness :
  map view_of (listing "alice" ex_db) = spec_feed "alice" ex_db.
Proof. apply (listing_refines sch_fk). exact ex_db_keys_ok. Defined.

Lemma toggle_like_spec_witness :
  like_pairs (snd (toggle_like sch_fk (Some alice) 7%N 300%N ex_db))
    = toggle_pair (7%N, "alice") (like_pairs ex_db) /\
  fst (toggle_like sch_fk (Some alice) 7%N 300%N ex_db)
    = Reply 200 (BLike (bool_decide ((7%N, user_id alice) ∈ like_pairs
                                        (snd (toggle_like sch_fk (Some alice) 7%N 300%N ex_db))))
                       (length (likes_of 7%N (snd (toggle_like sch_fk (Some alice) 7%N 300%N ex_db))))).
Proof.
  apply toggle_like_spec; [exact ex_db_wf | intros _; by_eval | by_eval].
Defined.

Lemma toggle_like_twice_witness :
  like_pairs (snd (toggle_like sch_fk (Some bob) 7%N 301%N
                     (snd (toggle_like sch_fk (Some bob) 7%N 300%N ex_db)))) ≡ₚ like_pairs ex_db /\
  fst (toggle_like sch_fk (Some bob) 7%N 301%N (snd (toggle_like sch_fk (Some bob) 7%N 300%N ex_db)))
    = Reply 200 (BLike (bool_decide ((7%N, user_id bob) ∈ like_pairs ex_db))
                       (length (likes_of 7%N ex_db))).
Proof.
  apply toggle_like_twice; [exact ex_db_wf | intros _; by_eval | by_eval | by_eval | done].
Defined.

Lemma get_feed_page_bound_witness :
  exists page,
    get_feed (Some alice) (Int 5) (Int 5) ex_db = (Reply 200 (BPosts page), ex_db) /\
    page = take 5 (drop 5 (listing "alice" ex_db)) /\
    length page <= 5 /\
    (length page < 5 -> forall m', 5 + length page <= m' -> drop m' (listing "alice" ex_db) = []).
Proof. apply get_feed_page_bound; reflexivity. Defined.

Lemma consecutive_pages_witness :
  exists pg1 pg2,
    get_feed (Some alice) (Int 5) (Int 0) ex_db = (Reply 200 (BPosts pg1), ex_db) /\
    get_feed (Some alice) (Int 5) (Int (0 + 5)) ex_db = (Reply 200 (BPosts pg2), ex_db) /\
    pg1 ++ pg2 = take (Z.to_nat 5 + Z.to_nat 5) (drop (Z.to_nat 0) (listing "alice" ex_db)) /\
    NoDup (map (fun p => feed_id (pj_post p)) (pg1 ++ pg2)) /\
    Sorted (fun p q => created_desc (pj_post p) (pj_post q) = true) (pg1 ++ pg2).
Proof. apply (consecutive_pages sch_fk); [exact ex_db_keys_ok | lia | lia | lia]. Defined.

Lemma create_post_blank_rejected_witness :
  create_post (Some alice) 8%N (JStr "   ") ex_db = (Reply 400 (BError "Text required"), ex_db).
Proof.
  apply create_post_blank_rejected. right. right. exists "   "%string. split; [done|].
  unfold all_space. by_eval.
Defined.

Lemma create_post_ok_witness :
  let r := mk_feed 8%N (user_username alice) (avatar_url alice) (trim " hello ") Status (now ex_db) in
  let d' := mk_db (feeds ex_db ++ [r]) (feed_likes ex_db) (feed_comments ex_db) (now ex_db) in
  create_post (Some alice) 8%N (JStr " hello ") ex_db = (Reply 201 (BPost r), d') /\
  spec_view (user_id alice) d' r = mk_view r 0 0 false.
Proof.
  apply (create_post_ok sch_fk); [exact ex_db_keys_ok | done | unfold all_space; by_eval | by_eval].
Defined.

Lemma add_comment_unknown_post_witness :
  add_comment sch_fk (Some bob) 42%N 201%N (JStr "nice") ex_db
  = (Reply 500 (BError "Comment failed"), ex_db).
Proof. apply add_comment_unknown_post; [done | by_eval | unfold all_space; by_eval]. Defined.

Lemma toggle_like_unknown_post_witness :
  toggle_like sch_fk (Some bob) 42%N 300%N ex_db = (Reply 500 (BError "Like failed"), ex_db).
Proof. apply toggle_like_unknown_post; [exact ex_db_keys_ok | done | by_eval]. Defined.

Lemma get_feed_falsy_limit_witness :
  get_feed (Some alice) (Int 0) (Int 0) ex_db = get_feed (Some alice) (Int 5) (Int 0) ex_db.
Proof. apply get_feed_falsy_limit. reflexivity. Defined.

Lemma add_comment_non_string_unanswered_witness :
  comment_handler sch_fk bob 7%N 201%N (JNum (Int 5)) ex_db = (inl TypeError, ex_db) /\
  add_comment sch_fk (Some bob) 7%N 201%N (JNum (Int 5)) ex_db = (NoReply, ex_db) /\
  create_post (Some bob) 7%N (JNum (Int 5)) ex_db
  = (Reply 500 (BError "Failed to create feed"), ex_db).
Proof. apply add_comment_non_string_unanswered; intros; discriminate. Defined.

End FeedServer.
