(* ===== verification/FeedRace.v ===== *)
(** * FeedRace: concurrent like toggles, statement by statement

    [toggle_like] of [FeedServer] awaits three queries in turn: the SELECT
    of the user's likes of the post, then the DELETE or the INSERT, then
    the COUNT.  Node runs other requests while one is suspended at an
    [await], so the statements of concurrent requests interleave.  A
    request in flight is a [thread] with a program counter [pc] at one of
    those statements; [step_thread] runs one statement; a pool of threads
    runs under a [schedule] (the list of the threads picked, one statement
    each).

    Theorems: without a unique (feed_id, user_id) constraint, for any
    database, user and post that exists, two toggles of the pair that
    both run their SELECT before either INSERT both insert, leaving two
    like rows for the pair and both reporting it liked, where the same
    two requests run one after the other leave no like; every fresh
    request is answered with a status (200, or the 500 of its [catch])
    once the schedule has run three of its statements, whatever the
    interleaving ([remaining] counts the statements left, and each step
    of a thread lowers it). *)

From Stdlib Require Import ZArith Lia Ascii String Sorted.
From stdpp Require Import base list strings.
From S2P Require Import Prelude Db FeedServer.

Module FeedRace.
Import Db FeedServer.

(** Where a toggle request is suspended. *)
Inductive pc :=
| AtSelect                          (** before [SELECT id FROM feed_likes ...] *)
| AtWrite (existing : list uuid)    (** before the DELETE or the INSERT *)
| AtCount (liked : bool)            (** before [SELECT COUNT( * ) ...] *)
| Finished (r : response body).     (** the response has been sent *)

Record thread := mk_thread {
  th_user : user;
  th_fid : uuid;
  th_lid : uuid;     (** the value [crypto.randomUUID()] returns in this request *)
  th_pc : pc
}.

Definition at_pc (t : thread) (p : pc) : thread :=
  mk_thread (th_user t) (th_fid t) (th_lid t) p.

(** One statement of the handler, with the [catch] of its [try]. *)
Definition step_thread (sch : schema) (t : thread) (d : db) : thread * db :=
  let uid := user_id (th_user t) in
  match th_pc t with
  | AtSelect =>
      match select_like_ids (th_fid t) uid d with
      | (inr ids, d') => (at_pc t (AtWrite ids), d')
      | (inl _, d') => (at_pc t (Finished (Reply 500 (BError "Like failed"))), d')
      end
  | AtWrite ids =>
      if decide (0 < length ids) then
        match delete_likes (th_fid t) uid d with
        | (inr _, d') => (at_pc t (AtCount false), d')
        | (inl _, d') => (at_pc t (Finished (Reply 500 (BError "Like failed"))), d')
        end
      else
        match insert_like sch (th_lid t) (th_fid t) uid d with
        | (inr _, d') => (at_pc t (AtCount true), d')
        | (inl _, d') => (at_pc t (Finished (Reply 500 (BError "Like failed"))), d')
        end
  | AtCount liked =>
      match count_likes (th_fid t) d with
      | (inr n, d') => (at_pc t (Finished (Reply 200 (BLike liked n))), d')
      | (inl _, d') => (at_pc t (Finished (Reply 500 (BError "Like failed"))), d')
      end
  | Finished _ => (t, d)
  end.

(** Run one thread alone for [n] statements. *)
Fixpoint run_thread (sch : schema) (n : nat) (t : thread) (d : db) : thread * db :=
  match n with
  | 0 => (t, d)
  | S n => let (t', d') := step_thread sch t d in run_thread sch n t' d'
  end.

(** The pool of requests in flight. *)
Definition pool := list thread.

(** A schedule names, at each point, the thread that runs its next
    statement; a name that is not in the pool does nothing. *)
Definition schedule := list nat.

Definition step_pool (sch : schema) (i : nat) (ts : pool) (d : db) : pool * db :=
  match ts !! i with
  | Some t => let (t', d') := step_thread sch t d in (<[i := t']> ts, d')
  | None => (ts, d)
  end.

Fixpoint run_pool (sch : schema) (s : schedule) (ts : pool) (d : db) : pool * db :=
  match s with
  | [] => (ts, d)
  | i :: s' => let (ts', d') := step_pool sch i ts d in run_pool sch s' ts' d'
  end.

(** A fresh request. *)
Definition toggle_request (u : user) (fid lid : uuid) : thread := mk_thread u fid lid AtSelect.

(** The response of a thread that has finished. *)
Definition thread_response (t : thread) : option (response body) :=
  match th_pc t with Finished r => Some r | _ => None end.

(** ** Every request is answered *)

(** The statements a thread still has to run. *)
Definition remaining (t : thread) : nat :=
  match th_pc t with AtSelect => 3 | AtWrite _ => 2 | AtCount _ => 1 | Finished _ => 0 end.

Lemma step_thread_remaining sch t d : remaining (fst (step_thread sch t d)) <= pred (remaining t).
Proof.
  unfold step_thread, remaining. destruct (th_pc t) as [|ids|liked|r] eqn:E; simpl; [| | |rewrite E; lia].
  - by destruct (select_like_ids (th_fid t) (user_id (th_user t)) d) as [[]].
  - case_decide; [destruct (delete_likes (th_fid t) (user_id (th_user t)) d) as [[]]
                 |destruct (insert_like sch (th_lid t) (th_fid t) (user_id (th_user t)) d) as [[]]]; simpl; lia.
  - destruct (count_likes (th_fid t) d) as [[]]; simpl; lia.
Qed.

Lemma remaining_le_3 t : remaining t <= 3.
Proof. unfold remaining. destruct (th_pc t); lia. Qed.

(** A thread that has finished has sent a status: the handler's 200 or
    the 500 of its [catch]; [NoReply] is never reached. *)
Definition thread_ok (t : thread) : Prop :=
  match th_pc t with
  | Finished (Reply c _) => c = 200 \/ c = 500
  | Finished NoReply => False
  | _ => True
  end.

Lemma step_thread_ok sch t d : thread_ok t -> thread_ok (fst (step_thread sch t d)).
Proof.
  unfold step_thread, thread_ok. destruct (th_pc t) as [|ids|liked|r] eqn:E; simpl; [| | |by rewrite E].
  - by destruct (select_like_ids (th_fid t) (user_id (th_user t)) d) as [[]]; simpl; auto.
  - case_decide; [destruct (delete_likes (th_fid t) (user_id (th_user t)) d) as [[]]
                 |destruct (insert_like sch (th_lid t) (th_fid t) (user_id (th_user t)) d) as [[]]];
      simpl; auto.
  - destruct (count_likes (th_fid t) d) as [[]]; simpl; auto.
Qed.

Lemma remaining_0_replied t :
  remaining t = 0 -> thread_ok t -> exists c b, thread_response t = Some (Reply c b) /\ (c = 200 \/ c = 500).
Proof.
  unfold remaining, thread_ok, thread_response. destruct (th_pc t) as [| | |[c b|]]; intros H Hok;
    try discriminate; [by exists c, b|done].
Qed.

Lemma step_pool_length sch i ts d : length (fst (step_pool sch i ts d)) = length ts.
Proof.
  unfold step_pool. destruct (ts !! i); [|done].
  destruct (step_thread sch t d). apply length_insert.
Qed.

Lemma run_pool_length sch s ts d : length (fst (run_pool sch s ts d)) = length ts.
Proof.
  revert ts d. induction s as [|j s IH]; intros ts d; [done|]. simpl.
  pose proof (step_pool_length sch j ts d) as H. destruct (step_pool sch j ts d) as [ts' d'].
  rewrite IH. exact H.
Qed.

(** The thread at [i] runs one statement each time the schedule names
    it, and no other thread's step touches it. *)
Lemma run_pool_progress sch s ts d i t :
  ts !! i = Some t -> thread_ok t ->
  exists t', fst (run_pool sch s ts d) !! i = Some t' /\ thread_ok t' /\
             remaining t' <= remaining t - count_occ Nat.eq_dec s i.
Proof.
  revert ts d t. induction s as [|j s IH]; intros ts d t Hi Hok; cbn [run_pool].
  { exists t. split_and!; [done|done|simpl; lia]. }
  unfold step_pool at 1. destruct (decide (j = i)) as [->|Hne].
  - rewrite count_occ_cons_eq by done. rewrite Hi.
    pose proof (step_thread_remaining sch t d) as Hs. pose proof (step_thread_ok sch t d Hok) as Hok1.
    destruct (step_thread sch t d) as [t1 d1] eqn:E. simpl in Hs, Hok1.
    destruct (IH (<[i:=t1]> ts) d1 t1) as (t' & Ht' & Hok' & Hr); [|exact Hok1|].
    { apply list_lookup_insert_eq. by eapply lookup_lt_Some. }
    exists t'. split_and!; [exact Ht'|exact Hok'|]. simpl. rewrite <- Nat.sub_1_r in Hs. lia.
  - rewrite count_occ_cons_neq by done.
    destruct (ts !! j) as [tj|] eqn:Ej.
    + destruct (step_thread sch tj d) as [tj' dj].
      apply (IH (<[j:=tj']> ts) dj t); [|exact Hok]. unfold pool. rewrite list_lookup_insert_ne by done. exact Hi.
    + by apply IH.
Qed.

(** [C6] Whatever the interleaving, a schedule that runs each fresh
    request in flight for three of its statements leaves every one of
    them answered with a status: 200 with its result, or the 500 of its
    [catch]; no like toggle is left hanging by the others, and none ends
    without a response. *)
Theorem toggles_all_answer sch s (ts : pool) d :
  Forall (fun t => th_pc t = AtSelect) ts ->
  (forall i, i < length ts -> 3 <= count_occ Nat.eq_dec s i) ->
  Forall (fun t => exists c b, thread_response t = Some (Reply c b) /\ (c = 200 \/ c = 500))
    (fst (run_pool sch s ts d)).
Proof.
  intros Hfresh Hs. apply Forall_lookup. intros i t' Ht'.
  assert (i < length ts) as Hlt by (rewrite <- (run_pool_length sch s ts d); by eapply lookup_lt_Some).
  destruct (lookup_lt_is_Some_2 ts i Hlt) as [t Hi].
  assert (thread_ok t) as Hok
    by (unfold thread_ok; by rewrite (proj1 (Forall_lookup _ _) Hfresh i t Hi)).
  destruct (run_pool_progress sch s ts d i t Hi Hok) as (t'' & Ht'' & Hok'' & Hr).
  assert (Some t'' = Some t') as [= <-] by (etransitivity; [symmetry; exact Ht''|exact Ht']).
  apply remaining_0_replied; [|exact Hok''].
  pose proof (remaining_le_3 t). specialize (Hs i Hlt). lia.
Qed.

(** ** Without the constraint, two toggles race *)

(** The schema the spec asks for, with the pair constraint. *)
Definition sch_unique : schema := mk_schema true true.

(** Two toggle requests of one user on one post, with the row ids their
    [crypto.randomUUID()] returned. *)
Definition race_pool (u : user) (fid l1 l2 : uuid) : pool :=
  [toggle_request u fid l1; toggle_request u fid l2].

(** Both SELECTs, then both INSERTs, then both COUNTs. *)
Definition race_schedule : schedule := [0; 1; 0; 1; 0; 1].

(** One request after the other. *)
Definition serial_schedule : schedule := [0; 0; 0; 1; 1; 1].

(** Without the pair constraint an INSERT of a fresh row id on a post
    that exists is accepted, whatever likes the pair already has. *)
Lemma like_insert_ok_no_pair sch lid fid uid d :
  like_pair_unique sch = false ->
  lid ∉ map like_id (feed_likes d) ->
  (fk_enforced sch = true -> feed_exists fid d) ->
  like_insert_ok sch (mk_like lid fid uid) d = None.
Proof.
  intros Hpu Hid Hfk. unfold like_insert_ok. simpl. rewrite decide_False by done. rewrite Hpu.
  destruct (fk_enforced sch); simpl; [|done]. by rewrite bool_decide_eq_true_2 by auto.
Qed.

Lemma filter_filter_neg {A} (P : A -> Prop) `{forall x, Decision (P x)} (l : list A) :
  filter P (filter (fun x => ~ P x) l) = [].
Proof.
  induction l as [|x l IH]; [done|]. rewrite filter_cons.
  case_decide; [rewrite filter_cons, decide_False|]; done.
Qed.

(** [C5] Without a unique (feed_id, user_id) constraint the check-then-
    write toggle is not safe.  Take any database, any user who does not
    like a post that exists, and two toggle requests of that user on that
    post with fresh row ids.  Interleaved (both SELECTs before either
    INSERT), both see no like and both insert: the pair has two like rows,
    the at-most-one-like invariant is broken, and both requests report
    the post liked with the count raised by two.  Run one after the
    other, the second request undoes the first and the pair has no like. *)
Theorem toggle_race_duplicates sch u fid l1 l2 d :
  like_pair_unique sch = false ->
  (fk_enforced sch = true -> feed_exists fid d) ->
  likes_of_pair fid (user_id u) d = [] ->
  l1 ∉ map like_id (feed_likes d) -> l2 ∉ map like_id (feed_likes d) -> l1 <> l2 ->
  let (ts, d') := run_pool sch race_schedule (race_pool u fid l1 l2) d in
  likes_of_pair fid (user_id u) d' = [mk_like l1 fid (user_id u); mk_like l2 fid (user_id u)] /\
  ~ likes_unique d' /\
  map thread_response ts = replicate 2 (Some (Reply 200 (BLike true (S (S (length (likes_of fid d))))))) /\
  likes_of_pair fid (user_id u) (snd (run_pool sch serial_schedule (race_pool u fid l1 l2) d)) = [].
Proof.
  intros Hpu Hfk Hnil H1 H2 H12.
  assert (like_insert_ok sch (mk_like l1 fid (user_id u)) d = None) as I1
    by (by apply like_insert_ok_no_pair).
  assert (like_insert_ok sch (mk_like l2 fid (user_id u))
            (mk_db (feeds d) (feed_likes d ++ [mk_like l1 fid (user_id u)]) (feed_comments d) (now d)) = None) as I2.
  { apply like_insert_ok_no_pair; [done| |done]. simpl. rewrite map_app, elem_of_app.
    intros [?|?%list_elem_of_singleton]; done. }
  unfold likes_of_pair in Hnil.
  assert (insert_like sch l1 fid (user_id u) d
          = (inr tt, mk_db (feeds d) (feed_likes d ++ [mk_like l1 fid (user_id u)]) (feed_comments d) (now d))) as E1
    by (unfold insert_like; by rewrite I1).
  assert (insert_like sch l2 fid (user_id u)
            (mk_db (feeds d) (feed_likes d ++ [mk_like l1 fid (user_id u)]) (feed_comments d) (now d))
          = (inr tt, mk_db (feeds d) ((feed_likes d ++ [mk_like l1 fid (user_id u)]) ++ [mk_like l2 fid (user_id u)])
                          (feed_comments d) (now d))) as E2
    by (unfold insert_like; by rewrite I2).
  unfold likes_of_pair, likes_of.
  repeat (cbn; rewrite ?E1, ?E2, ?filter_app, ?Hnil;
          try (rewrite decide_False by (cbn; lia)); try (rewrite decide_True by (cbn; lia));
          try (rewrite decide_True by (unfold like_matches; cbn; auto))).
  split_and!.
  - done.
  - unfold likes_unique, like_pairs. cbn. rewrite !map_app, <- app_assoc. intros Hnd.
    apply NoDup_app in Hnd as (_ & _ & Hnd). cbn in Hnd.
    apply NoDup_cons in Hnd as [Hin _]. apply Hin. by left.
  - rewrite !length_app. cbn. by rewrite Nat.add_1_r, Nat.add_1_r.
  - rewrite decide_False by (unfold like_matches; cbn; tauto). cbn.
    by rewrite app_nil_r, filter_filter_neg.
Qed.

(** With the constraint the second INSERT is rejected and that request
    answers 500: the race becomes a retryable conflict. *)
Example toggle_race_with_constraint :
  map thread_response (fst (run_pool sch_unique race_schedule (race_pool bob 6%N 300%N 301%N) ex_db))
    = [Some (Reply 200 (BLike true 2)); Some (Reply 500 (BError "Like failed"))].
Proof. reflexivity. Qed.

Lemma toggles_all_answer_witness :
  let ts := race_pool bob 6%N 300%N 301%N in
  Forall (fun t => th_pc t = AtSelect) ts /\
  (forall i, i < length ts -> 3 <= count_occ Nat.eq_dec race_schedule i) /\
  Forall (fun t => exists c b, thread_response t = Some (Reply c b) /\ (c = 200 \/ c = 500))
    (fst (run_pool sch_fk race_schedule ts ex_db)).
Proof.
  intros ts.
  assert (Forall (fun t => th_pc t = AtSelect) ts) as H0 by (repeat constructor).
  assert (forall i, i < length ts -> 3 <= count_occ Nat.eq_dec race_schedule i) as H.
  { intros i Hi. simpl in Hi. destruct i as [|[|]]; [vm_compute; lia|vm_compute; lia|lia]. }
  split_and!; [exact H0|exact H|]. by apply toggles_all_answer.
Defined.

Lemma toggle_race_duplicates_witness :
  like_pair_unique sch_fk = false /\ likes_of_pair 6%N "bob" ex_db = [] /\
  likes_of_pair 6%N "bob" (snd (run_pool sch_fk race_schedule (race_pool bob 6%N 300%N 301%N) ex_db))
    = [mk_like 300%N 6%N "bob"; mk_like 301%N 6%N "bob"].
Proof.
  assert (likes_of_pair 6%N "bob" ex_db = []) as Hn by reflexivity.
  split_and!; [reflexivity|exact Hn|].
  pose proof (toggle_race_duplicates sch_fk bob 6%N 300%N 301%N ex_db eq_refl
                (fun _ => ltac:(by_eval)) Hn ltac:(by_eval) ltac:(by_eval) ltac:(done)) as H.
  destruct (run_pool sch_fk race_schedule (race_pool bob 6%N 300%N 301%N) ex_db) as [ts d'].
  exact (proj1 H).
Defined.

End FeedRace.
