(* ===== verification/Pagination.v ===== *)
(** * Pagination: the feed client against the feed server

    The client's requests [GET /feedupdate?limit=5&offset=o] and
    [POST /feedupdate] answered by the server model of [FeedServer]
    ([server_fetch], [server_submit]); [mount] is the first load of
    [Feed.tsx] and [load_pages] presses "Load more" while the button is
    shown, for at most [fuel] rounds.

    Each page is a separate query: its [ORDER BY f.created_at DESC] may
    order posts with equal [created_at] differently from the previous
    page's, so the theorems that chain pages assume distinct timestamps,
    under which every query gets the listing's one order
    ([order_by_desc], [listing_order_unique]).

    Theorems: against an unchanged feed, [length feed / 5] rounds load
    exactly the server's listing, newest first, and hide the button
    (offsets stay far below the 64-bit limit of Postgres); the rows the
    server sends keep the client's comment counts consistent; on any feed
    of five posts or more, posting between two pages makes the next page
    repeat the post that ended the first one; and after a failed first
    load, "Load more" shows the window at offset 5 and none of the five
    posts before it. *)

From Stdlib Require Import ZArith Lia Ascii String Sorted.
From stdpp Require Import base list strings.
From S2P Require Import Prelude Db FeedServer FeedClient.

Module Pagination.
Import Db FeedServer FeedClient.

(** axios resolves on a 2xx answer and rejects otherwise. *)
Definition server_fetch (u : user) (o : nat) (d : db) : fetch_result :=
  match fst (get_feed (Some u) (Int 5) (Int (Z.of_nat o)) d) with
  | Reply c (BPosts rows) => if (200 <=? c) && (c <? 300) then FetchOk rows else FetchErr
  | _ => FetchErr
  end.

Definition server_submit (u : user) (fid : uuid) (t : string) (d : db) : option feed_row * db :=
  match create_post (Some u) fid (JStr t) d with
  | (Reply c (BPost row), d') => (if (200 <=? c) && (c <? 300) then Some row else None, d')
  | (_, d') => (None, d')
  end.

(** The first render's [useEffect]. *)
Definition mount (u : user) (d : db) : feed_state :=
  apply_event (EvMount (server_fetch u 0 d)) initial.

(** A click on "Load more", answered by the server. *)
Definition load_more_server (u : user) (d : db) (s : feed_state) : feed_state :=
  apply_event (EvLoadMore (server_fetch u (offset s + LIMIT) d)) s.

Fixpoint load_pages (fuel : nat) (u : user) (d : db) (s : feed_state) : feed_state :=
  match fuel with
  | 0 => s
  | S f => if hasMore s then load_pages f u d (load_more_server u d s) else s
  end.

(** ** Loading the whole feed *)

Lemma server_fetch_ok u o d :
  (Z.of_nat o < 2 ^ 63)%Z ->
  server_fetch u o d = FetchOk (take 5 (drop o (listing (user_id u) d))).
Proof.
  intros Ho. unfold server_fetch.
  rewrite (get_feed_run u (Int 5) (Int (Z.of_nat o)) d 5 o); [done|done|].
  rewrite pg_bigint_number_or by lia. by rewrite Nat2Z.id.
Qed.

(** What holds after each round: the client shows the listing up to the
    end of the last page, and the button is shown exactly when that page
    was full. *)
Definition loaded (L : list post_json) (s : feed_state) : Prop :=
  statuses s = map normalize (take (offset s + LIMIT) L) /\
  error s = None /\ loading s = false /\
  (hasMore s = false -> length L < offset s + LIMIT) /\
  (hasMore s = true -> offset s + LIMIT <= length L).

(** One answered page moves the client from the window ending at its
    offset to the window ending at the next one. *)
Lemma fetch_page_loaded L o s :
  statuses s = map normalize (take o L) -> error s = None ->
  (hasMore s = true) ->
  loaded L (fetch_posts_done o (FetchOk (take LIMIT (drop o L))) s) /\
  offset (fetch_posts_done o (FetchOk (take LIMIT (drop o L))) s) = o.
Proof.
  intros Hst Her Hh0.
  destruct (fetch_posts_done_ok o (take LIMIT (drop o L)) s) as (Hs & Ho & Hl & He & _ & Hh).
  rewrite length_map in Hh. split; [|exact Ho].
  unfold loaded. rewrite Hs, Ho, Hl, He, Hh, Her, Hh0.
  split; [|split; [done|split; [done|]]].
  - destruct (Nat.eqb_spec o 0) as [->|Hne].
    + by rewrite drop_0.
    + by rewrite Hst, <- map_app, take_take_drop.
  - rewrite length_take, length_drop. unfold LIMIT.
    destruct (Nat.ltb_spec (Nat.min 5 (length L - o)) 5); split; intros; try discriminate; lia.
Qed.

Lemma mount_loaded u d :
  loaded (listing (user_id u) d) (mount u d) /\ offset (mount u d) = 0.
Proof.
  unfold mount, apply_event. rewrite server_fetch_ok by lia.
  apply fetch_page_loaded; done.
Qed.

Lemma load_more_loaded u d s :
  let L := listing (user_id u) d in
  (Z.of_nat (length L) + 10 < 2 ^ 63)%Z ->
  loaded L s -> hasMore s = true ->
  loaded L (load_more_server u d s) /\ offset (load_more_server u d s) = offset s + LIMIT.
Proof.
  intros L Hbig (Hst & Her & Hlo & Hf & Ht) Hh. specialize (Ht Hh).
  unfold load_more_server, apply_event, load_more_start, load_more_done.
  rewrite server_fetch_ok by (unfold LIMIT in *; lia). fold L.
  assert (Nat.eqb (offset s + LIMIT) 0 = false) as H0
    by (apply Nat.eqb_neq; unfold LIMIT; lia).
  unfold fetch_posts_start. rewrite H0.
  apply fetch_page_loaded; done.
Qed.

Lemma load_pages_loaded fuel u d s :
  let L := listing (user_id u) d in
  (Z.of_nat (length L) + 10 < 2 ^ 63)%Z ->
  loaded L s -> length L < offset s + LIMIT * (fuel + 1) ->
  loaded L (load_pages fuel u d s) /\ hasMore (load_pages fuel u d s) = false.
Proof.
  intros L Hbig. revert s. induction fuel as [|f IH]; intros s Hl Hlen; simpl.
  - split; [done|]. destruct (hasMore s) eqn:Hh; [|done].
    destruct Hl as (_ & _ & _ & _ & Ht). specialize (Ht Hh). unfold LIMIT in *. lia.
  - destruct (hasMore s) eqn:Hh; [|done].
    destruct (load_more_loaded u d s Hbig Hl Hh) as [Hl' Ho]. apply IH; [done|].
    rewrite Ho. unfold LIMIT in *. lia.
Qed.

(** [C7] Against an unchanged feed whose posts have distinct
    [created_at], every query's [ORDER BY f.created_at DESC] puts the rows
    in the one order of the listing, and mounting and then pressing "Load
    more" while it is shown, for [length feed / 5] rounds, ends with the
    client showing exactly the server's listing, newest first, with no
    error and no "Load more" button.  The bound on the feed keeps every
    offset a valid Postgres bigint. *)
Theorem load_all_complete u d fuel :
  NoDup (map feed_created_at (feeds d)) ->
  (Z.of_nat (length (feeds d)) + 10 < 2 ^ 63)%Z ->
  length (feeds d) / 5 <= fuel ->
  (forall o, order_by_desc feed_created_at (feeds d) o -> map (aggregate (user_id u) d) o = listing (user_id u) d) /\
  let s := load_pages fuel u d (mount u d) in
  statuses s = map normalize (listing (user_id u) d) /\
  hasMore s = false /\ error s = None /\ render s = mk_view_ui false None
    (Nat.eqb (length (feeds d)) 0) true (map normalize (listing (user_id u) d)) None.
Proof.
  intros Hnd Hbig Hfuel. split; [intros o; by apply listing_order_unique|]. intros s.
  assert (length (listing (user_id u) d) = length (feeds d)) as HL.
  { unfold listing. rewrite length_map. apply Permutation_length, sort_by_perm. }
  destruct (mount_loaded u d) as [Hm Hm0].
  destruct (load_pages_loaded fuel u d (mount u d)) as [(Hst & Her & Hlo & Hf & _) Hh].
  - rewrite HL. lia.
  - exact Hm.
  - rewrite HL, Hm0. unfold LIMIT.
    pose proof (Nat.div_mod_eq (length (feeds d)) 5) as Hdm.
    pose proof (Nat.mod_upper_bound (length (feeds d)) 5) as Hmb. lia.
  - fold s in Hst, Her, Hlo, Hf, Hh. specialize (Hf Hh).
    rewrite take_ge in Hst by lia.
    split; [done|]. split; [done|]. split; [done|].
    unfold render. rewrite Hlo, Her, Hh, Hst, length_map, HL. simpl. by rewrite andb_true_r.
Qed.

Lemma load_all_complete_witness :
  NoDup (map feed_created_at (feeds ex_db)) /\
  let s := load_pages 1 alice ex_db (mount alice ex_db) in
  statuses s = map normalize (listing (user_id alice) ex_db) /\
  hasMore s = false /\ error s = None /\ render s = mk_view_ui false None
    (Nat.eqb (length (feeds ex_db)) 0) true (map normalize (listing (user_id alice) ex_db)) None.
Proof.
  assert (NoDup (map feed_created_at (feeds ex_db))) as Hnd by by_eval.
  split; [exact Hnd|]. apply (load_all_complete alice ex_db 1 Hnd); simpl; lia.
Defined.

(** ** The rows the server sends *)

(** Under the primary keys each row's comment count is the length of its
    comment list: the server's answers meet the client's assumption. *)
Lemma listing_counts_match sch uid d :
  keys_ok sch d -> Forall row_counts_match (listing uid d).
Proof.
  intros Hk. unfold listing. apply Forall_map, Forall_forall. intros f Hf.
  rewrite sort_by_perm in Hf. unfold row_counts_match.
  rewrite (Permutation_length (comment_list_perm sch uid d f Hk Hf)), length_map.
  by apply (aggregate_comments sch).
Qed.

Lemma server_fetch_event_ok sch u o d :
  keys_ok sch d ->
  event_ok (EvMount (server_fetch u o d)) /\ event_ok (EvLoadMore (server_fetch u o d)).
Proof.
  intros Hk. unfold server_fetch.
  destruct (decide (pg_bigint (number_or (Int 5) 5) = None \/
                    pg_bigint (number_or (Int (Z.of_nat o)) 0) = None)) as [Hbad|Hgood].
  - rewrite get_feed_bad_param by done. done.
  - destruct (pg_bigint (number_or (Int 5) 5)) as [n|] eqn:Hn; [|tauto].
    destruct (pg_bigint (number_or (Int (Z.of_nat o)) 0)) as [m|] eqn:Hm; [|tauto].
    rewrite (get_feed_run u _ _ d n m Hn Hm). simpl.
    assert (Forall row_counts_match (take n (drop m (listing (user_id u) d)))) as Hr.
    { apply Forall_take, Forall_drop. by eapply listing_counts_match. }
    by split.
Qed.

(** ** Posting between two pages *)

(** [submitStatus] answered by the server: a text that is not blank and a
    fresh id store the row at [NOW()]. *)
Lemma server_submit_ok u fid t d :
  ~ all_space t -> ~ feed_exists fid d ->
  let r := mk_feed fid (user_username u) (avatar_url u) (trim t) Status (now d) in
  server_submit u fid t d = (Some r, mk_db (feeds d ++ [r]) (feed_likes d) (feed_comments d) (now d)).
Proof.
  intros Ht Hno r. unfold server_submit, create_post, ensure_auth, handle, catch_500, try_catch, bind,
    opt_trim, ret, insert_feed. simpl. rewrite trim_eqb_nonempty by done. by rewrite decide_False.
Qed.

Lemma st_ids_normalize rows : map st_id (map normalize rows) = map (fun p => feed_id (pj_post p)) rows.
Proof. by rewrite map_map. Qed.

(** A list that holds [x] in two of its parts has a duplicate. *)
Lemma not_NoDup_app_both {A} (x : A) (l1 l2 : list A) :
  x ∈ l1 -> x ∈ l2 -> ~ NoDup (l1 ++ l2).
Proof. intros H1 H2 (_ & Hdis & _)%NoDup_app. exact (Hdis x H1 H2). Qed.

(** [C8] Posting between two pages duplicates a post.  Take a feed of
    at least five posts with distinct [created_at], all older than
    [NOW()], a fresh post id and a text that is not blank: the client
    loads the first page, posts, then presses "Load more".  The new post
    is prepended without moving the offset while the server's listing
    has shifted by one, so the next page starts with the post that ended
    the first one: the client's list repeats it, whereas the server's
    listing (whose order every query gets, the timestamps being
    distinct) has no duplicate. *)
Theorem post_then_load_more_duplicates sch u fid t d :
  keys_ok sch d -> NoDup (map feed_created_at (feeds d)) ->
  Forall (fun f => feed_created_at f < now d) (feeds d) ->
  5 <= length (feeds d) -> ~ feed_exists fid d -> ~ all_space t ->
  let L := map (fun p => feed_id (pj_post p)) (listing (user_id u) d) in
  let (r, d') := server_submit u fid t d in
  let s := load_more_server u d' (apply_event (EvSubmit r) (apply_event (EvType t) (mount u d))) in
  map st_id (statuses s) = fid :: take 5 L ++ take 5 (drop 4 L) /\
  ~ NoDup (map st_id (statuses s)) /\
  NoDup (map (fun p => feed_id (pj_post p)) (listing (user_id u) d')) /\
  (forall o, order_by_desc feed_created_at (feeds d') o -> map (aggregate (user_id u) d') o = listing (user_id u) d').
Proof.
  intros Hk Hnd Hnew Hlen Hno Ht L. rewrite server_submit_ok by done.
  set (r := mk_feed fid _ _ _ _ _). set (d' := mk_db _ _ _ _).
  assert (map (fun p => feed_id (pj_post p)) (listing (user_id u) d') = fid :: L) as HL'
    by (by apply (listing_ids_newest (user_id u) d d' r)).
  assert (length L = length (feeds d)) as HlenL.
  { unfold L, listing. rewrite !length_map. apply Permutation_length, sort_by_perm. }
  destruct (mount_loaded u d) as [(Hst & Her & _) Ho].
  assert (map st_id (statuses (load_more_server u d' (apply_event (EvSubmit (Some r))
            (apply_event (EvType t) (mount u d))))) = fid :: take 5 L ++ take 5 (drop 4 L)) as Hids.
  { remember (mount u d) as m eqn:Em. clear Em.
    unfold load_more_server. cbn [apply_event]. unfold submit_status_sends. cbn [text set_text].
    rewrite trim_eqb_nonempty by done. cbn. rewrite Ho. cbn. unfold LIMIT in *.
    rewrite server_fetch_ok by lia. rewrite (proj1 (fetch_posts_done_ok _ _ _)).
    cbn -[listing]. rewrite Ho in Hst. cbn in Hst.
    rewrite Hst. cbn -[listing]. rewrite <- map_app, st_ids_normalize, map_app, <- !firstn_map, <- skipn_map, HL'.
    done. }
  split_and!.
  - exact Hids.
  - rewrite Hids. intros Hd. apply NoDup_cons in Hd as [_ Hd].
    destruct (lookup_lt_is_Some_2 L 4) as [x Hx]; [lia|].
    apply (not_NoDup_app_both x (take 5 L) (take 5 (drop 4 L))); [| |done].
    + apply list_elem_of_lookup_2 with 4. by rewrite lookup_take by lia.
    + apply list_elem_of_lookup_2 with 0. rewrite lookup_take, lookup_drop by lia. done.
  - rewrite HL'. apply NoDup_cons. split; [|by apply (listing_ids_NoDup sch)].
    intros Hin. apply Hno. unfold L in Hin. rewrite <- (map_map pj_post feed_id), listing_posts in Hin.
    unfold feed_exists. by rewrite <- (sort_by_perm created_desc (feeds d)).
  - intros o. apply listing_order_unique. unfold d'. cbn [feeds]. apply NoDup_map_snoc; [done|].
    intros Hin. apply list_elem_of_fmap in Hin as (f & Hf & Hin).
    eapply Forall_forall in Hnew; [|exact Hin]. cbn in Hf. lia.
Qed.


(** ** Concrete runs *)

(** Alice loads the first page, posts, then presses "Load more": post 3,
    which ended the first page, comes again. *)
Lemma post_then_load_more_duplicates_witness :
  NoDup (map feed_created_at (feeds ex_db)) /\
  map st_id (statuses (load_more_server alice (snd (server_submit alice 8%N "new post" ex_db))
     (apply_event (EvSubmit (fst (server_submit alice 8%N "new post" ex_db)))
        (apply_event (EvType "new post") (mount alice ex_db)))))
    = [8; 7; 6; 5; 4; 3; 3; 2; 1]%N.
Proof.
  assert (NoDup (map feed_created_at (feeds ex_db))) as Hc by by_eval.
  split; [exact Hc|].
  pose proof (post_then_load_more_duplicates sch_fk alice 8%N "new post" ex_db ex_db_keys_ok Hc
                ltac:(by_eval) ltac:(simpl; lia) ltac:(by_eval) ltac:(unfold all_space; by_eval)) as H.
  destruct (server_submit alice 8%N "new post" ex_db) as [r d'] eqn:E.
  destruct H as [H _]. cbn [fst snd]. rewrite H. reflexivity.
Defined.


End Pagination.
