(* ===== verification/Games.v ===== *)
(** * Games: the game routes and the game editor

    [src/server/routes/gameRoutes.js] serves the [games] table and the
    [quotes] and [notes] rows that hang off each game; its writes run in
    a BEGIN/COMMIT transaction on one pooled client, with ROLLBACK in
    the [catch].  [src/projectdank/src/components/EditGame.tsx] loads a
    game, lets the admin edit it and PUTs the edited object back.

    The state [gdb] holds the three tables, the [games.id] sequence and
    [NOW()].  A transaction is explicit: [begin_tx] takes a snapshot and
    [rollback] restores the tables from it, but not the sequence: as in
    Postgres, [nextval] is not rolled back.  The schema is not in the
    repository: [gschema] says whether [quotes]/[notes] have a foreign
    key to [games] and which rows the table constraints accept.  Ids
    and route parameters are Postgres [integer]s: a parameter outside
    32 bits is an [InvalidTextRepresentation]/[NumericValueOutOfRange]
    error, and the [serial] sequence is exhausted at 2^31.

    Theorems: every game route keeps the invariant (ids below the
    sequence and unique, quotes and notes of existing games when the
    foreign key is enforced); a failed create or update writes nothing;
    a created game reads back with its quotes and notes; an update
    resets [created_at] and answers an empty 200 for an unknown id; the
    editor's save, untouched, erases the image. *)

From Stdlib Require Import ZArith Lia Ascii String.
From stdpp Require Import base list strings.
From S2P Require Import Prelude.

Module Games.

(** ** Data *)

Record game_row := mk_game {
  game_id : Z;
  game_name : sqltext;
  game_description : sqltext;
  game_status : sqltext;
  game_fun_fact : sqltext;
  game_image : sqltext;
  game_created_at : nat
}.

(** A row of [quotes] or of [notes]: [(game_id, content)]. *)
Record text_row := mk_text {
  text_game_id : Z;
  text_content : sqltext
}.

Inductive text_table := Quotes | Notes.

#[export] Instance text_table_eq_dec : EqDecision text_table.
Proof. solve_decision. Defined.

Record gdb := mk_gdb {
  games : list game_row;
  quotes : list text_row;
  notes : list text_row;
  game_seq : Z;     (** the next value of the [games.id] sequence *)
  gnow : nat        (** [NOW()] *)
}.

Record gschema := mk_gschema {
  texts_fk : bool;                   (** [quotes/notes.game_id REFERENCES games] *)
  game_check : game_row -> bool;     (** NOT NULL and CHECK constraints of [games] *)
  text_check : sqltext -> bool       (** those of [quotes.content] and [notes.content] *)
}.

Inductive gexn :=
| CheckViolation
| ForeignKeyViolation
| InvalidTextRepresentation     (** [WHERE id = $1] with a non-integer text *)
| NumericValueOutOfRange        (** [WHERE id = $1] with an integer outside [integer] *)
| SequenceExhausted             (** [nextval] past the [integer] maximum of a serial *)
| TypeError.                    (** [quotes.map is not a function] *)

Definition gquery (A : Type) := act gdb gexn A.

(** [req.body.quotes] / [req.body.notes] as the code tests them: falsy
    ([undefined], [null], [""], [0], ...), an array of texts, a non-empty
    string, an object that is not an array (whose [length] key, if any,
    compares greater than 0 or not: [len_pos]), or another truthy value,
    which has no [length] (a number, [true]). *)
Inductive list_field :=
| LFalsy
| LArray (xs : list sqltext)
| LString (s : string)
| LObject (len_pos : bool)
| LOther.

Record game_body := mk_game_body {
  gb_name : sqltext;
  gb_description : sqltext;
  gb_status : sqltext;
  gb_fun_fact : sqltext;
  gb_image_url : sqltext;
  gb_quotes : list_field;
  gb_notes : list_field
}.

Inductive gbody :=
| GId (id : Z)                                          (** [{ id: gameId }] *)
| GGame (g : game_row)                                  (** [result.rows[0]] *)
| GDetail (g : game_row) (qs ns : list sqltext)         (** [game] with [quotes], [notes] *)
| GGames (gs : list game_row)
| GDeleted (g : game_row)                               (** [{ message, game }] *)
| GMessage (m : string)                                 (** [{ message: m }] *)
| GError (m : string)                                   (** [{ error: m }] *)
| GEmpty.                                               (** [res.json(undefined)] *)

Definition groute := gdb -> response gbody * gdb.

(** ** JavaScript tests on the list fields *)

Definition lf_truthy (l : list_field) : bool :=
  match l with
  | LFalsy => false
  | LArray _ | LObject _ | LOther => true
  | LString s => negb (String.eqb s "")
  end.

(** [l.length > 0] ([undefined > 0] is false). *)
Definition lf_nonempty (l : list_field) : bool :=
  match l with
  | LArray xs => 0 <? length xs
  | LString s => 0 <? String.length s
  | LObject b => b
  | _ => false
  end.

(** [[gameId, ...l]] after [l.map(...)]: only an array has [map]. *)
Definition lf_values (l : list_field) : gquery (list sqltext) :=
  match l with
  | LArray xs => ret xs
  | _ => throw TypeError
  end.

(** ** Single statements *)

Definition param_id (p : param) : gquery Z :=
  match p with
  | PInt z => if int4_range z then ret z else throw NumericValueOutOfRange
  | PText _ => throw InvalidTextRepresentation
  end.

Definition game_exists (gid : Z) (d : gdb) : bool :=
  existsb (fun g => Z.eqb (game_id g) gid) (games d).

Definition table_of (t : text_table) (d : gdb) : list text_row :=
  match t with Quotes => quotes d | Notes => notes d end.

Definition set_table (t : text_table) (rows : list text_row) (d : gdb) : gdb :=
  match t with
  | Quotes => mk_gdb (games d) rows (notes d) (game_seq d) (gnow d)
  | Notes => mk_gdb (games d) (quotes d) rows (game_seq d) (gnow d)
  end.

Definition set_games (gs : list game_row) (d : gdb) : gdb :=
  mk_gdb gs (quotes d) (notes d) (game_seq d) (gnow d).

(** [INSERT INTO games (...) VALUES ($1, ..., $5) RETURNING id]: the id
    is drawn from the [serial] sequence (an [integer] one, which stops at
    [2^31 - 1]) before the row is checked. *)
Definition insert_game (sch : gschema) (name desc st ff img : sqltext) : gquery Z :=
  fun d =>
    let gid := game_seq d in
    let row := mk_game gid name desc st ff img (gnow d) in
    let d1 := mk_gdb (games d) (quotes d) (notes d) (gid + 1)%Z (gnow d) in
    if negb (gid <? 2 ^ 31)%Z then (inl SequenceExhausted, d)
    else if game_check sch row then (inr gid, set_games (games d ++ [row]) d1)
    else (inl CheckViolation, d1).

(** [INSERT INTO quotes (game_id, content) VALUES ($1, $2), ($1, $3), ...]:
    one statement, all rows or none. *)
Definition insert_texts (sch : gschema) (t : text_table) (gid : Z) (xs : list sqltext) :
    gquery unit :=
  fun d =>
    if texts_fk sch && negb (game_exists gid d) then (inl ForeignKeyViolation, d)
    else if forallb (text_check sch) xs
    then (inr tt, set_table t (table_of t d ++ map (mk_text gid) xs) d)
    else (inl CheckViolation, d).

(** [DELETE FROM quotes WHERE game_id = $1] *)
Definition delete_texts (t : text_table) (gid : Z) : gquery unit :=
  fun d => (inr tt, set_table t (filter (fun r => text_game_id r <> gid) (table_of t d)) d).

(** [SELECT content FROM quotes WHERE game_id = $1] *)
Definition select_texts (t : text_table) (gid : Z) : gquery (list sqltext) :=
  fun d => (inr (map text_content (filter (fun r => text_game_id r = gid) (table_of t d))), d).

(** [SELECT * FROM games WHERE id = $1] *)
Definition select_game (gid : Z) : gquery (list game_row) :=
  fun d => (inr (filter (fun g => game_id g = gid) (games d)), d).

(** [UPDATE games SET name = $1, ..., created_at = NOW() WHERE id = $6 RETURNING *] *)
Definition update_game_row (sch : gschema) (gid : Z) (name desc img st ff : sqltext) :
    gquery (list game_row) :=
  fun d =>
    let upd g := mk_game (game_id g) name desc st ff img (gnow d) in
    let gs' := map_where (fun g => bool_decide (game_id g = gid)) upd (games d) in
    let changed := map upd (filter (fun g => game_id g = gid) (games d)) in
    if forallb (game_check sch) changed then (inr changed, set_games gs' d)
    else (inl CheckViolation, d).

(** Some quote or note still refers to the game. *)
Definition referenced (gid : Z) (d : gdb) : bool :=
  existsb (fun r => Z.eqb (text_game_id r) gid) (quotes d ++ notes d).

(** [DELETE FROM games WHERE id = $1 RETURNING *]; the foreign key refuses
    to delete a game that quotes or notes still refer to. *)
Definition delete_game_rows (sch : gschema) (gid : Z) : gquery (list game_row) :=
  fun d =>
    if texts_fk sch && referenced gid d then (inl ForeignKeyViolation, d)
    else (inr (filter (fun g => game_id g = gid) (games d)),
          set_games (filter (fun g => game_id g <> gid) (games d)) d).

(** [ORDER BY created_at DESC] *)
Definition game_created_desc (a b : game_row) : bool :=
  Nat.leb (game_created_at b) (game_created_at a).

(** [BEGIN] takes the snapshot a [ROLLBACK] returns to; the sequence is
    not transactional. *)
Definition begin_tx : gquery gdb := fun d => (inr d, d).

Definition rollback (snap : gdb) : gquery unit :=
  fun d => (inr tt, mk_gdb (games snap) (quotes snap) (notes snap) (game_seq d) (gnow d)).

Definition commit : gquery unit := ret tt.

(** ** The routes *)

(** An exception that escapes the handler leaves the request unanswered. *)
Definition ghandle (m : gquery (response gbody)) : groute :=
  fun d => match m d with
           | (inr r, d') => (r, d')
           | (inl _, d') => (NoReply, d')
           end.

(** [if (l && l.length > 0) { ... INSERT ... }] of the create route. *)
Definition insert_list (sch : gschema) (t : text_table) (gid : Z) (l : list_field) : gquery unit :=
  if lf_truthy l && lf_nonempty l
  then xs <- lf_values l ;; insert_texts sch t gid xs
  else ret tt.

(** [if (l) { DELETE ...; if (l.length > 0) { ... INSERT ... } }] of the
    update route. *)
Definition replace_list (sch : gschema) (t : text_table) (gid : Z) (l : list_field) : gquery unit :=
  if lf_truthy l
  then delete_texts t gid ;;;
       (if lf_nonempty l then xs <- lf_values l ;; insert_texts sch t gid xs else ret tt)
  else ret tt.

(** POST / *)
Definition create_game (sch : gschema) (b : game_body) : groute :=
  ghandle (
    snap <- begin_tx ;;
    try_catch (
      gid <- insert_game sch (gb_name b) (gb_description b) (gb_status b)
                         (gb_fun_fact b) (gb_image_url b) ;;
      insert_list sch Quotes gid (gb_quotes b) ;;;
      insert_list sch Notes gid (gb_notes b) ;;;
      commit ;;;
      ret (Reply 200 (GId gid)))
    (fun _ => rollback snap ;;; ret (Reply 500 (GError "Failed to create game")))).

(** GET /:gameId *)
Definition get_game (p : param) : groute :=
  ghandle (try_catch (
    gid <- param_id p ;;
    rows <- select_game gid ;;
    match rows with
    | [] => ret (Reply 404 (GMessage "Game not found"))
    | g :: _ =>
        qs <- select_texts Quotes gid ;;
        ns <- select_texts Notes gid ;;
        ret (Reply 200 (GDetail g qs ns))
    end)
    (fun _ => ret (Reply 500 (GMessage "Server error")))).

(** PUT /:gameId: [res.json(result.rows[0])] sends an empty body when no
    row was updated. *)
Definition update_game (sch : gschema) (p : param) (b : game_body) : groute :=
  ghandle (
    snap <- begin_tx ;;
    try_catch (
      gid <- param_id p ;;
      rows <- update_game_row sch gid (gb_name b) (gb_description b) (gb_image_url b)
                              (gb_status b) (gb_fun_fact b) ;;
      replace_list sch Quotes gid (gb_quotes b) ;;;
      replace_list sch Notes gid (gb_notes b) ;;;
      commit ;;;
      ret (Reply 200 (match rows with [] => GEmpty | g :: _ => GGame g end)))
    (fun _ => rollback snap ;;; ret (Reply 500 (GMessage "Update failed")))).

(** GET / *)
Definition list_games : groute :=
  ghandle (try_catch (
    fun d => (inr (Reply 200 (GGames (sort_by game_created_desc (games d)))), d))
    (fun _ => ret (Reply 500 (GMessage "Server error")))).

(** DELETE /:gameId *)
Definition delete_game (sch : gschema) (p : param) : groute :=
  ghandle (
    snap <- begin_tx ;;
    try_catch (
      gid <- param_id p ;;
      delete_texts Quotes gid ;;;
      delete_texts Notes gid ;;;
      rows <- delete_game_rows sch gid ;;
      match rows with
      | [] => rollback snap ;;; ret (Reply 404 (GMessage "Game not found"))
      | g :: _ => commit ;;; ret (Reply 200 (GDeleted g))
      end)
    (fun _ => rollback snap ;;; ret (Reply 500 (GMessage "Failed to delete game")))).

(** The router (mounted at [/api/games] without [ensureAuth]). *)
Inductive game_request :=
| ReqCreate (b : game_body)
| ReqGet (p : param)
| ReqUpdate (p : param) (b : game_body)
| ReqList
| ReqDelete (p : param).

Definition game_serve (sch : gschema) (r : game_request) : groute :=
  match r with
  | ReqCreate b => create_game sch b
  | ReqGet p => get_game p
  | ReqUpdate p b => update_game sch p b
  | ReqList => list_games
  | ReqDelete p => delete_game sch p
  end.

(** [NOW()] advances between requests. *)
Definition gtick (d : gdb) : gdb := mk_gdb (games d) (quotes d) (notes d) (game_seq d) (S (gnow d)).

Definition games_empty : gdb := mk_gdb [] [] [] 1 0.

(** ** What a create or an update writes *)

(** The rows [l.map(...)] inserts, or [None] when the code throws a
    [TypeError] on [l.map]. *)
Definition list_inserted (l : list_field) : option (list sqltext) :=
  match l with
  | LArray xs => Some xs
  | LString s => if String.eqb s "" then Some [] else None
  | LObject b => if b then None else Some []
  | LFalsy | LOther => Some []
  end.

(** The row the create route inserts. *)
Definition new_game (gid : Z) (b : game_body) (now : nat) : game_row :=
  mk_game gid (gb_name b) (gb_description b) (gb_status b) (gb_fun_fact b) (gb_image_url b) now.

(** What the update route does to the quotes (or notes) of the game:
    [None] when it throws after the DELETE, [Some None] when it leaves
    them, [Some (Some xs)] when it replaces them by [xs]. *)
Definition replaced (l : list_field) : option (option (list sqltext)) :=
  match l with
  | LFalsy => Some None
  | LArray xs => Some (Some xs)
  | LString s => if String.eqb s "" then Some None else None
  | LObject b => if b then None else Some (Some [])
  | LOther => Some (Some [])
  end.

(** The row the update route writes over game [g]. *)
Definition updated_game (g : game_row) (b : game_body) (now : nat) : game_row :=
  mk_game (game_id g) (gb_name b) (gb_description b) (gb_status b) (gb_fun_fact b) (gb_image_url b) now.

(** ** The invariant *)

(** Game ids come from the sequence: positive, below its next value and
    distinct; when the foreign key is enforced every quote and note
    belongs to a game. *)
Record games_wf (sch : gschema) (d : gdb) : Prop := {
  seq_pos : (1 <= game_seq d <= 2 ^ 31)%Z;
  ids_below : Forall (fun g => 1 <= game_id g < game_seq d)%Z (games d);
  ids_unique : NoDup (map game_id (games d));
  texts_fk_ok : texts_fk sch = true ->
                forall t, Forall (fun r => game_exists (text_game_id r) d = true) (table_of t d)
}.

(** What holds inside a transaction begun at [snap]: the invariant, and
    a sequence that has not moved back (so a ROLLBACK to [snap] is
    well formed). *)
Definition tx_inv (sch : gschema) (snap d : gdb) : Prop :=
  games_wf sch d /\ (game_seq snap <= game_seq d)%Z.

(** A single statement keeps the invariant and never moves the sequence
    back. *)
Definition stmt_ok {A} (sch : gschema) (m : gquery A) : Prop :=
  forall d, games_wf sch d -> games_wf sch (snd (m d)) /\ (game_seq d <= game_seq (snd (m d)))%Z.

Section GamesInvariant.
Context (sch : gschema).

Lemma stmt_ok_tx {A} (m : gquery A) snap : stmt_ok sch m -> preserves (tx_inv sch snap) m.
Proof. intros Hm d [Hwf Hle]. destruct (Hm d Hwf) as [Hwf' Hle']. split; [done|lia]. Qed.

Lemma game_exists_iff gid d : game_exists gid d = true <-> gid ∈ map game_id (games d).
Proof.
  unfold game_exists. rewrite existsb_exists, list_elem_of_In, in_map_iff.
  split; intros (g & H1 & H2); exists g; split; try done; by apply Z.eqb_eq.
Qed.

Lemma texts_fk_mono d d' :
  (forall gid, game_exists gid d = true -> game_exists gid d' = true) ->
  (forall t, table_of t d' = table_of t d) ->
  (texts_fk sch = true ->
   forall t, Forall (fun r => game_exists (text_game_id r) d = true) (table_of t d)) ->
  texts_fk sch = true ->
  forall t, Forall (fun r => game_exists (text_game_id r) d' = true) (table_of t d').
Proof.
  intros Hmono Ht Hfk Hon t. rewrite Ht. eapply Forall_impl; [apply Hfk, Hon|]. auto.
Qed.

Lemma insert_game_ok name desc st ff img : stmt_ok sch (insert_game sch name desc st ff img).
Proof.
  intros d [Hpos Hbelow Huniq Hfk]. unfold insert_game.
  destruct (Z.ltb_spec (game_seq d) (2 ^ 31)) as [Hlt|Hge]; simpl; [|split; [by split|lia]].
  assert (Forall (fun g => 1 <= game_id g < game_seq d + 1)%Z (games d)) as Hbelow'.
  { eapply Forall_impl; [exact Hbelow|]. simpl. lia. }
  destruct (game_check sch _); simpl; (split; [split|]); simpl; try lia; try done.
  - apply Forall_app; split; [done|constructor; simpl; [lia|done]].
  - rewrite map_app. apply NoDup_app. split; [done|]. split; [|apply NoDup_singleton].
    intros x Hx Hin. apply list_elem_of_singleton in Hin as ->.
    apply list_elem_of_fmap in Hx as (g & Hg & Hin).
    rewrite Forall_forall in Hbelow. specialize (Hbelow g Hin). simpl in Hbelow, Hg. lia.
  - apply (texts_fk_mono d); [|by intros []|exact Hfk].
    intros gid. rewrite !game_exists_iff. simpl. rewrite map_app, elem_of_app. by left.
Qed.

Lemma table_of_set_table t t' rows d :
  table_of t' (set_table t rows d) = if decide (t = t') then rows else table_of t' d.
Proof. destruct t, t'; done. Qed.

Lemma game_exists_set_table gid t rows d : game_exists gid (set_table t rows d) = game_exists gid d.
Proof. by destruct t. Qed.

Lemma set_table_wf t rows d :
  games_wf sch d ->
  (texts_fk sch = true -> Forall (fun r => game_exists (text_game_id r) d = true) rows) ->
  games_wf sch (set_table t rows d) /\ game_seq (set_table t rows d) = game_seq d.
Proof.
  intros [Hpos Hbelow Huniq Hfk] Hrows. split; [|by destruct t].
  split; try by destruct t.
  intros Hon t'. eapply Forall_impl; [|intros r Hr; rewrite game_exists_set_table; exact Hr].
  rewrite table_of_set_table. case_decide; [by apply Hrows|by apply Hfk].
Qed.

Lemma wf_id_int4 d g : games_wf sch d -> g ∈ games d -> int4_range (game_id g) = true.
Proof.
  intros [Hpos Hbelow _ _] Hin. apply int4_range_pos. rewrite Forall_forall in Hbelow.
  specialize (Hbelow g Hin). simpl in Hbelow. lia.
Qed.

Lemma stmt_ok_wf {A} (m : gquery A) : stmt_ok sch m -> preserves (games_wf sch) m.
Proof. intros Hm d Hd. apply (Hm d Hd). Qed.

Lemma stmt_ok_read {A} (m : gquery A) : (forall d, snd (m d) = d) -> stmt_ok sch m.
Proof. intros Hm d Hd. rewrite Hm. split; [done|lia]. Qed.

Lemma param_id_ok p : stmt_ok sch (param_id p).
Proof. apply stmt_ok_read. intros d. destruct p as [z|]; [|done]. simpl. by destruct (int4_range z). Qed.

Lemma lf_values_ok l : stmt_ok sch (lf_values l).
Proof. apply stmt_ok_read. by destruct l. Qed.

Lemma select_texts_ok t gid : stmt_ok sch (select_texts t gid).
Proof. by apply stmt_ok_read. Qed.

Lemma select_game_ok gid : stmt_ok sch (select_game gid).
Proof. by apply stmt_ok_read. Qed.

Lemma commit_ok : stmt_ok sch commit.
Proof. by apply stmt_ok_read. Qed.

Lemma insert_texts_ok t gid xs : stmt_ok sch (insert_texts sch t gid xs).
Proof.
  intros d Hwf. unfold insert_texts.
  destruct (texts_fk sch && negb (game_exists gid d)) eqn:Hchk; [simpl; split; [done|lia]|].
  destruct (forallb _ xs); [|simpl; split; [done|lia]]. simpl.
  destruct (set_table_wf t (table_of t d ++ map (mk_text gid) xs) d Hwf) as [Hwf' ->]; [|simpl; split; [done|lia]].
  intros Hon. apply Forall_app. split; [by apply (texts_fk_ok _ _ Hwf)|].
  rewrite Hon in Hchk. apply Forall_map, Forall_forall. intros x _. simpl.
  by destruct (game_exists gid d).
Qed.

Lemma delete_texts_ok t gid : stmt_ok sch (delete_texts t gid).
Proof.
  intros d Hwf. unfold delete_texts. simpl.
  destruct (set_table_wf t (filter (fun r => text_game_id r <> gid) (table_of t d)) d Hwf)
    as [Hwf' ->]; [|simpl; split; [done|lia]].
  intros Hon. apply Forall_filter_of, (texts_fk_ok _ _ Hwf Hon).
Qed.

Lemma update_game_row_ok gid name desc img st ff : stmt_ok sch (update_game_row sch gid name desc img st ff).
Proof.
  intros d [Hpos Hbelow Huniq Hfk]. unfold update_game_row.
  destruct (forallb _ _); simpl; [|split; [by split|lia]].
  match goal with
  | |- context [map_where ?p ?f (games d)] =>
      assert (map game_id (map_where p f (games d)) = map game_id (games d)) as Hids
        by (by apply map_map_where)
  end.
  split; [split|]; simpl; try lia.
  - apply Forall_map_where; [by intros x|exact Hbelow].
  - by rewrite Hids.
  - apply (texts_fk_mono d); [|by intros []|exact Hfk].
    intros x. rewrite !game_exists_iff. simpl. by rewrite Hids.
Qed.

Lemma referenced_false gid d t :
  referenced gid d = false -> Forall (fun r => text_game_id r <> gid) (table_of t d).
Proof.
  unfold referenced. intros Hr. apply Forall_forall. intros r Hin Heq. subst gid.
  assert (existsb (fun r' => Z.eqb (text_game_id r') (text_game_id r)) (quotes d ++ notes d) = true)
    as Hex; [|by rewrite Hr in Hex].
  apply existsb_exists. exists r. split; [|apply Z.eqb_refl].
  apply in_or_app. apply list_elem_of_In in Hin. destruct t; [left|right]; exact Hin.
Qed.

Lemma delete_game_rows_ok gid : stmt_ok sch (delete_game_rows sch gid).
Proof.
  intros d [Hpos Hbelow Huniq Hfk]. unfold delete_game_rows.
  destruct (texts_fk sch && referenced gid d) eqn:Hchk; [simpl; split; [by split|lia]|].
  simpl. split; [split|]; simpl; try lia.
  - by apply Forall_filter_of.
  - by apply NoDup_map_filter.
  - intros Hon t. rewrite Hon in Hchk. simpl in Hchk.
    pose proof (referenced_false gid d t Hchk) as Hne. pose proof (Hfk Hon t) as Hex.
    change (table_of t (set_games (filter (fun g => game_id g <> gid) (games d)) d))
      with (table_of t d).
    rewrite Forall_forall in Hne, Hex |- *. intros r Hr.
    specialize (Hne r Hr). specialize (Hex r Hr). simpl in Hne, Hex.
    apply game_exists_iff in Hex. apply game_exists_iff. simpl.
    apply list_elem_of_fmap in Hex as (g & Hg & Hin). apply list_elem_of_fmap.
    exists g. split; [done|]. apply list_elem_of_filter. split; [congruence|done].
Qed.

(** A ROLLBACK to a well-formed snapshot is well formed, the sequence
    kept. *)
Lemma rollback_ok snap : games_wf sch snap -> preserves (tx_inv sch snap) (rollback snap).
Proof.
  intros [Hpos Hbelow Huniq Hfk] d [[Hpos' _ _ _] Hle]. split; [split|]; simpl; try lia.
  - eapply Forall_impl; [exact Hbelow|]. simpl. lia.
  - exact Huniq.
  - intros Hon [|]; [exact (Hfk Hon Quotes)|exact (Hfk Hon Notes)].
Qed.

(** A transaction body that keeps [tx_inv] for every well-formed
    snapshot keeps the invariant. *)
Lemma tx_wf {B} (k : gdb -> gquery B) :
  (forall snap, games_wf sch snap -> preserves (tx_inv sch snap) (k snap)) ->
  preserves (games_wf sch) (snap <- begin_tx ;; k snap).
Proof.
  intros Hk d Hd. unfold bind, begin_tx. simpl.
  apply (Hk d Hd d). split; [done|lia].
Qed.

Lemma ghandle_wf m d :
  preserves (games_wf sch) m -> games_wf sch d -> games_wf sch (snd (ghandle m d)).
Proof. intros Hm Hd. unfold ghandle. specialize (Hm d Hd). by destruct (m d) as [[e|r] d']. Qed.

End GamesInvariant.

Create HintDb games discriminated.
#[export] Hint Resolve insert_game_ok insert_texts_ok delete_texts_ok update_game_row_ok
  delete_game_rows_ok param_id_ok lf_values_ok select_texts_ok select_game_ok commit_ok : games.

(** Discharge the [tx_inv] obligations of a transaction body, statement
    by statement. *)
Ltac tx_solve :=
  preserves_split;
  try solve [ apply stmt_ok_tx; eauto with games | apply rollback_ok; assumption ].

Section GameRoutes.
Context (sch : gschema).

Lemma create_game_wf b d : games_wf sch d -> games_wf sch (snd (create_game sch b d)).
Proof.
  apply ghandle_wf, tx_wf. intros snap Hsnap. unfold insert_list. tx_solve.
Qed.

Lemma update_game_wf p b d : games_wf sch d -> games_wf sch (snd (update_game sch p b d)).
Proof.
  apply ghandle_wf, tx_wf. intros snap Hsnap. unfold replace_list. tx_solve.
Qed.

Lemma delete_game_wf p d : games_wf sch d -> games_wf sch (snd (delete_game sch p d)).
Proof. apply ghandle_wf, tx_wf. intros snap Hsnap. tx_solve. Qed.

Lemma get_game_wf p d : games_wf sch d -> games_wf sch (snd (get_game p d)).
Proof.
  apply ghandle_wf. preserves_split; apply stmt_ok_wf; eauto with games.
Qed.

Lemma list_games_wf d : games_wf sch d -> games_wf sch (snd (list_games d)).
Proof. done. Qed.

Lemma gtick_wf d : games_wf sch d -> games_wf sch (gtick d).
Proof. intros [Hpos Hbelow Huniq Hfk]. by split. Qed.

End GameRoutes.

(** ** Reads *)

(** The contents of the quotes (or notes) of game [gid], in table order:
    what [SELECT content FROM quotes WHERE game_id = $1] answers. *)
Definition texts_of (t : text_table) (gid : Z) (d : gdb) : list sqltext :=
  map text_content (filter (fun r => text_game_id r = gid) (table_of t d)).

Section Read.
Context (sch : gschema).

Lemma filter_id_single gs g :
  NoDup (map game_id gs) -> g ∈ gs -> filter (fun g' => game_id g' = game_id g) gs = [g].
Proof. apply filter_key_single. Qed.

(** GET of an existing game answers the row with its quotes and notes. *)
Lemma get_game_run g d :
  games_wf sch d -> g ∈ games d ->
  get_game (PInt (game_id g)) d =
    (Reply 200 (GDetail g (texts_of Quotes (game_id g) d) (texts_of Notes (game_id g) d)), d).
Proof.
  intros Hwf Hin. pose proof (wf_id_int4 _ _ _ Hwf Hin) as Hr. destruct Hwf as [_ _ Hnd _].
  unfold get_game, ghandle, try_catch, bind, param_id, ret, select_game, select_texts.
  rewrite Hr. simpl. by rewrite filter_id_single.
Qed.


(** GET / answers every game, newest first. *)
Lemma list_games_run d : list_games d = (Reply 200 (GGames (sort_by game_created_desc (games d))), d).
Proof. reflexivity. Qed.

Lemma game_created_desc_total a b :
  game_created_desc a b = false -> game_created_desc b a = true.
Proof. unfold game_created_desc. intros H%Nat.leb_gt. apply Nat.leb_le. lia. Qed.

Lemma game_created_desc_trans a b c :
  game_created_desc a b = true -> game_created_desc b c = true -> game_created_desc a c = true.
Proof. unfold game_created_desc. rewrite !Nat.leb_le. lia. Qed.
End Read.

(** ** Create *)

Section Create.
Context (sch : gschema).

(** The failure branch of [create_game_atomic]. *)
Local Ltac rolled_back := split; [done|right; repeat split].

Lemma set_table_same t d : set_table t (table_of t d) d = d.
Proof. by destruct t, d. Qed.

(** The [quotes]/[notes] step of the create route, once the game row
    exists. *)
Lemma insert_list_effect t gid l d :
  game_exists gid d = true ->
  insert_list sch t gid l d =
    match list_inserted l with
    | None => (inl TypeError, d)
    | Some xs => if forallb (text_check sch) xs
                 then (inr tt, set_table t (table_of t d ++ map (mk_text gid) xs) d)
                 else (inl CheckViolation, d)
    end.
Proof.
  intros Hex. unfold insert_list.
  destruct l as [|[|x xs]|str|[]|]; simpl; try done; try by rewrite app_nil_r, set_table_same.
  - unfold bind, insert_texts. simpl. by rewrite Hex, andb_false_r.
  - destruct (String.eqb_spec str "") as [->|Hne]; simpl; [by rewrite app_nil_r, set_table_same|].
    by destruct str.
Qed.

Lemma game_exists_last gid g gs q n s now :
  game_id g = gid -> game_exists gid (mk_gdb (gs ++ [g]) q n s now) = true.
Proof.
  intros <-. apply game_exists_iff. simpl. rewrite map_app, elem_of_app. right. by left.
Qed.
(** [C13] The create route is atomic: it either inserts the game row
    with the next sequence value as id together with exactly the quotes
    and notes of the request, and answers [{ id }], or it answers 500
    and the three tables are as before.  Either way the sequence has
    advanced by one, as [nextval] is not rolled back (while it has not
    reached the [integer] maximum). *)
Theorem create_game_atomic b d :
  (game_seq d < 2 ^ 31)%Z ->
  let gid := game_seq d in
  let d' := snd (create_game sch b d) in
  game_seq d' = (gid + 1)%Z /\
  ((fst (create_game sch b d) = Reply 200 (GId gid) /\
    exists qs ns, list_inserted (gb_quotes b) = Some qs /\ list_inserted (gb_notes b) = Some ns /\
      games d' = games d ++ [new_game gid b (gnow d)] /\
      quotes d' = quotes d ++ map (mk_text gid) qs /\ notes d' = notes d ++ map (mk_text gid) ns)
   \/
   (fst (create_game sch b d) = Reply 500 (GError "Failed to create game") /\
    games d' = games d /\ quotes d' = quotes d /\ notes d' = notes d)).
Proof.
  intros Hlt gid d'. subst d'.
  unfold create_game, ghandle, bind, begin_tx, try_catch, insert_game, commit, ret, rollback.
  cbn -[insert_list]. rewrite (proj2 (Z.ltb_lt _ _) Hlt). cbn -[insert_list].
  destruct (game_check sch _) eqn:Hg; cbn -[insert_list]; [|rolled_back].
  rewrite insert_list_effect by (by apply game_exists_last).
  destruct (list_inserted (gb_quotes b)) as [qs|] eqn:Hq; cbn -[insert_list]; [|rolled_back].
  destruct (forallb _ qs) eqn:Hqc; cbn -[insert_list]; [|rolled_back].
  rewrite insert_list_effect by (destruct Quotes; by apply game_exists_last).
  destruct (list_inserted (gb_notes b)) as [ns|] eqn:Hn; simpl; [|rolled_back].
  destruct (forallb _ ns) eqn:Hnc; simpl; [|rolled_back].
  split; [done|]. left. split; [done|]. exists qs, ns. auto.
Qed.

(** The run of a create whose rows all pass the constraints. *)
Lemma create_game_run b d qs ns :
  (game_seq d < 2 ^ 31)%Z ->
  list_inserted (gb_quotes b) = Some qs -> list_inserted (gb_notes b) = Some ns ->
  game_check sch (new_game (game_seq d) b (gnow d)) = true ->
  forallb (text_check sch) qs = true -> forallb (text_check sch) ns = true ->
  create_game sch b d =
    (Reply 200 (GId (game_seq d)),
     mk_gdb (games d ++ [new_game (game_seq d) b (gnow d)])
            (quotes d ++ map (mk_text (game_seq d)) qs)
            (notes d ++ map (mk_text (game_seq d)) ns) (game_seq d + 1) (gnow d)).
Proof.
  intros Hlt Hq Hn Hg Hqc Hnc.
  unfold create_game, ghandle, bind, begin_tx, try_catch, insert_game, commit, ret.
  cbn -[insert_list]. rewrite (proj2 (Z.ltb_lt _ _) Hlt). cbn -[insert_list].
  unfold new_game in Hg. rewrite Hg. cbn -[insert_list].
  rewrite insert_list_effect by (by apply game_exists_last). rewrite Hq, Hqc.
  cbn -[insert_list]. rewrite insert_list_effect by (by apply game_exists_last).
  by rewrite Hn, Hnc.
Qed.

(** Under the invariant no row refers to the next sequence value yet. *)
Lemma fresh_id_games d :
  games_wf sch d -> filter (fun g => game_id g = game_seq d) (games d) = [].
Proof.
  intros [_ Hbelow _ _]. apply filter_none. eapply Forall_impl; [exact Hbelow|]. simpl. lia.
Qed.

Lemma fresh_id_texts t d :
  games_wf sch d -> texts_fk sch = true ->
  filter (fun r => text_game_id r = game_seq d) (table_of t d) = [].
Proof.
  intros Hwf Hon. apply filter_none. eapply Forall_impl; [exact (texts_fk_ok _ _ Hwf Hon t)|].
  intros r Hr Heq. apply game_exists_iff, list_elem_of_fmap in Hr as (g & Hg & Hin).
  destruct Hwf as [_ Hbelow _ _]. rewrite Forall_forall in Hbelow.
  specialize (Hbelow g Hin). simpl in Hbelow. lia.
Qed.

Lemma texts_of_new gid xs :
  map text_content (filter (fun r => text_game_id r = gid) (map (mk_text gid) xs)) = xs.
Proof. rewrite filter_all_id; [by rewrite map_map, map_id|]. by apply Forall_map, Forall_true. Qed.

(** Reading back the id of a game just created: the row as inserted and
    exactly the quotes and notes inserted with it. *)
Lemma get_game_after_create b d qs ns :
  games_wf sch d -> texts_fk sch = true -> (game_seq d < 2 ^ 31)%Z ->
  fst (get_game (PInt (game_seq d))
         (mk_gdb (games d ++ [new_game (game_seq d) b (gnow d)])
                 (quotes d ++ map (mk_text (game_seq d)) qs)
                 (notes d ++ map (mk_text (game_seq d)) ns) (game_seq d + 1) (gnow d)))
    = Reply 200 (GDetail (new_game (game_seq d) b (gnow d)) qs ns).
Proof.
  intros Hwf Hon Hlt.
  assert (filter (fun g => game_id g = game_seq d) (games d ++ [new_game (game_seq d) b (gnow d)])
          = [new_game (game_seq d) b (gnow d)]) as Hsel.
  { rewrite filter_app, fresh_id_games, app_nil_l by done. apply filter_all_id. by constructor. }
  assert (forall t xs, map text_content (filter (fun r => text_game_id r = game_seq d)
                          (table_of t d ++ map (mk_text (game_seq d)) xs)) = xs) as Htx.
  { intros t xs. rewrite filter_app, fresh_id_texts, app_nil_l by done. apply texts_of_new. }
  unfold get_game, ghandle, try_catch, bind, param_id, ret, select_game, select_texts.
  rewrite int4_range_pos by (destruct Hwf as [Hpos _ _ _]; lia). simpl.
  pose proof (Htx Quotes qs) as H1. pose proof (Htx Notes ns) as H2. cbn [table_of] in H1, H2.
  rewrite Hsel. simpl. by rewrite H1, H2.
Qed.

(** [C14] With the foreign key enforced, a game created with rows that
    pass the constraints is answered with its new id, and reading that id
    back gives the game row as sent, stamped with the creation time, with
    exactly the quotes and notes of the request, in the order sent. *)
Theorem create_then_get b d qs ns :
  games_wf sch d -> texts_fk sch = true -> (game_seq d < 2 ^ 31)%Z ->
  list_inserted (gb_quotes b) = Some qs -> list_inserted (gb_notes b) = Some ns ->
  game_check sch (new_game (game_seq d) b (gnow d)) = true ->
  forallb (text_check sch) qs = true -> forallb (text_check sch) ns = true ->
  fst (create_game sch b d) = Reply 200 (GId (game_seq d)) /\
  fst (get_game (PInt (game_seq d)) (snd (create_game sch b d)))
    = Reply 200 (GDetail (new_game (game_seq d) b (gnow d)) qs ns).
Proof.
  intros Hwf Hon Hlt Hq Hn Hg Hqc Hnc. rewrite (create_game_run b d qs ns) by done.
  split; [done|]. by apply get_game_after_create.
Qed.

End Create.

(** ** Update *)

Section Update.
Context (sch : gschema).

Definition without_texts (t : text_table) (gid : Z) (d : gdb) : gdb :=
  set_table t (filter (fun r => text_game_id r <> gid) (table_of t d)) d.

Lemma replace_list_effect t gid l d :
  replace_list sch t gid l d =
    match replaced l with
    | None => (inl TypeError, without_texts t gid d)
    | Some None => (inr tt, d)
    | Some (Some []) => (inr tt, without_texts t gid d)
    | Some (Some xs) => insert_texts sch t gid xs (without_texts t gid d)
    end.
Proof.
  unfold replace_list. destruct l as [|[|x xs]|str|[]|]; try done.
  simpl. destruct (String.eqb_spec str "") as [->|Hne]; [done|]. by destruct str.
Qed.

(** UPDATE on an existing game that passes the constraints. *)
Lemma update_game_row_existing g b d :
  NoDup (map game_id (games d)) -> g ∈ games d ->
  game_check sch (updated_game g b (gnow d)) = true ->
  update_game_row sch (game_id g) (gb_name b) (gb_description b) (gb_image_url b)
    (gb_status b) (gb_fun_fact b) d
  = (inr [updated_game g b (gnow d)],
     set_games (map_where (fun g' => bool_decide (game_id g' = game_id g))
                 (fun g' => updated_game g' b (gnow d)) (games d)) d).
Proof.
  intros Hnd Hin Hc. unfold update_game_row. rewrite filter_id_single by done. simpl.
  unfold updated_game in Hc. by rewrite Hc.
Qed.

Lemma game_exists_map_where p f gid d :
  (forall g, game_id (f g) = game_id g) ->
  game_exists gid (set_games (map_where p f (games d)) d) = game_exists gid d.
Proof.
  intros Hf. apply eq_bool_prop_intro. rewrite !Is_true_true, !game_exists_iff. simpl.
  by rewrite map_map_where.
Qed.

(** The rows a quotes (or notes) step writes are accepted: none, or
    all of them pass the constraints and the foreign key. *)
Definition rows_accepted (gid : Z) (d : gdb) (r : option (list sqltext)) : Prop :=
  forall xs, r = Some xs ->
    xs = [] \/ (texts_fk sch && negb (game_exists gid d) = false /\ forallb (text_check sch) xs = true).

Lemma rows_accepted_existing gid d r :
  game_exists gid d = true ->
  (forall xs, r = Some xs -> forallb (text_check sch) xs = true) -> rows_accepted gid d r.
Proof. intros Hex Hc xs Hr. right. rewrite Hex, andb_false_r. split; [done|by apply Hc]. Qed.

Lemma rows_accepted_set_table gid d r t rows :
  rows_accepted gid d r -> rows_accepted gid (set_table t rows d) r.
Proof. intros H xs Hr. by rewrite game_exists_set_table; apply H. Qed.

(** The quotes (or notes) step of the update route when nothing throws
    and the rows it writes are accepted. *)
Lemma replace_list_run t gid l d r :
  replaced l = Some r -> rows_accepted gid d r ->
  replace_list sch t gid l d =
    (inr tt, match r with
             | None => d
             | Some xs => set_table t (filter (fun r => text_game_id r <> gid) (table_of t d)
                                       ++ map (mk_text gid) xs) d
             end).
Proof.
  intros Hr Hok. rewrite replace_list_effect, Hr.
  destruct r as [[|x xs]|]; [|clear Hr|done].
  - unfold without_texts. by rewrite app_nil_r.
  - destruct (Hok (x :: xs) eq_refl) as [|[Hfk Hc]]; [done|].
    unfold insert_texts, without_texts. rewrite game_exists_set_table, Hfk, Hc. by destruct t.
Qed.
(** The run of an update of an existing game whose rows pass the
    constraints. *)
Lemma update_game_existing_run b g d rq rn :
  games_wf sch d -> g ∈ games d ->
  game_check sch (updated_game g b (gnow d)) = true ->
  replaced (gb_quotes b) = Some rq -> replaced (gb_notes b) = Some rn ->
  (forall xs, rq = Some xs -> forallb (text_check sch) xs = true) ->
  (forall xs, rn = Some xs -> forallb (text_check sch) xs = true) ->
  fst (update_game sch (PInt (game_id g)) b d) = Reply 200 (GGame (updated_game g b (gnow d))) /\
  filter (fun g' => game_id g' = game_id g) (games (snd (update_game sch (PInt (game_id g)) b d)))
    = [updated_game g b (gnow d)].
Proof.
  intros Hwf Hin Hc Hq Hn Hqc Hnc. pose proof (ids_unique _ _ Hwf) as Hnd.
  unfold update_game, ghandle, bind, begin_tx, try_catch, param_id, ret, commit.
  rewrite (wf_id_int4 sch d g Hwf Hin). cbn -[update_game_row replace_list]. rewrite update_game_row_existing by done.
  cbn -[replace_list].
  set (d1 := set_games _ d).
  assert (game_exists (game_id g) d1 = true) as Hex1.
  { unfold d1. rewrite game_exists_map_where by done.
    apply game_exists_iff, list_elem_of_fmap. by exists g. }
  rewrite (replace_list_run Quotes _ _ d1 rq) by (done || by apply rows_accepted_existing).
  cbn -[replace_list].
  rewrite (replace_list_run Notes (game_id g) (gb_notes b) _ rn); [|done|].
  2:{ apply rows_accepted_existing; [destruct rq; exact Hex1|exact Hnc]. }
  assert (filter (fun g' => game_id g' = game_id g) (games d1) = [updated_game g b (gnow d)]) as Hf.
  { unfold d1. simpl. rewrite filter_map_where_in by done. by rewrite filter_id_single. }
  split; [done|].
  by destruct rq as [xs|], rn as [ys|].
Qed.

(** [C15] An update of an existing game whose rows pass the constraints
    answers the updated row and stores it, and that row carries the time
    of the update as [created_at] ([SET ..., created_at = NOW()]): an
    edit moves the game's creation date to now, and so the game to the
    top of the newest-first list. *)
Theorem update_game_restamps b g d rq rn :
  games_wf sch d -> g ∈ games d ->
  game_check sch (updated_game g b (gnow d)) = true ->
  replaced (gb_quotes b) = Some rq -> replaced (gb_notes b) = Some rn ->
  (forall xs, rq = Some xs -> forallb (text_check sch) xs = true) ->
  (forall xs, rn = Some xs -> forallb (text_check sch) xs = true) ->
  fst (update_game sch (PInt (game_id g)) b d) = Reply 200 (GGame (updated_game g b (gnow d))) /\
  filter (fun g' => game_id g' = game_id g) (games (snd (update_game sch (PInt (game_id g)) b d)))
    = [updated_game g b (gnow d)] /\
  game_created_at (updated_game g b (gnow d)) = gnow d.
Proof.
  intros Hwf Hin Hc Hq Hn Hqc Hnc.
  by destruct (update_game_existing_run b g d rq rn Hwf Hin Hc Hq Hn Hqc Hnc).
Qed.

Lemma update_game_row_missing gid name desc img st ff d :
  game_exists gid d = false ->
  update_game_row sch gid name desc img st ff d = (inr [], d).
Proof.
  intros Hno. unfold update_game_row.
  assert (Forall (fun g => game_id g <> gid) (games d)) as Hne.
  { apply Forall_forall. intros g Hin Heq. assert (game_exists gid d = true) as Hex; [|congruence].
    apply game_exists_iff, list_elem_of_fmap. by exists g. }
  rewrite filter_none by done. simpl. rewrite map_where_id.
  - by destruct d.
  - eapply Forall_impl; [exact Hne|]. intros g Hg. by apply bool_decide_eq_false.
Qed.

(** [C16] PUT on a game id that does not exist is not answered 404: when
    the quotes and notes it writes are accepted (none, or the foreign key
    is not enforced) it commits and answers 200 with an empty body
    ([res.json(undefined)]); the games table is unchanged. *)
Theorem update_unknown_game b gid d rq rn :
  int4_range gid = true -> game_exists gid d = false ->
  replaced (gb_quotes b) = Some rq -> replaced (gb_notes b) = Some rn ->
  rows_accepted gid d rq -> rows_accepted gid d rn ->
  fst (update_game sch (PInt gid) b d) = Reply 200 GEmpty /\
  games (snd (update_game sch (PInt gid) b d)) = games d.
Proof.
  intros Hr Hno Hq Hn Hokq Hokn.
  unfold update_game, ghandle, bind, begin_tx, try_catch, param_id, ret, commit.
  rewrite Hr. cbn -[update_game_row replace_list]. rewrite update_game_row_missing by done.
  cbn -[replace_list]. rewrite (replace_list_run Quotes gid _ d rq) by done.
  cbn -[replace_list].
  rewrite (replace_list_run Notes gid (gb_notes b) _ rn Hn).
  2:{ destruct rq; [exact (rows_accepted_set_table _ _ _ Quotes _ Hokn)|exact Hokn]. }
  by destruct rq, rn.
Qed.

End Update.

(** ** Delete *)

Section Delete.
Context (sch : gschema).

Lemma not_referenced_after gid gs q n sq now :
  referenced gid (mk_gdb gs (filter (fun r => text_game_id r <> gid) q)
                            (filter (fun r => text_game_id r <> gid) n) sq now) = false.
Proof.
  apply not_true_iff_false. intros H. apply existsb_exists in H as (r & Hin & Heq).
  apply Z.eqb_eq in Heq. simpl in Hin. apply in_app_or in Hin as [Hin|Hin];
    apply list_elem_of_In, list_elem_of_filter in Hin as [Hne _]; contradiction.
Qed.

Lemma filter_games_missing gid d :
  game_exists gid d = false -> filter (fun g => game_id g = gid) (games d) = [].
Proof.
  intros Hno. apply filter_none, Forall_forall. intros g Hin Heq.
  assert (game_exists gid d = true) as Hex; [|congruence].
  apply game_exists_iff, list_elem_of_fmap. by exists g.
Qed.

(** The run of a DELETE of game [g]: the game, its quotes and its notes
    are gone; the rest stays. *)
Lemma delete_game_run g d :
  games_wf sch d -> g ∈ games d ->
  delete_game sch (PInt (game_id g)) d =
    (Reply 200 (GDeleted g),
     mk_gdb (filter (fun g' => game_id g' <> game_id g) (games d))
            (filter (fun r => text_game_id r <> game_id g) (quotes d))
            (filter (fun r => text_game_id r <> game_id g) (notes d)) (game_seq d) (gnow d)).
Proof.
  intros Hwf Hin. pose proof (wf_id_int4 _ _ _ Hwf Hin) as Hr. destruct Hwf as [_ _ Hnd _].
  unfold delete_game, ghandle, bind, begin_tx, try_catch, param_id, delete_texts,
    delete_game_rows, ret, commit, rollback.
  rewrite Hr. cbn -[referenced]. rewrite not_referenced_after, andb_false_r. cbn.
  by rewrite filter_id_single.
Qed.

(** [C17] DELETE of an unknown game id answers 404 and, the transaction
    rolled back, leaves the database exactly as it was; DELETE of an
    existing game answers it and removes the game with all its quotes and
    notes, and nothing else. *)
Theorem delete_game_spec gid d :
  games_wf sch d -> int4_range gid = true ->
  (game_exists gid d = false ->
   delete_game sch (PInt gid) d = (Reply 404 (GMessage "Game not found"), d)) /\
  (forall g, g ∈ games d -> game_id g = gid ->
   fst (delete_game sch (PInt gid) d) = Reply 200 (GDeleted g) /\
   games (snd (delete_game sch (PInt gid) d)) = filter (fun g => game_id g <> gid) (games d) /\
   forall t, table_of t (snd (delete_game sch (PInt gid) d))
             = filter (fun r => text_game_id r <> gid) (table_of t d)).
Proof.
  intros Hwf Hr. split.
  - intros Hno. unfold delete_game, ghandle, bind, begin_tx, try_catch, param_id, delete_texts,
      delete_game_rows, ret, commit, rollback.
    rewrite Hr. cbn -[referenced]. rewrite not_referenced_after, andb_false_r. cbn.
    rewrite filter_games_missing by done. by destruct d.
  - intros g Hin <-. rewrite delete_game_run by done. by split; [|split; [|intros []]].
Qed.

End Delete.

(** ** Concrete runs *)

(** A schema with the foreign key and [name NOT NULL], and one with
    neither. *)
Definition sch_strict : gschema :=
  mk_gschema true (fun g => match game_name g with Some _ => true | None => false end) (fun _ => true).
Definition sch_open : gschema := mk_gschema false (fun _ => true) (fun _ => true).

Definition phasmo : game_row :=
  mk_game 1 (Some "Phasmophobia") (Some "ghosts") (Some "playing") (Some "EMF 5") (Some "phasmo.png") 3.

Definition ex_gdb : gdb :=
  mk_gdb [phasmo] [mk_text 1 (Some "I'm in the van")] [mk_text 1 (Some "bring salt")] 2 5.

Definition ex_body : game_body :=
  mk_game_body (Some "Lethal Company") None (Some "new") None (Some "lc.png")
    (LArray [Some "quota!"]) (LArray []).

Lemma ex_gdb_wf : games_wf sch_strict ex_gdb.
Proof.
  split; simpl; [lia|repeat constructor; simpl; lia|apply NoDup_singleton|].
  intros _ []; repeat constructor.
Qed.

(** Without the foreign key, quotes written by an update of a game
    id that does not exist yet are adopted by the game that later gets
    that id: the PUT answers an empty 200, and the game created next
    reads back with a quote nobody gave it. *)
Theorem orphan_quotes_adopted :
  let d1 := snd (update_game sch_open (PInt 1)
                   (mk_game_body None None None None None (LArray [Some "boo"]) LFalsy) games_empty) in
  fst (update_game sch_open (PInt 1)
         (mk_game_body None None None None None (LArray [Some "boo"]) LFalsy) games_empty)
    = Reply 200 GEmpty /\
  fst (create_game sch_open ex_body d1) = Reply 200 (GId 1) /\
  fst (get_game (PInt 1) (snd (create_game sch_open ex_body d1)))
    = Reply 200 (GDetail (new_game 1 ex_body 0) [Some "boo"; Some "quota!"] []).
Proof. repeat split; reflexivity. Qed.

Lemma create_game_atomic_witness :
  let gid := game_seq ex_gdb in
  let d' := snd (create_game sch_strict ex_body ex_gdb) in
  game_seq d' = (gid + 1)%Z /\
  ((fst (create_game sch_strict ex_body ex_gdb) = Reply 200 (GId gid) /\
    exists qs ns, list_inserted (gb_quotes ex_body) = Some qs /\
      list_inserted (gb_notes ex_body) = Some ns /\
      games d' = games ex_gdb ++ [new_game gid ex_body (gnow ex_gdb)] /\
      quotes d' = quotes ex_gdb ++ map (mk_text gid) qs /\
      notes d' = notes ex_gdb ++ map (mk_text gid) ns)
   \/
   (fst (create_game sch_strict ex_body ex_gdb) = Reply 500 (GError "Failed to create game") /\
    games d' = games ex_gdb /\ quotes d' = quotes ex_gdb /\ notes d' = notes ex_gdb)).
Proof. apply create_game_atomic. simpl. lia. Defined.

Lemma update_unknown_game_witness :
  let b := mk_game_body (Some "Ghost") None None None None (LArray []) LFalsy in
  fst (update_game sch_strict (PInt 42) b ex_gdb) = Reply 200 GEmpty /\
  games (snd (update_game sch_strict (PInt 42) b ex_gdb)) = games ex_gdb.
Proof.
  apply (update_unknown_game sch_strict _ 42 ex_gdb (Some []) None);
    [reflexivity|reflexivity|reflexivity|reflexivity|intros ? [= <-]; by left|intros ? ?; discriminate].
Defined.

Lemma delete_game_spec_witness :
  (game_exists 42 ex_gdb = false ->
   delete_game sch_strict (PInt 42) ex_gdb = (Reply 404 (GMessage "Game not found"), ex_gdb)) /\
  (forall g, g ∈ games ex_gdb -> game_id g = 42%Z ->
   fst (delete_game sch_strict (PInt 42) ex_gdb) = Reply 200 (GDeleted g) /\
   games (snd (delete_game sch_strict (PInt 42) ex_gdb))
     = filter (fun g => game_id g <> 42%Z) (games ex_gdb) /\
   forall t, table_of t (snd (delete_game sch_strict (PInt 42) ex_gdb))
             = filter (fun r => text_game_id r <> 42%Z) (table_of t ex_gdb)).
Proof. apply delete_game_spec; [exact ex_gdb_wf|reflexivity]. Defined.

Lemma create_then_get_witness :
  fst (create_game sch_strict ex_body ex_gdb) = Reply 200 (GId (game_seq ex_gdb)) /\
  fst (get_game (PInt (game_seq ex_gdb)) (snd (create_game sch_strict ex_body ex_gdb)))
    = Reply 200 (GDetail (new_game (game_seq ex_gdb) ex_body (gnow ex_gdb)) [Some "quota!"] []).
Proof. apply create_then_get; [exact ex_gdb_wf|reflexivity|simpl; lia|reflexivity..]. Defined.

Lemma update_game_restamps_witness :
  let b := mk_game_body (Some "Phasmophobia") None (Some "done") None None LFalsy (LArray []) in
  fst (update_game sch_strict (PInt (game_id phasmo)) b ex_gdb)
    = Reply 200 (GGame (updated_game phasmo b (gnow ex_gdb))) /\
  filter (fun g' => game_id g' = game_id phasmo)
    (games (snd (update_game sch_strict (PInt (game_id phasmo)) b ex_gdb)))
    = [updated_game phasmo b (gnow ex_gdb)] /\
  game_created_at (updated_game phasmo b (gnow ex_gdb)) = gnow ex_gdb.
Proof.
  apply (update_game_restamps sch_strict _ phasmo ex_gdb None (Some []));
    [exact ex_gdb_wf|by left|reflexivity|reflexivity|reflexivity|discriminate|by intros ? [= <-]].
Defined.

End Games.
