(* ===== verification/Crew.v ===== *)
(** * Crew: the crew routes, the crew page and the member editor

    [src/server/routes/crewRoutes.js] serves the [crew_members] table with
    one autocommitted statement per route.  [components/Crew.tsx] lists
    the members with three statistics and deletes members;
    [components/EditCrew.tsx] loads one member into a form, converts the
    numeric inputs with [Number(...)], and PUTs the form back.

    A request body field bound to an [integer] column is a JavaScript
    value ([ival]): [null]/[undefined], an integer, or anything Postgres
    cannot read as an [integer] (a fraction, a non-numeric text, a value
    out of the 32-bit range); the last makes the statement fail.

    Theorems: the average panic level shown is [Math.round] of the mean,
    and [NaN] for an empty crew; an editor loaded from the server and
    saved unchanged writes the member back as it was (but for a NULL
    fun-facts list, which becomes empty); an editor whose load failed
    overwrites the member with blanks and zeros; a delete always answers
    "Deleted". *)

From Stdlib Require Import ZArith Lia Ascii String.
From stdpp Require Import base list strings.
From S2P Require Import Prelude.

Module Crew.

(** ** Data *)

Record crew_row := mk_crew {
  crew_id : Z;
  crew_name : sqltext;
  crew_nickname : sqltext;
  crew_avatar : sqltext;
  crew_role : sqltext;
  crew_panic_level : option Z;
  crew_specialty : sqltext;
  crew_famous_for : sqltext;
  crew_fun_facts : option (list sqltext);
  crew_games_played : option Z;
  crew_deaths : option Z;
  crew_updated_at : option nat
}.

Record cdb := mk_cdb {
  members : list crew_row;
  crew_seq : Z;      (** the next value of the [crew_members.id] sequence *)
  cnow : nat         (** [NOW()] *)
}.

(** The schema is not in the repository: which rows the constraints of
    [crew_members] accept, and the default of [updated_at] on INSERT. *)
Record cschema := mk_cschema {
  crew_check : crew_row -> bool;
  updated_at_default : bool
}.

Inductive cexn := CCheckViolation | CInvalidInput | CSequenceExhausted.

Definition cquery (A : Type) := act cdb cexn A.

(** A JSON value bound to an [integer] column. *)
Inductive ival :=
| INull                (** [null] or [undefined] *)
| IInt (z : Z)         (** a JSON integer, or a text of one *)
| IBad.                (** a fraction, [""], a non-numeric text, ... *)

(** The fields the create route reads ([panicLevel], [famousFor], ...)
    and the ones the update route reads ([panic_level], [famous_for],
    ...), once destructured. *)
Record crew_body := mk_crew_body {
  cb_name : sqltext;
  cb_nickname : sqltext;
  cb_avatar : sqltext;
  cb_role : sqltext;
  cb_panic_level : ival;
  cb_specialty : sqltext;
  cb_famous_for : sqltext;
  cb_fun_facts : option (list sqltext);
  cb_games_played : ival;
  cb_deaths : ival
}.

Inductive cbody :=
| CRows (rs : list crew_row)
| CRow (r : crew_row)
| CEmpty                      (** [res.json(undefined)] *)
| CMessage (m : string).

Definition croute := cdb -> response cbody * cdb.

(** ** Statements *)

(** Postgres reading an [integer] parameter. *)
Definition pg_int (v : ival) : option (option Z) :=
  match v with
  | INull => Some None
  | IInt z => if int4_range z then Some (Some z) else None
  | IBad => None
  end.

Definition crew_param (p : param) : cquery Z :=
  match p with
  | PInt z => if int4_range z then ret z else throw CInvalidInput
  | PText _ => throw CInvalidInput
  end.

(** The row the VALUES or SET list describes, if Postgres can read every
    parameter. *)
Definition row_of_body (id : Z) (b : crew_body) (upd : option nat) : option crew_row :=
  match pg_int (cb_panic_level b), pg_int (cb_games_played b), pg_int (cb_deaths b) with
  | Some p, Some g, Some dth =>
      Some (mk_crew id (cb_name b) (cb_nickname b) (cb_avatar b) (cb_role b) p
              (cb_specialty b) (cb_famous_for b) (cb_fun_facts b) g dth upd)
  | _, _, _ => None
  end.

(** [INSERT INTO crew_members (...) VALUES ($1, ..., $10) RETURNING *] *)
Definition insert_member (sch : cschema) (b : crew_body) : cquery crew_row :=
  fun d =>
    let id := crew_seq d in
    match row_of_body id b (if updated_at_default sch then Some (cnow d) else None) with
    | None => (inl CInvalidInput, d)
    | Some r =>
        if negb (id <? 2 ^ 31)%Z then (inl CSequenceExhausted, d)
        else if crew_check sch r
        then (inr r, mk_cdb (members d ++ [r]) (id + 1) (cnow d))
        else (inl CCheckViolation, mk_cdb (members d) (id + 1) (cnow d))
    end.

(** [UPDATE crew_members SET name=$1, ..., updated_at=NOW() WHERE id=$11 RETURNING *] *)
Definition update_member_rows (sch : cschema) (id : Z) (b : crew_body) : cquery (list crew_row) :=
  fun d =>
    match row_of_body id b (Some (cnow d)) with
    | None => (inl CInvalidInput, d)
    | Some r =>
        let hit := filter (fun m => crew_id m = id) (members d) in
        if forallb (fun _ => crew_check sch r) hit
        then (inr (map (fun _ => r) hit),
              mk_cdb (map_where (fun m => bool_decide (crew_id m = id)) (fun _ => r) (members d))
                     (crew_seq d) (cnow d))
        else (inl CCheckViolation, d)
    end.

(** [DELETE FROM crew_members WHERE id=$1] *)
Definition delete_member_rows (id : Z) : cquery unit :=
  fun d => (inr tt, mk_cdb (filter (fun m => crew_id m <> id) (members d)) (crew_seq d) (cnow d)).

(** [ORDER BY name ASC]: byte order of the names, NULLs last. *)
Fixpoint str_leb (a b : string) : bool :=
  match a, b with
  | EmptyString, _ => true
  | String _ _, EmptyString => false
  | String x a', String y b' =>
      if Nat.ltb (nat_of_ascii x) (nat_of_ascii y) then true
      else if Nat.eqb (nat_of_ascii x) (nat_of_ascii y) then str_leb a' b' else false
  end.

Definition name_asc (a b : crew_row) : bool :=
  match crew_name a, crew_name b with
  | Some x, Some y => str_leb x y
  | Some _, None => true
  | None, Some _ => false
  | None, None => true
  end.

(** ** The routes *)

Definition chandle (m : cquery (response cbody)) : croute :=
  fun d => match m d with
           | (inr r, d') => (r, d')
           | (inl _, d') => (NoReply, d')
           end.

Definition catch_crew (msg : string) (m : cquery (response cbody)) : cquery (response cbody) :=
  try_catch m (fun _ => ret (Reply 500 (CMessage msg))).

(** GET / *)
Definition list_crew : croute :=
  chandle (catch_crew "Server error" (fun d => (inr (Reply 200 (CRows (sort_by name_asc (members d)))), d))).

(** GET /:id *)
Definition get_member (p : param) : croute :=
  chandle (catch_crew "Server error" (
    id <- crew_param p ;;
    fun d => match filter (fun m => crew_id m = id) (members d) with
             | [] => (inr (Reply 404 (CMessage "Member not found")), d)
             | r :: _ => (inr (Reply 200 (CRow r)), d)
             end)).

(** POST / *)
Definition create_member (sch : cschema) (b : crew_body) : croute :=
  chandle (catch_crew "Failed to create member" (
    r <- insert_member sch b ;;
    ret (Reply 200 (CRow r)))).

(** PUT /:id *)
Definition update_member (sch : cschema) (p : param) (b : crew_body) : croute :=
  chandle (catch_crew "Failed to update member" (
    id <- crew_param p ;;
    rows <- update_member_rows sch id b ;;
    ret (Reply 200 (match rows with [] => CEmpty | r :: _ => CRow r end)))).

(** DELETE /:id *)
Definition delete_member (p : param) : croute :=
  chandle (catch_crew "Failed to delete member" (
    id <- crew_param p ;;
    delete_member_rows id ;;;
    ret (Reply 200 (CMessage "Deleted")))).

(** ** The crew page (Crew.tsx) *)

(** [crewData.reduce((sum, m) => sum + m.panic_level, 0)]: a NULL
    column arrives as [null], which [+] reads as 0. *)
Definition panic_sum (ms : list crew_row) : Z :=
  fold_left (fun s m => s + default 0 (crew_panic_level m))%Z ms 0%Z.

(** [Math.round(sum / crewData.length)] on the exact quotient:
    [Math.round(x)] is [floor(x + 1/2)], and [0 / 0] is [NaN]. *)
Definition avg_panic (ms : list crew_row) : number :=
  match ms with
  | [] => NaN
  | _ => let n := Z.of_nat (length ms) in Int ((2 * panic_sum ms + n) / (2 * n))
  end.

Definition total_deaths (ms : list crew_row) : Z :=
  fold_left (fun s m => s + default 0 (crew_deaths m))%Z ms 0%Z.

(** [handleDelete(id)] after the DELETE resolved. *)
Definition crew_after_delete (id : Z) (ms : list crew_row) : list crew_row :=
  filter (fun m => crew_id m <> id) ms.

(** ** The member editor (EditCrew.tsx) *)

(** A numeric field of the form: [null] (loaded from a NULL column) or
    the JavaScript number [Number(value)] gave: an integer, a fraction,
    or [NaN]/[Infinity] (which [JSON.stringify] writes as [null]). *)
Inductive fnum := FNull | FInt (z : Z) | FFrac | FNonFinite.

Record crew_form := mk_crew_form {
  cf_name : sqltext;
  cf_nickname : sqltext;
  cf_avatar : sqltext;
  cf_role : sqltext;
  cf_panic_level : fnum;
  cf_specialty : sqltext;
  cf_famous_for : sqltext;
  cf_fun_facts : list sqltext;
  cf_games_played : fnum;
  cf_deaths : fnum
}.

(** The hooks of a render: [useParams], [useNavigate], [useContext],
    then past the admin check two [useState]s and a [useEffect]. *)
Definition edit_crew_hooks (admin : bool) : list hook :=
  [UseParams; UseNavigate; UseContext] ++ (if admin then [UseState; UseState; UseEffect] else []).

(** The [useState] initial value, kept when the load fails. *)
Definition blank_form : crew_form :=
  mk_crew_form (Some "") (Some "") (Some "") (Some "") (FInt 0) (Some "") (Some "") [] (FInt 0) (FInt 0).

Definition fnum_of (v : option Z) : fnum := match v with Some z => FInt z | None => FNull end.

(** [setForm({ id: res.data.id, ..., fun_facts: res.data.fun_facts || [], ... })] *)
Definition form_of_row (r : crew_row) : crew_form :=
  mk_crew_form (crew_name r) (crew_nickname r) (crew_avatar r) (crew_role r)
    (fnum_of (crew_panic_level r)) (crew_specialty r) (crew_famous_for r)
    (default [] (crew_fun_facts r)) (fnum_of (crew_games_played r)) (fnum_of (crew_deaths r)).

(** [fetchMember]: a failed request leaves the initial form. *)
Definition load_crew_form (r : response cbody) : crew_form :=
  match r with
  | Reply c (CRow row) => if (200 <=? c) && (c <? 300) then form_of_row row else blank_form
  | _ => blank_form
  end.

(** The inputs of the editor, by their [name]. *)
Inductive crew_text_field := CFName | CFNickname | CFAvatar | CFRole | CFSpecialty | CFFamousFor.
Inductive crew_num_field := CFPanicLevel | CFGamesPlayed | CFDeaths.

(** [handleChange] (the numeric inputs go through [Number(value)]),
    [handleArrayChange], [addFunFact] and [removeFunFact]. *)
Inductive crew_edit :=
| CEText (f : crew_text_field) (v : string)
| CENum (f : crew_num_field) (n : fnum)
| CEFact (i : nat) (v : string)
| CEAddFact
| CERemoveFact (i : nat).

Definition set_text_field (f : crew_text_field) (v : string) (c : crew_form) : crew_form :=
  let v := Some v in
  match f with
  | CFName => mk_crew_form v (cf_nickname c) (cf_avatar c) (cf_role c) (cf_panic_level c) (cf_specialty c) (cf_famous_for c) (cf_fun_facts c) (cf_games_played c) (cf_deaths c)
  | CFNickname => mk_crew_form (cf_name c) v (cf_avatar c) (cf_role c) (cf_panic_level c) (cf_specialty c) (cf_famous_for c) (cf_fun_facts c) (cf_games_played c) (cf_deaths c)
  | CFAvatar => mk_crew_form (cf_name c) (cf_nickname c) v (cf_role c) (cf_panic_level c) (cf_specialty c) (cf_famous_for c) (cf_fun_facts c) (cf_games_played c) (cf_deaths c)
  | CFRole => mk_crew_form (cf_name c) (cf_nickname c) (cf_avatar c) v (cf_panic_level c) (cf_specialty c) (cf_famous_for c) (cf_fun_facts c) (cf_games_played c) (cf_deaths c)
  | CFSpecialty => mk_crew_form (cf_name c) (cf_nickname c) (cf_avatar c) (cf_role c) (cf_panic_level c) v (cf_famous_for c) (cf_fun_facts c) (cf_games_played c) (cf_deaths c)
  | CFFamousFor => mk_crew_form (cf_name c) (cf_nickname c) (cf_avatar c) (cf_role c) (cf_panic_level c) (cf_specialty c) v (cf_fun_facts c) (cf_games_played c) (cf_deaths c)
  end.

Definition set_num_field (f : crew_num_field) (n : fnum) (c : crew_form) : crew_form :=
  match f with
  | CFPanicLevel => mk_crew_form (cf_name c) (cf_nickname c) (cf_avatar c) (cf_role c) n (cf_specialty c) (cf_famous_for c) (cf_fun_facts c) (cf_games_played c) (cf_deaths c)
  | CFGamesPlayed => mk_crew_form (cf_name c) (cf_nickname c) (cf_avatar c) (cf_role c) (cf_panic_level c) (cf_specialty c) (cf_famous_for c) (cf_fun_facts c) n (cf_deaths c)
  | CFDeaths => mk_crew_form (cf_name c) (cf_nickname c) (cf_avatar c) (cf_role c) (cf_panic_level c) (cf_specialty c) (cf_famous_for c) (cf_fun_facts c) (cf_games_played c) n
  end.

Definition set_fun_facts (xs : list sqltext) (c : crew_form) : crew_form :=
  mk_crew_form (cf_name c) (cf_nickname c) (cf_avatar c) (cf_role c) (cf_panic_level c)
    (cf_specialty c) (cf_famous_for c) xs (cf_games_played c) (cf_deaths c).

Definition apply_crew_edit (c : crew_form) (e : crew_edit) : crew_form :=
  match e with
  | CEText f v => set_text_field f v c
  | CENum f n => set_num_field f n c
  | CEFact i v => set_fun_facts (js_set None i (Some v) (cf_fun_facts c)) c
  | CEAddFact => set_fun_facts (cf_fun_facts c ++ [Some ""]) c
  | CERemoveFact i => set_fun_facts (remove_index i (cf_fun_facts c)) c
  end.

(** [JSON.stringify] of a numeric field, as the route receives it. *)
Definition ival_of (n : fnum) : ival :=
  match n with
  | FNull | FNonFinite => INull
  | FInt z => IInt z
  | FFrac => IBad
  end.

(** [api.put(`/crew/${id}`, form)] destructured by the update route. *)
Definition crew_form_body (f : crew_form) : crew_body :=
  mk_crew_body (cf_name f) (cf_nickname f) (cf_avatar f) (cf_role f) (ival_of (cf_panic_level f))
    (cf_specialty f) (cf_famous_for f) (Some (cf_fun_facts f)) (ival_of (cf_games_played f))
    (ival_of (cf_deaths f)).

(** The row an unchanged editor writes back over [r]: [fun_facts || []]
    turns a NULL list into an empty one, and [updated_at] is [NOW()]. *)
Definition resaved (r : crew_row) (now : nat) : crew_row :=
  mk_crew (crew_id r) (crew_name r) (crew_nickname r) (crew_avatar r) (crew_role r)
    (crew_panic_level r) (crew_specialty r) (crew_famous_for r)
    (Some (default [] (crew_fun_facts r))) (crew_games_played r) (crew_deaths r) (Some now).

(** The row the initial form writes over member [id]. *)
Definition blank_row (id : Z) (now : nat) : crew_row :=
  mk_crew id (Some "") (Some "") (Some "") (Some "") (Some 0%Z) (Some "") (Some "") (Some [])
    (Some 0%Z) (Some 0%Z) (Some now).

(** The integer columns of a stored row hold 32-bit values. *)
Definition opt_int4 (v : option Z) : bool := match v with Some z => int4_range z | None => true end.

Definition crew_ints_ok (r : crew_row) : bool :=
  opt_int4 (crew_panic_level r) && opt_int4 (crew_games_played r) && opt_int4 (crew_deaths r).

(** ** Statistics *)

Lemma fold_sum_acc (g : crew_row -> Z) ms acc :
  fold_left (fun s m => s + g m)%Z ms acc = (acc + fold_left (fun s m => s + g m)%Z ms 0)%Z.
Proof.
  revert acc. induction ms as [|m ms IH]; intros acc; simpl; [lia|].
  rewrite (IH (acc + g m)%Z), (IH (0 + g m)%Z). lia.
Qed.

Lemma panic_sum_bounds ms :
  Forall (fun m => forall p, crew_panic_level m = Some p -> 0 <= p <= 10)%Z ms ->
  (0 <= panic_sum ms <= 10 * Z.of_nat (length ms))%Z.
Proof.
  unfold panic_sum. induction 1 as [|m ms Hm _ IH]; simpl; [lia|].
  rewrite fold_sum_acc. destruct (crew_panic_level m) as [p|] eqn:Hp; simpl.
  - specialize (Hm p eq_refl). lia.
  - lia.
Qed.

(** [C24] The "Avg Panic Level" of the crew page is the mean panic level
    rounded to the nearest integer, halves up ([Math.round]), counting a
    NULL level as 0; it is [NaN] for an empty crew.  With levels on the
    page's 0..10 scale it is itself between 0 and 10. *)
Theorem avg_panic_spec ms :
  (ms = [] -> avg_panic ms = NaN) /\
  (ms <> [] -> exists a, avg_panic ms = Int a /\
     (2 * panic_sum ms - Z.of_nat (length ms) < 2 * Z.of_nat (length ms) * a
        <= 2 * panic_sum ms + Z.of_nat (length ms))%Z /\
     (Forall (fun m => forall p, crew_panic_level m = Some p -> 0 <= p <= 10)%Z ms ->
      (0 <= a <= 10)%Z)).
Proof.
  split; [by intros ->|]. intros Hne.
  assert (avg_panic ms = Int ((2 * panic_sum ms + Z.of_nat (length ms)) / (2 * Z.of_nat (length ms))))
    as Havg by (by destruct ms).
  assert (0 < Z.of_nat (length ms))%Z as Hn by (destruct ms; [done|simpl; lia]).
  set (n := Z.of_nat (length ms)) in *. set (s := panic_sum ms) in *.
  exists ((2 * s + n) / (2 * n))%Z. split; [exact Havg|].
  pose proof (Z.div_mod (2 * s + n) (2 * n) ltac:(lia)) as Hdm.
  pose proof (Z.mod_pos_bound (2 * s + n) (2 * n) ltac:(lia)) as Hmb.
  split; [lia|]. intros Hall. pose proof (panic_sum_bounds ms Hall) as Hs. fold s n in Hs.
  split; [apply Z.div_pos; lia|].
  enough ((2 * s + n) / (2 * n) < 11)%Z by lia. apply Z.div_lt_upper_bound; lia.
Qed.

(** ** Editing a member *)

Section Edit.
Context (sch : cschema).

Lemma pg_int_fnum v : opt_int4 v = true -> pg_int (ival_of (fnum_of v)) = Some v.
Proof. destruct v as [z|]; simpl; [|done]. by intros ->. Qed.

Lemma get_member_found d r :
  NoDup (map crew_id (members d)) -> r ∈ members d -> int4_range (crew_id r) = true ->
  get_member (PInt (crew_id r)) d = (Reply 200 (CRow r), d).
Proof.
  intros Hnd Hin Hr. unfold get_member, chandle, catch_crew, try_catch, bind, crew_param.
  rewrite Hr. simpl. by rewrite (filter_key_single crew_id) by done.
Qed.

(** The UPDATE over an existing member, once the body reads as [row]. *)
Lemma update_member_existing d r b row :
  NoDup (map crew_id (members d)) -> r ∈ members d -> int4_range (crew_id r) = true ->
  row_of_body (crew_id r) b (Some (cnow d)) = Some row -> crew_check sch row = true ->
  update_member sch (PInt (crew_id r)) b d =
    (Reply 200 (CRow row),
     mk_cdb (map_where (fun m => bool_decide (crew_id m = crew_id r)) (fun _ => row) (members d))
            (crew_seq d) (cnow d)).
Proof.
  intros Hnd Hin Hr Hrow Hc.
  unfold update_member, chandle, catch_crew, try_catch, bind, crew_param, update_member_rows, ret.
  rewrite Hr. simpl. rewrite Hrow, (filter_key_single crew_id) by done. simpl. by rewrite Hc.
Qed.

(** [C25] Opening the member editor on an existing member and saving it
    unchanged writes the member back as it was: every column keeps its
    value, except that a NULL fun-facts list becomes an empty one and
    [updated_at] becomes the time of the save; no other member changes. *)
Theorem crew_edit_roundtrip d r :
  NoDup (map crew_id (members d)) -> r ∈ members d -> int4_range (crew_id r) = true ->
  crew_ints_ok r = true -> crew_check sch (resaved r (cnow d)) = true ->
  update_member sch (PInt (crew_id r))
    (crew_form_body (load_crew_form (fst (get_member (PInt (crew_id r)) d)))) d =
  (Reply 200 (CRow (resaved r (cnow d))),
   mk_cdb (map_where (fun m => bool_decide (crew_id m = crew_id r)) (fun _ => resaved r (cnow d))
                     (members d)) (crew_seq d) (cnow d)).
Proof.
  intros Hnd Hin Hr Hints Hc. rewrite get_member_found by done.
  apply update_member_existing; [done..| |done].
  unfold crew_ints_ok in Hints. apply andb_true_iff in Hints as [Hints Hd].
  apply andb_true_iff in Hints as [Hp Hg].
  unfold row_of_body. simpl. by rewrite !pg_int_fnum.
Qed.

(** When the editor's load fails (any non-2xx answer), the form
    keeps its initial blanks and zeros, and saving it overwrites the
    member with empty texts, zero panic level, games and deaths, and an
    empty fun-facts list. *)
Theorem crew_edit_failed_load_wipes d r c m :
  (200 <=? c) && (c <? 300) = false ->
  NoDup (map crew_id (members d)) -> r ∈ members d -> int4_range (crew_id r) = true ->
  crew_check sch (blank_row (crew_id r) (cnow d)) = true ->
  update_member sch (PInt (crew_id r)) (crew_form_body (load_crew_form (Reply c m))) d =
  (Reply 200 (CRow (blank_row (crew_id r) (cnow d))),
   mk_cdb (map_where (fun m => bool_decide (crew_id m = crew_id r))
             (fun _ => blank_row (crew_id r) (cnow d)) (members d)) (crew_seq d) (cnow d)).
Proof.
  intros Hc Hnd Hin Hr Hchk.
  assert (load_crew_form (Reply c m) = blank_form) as ->.
  { unfold load_crew_form. destruct m; try done. by rewrite Hc. }
  by apply update_member_existing.
Qed.
End Edit.

(** ** Concrete runs *)

Definition csch : cschema :=
  mk_cschema (fun r => match crew_name r with Some _ => true | None => false end) false.

Definition budi : crew_row :=
  mk_crew 1 (Some "Budi") (Some "Bud") (Some "b.png") (Some "Scout") (Some 7%Z) (Some "running")
    (Some "screaming") None (Some 12%Z) (Some 40%Z) None.

Definition sari : crew_row :=
  mk_crew 2 (Some "Sari") (Some "Sar") None (Some "Medic") (Some 4%Z) None None
    (Some [Some "never dies"]) (Some 30%Z) None (Some 2).

Definition ex_cdb : cdb := mk_cdb [budi; sari] 3 9.

(** A mean of 5.5 is shown as 6; the deaths of a member with NULL deaths
    count as 0. *)
Example ex_crew_stats : avg_panic [budi; sari] = Int 6 /\ total_deaths [budi; sari] = 40%Z.
Proof. split; reflexivity. Qed.

Lemma avg_panic_spec_witness :
  ([budi; sari] = [] -> avg_panic [budi; sari] = NaN) /\
  ([budi; sari] <> [] -> exists a, avg_panic [budi; sari] = Int a /\
     (2 * panic_sum [budi; sari] - Z.of_nat (length [budi; sari]) < 2 * Z.of_nat (length [budi; sari]) * a
        <= 2 * panic_sum [budi; sari] + Z.of_nat (length [budi; sari]))%Z /\
     (Forall (fun m => forall p, crew_panic_level m = Some p -> 0 <= p <= 10)%Z [budi; sari] ->
      (0 <= a <= 10)%Z)).
Proof. apply avg_panic_spec. Defined.

Lemma crew_edit_roundtrip_witness :
  update_member csch (PInt (crew_id budi))
    (crew_form_body (load_crew_form (fst (get_member (PInt (crew_id budi)) ex_cdb)))) ex_cdb =
  (Reply 200 (CRow (resaved budi (cnow ex_cdb))),
   mk_cdb (map_where (fun m => bool_decide (crew_id m = crew_id budi))
             (fun _ => resaved budi (cnow ex_cdb)) (members ex_cdb)) (crew_seq ex_cdb) (cnow ex_cdb)).
Proof. apply crew_edit_roundtrip; [by_eval|by left|reflexivity|reflexivity|reflexivity]. Defined.

Lemma crew_edit_failed_load_wipes_witness :
  update_member csch (PInt (crew_id sari))
    (crew_form_body (load_crew_form (Reply 500 (CMessage "Server error")))) ex_cdb =
  (Reply 200 (CRow (blank_row (crew_id sari) (cnow ex_cdb))),
   mk_cdb (map_where (fun m => bool_decide (crew_id m = crew_id sari))
             (fun _ => blank_row (crew_id sari) (cnow ex_cdb)) (members ex_cdb))
          (crew_seq ex_cdb) (cnow ex_cdb)).
Proof.
  apply crew_edit_failed_load_wipes; [reflexivity|by_eval|by right; left|reflexivity|reflexivity].
Defined.

End Crew.
