(* ===== verification/Vault.v ===== *)
(** * Vault: clip upload and the vault listing (server)

    [src/server/routes/uploadRoutes.js] stores an uploaded file with
    multer (before the handler runs) and inserts a [clips] row;
    [src/server/routes/vaultRoutes.js] answers the local clips, newest
    first, each with the URL of its file under [BASE_URL/uploads/],
    followed by the items [src/server/services/youtubeService.js]
    fetched from a YouTube playlist; [/api/upload/videos] answers the raw
    rows.  The page side is [VaultPage].  multer names the stored file
    [`${Date.now()}-${random}${path.extname(originalname)}`]
    ([multer_filename], with Node's POSIX [extname]).

    The state [vdb] holds the [clips] table, its id sequence, [NOW()] and
    the files of the [uploads] directory.  The YouTube answer is an input
    (the list [getYoutubeVideos] resolved to; it resolves to [[]] on any
    error).  The [tags] column holds the JSON value [JSON.parse] gave.

    Theorems: a failed upload leaves its file on disk with no row; every
    file a clip row names is on disk, in every state uploads reach. *)

From Stdlib Require Import ZArith Lia Ascii String.
From stdpp Require Import base list strings pretty relations.
From S2P Require Import Prelude Db FeedServer.

Module Vault.
Import Db FeedServer.

(** ** Data *)

(** JSON values, as far as the tags need them. *)
#[local] Set Warnings "-register-all".
Inductive json :=
| JSNull
| JSBool (b : bool)
| JSNum (z : Z)
| JSStr (s : string)
| JSArr (xs : list json)
| JSObj.

(** The [tags] field of the multipart body: absent or empty (falsy), a
    text [JSON.parse] reads as a value, or one it rejects. *)
Inductive tags_field := TagsAbsent | TagsJSON (j : json) | TagsInvalid.

Record upload_req := mk_upload {
  up_title : sqltext;
  up_game : sqltext;
  up_description : sqltext;
  up_type : sqltext;
  up_tags : tags_field;
  up_file : option string    (** the name multer stored the [video] part under *)
}.

Record clip_row := mk_clip {
  clip_id : Z;
  clip_title : sqltext;
  clip_game : sqltext;
  clip_description : sqltext;
  clip_type : sqltext;
  clip_tags : json;
  clip_file_path : string;
  clip_uploader_id : user_key;
  clip_uploader_username : string;
  clip_uploader_avatar : option string;
  clip_views : option Z;            (** [NULL] in a row the routes did not write *)
  clip_created_at : nat
}.

Record vdb := mk_vdb {
  clips : list clip_row;
  clip_seq : Z;
  vnow : nat;
  disk : list string         (** the files in [uploads/] *)
}.

(** The constraints of [clips] (the schema is not in the repository). *)
Definition vschema := clip_row -> bool.

(** An item of the [/vault] answer.  A local item's [id] is the row id
    (a number); a YouTube item's is the text [yt-<videoId>]. *)
Inductive item_id := IdNum (z : Z) | IdStr (s : string).

Record vault_item := mk_item {
  vi_id : item_id;
  vi_source : string;
  vi_title : sqltext;
  vi_type : sqltext;
  vi_game : sqltext;
  vi_tags : json;
  vi_views : Z;
  vi_uploader : option string;     (** absent on YouTube items *)
  vi_thumbnail : option string;    (** [null] for a local video *)
  vi_video_url : option string;    (** absent on YouTube items *)
  vi_youtube_id : option string    (** absent on local items *)
}.

Inductive vbody :=
| VOk                              (** [{ ok: true }] *)
| VError (m : string)
| VItems (xs : list vault_item)
| VRows (rs : list clip_row).

(** ** POST /api/upload/upload *)

(** [tags ? JSON.parse(tags) : []] *)
Definition parse_tags (t : tags_field) : option json :=
  match t with
  | TagsAbsent => Some (JSArr [])
  | TagsJSON j => Some j
  | TagsInvalid => None
  end.

(** [upload.single("video")] has stored the file before the handler
    runs. *)
Definition multer_store (r : upload_req) (d : vdb) : vdb :=
  match up_file r with
  | Some f => mk_vdb (clips d) (clip_seq d) (vnow d) (disk d ++ [f])
  | None => d
  end.

(** [ensureAuth], multer, then the handler with its [try]. *)
Definition upload_clip (sch : vschema) (u : option user) (r : upload_req) (d : vdb) : response vbody * vdb :=
  match u with
  | None => (Reply 401 (VError "Unauthorized"), d)
  | Some u =>
      let d := multer_store r d in
      match up_file r with
      | None => (Reply 400 (VError "No file uploaded"), d)
      | Some f =>
          match parse_tags (up_tags r) with
          | None => (Reply 500 (VError "Upload failed"), d)
          | Some tags =>
              let row := mk_clip (clip_seq d) (up_title r) (up_game r) (up_description r) (up_type r)
                           tags f (user_id u) (user_username u) (avatar_url u) (Some 0%Z) (vnow d) in
              if negb (clip_seq d <? 2 ^ 31)%Z then (Reply 500 (VError "Upload failed"), d)
              else if sch row
              then (Reply 200 VOk, mk_vdb (clips d ++ [row]) (clip_seq d + 1) (vnow d) (disk d))
              else (Reply 500 (VError "Upload failed"), mk_vdb (clips d) (clip_seq d + 1) (vnow d) (disk d))
          end
      end
  end.

(** ** GET /api/vault/vault *)

Definition clip_created_desc (a b : clip_row) : bool :=
  Nat.leb (clip_created_at b) (clip_created_at a).

(** [tags: row.tags || []]: [null], [false], [0] and [""] are falsy. *)
Definition tags_or_empty (j : json) : json :=
  match j with
  | JSNull | JSBool false | JSNum 0 | JSStr "" => JSArr []
  | _ => j
  end.

(** [process.env.BASE_URL || "http://localhost:3000"] *)
Definition base_url (env : option string) : string :=
  match env with Some s => if String.eqb s "" then "http://localhost:3000" else s | None => "http://localhost:3000" end.

(** [`${baseUrl}/uploads/${row.file_path}`], which [express.static]
    serves from the [uploads] directory. *)
Definition upload_url (base file : string) : string := base +:+ "/uploads/" +:+ file.

(** ** The name multer stores a file under *)

(** The loop of Node's [path.extname] (posix), which scans the path from
    its end: where the last dot is, where the last segment starts and
    ends, and whether that segment has other characters before the dot
    ([pre_dot]: 0 none, 1 only dots, -1 some other character). *)
Record ext_scan := mk_ext_scan {
  es_start_dot : option nat;
  es_start_part : nat;
  es_end : option nat;
  es_matched_slash : bool;
  es_pre_dot : Z
}.

(** [rcs] holds the characters before position [i], last first. *)
Fixpoint extname_loop (i : nat) (rcs : list ascii) (st : ext_scan) : ext_scan :=
  match rcs with
  | [] => st
  | c :: rcs' =>
      let j := pred i in
      if Ascii.eqb c "/" then
        if es_matched_slash st then extname_loop j rcs' st
        else mk_ext_scan (es_start_dot st) i (es_end st) (es_matched_slash st) (es_pre_dot st)
      else
        let st := match es_end st with
                  | None => mk_ext_scan (es_start_dot st) (es_start_part st) (Some i) false (es_pre_dot st)
                  | Some _ => st
                  end in
        let st := if Ascii.eqb c "." then
                    match es_start_dot st with
                    | None => mk_ext_scan (Some j) (es_start_part st) (es_end st) (es_matched_slash st) (es_pre_dot st)
                    | Some _ => if (es_pre_dot st =? 1)%Z then st
                                else mk_ext_scan (es_start_dot st) (es_start_part st) (es_end st) (es_matched_slash st) 1
                    end
                  else match es_start_dot st with
                       | Some _ => mk_ext_scan (es_start_dot st) (es_start_part st) (es_end st) (es_matched_slash st) (-1)
                       | None => st
                       end in
        extname_loop j rcs' st
  end.

(** [path.extname(p)]: from the last dot of the last segment to its end;
    [""] when there is no dot, when the segment starts with its only dots,
    or when the segment is [".."]. *)
Definition extname (p : string) : string :=
  let cs := list_ascii_of_string p in
  let st := extname_loop (length cs) (rev cs) (mk_ext_scan None 0 None true 0) in
  match es_start_dot st, es_end st with
  | Some sd, Some e =>
      if (es_pre_dot st =? 0)%Z
         || ((es_pre_dot st =? 1)%Z && Nat.eqb sd (e - 1) && Nat.eqb sd (es_start_part st + 1))
      then "" else substring sd (e - sd) p
  | _, _ => ""
  end.

(** [`${Date.now()}-${Math.round(Math.random() * 1e9)}${ext}`]. *)
Definition multer_filename (now rand : N) (originalname : string) : string :=
  pretty now +:+ "-" +:+ pretty rand +:+ extname originalname.

(** [rows.map(row => ({ id: row.id, source: "local", ... }))];
    [views: row.views || 0] ([NULL] and [0] give [0]); a thumbnail only
    for an image. *)
Definition local_item (base : string) (c : clip_row) : vault_item :=
  mk_item (IdNum (clip_id c)) "local" (clip_title c) (clip_type c) (clip_game c)
    (tags_or_empty (clip_tags c)) (default 0%Z (clip_views c)) (Some (clip_uploader_username c))
    (if bool_decide (clip_type c = Some "image") then Some (upload_url base (clip_file_path c)) else None)
    (Some (upload_url base (clip_file_path c))) None.

(** A playlist entry as [getYoutubeVideos] reads it. *)
Record yt_entry := mk_yt_entry {
  yt_video_id : string;
  yt_title : string;
  yt_thumb : option string      (** [item.snippet.thumbnails?.medium?.url] *)
}.

(** The item [getYoutubeVideos] makes of a playlist entry. *)
Definition youtube_item (e : yt_entry) : vault_item :=
  mk_item (IdStr ("yt-" +:+ yt_video_id e)) "youtube" (Some (yt_title e)) (Some "video") (Some "YouTube")
    (JSArr [JSStr "youtube"]) 0 None (Some (default "" (yt_thumb e))) None (Some (yt_video_id e)).

Definition vault_listing (base : string) (u : option user) (yt : list vault_item) (d : vdb) : response vbody :=
  match u with
  | None => Reply 401 (VError "Unauthorized")
  | Some _ => Reply 200 (VItems (map (local_item base) (sort_by clip_created_desc (clips d)) ++ yt))
  end.

(** What [getYoutubeVideos] resolves to: [[]] without the API key or
    playlist id, or when the request fails; otherwise one item per
    playlist entry. *)
Inductive yt_answer :=
| YtNoEnv
| YtError
| YtEntries (es : list yt_entry).

Definition youtube_videos (a : yt_answer) : list vault_item :=
  match a with
  | YtNoEnv | YtError => []
  | YtEntries es => map youtube_item es
  end.

(** GET /api/upload/videos: no [ensureAuth]. *)
Definition videos_listing (d : vdb) : response vbody :=
  Reply 200 (VRows (sort_by clip_created_desc (clips d))).

(** ** A failed upload *)

(** [C32] An upload with a file that fails in the handler (tags that are
    not JSON, a row the table rejects) answers 500, but the file multer
    already wrote stays in [uploads/] with no clip referring to it. *)
Theorem upload_failure_leaks_file sch u r f d :
  up_file r = Some f -> f ∉ map clip_file_path (clips d) ->
  status_of (fst (upload_clip sch (Some u) r d)) = Some 500 ->
  f ∈ disk (snd (upload_clip sch (Some u) r d)) /\
  f ∉ map clip_file_path (clips (snd (upload_clip sch (Some u) r d))).
Proof.
  intros Hf Hnot. unfold upload_clip, multer_store. rewrite Hf.
  assert (f ∈ disk d ++ [f]) as Hin by (apply elem_of_app; right; by left).
  destruct (parse_tags (up_tags r)); simpl; [|done].
  destruct (negb _); simpl; [done|]. by destruct (sch _).
Qed.

(** ** Files and rows *)

(** Every clip row names a file of the [uploads] directory. *)
Definition files_present (d : vdb) : Prop := Forall (fun c => clip_file_path c ∈ disk d) (clips d).

Definition vtick (d : vdb) : vdb := mk_vdb (clips d) (clip_seq d) (S (vnow d)) (disk d).

(** The states uploads reach from an empty table and directory, time
    passing in between. *)
Inductive vreachable (sch : vschema) : vdb -> Prop :=
| vreach_empty : vreachable sch (mk_vdb [] 1 0 [])
| vreach_upload u r d : vreachable sch d -> vreachable sch (snd (upload_clip sch u r d))
| vreach_tick d : vreachable sch d -> vreachable sch (vtick d).

Lemma files_present_grow cs ds ds' :
  Forall (fun c => clip_file_path c ∈ ds) cs -> Forall (fun c => clip_file_path c ∈ ds ++ ds') cs.
Proof. intros H. eapply Forall_impl; [exact H|]. intros c Hc. apply elem_of_app. by left. Qed.

Lemma upload_files_present sch u r d :
  files_present d -> files_present (snd (upload_clip sch u r d)).
Proof.
  unfold files_present, upload_clip, multer_store. intros Hd.
  destruct u as [u|]; [|done]. destruct (up_file r) as [f|] eqn:Hf; simpl; [|done].
  pose proof (files_present_grow _ _ [f] Hd) as Hg.
  destruct (parse_tags (up_tags r)); simpl; [|done].
  destruct (negb _); simpl; [done|]. destruct (sch _); simpl; [|done].
  apply Forall_app. split; [done|]. constructor; [|constructor]. simpl. apply elem_of_app. right. by left.
Qed.

(** Uploads never leave a row without its file. *)
Lemma vreachable_files_present sch d : vreachable sch d -> files_present d.
Proof.
  induction 1 as [| u r d _ IH | d _ IH]; [constructor|by apply upload_files_present|exact IH].
Qed.

(** One request of the upload routes or time passing; [rtc vstep]
    relates a state to every later one. *)
Definition vstep (sch : vschema) (d d' : vdb) : Prop :=
  (exists u r, d' = snd (upload_clip sch u r d)) \/ d' = vtick d.

(** No route deletes a clip: a row stays in the table. *)
Lemma upload_clips_incl sch u r d c : c ∈ clips d -> c ∈ clips (snd (upload_clip sch u r d)).
Proof.
  unfold upload_clip, multer_store. intros Hc.
  destruct u as [u|]; [|done]. destruct (up_file r); simpl; [|done].
  destruct (parse_tags (up_tags r)); simpl; [|done].
  destruct (negb _); simpl; [done|]. destruct (sch _); simpl; [|done]. apply elem_of_app. by left.
Qed.

Lemma vsteps_clips_incl sch d d' c : rtc (vstep sch) d d' -> c ∈ clips d -> c ∈ clips d'.
Proof.
  induction 1 as [|d d1 d' [(u & r & ->)| ->] _ IH]; intros Hc; [done| |]; apply IH; [by apply upload_clips_incl|exact Hc].
Qed.

(** An upload answered [{ ok: true }] has inserted a row with the
    parsed tags. *)
Lemma upload_ok_row sch u r d j :
  up_tags r = TagsJSON j -> fst (upload_clip sch (Some u) r d) = Reply 200 VOk ->
  exists c, c ∈ clips (snd (upload_clip sch (Some u) r d)) /\ clip_tags c = j.
Proof.
  intros Ht. unfold upload_clip, multer_store. rewrite Ht.
  destruct (up_file r); simpl; [|done].
  destruct (negb _); simpl; [done|]. destruct (sch _); simpl; [|done].
  intros _. eexists. split; [apply elem_of_app; right; by left|reflexivity].
Qed.

(** ** Concrete runs *)

Definition vsch : vschema := fun c => match clip_title c with Some _ => true | None => false end.

Definition ex_clip : clip_row :=
  mk_clip 1 (Some "scream") (Some "Phasmophobia") None (Some "video") (JSArr [JSStr "scream"])
    "1700000000000-1.mp4" "alice" "Alice" None (Some 3%Z) 2.

Definition ex_vdb : vdb := mk_vdb [ex_clip] 2 5 ["1700000000000-1.mp4"].

Lemma upload_failure_leaks_file_witness :
  let r := mk_upload (Some "t") None None (Some "video") TagsInvalid (Some "1700000000002-3.mp4") in
  "1700000000002-3.mp4" ∈ disk (snd (upload_clip vsch (Some alice) r ex_vdb)) /\
  "1700000000002-3.mp4" ∉ map clip_file_path (clips (snd (upload_clip vsch (Some alice) r ex_vdb))).
Proof. apply upload_failure_leaks_file; [reflexivity|by_eval|reflexivity]. Defined.

End Vault.
