(* ===== verification/VaultPage.v ===== *)
(** * VaultPage: the vault page and the upload form (client)

    [components/Vault.tsx] fetches [/api/vault/vault], maps each item to
    a card ([VideoProps]), offers a type filter and a game filter, shows
    four counts, opens a card in its [VideoModal] and hosts the upload
    form; [components/UploadClipModal.tsx] builds the upload [FormData]
    (its tag list edited by [toggleTag] and [addCustomTag]) and resets
    itself 1.5 s after a successful submit.

    A page state is a record, an event handler a function on it; the
    answers of the requests are inputs, which the theorems take from the
    routes of [Vault].

    Theorems: the tag list of the upload form never holds a tag twice; a
    clip uploaded from the form comes back in the page with what was
    chosen, and its card shows one [#tag] chip per chosen tag; the card
    ids are distinct; the filters select exactly the matching cards;
    every local card opens the URL of a file that is in the [uploads]
    directory; a tag list holding a JSON object, which the route
    accepts, makes the page throw for every user from then on.

    What the page shows ([render_vault], [render_card],
    [render_video_modal]) is its texts, media and chips; a JSON value as
    a React child is [jsx_child], [None] when React refuses it. *)

From Stdlib Require Import ZArith Lia Ascii String.
From stdpp Require Import base list strings pretty relations.
From S2P Require Import Prelude Db FeedServer Vault.

Module VaultPage.
Import Db FeedServer Vault.

(** ** Cards (Vault.tsx) *)

Record video := mk_video {
  vp_id : string;
  vp_title : sqltext;
  vp_type : sqltext;
  vp_game : string;
  vp_tags : list json;
  vp_views : Z;
  vp_source : string;
  vp_uploader : string;
  vp_video_url : option string;
  vp_youtube_id : option string;
  vp_thumbnail : option string
}.

(** The text of [${item.id}]. *)
Definition item_id_text (i : item_id) : string :=
  match i with IdNum z => pretty z | IdStr s => s end.

(** [res.data.map(item => ({ id: `${item.source}-${item.id}`, ... }))];
    [game ?? "Unknown"], [Array.isArray(item.tags) ? item.tags : []],
    [views ?? 0], [uploader ?? "Unknown"]. *)
Definition video_of_item (i : vault_item) : video :=
  mk_video (vi_source i +:+ "-" +:+ item_id_text (vi_id i)) (vi_title i) (vi_type i)
    (default "Unknown" (vi_game i))
    (match vi_tags i with JSArr xs => xs | _ => [] end)
    (vi_views i) (vi_source i) (default "Unknown" (vi_uploader i))
    (vi_video_url i) (vi_youtube_id i) (vi_thumbnail i).

(** [fetchVault] after the answer: [setVideos(mapped)]; a rejected
    request leaves the cards. *)
Definition fetch_vault (r : response vbody) (vs : list video) : list video :=
  match r with
  | Reply c (VItems xs) => if http_ok c then map video_of_item xs else vs
  | _ => vs
  end.

(** [Array.from(new Set(xs))]: distinct, in order of first occurrence. *)
Fixpoint dedup_first (seen : list string) (xs : list string) : list string :=
  match xs with
  | [] => []
  | x :: xs => if decide (x ∈ seen) then dedup_first seen xs else x :: dedup_first (x :: seen) xs
  end.

(** [["all", ...Array.from(new Set(videos.map(v => v.game)))]] *)
Definition game_options (vs : list video) : list string := "all" :: dedup_first [] (map vp_game vs).

Inductive type_filter := TAll | TImage | TVideo.

Definition type_matches (f : type_filter) (v : video) : bool :=
  match f with
  | TAll => true
  | TImage => bool_decide (vp_type v = Some "image")
  | TVideo => bool_decide (vp_type v = Some "video")
  end.

(** [filteredVideos] *)
Definition filtered (f : type_filter) (g : string) (vs : list video) : list video :=
  List.filter (fun v => type_matches f v && (String.eqb g "all" || String.eqb (vp_game v) g)) vs.

(** The four statistics. *)
Definition stats (vs : list video) : nat * nat * nat * Z :=
  (length vs, length (filter (fun v => vp_type v = Some "video") vs),
   length (filter (fun v => vp_type v = Some "image") vs),
   fold_left (fun s v => s + vp_views v)%Z vs 0%Z).

(** [a || b] on texts: [""] and [null] are falsy. *)
Definition js_or (a b : option string) : option string :=
  match a with Some s => if String.eqb s "" then b else a | None => b end.

(** [`${x}`] of an optional text: an absent one prints "undefined". *)
Definition template_text (o : option string) : string := default "undefined" o.

(** What a card shows: the thumbnail if it has a truthy one, else the
    play icon; and its badge. *)
Inductive card_media := CardThumbnail (src : string) | CardPlayIcon.

Definition card_media_of (v : video) : card_media :=
  match js_or (vp_thumbnail v) None with Some s => CardThumbnail s | None => CardPlayIcon end.

Definition card_badge (v : video) : string :=
  if bool_decide (vp_type v = Some "video") then "VIDEO" else "IMAGE".

(** The frame of [VideoModal]. *)
Inductive modal_media :=
| MImage (src : option string)       (** [<img src={video.videoUrl || video.thumbnail}>] *)
| MEmbed (src : string)              (** the YouTube [<iframe>] *)
| MVideo (src : option string).      (** [<video src={video.videoUrl}>] *)

Definition modal_media_of (v : video) : modal_media :=
  if bool_decide (vp_type v = Some "image") then MImage (js_or (vp_video_url v) (vp_thumbnail v))
  else if String.eqb (vp_source v) "youtube"
  then MEmbed ("https://www.youtube.com/embed/" +:+ template_text (vp_youtube_id v) +:+ "?autoplay=1")
  else MVideo (vp_video_url v).

Definition media_src (m : modal_media) : option string :=
  match m with MImage s | MVideo s => s | MEmbed s => Some s end.

(** The page state. *)
Record vault_page := mk_vault_page {
  pg_filter : type_filter;
  pg_selected_game : string;
  pg_upload_open : bool;
  pg_videos : list video;
  pg_active : option video
}.

Definition initial_page : vault_page := mk_vault_page TAll "all" false [] None.

Inductive page_event :=
| PSetFilter (f : type_filter)          (** the "all" / "video" / "image" buttons *)
| PSelectGame (g : string)              (** the game [<select>] *)
| POpenUpload | PCloseUpload            (** "Upload Clip", the modal's [onClose] *)
| PFetched (r : response vbody)         (** [fetchVault] resolved *)
| POpenCard (v : video)                 (** a card's [onClick] *)
| PCloseModal.                          (** the backdrop or the close button *)

Definition apply_page_event (p : vault_page) (e : page_event) : vault_page :=
  match e with
  | PSetFilter f => mk_vault_page f (pg_selected_game p) (pg_upload_open p) (pg_videos p) (pg_active p)
  | PSelectGame g => mk_vault_page (pg_filter p) g (pg_upload_open p) (pg_videos p) (pg_active p)
  | POpenUpload => mk_vault_page (pg_filter p) (pg_selected_game p) true (pg_videos p) (pg_active p)
  | PCloseUpload => mk_vault_page (pg_filter p) (pg_selected_game p) false (pg_videos p) (pg_active p)
  | PFetched r => mk_vault_page (pg_filter p) (pg_selected_game p) (pg_upload_open p) (fetch_vault r (pg_videos p)) (pg_active p)
  | POpenCard v => mk_vault_page (pg_filter p) (pg_selected_game p) (pg_upload_open p) (pg_videos p) (Some v)
  | PCloseModal => mk_vault_page (pg_filter p) (pg_selected_game p) (pg_upload_open p) (pg_videos p) None
  end.

(** ** The upload form (UploadClipModal.tsx) *)

Definition available_games : list string :=
  ["Lethal Company"; "The Backrooms"; "Zort"; "Phasmophobia"; "Content Warning"; "Devour"; "Other"].

Definition suggested_tags : list string :=
  ["fail"; "scream"; "clutch"; "panic"; "chaos"; "funny"; "epic"; "meme"; "wtf"; "noob"; "pro"; "viral"].

Record clip_form := mk_clip_form {
  cf_title : string;
  cf_game : string;
  cf_description : string;
  cf_type : string;
  cf_tags : list string
}.

Definition initial_clip_form : clip_form := mk_clip_form "" "Lethal Company" "" "video" [].

(** The modal's state: [formData], [customTag], [submitted], [file]. *)
Record upload_modal := mk_upload_modal {
  um_form : clip_form;
  um_custom : string;
  um_submitted : bool;
  um_file : option string
}.

Definition initial_modal : upload_modal := mk_upload_modal initial_clip_form "" false None.

Definition set_tags (ts : list string) (f : clip_form) : clip_form :=
  mk_clip_form (cf_title f) (cf_game f) (cf_description f) (cf_type f) ts.

(** [toggleTag] *)
Definition toggle_tag (t : string) (f : clip_form) : clip_form :=
  if decide (t ∈ cf_tags f) then set_tags (filter (fun x => x <> t) (cf_tags f)) f
  else set_tags (cf_tags f ++ [t]) f.

(** [addCustomTag]: the text of the custom input, unless empty or
    present; the input is cleared only when the tag is added. *)
Definition add_custom_tag (m : upload_modal) : upload_modal :=
  let t := um_custom m in
  if negb (String.eqb t "") && negb (bool_decide (t ∈ cf_tags (um_form m)))
  then mk_upload_modal (set_tags (cf_tags (um_form m) ++ [t]) (um_form m)) "" (um_submitted m) (um_file m)
  else m.

Inductive form_action :=
| ATitle (v : string) | AGame (v : string) | ADescription (v : string) | AType (v : string)
| AToggleTag (t : string)          (** a suggested tag, or a selected tag's button *)
| ACustomInput (v : string)        (** [setCustomTag(e.target.value)] *)
| AAddCustom                       (** the Add button, or Enter in the input *)
| AFile (f : option string)        (** [setFile(e.target.files?.[0] || null)] *)
| AReset.                          (** the [setTimeout] after a submit *)

Definition set_form (f : clip_form) (m : upload_modal) : upload_modal :=
  mk_upload_modal f (um_custom m) (um_submitted m) (um_file m).

Definition apply_action (m : upload_modal) (a : form_action) : upload_modal :=
  let f := um_form m in
  match a with
  | ATitle v => set_form (mk_clip_form v (cf_game f) (cf_description f) (cf_type f) (cf_tags f)) m
  | AGame v => set_form (mk_clip_form (cf_title f) v (cf_description f) (cf_type f) (cf_tags f)) m
  | ADescription v => set_form (mk_clip_form (cf_title f) (cf_game f) v (cf_type f) (cf_tags f)) m
  | AType v => set_form (mk_clip_form (cf_title f) (cf_game f) (cf_description f) v (cf_tags f)) m
  | AToggleTag t => set_form (toggle_tag t f) m
  | ACustomInput v => mk_upload_modal f v (um_submitted m) (um_file m)
  | AAddCustom => add_custom_tag m
  | AFile x => mk_upload_modal f (um_custom m) (um_submitted m) x
  | AReset => mk_upload_modal initial_clip_form (um_custom m) false None
  end.



(** ** What the upload modal shows *)

(** The [accept] of the file input. *)
Definition accept_of (f : clip_form) : string :=
  if String.eqb (cf_type f) "video" then "video/*" else "image/*".

Record form_view := mk_form_view {
  fv_video_selected : bool;            (** which type button is highlighted *)
  fv_title : string;
  fv_game : string;
  fv_game_options : list string;
  fv_description : string;
  fv_suggested : list (string * bool); (** [#tag], highlighted when in [formData.tags] *)
  fv_custom : string;
  fv_selected : option (list string);  (** the "Selected:" chips, when there are tags *)
  fv_accept : string;
  fv_file_label : string;              (** [file ? file.name : 'Click to select file'] *)
  fv_hint : string
}.

Inductive modal_view := ModalHidden | ModalSuccess | ModalForm (v : form_view).

(** [if (!isOpen) return null], then the success state or the form. *)
Definition render_upload_modal (is_open : bool) (m : upload_modal) : modal_view :=
  let f := um_form m in
  if negb is_open then ModalHidden
  else if um_submitted m then ModalSuccess
  else ModalForm (mk_form_view (String.eqb (cf_type f) "video") (cf_title f) (cf_game f) available_games
         (cf_description f) (map (fun t => (t, bool_decide (t ∈ cf_tags f))) suggested_tags) (um_custom m)
         (match cf_tags f with [] => None | ts => Some ts end)
         (accept_of f) (default "Click to select file" (um_file m))
         (if String.eqb (cf_type f) "video" then "MP4 / WebM recommended" else "PNG / JPG recommended")).

(** ** What the vault page shows *)

(** A JSON value as a JSX child: [null] and booleans render nothing, a
    number its decimal text, a string itself, an array its elements one
    after the other; React refuses an object ("Objects are not valid as
    a React child"): the render throws, [None]. *)
Fixpoint jsx_child (j : json) : option string :=
  match j with
  | JSNull | JSBool _ => Some ""
  | JSNum z => Some (pretty z)
  | JSStr s => Some s
  | JSArr xs =>
      (fix children (xs : list json) : option string :=
         match xs with
         | [] => Some ""
         | x :: xs =>
             match jsx_child x, children xs with
             | Some a, Some b => Some (a +:+ b)
             | _, _ => None
             end
         end) xs
  | JSObj => None
  end.

(** [video.tags.map(tag => <span>#{tag}</span>)] *)
Definition tag_chips (ts : list json) : option (list string) :=
  mapM (fun t => String.append "#" <$> jsx_child t) ts.

(** A card of the grid. *)
Record card_view := mk_card_view {
  cd_media : card_media;
  cd_badge : string;
  cd_title : sqltext;         (** [{video.title}]: [null] renders nothing *)
  cd_game : string;
  cd_views : string;          (** [{video.views} views] *)
  cd_uploader : string;       (** [Uploaded by {video.uploader}] *)
  cd_tags : list string
}.

Definition render_card (v : video) : option card_view :=
  ts ← tag_chips (vp_tags v);
  Some (mk_card_view (card_media_of v) (card_badge v) (vp_title v) (vp_game v)
          (pretty (vp_views v) +:+ " views") (vp_uploader v) ts).

(** The bullet U+2022 of the modal's caption, in UTF-8. *)
Definition bullet : string :=
  String (ascii_of_nat 226) (String (ascii_of_nat 128) (String (ascii_of_nat 162) EmptyString)).

(** [VideoModal]: the title, the caption line, the frame and, when the
    video has tags, the footer with them. *)
Record modal_card := mk_modal_card {
  md_title : sqltext;
  md_caption : string;
  md_media : modal_media;
  md_footer : option (list string)
}.

Definition render_video_modal (v : video) : option modal_card :=
  let caption := vp_game v +:+ " " +:+ bullet +:+ " " +:+ pretty (vp_views v) +:+ " views " +:+ bullet
                   +:+ " Uploaded by " +:+ vp_uploader v in
  match vp_tags v with
  | [] => Some (mk_modal_card (vp_title v) caption (modal_media_of v) None)
  | ts => ts' ← tag_chips ts; Some (mk_modal_card (vp_title v) caption (modal_media_of v) (Some ts'))
  end.

Record vault_view := mk_vault_view {
  vv_stats : nat * nat * nat * Z;
  vv_games : list string;        (** the options of the game [<select>] *)
  vv_upload_open : bool;
  vv_cards : list card_view;     (** one per [filteredVideos] entry *)
  vv_modal : option modal_card
}.

(** The page; [None] when its render throws, which, with no error
    element in [Routes.tsx], replaces the whole application by
    react-router's error screen. *)
Definition render_vault (p : vault_page) : option vault_view :=
  cards ← mapM render_card (filtered (pg_filter p) (pg_selected_game p) (pg_videos p));
  modal ← (match pg_active p with Some v => Some <$> render_video_modal v | None => Some None end);
  Some (mk_vault_view (stats (pg_videos p)) (game_options (pg_videos p)) (pg_upload_open p) cards modal).

(** The page once [fetchVault] resolved. *)
Definition loaded_vault (r : response vbody) : vault_page := apply_page_event initial_page (PFetched r).

(** ** The tag list *)

Lemma NoDup_snoc_fresh {A} (l : list A) x : NoDup l -> x ∉ l -> NoDup (l ++ [x]).
Proof.
  intros Hl Hx. apply NoDup_app. split; [done|]. split; [|apply NoDup_singleton].
  intros y Hy Hin. apply list_elem_of_singleton in Hin as ->. contradiction.
Qed.

Lemma apply_action_nodup m a : NoDup (cf_tags (um_form m)) -> NoDup (cf_tags (um_form (apply_action m a))).
Proof.
  intros Hnd. destruct a as [v|v|v|v|t|v| |x|]; simpl; try done.
  - unfold toggle_tag. case_decide; simpl; [by apply NoDup_filter|by apply NoDup_snoc_fresh].
  - unfold add_custom_tag. destruct (negb (String.eqb (um_custom m) "")) eqn:He; simpl; [|done].
    case_bool_decide; simpl; [done|by apply NoDup_snoc_fresh].
  - constructor.
Qed.

Lemma run_actions_nodup acts m :
  NoDup (cf_tags (um_form m)) -> NoDup (cf_tags (um_form (fold_left apply_action acts m))).
Proof.
  revert m. induction acts as [|a acts IH]; intros m Hm; [done|]. apply IH, apply_action_nodup, Hm.
Qed.

(** [C28] Whatever the user does in the upload form (typing, toggling
    suggested or selected tags, adding custom tags, choosing a file, the
    reset after a submit), its tag list never holds the same tag twice. *)
Theorem upload_tags_nodup acts :
  NoDup (cf_tags (um_form (fold_left apply_action acts initial_modal))).
Proof. apply run_actions_nodup. constructor. Qed.

(** The open form shows each suggested tag highlighted exactly when it
    is selected, and the "Selected:" chips are the tags in the order
    they were chosen, without two chips of the same key. *)
Theorem upload_form_view acts :
  let m := fold_left apply_action acts initial_modal in
  um_submitted m = false ->
  exists v, render_upload_modal true m = ModalForm v /\
    Forall (fun '(t, hl) => hl = bool_decide (t ∈ cf_tags (um_form m))) (fv_suggested v) /\
    default [] (fv_selected v) = cf_tags (um_form m) /\ NoDup (default [] (fv_selected v)).
Proof.
  intros m Hs. unfold render_upload_modal. rewrite Hs. eexists. split; [reflexivity|].
  cbn [fv_suggested fv_selected].
  split; [apply Forall_map, Forall_forall; by intros t _|].
  assert (default [] (match cf_tags (um_form m) with [] => None | ts => Some ts end) = cf_tags (um_form m))
    as -> by by destruct (cf_tags (um_form m)).
  split; [done|]. apply run_actions_nodup. constructor.
Qed.

(** Switching the type after choosing a file keeps the file: a file
    picked under [accept="video/*"] is submitted as an image (and the
    vault then shows it in an [<img>]). *)
Theorem type_switch_keeps_file m f :
  let m1 := apply_action (apply_action m (AType "video")) (AFile (Some f)) in
  accept_of (um_form (apply_action m (AType "video"))) = "video/*" /\
  um_file (apply_action m1 (AType "image")) = Some f /\
  accept_of (um_form (apply_action m1 (AType "image"))) = "image/*" /\
  cf_type (um_form (apply_action m1 (AType "image"))) = "image".
Proof. split_and!; reflexivity. Qed.

(** ** An upload comes back in the vault *)

(** The row an accepted upload inserts. *)
Definition uploaded_row (u : user) (f : clip_form) (fname : string) (d : vdb) : clip_row :=
  mk_clip (clip_seq d) (Some (cf_title f)) (Some (cf_game f)) (Some (cf_description f)) (Some (cf_type f))
    (JSArr (map JSStr (cf_tags f))) fname (user_id u) (user_username u) (avatar_url u) (Some 0%Z) (vnow d).

(** The card the vault page makes of it. *)
Definition uploaded_card (base : string) (u : user) (f : clip_form) (fname : string) (d : vdb) : video :=
  video_of_item (local_item base (uploaded_row u f fname d)).




(** ** Card ids *)

Lemma local_ids_inj (z1 z2 : Z) : "local" +:+ "-" +:+ pretty z1 = "local" +:+ "-" +:+ pretty z2 -> z1 = z2.
Proof. intros H. by apply (inj pretty), (inj (String.append "local-")). Qed.

Lemma youtube_ids_inj v1 v2 :
  "youtube" +:+ "-" +:+ ("yt-" +:+ v1) = "youtube" +:+ "-" +:+ ("yt-" +:+ v2) -> v1 = v2.
Proof. intros H. by apply (inj (String.append "youtube-yt-")). Qed.

Lemma local_youtube_ids (z : Z) v : "local" +:+ "-" +:+ pretty z <> "youtube" +:+ "-" +:+ ("yt-" +:+ v).
Proof. discriminate. Qed.

Lemma NoDup_map_inj {A B} (f : A -> B) (l : list A) :
  (forall x y, x ∈ l -> y ∈ l -> f x = f y -> x = y) -> NoDup l -> NoDup (map f l).
Proof.
  intros Hf Hl. induction Hl as [|x l Hx Hl IH]; simpl; constructor.
  - intros Hin. apply list_elem_of_fmap in Hin as (y & Hxy & Hy).
    assert (x = y) as -> by (apply Hf; [left|right|]; done). contradiction.
  - apply IH. intros a b Ha Hb. apply Hf; by right.
Qed.

(** [C31] The vault page's card ids ([`${source}-${id}`], React's [key])
    are distinct, given distinct clip ids in the table and distinct video
    ids in the playlist: a local id and a YouTube id never collide. *)
Theorem vault_ids_unique base u d es vs :
  NoDup (map clip_id (clips d)) -> NoDup (map yt_video_id es) ->
  NoDup (map vp_id (fetch_vault (vault_listing base (Some u) (youtube_videos (YtEntries es)) d) vs)).
Proof.
  intros Hc He. simpl. rewrite !map_map, map_app, !map_map.
  set (L := sort_by clip_created_desc (clips d)).
  assert (NoDup (map clip_id L)) as HL by (unfold L; by rewrite (sort_by_perm clip_created_desc (clips d))).
  replace (map _ L) with (map (fun z => "local" +:+ "-" +:+ pretty z) (map clip_id L))
    by (rewrite map_map; reflexivity).
  replace (map _ es) with (map (fun v => "youtube" +:+ "-" +:+ ("yt-" +:+ v)) (map yt_video_id es))
    by (rewrite map_map; reflexivity).
  apply NoDup_app. split; [|split].
  - apply NoDup_map_inj; [|exact HL]. intros x y _ _. apply local_ids_inj.
  - intros x Hl Hy. apply list_elem_of_fmap in Hl as (z & -> & _).
    apply list_elem_of_fmap in Hy as (v & Heq & _). by apply local_youtube_ids in Heq.
  - apply NoDup_map_inj; [|exact He]. intros x y _ _. apply youtube_ids_inj.
Qed.

(** ** The filters *)

Lemma dedup_first_elem seen xs x : x ∈ dedup_first seen xs <-> x ∈ xs /\ x ∉ seen.
Proof.
  revert seen. induction xs as [|y xs IH]; intros seen; simpl.
  - split; [by intros ?%not_elem_of_nil|]. intros [? _]. by apply not_elem_of_nil in H.
  - case_decide as Hy.
    + rewrite IH. split.
      * intros [Hx Hn]. split; [by right|done].
      * intros [Hx Hn]. apply elem_of_cons in Hx as [->|Hx]; [contradiction|done].
    + rewrite elem_of_cons, IH. split.
      * intros [->|[Hx Hn]]; [split; [by left|exact Hy]|].
        split; [by right|]. intros Hs. apply Hn. by right.
      * intros [Hx Hn]. destruct (decide (x = y)) as [->|Hne]; [by left|]. right.
        split; [apply elem_of_cons in Hx as [?|?]; [contradiction|done]|].
        intros Hs. apply elem_of_cons in Hs as [?|?]; contradiction.
Qed.

Lemma dedup_first_nodup seen xs : NoDup (dedup_first seen xs).
Proof.
  revert seen. induction xs as [|y xs IH]; intros seen; simpl; [constructor|].
  case_decide; [apply IH|]. constructor; [|apply IH].
  rewrite dedup_first_elem. intros [_ Hn]. apply Hn. by left.
Qed.

(** The vault page's filters: with "all" and "All Games" every
    card is shown; the game options after "all" are distinct and are
    exactly the games of the cards; and every card is shown when its own
    game is selected. *)
Theorem vault_filters vs :
  filtered TAll "all" vs = vs /\
  (exists gs, game_options vs = "all" :: gs /\ NoDup gs /\
     forall g, g ∈ gs <-> exists v, v ∈ vs /\ vp_game v = g) /\
  (forall v, v ∈ vs -> v ∈ filtered TAll (vp_game v) vs).
Proof.
  split; [|split].
  - unfold filtered. induction vs as [|v vs IH]; [done|]. cbn [List.filter]. rewrite IH. reflexivity.
  - eexists. split; [reflexivity|]. split; [apply dedup_first_nodup|]. intros g.
    rewrite dedup_first_elem, list_elem_of_fmap. split.
    + intros [(v & -> & Hv) _]. by exists v.
    + intros (v & Hv & <-). split; [by exists v|]. apply not_elem_of_nil.
  - intros v Hv. unfold filtered. apply list_elem_of_In, filter_In. split; [by apply list_elem_of_In|].
    simpl. rewrite String.eqb_refl. apply orb_true_r.
Qed.

(** ** What a card opens *)

Lemma upload_url_nonempty base f : String.eqb (upload_url base f) "" = false.
Proof. by destruct base. Qed.

Lemma youtube_videos_source a i : i ∈ youtube_videos a -> vi_source i = "youtube".
Proof.
  destruct a as [| |es]; simpl; [by intros ?%not_elem_of_nil..|].
  intros (e & -> & _)%list_elem_of_fmap. reflexivity.
Qed.

(** The modal of the card of a table row opens the URL of its file. *)
Lemma local_card_media base c :
  media_src (modal_media_of (video_of_item (local_item base c))) = Some (upload_url base (clip_file_path c)).
Proof.
  unfold modal_media_of, video_of_item, local_item. simpl.
  destruct (bool_decide (clip_type c = Some "image")); simpl; [|reflexivity].
  by rewrite upload_url_nonempty.
Qed.

(** In every state the upload routes can reach, each local card of
    the vault page (an image or a video of the table, not a YouTube
    entry) opens in its modal the URL [<base>/uploads/<file>] of a file
    that is in the [uploads] directory, which [express.static] serves. *)
Theorem local_media_on_disk sch base u a d vs v :
  vreachable sch d ->
  v ∈ fetch_vault (vault_listing base (Some u) (youtube_videos a) d) vs -> vp_source v = "local" ->
  exists f, f ∈ disk d /\ media_src (modal_media_of v) = Some (upload_url base f).
Proof.
  intros Hr Hv Hs. simpl in Hv. apply list_elem_of_fmap in Hv as (i & -> & Hi).
  apply elem_of_app in Hi as [Hi|Hi].
  - apply list_elem_of_fmap in Hi as (c & -> & Hc).
    rewrite (sort_by_perm clip_created_desc (clips d)) in Hc.
    exists (clip_file_path c). split; [|apply local_card_media].
    pose proof (vreachable_files_present sch d Hr) as Hf. by eapply Forall_forall in Hf.
  - apply youtube_videos_source in Hi. simpl in Hs. congruence.
Qed.

(** ** Rendering *)

Lemma mapM_None_elem {A B} (f : A -> option B) l x : x ∈ l -> f x = None -> mapM f l = None.
Proof.
  induction l as [|y l IH]; intros Hin Hx; [by apply not_elem_of_nil in Hin|].
  apply elem_of_cons in Hin as [->|Hin]; simpl; [by rewrite Hx|].
  destruct (f y); simpl; [by rewrite IH|done].
Qed.

Lemma filtered_all vs : filtered TAll "all" vs = vs.
Proof. induction vs as [|v vs IH]; simpl; [done|by rewrite IH]. Qed.

(** One card that cannot render makes the whole page throw. *)
Lemma render_vault_crash p v :
  v ∈ filtered (pg_filter p) (pg_selected_game p) (pg_videos p) -> render_card v = None -> render_vault p = None.
Proof. intros Hv Hc. unfold render_vault. by rewrite (mapM_None_elem _ _ v). Qed.

Lemma tag_chips_object ts : JSObj ∈ ts -> tag_chips ts = None.
Proof. intros H. by apply (mapM_None_elem _ _ JSObj). Qed.

Lemma tag_chips_strings ts : tag_chips (map JSStr ts) = Some (map (String.append "#") ts).
Proof. induction ts as [|t ts IH]; [done|]. unfold tag_chips in *. simpl. by rewrite IH. Qed.

(** Every card the loaded page holds is the card of a clip of the
    table or of a YouTube entry. *)
Lemma loaded_local_card base u yt d c :
  c ∈ clips d ->
  video_of_item (local_item base c) ∈ pg_videos (loaded_vault (vault_listing base (Some u) yt d)).
Proof.
  intros Hc. simpl. apply list_elem_of_fmap. exists (local_item base c). split; [done|].
  apply elem_of_app. left. apply list_elem_of_fmap. exists c. split; [done|].
  by rewrite (sort_by_perm clip_created_desc (clips d)).
Qed.

(** A clip uploaded from the form renders as a card with its title,
    game, no views, the uploader's name and one [#tag] chip per chosen
    tag, in order. *)
Theorem form_upload_card base u f fname d :
  render_card (uploaded_card base u f fname d) =
    Some (mk_card_view (card_media_of (uploaded_card base u f fname d)) (card_badge (uploaded_card base u f fname d))
            (Some (cf_title f)) (cf_game f) "0 views" (user_username u) (map (String.append "#") (cf_tags f))).
Proof. unfold render_card. simpl. by rewrite tag_chips_strings. Qed.

(** [C30] A clip uploaded with a tag list holding a JSON object (the
    field [tags] = '[{}]', which the route only passes to [JSON.parse])
    is stored, and from then on the vault page throws for every user who
    loads it, whatever is uploaded later and whatever YouTube answers:
    the row stays in the table and its card's [#{tag}] is an object,
    which React refuses to render. *)
Theorem object_tag_breaks_vault sch u r d ts d' base u' yt :
  up_tags r = TagsJSON (JSArr ts) -> JSObj ∈ ts ->
  fst (upload_clip sch (Some u) r d) = Reply 200 VOk ->
  rtc (vstep sch) (snd (upload_clip sch (Some u) r d)) d' ->
  render_vault (loaded_vault (vault_listing base (Some u') yt d')) = None.
Proof.
  intros Ht Hobj Hok Hsteps.
  destruct (upload_ok_row sch u r d _ Ht Hok) as (c & Hc & Htags).
  apply (render_vault_crash _ (video_of_item (local_item base c))).
  - rewrite filtered_all. apply loaded_local_card. by eapply vsteps_clips_incl.
  - unfold render_card. simpl. rewrite Htags. simpl. by rewrite tag_chips_object.
Qed.

(** ** Concrete runs *)

Definition ex_modal : upload_modal :=
  fold_left apply_action [ATitle "clutch"; ADescription "last second"; AToggleTag "clutch";
                          ACustomInput "lol"; AAddCustom; AToggleTag "clutch"; ACustomInput "lol"; AAddCustom;
                          AFile (Some "1700000000001-2.mp4")] initial_modal.

(** Toggling a suggested tag twice removes it; adding a present custom
    tag does nothing and leaves the input filled. *)
Example ex_modal_tags : cf_tags (um_form ex_modal) = ["lol"] /\ um_custom ex_modal = "lol".
Proof. split; reflexivity. Qed.


Lemma vault_ids_unique_witness :
  NoDup (map vp_id (fetch_vault (vault_listing "http://localhost:3000" (Some alice)
    (youtube_videos (YtEntries [mk_yt_entry "dQw4" "Funny" None; mk_yt_entry "x9Zk" "Epic" None])) ex_vdb) [])).
Proof. apply vault_ids_unique; by_eval. Defined.

Definition ex_upload : upload_req :=
  mk_upload (Some "clutch") (Some "Zort") (Some "d") (Some "image") TagsAbsent (Some "1700000000003-4.png").

Definition ex_reached : vdb := snd (upload_clip vsch (Some alice) ex_upload (mk_vdb [] 1 0 [])).

Lemma local_media_on_disk_witness :
  vreachable vsch ex_reached /\
  exists f, f ∈ disk ex_reached /\
    media_src (modal_media_of (video_of_item (local_item "http://localhost:3000" (hd ex_clip (clips ex_reached)))))
      = Some (upload_url "http://localhost:3000" f).
Proof.
  assert (vreachable vsch ex_reached) as Hr by (apply vreach_upload, vreach_empty).
  split; [exact Hr|].
  apply (local_media_on_disk vsch "http://localhost:3000" alice YtNoEnv ex_reached []); [exact Hr|vm_compute; constructor|reflexivity].
Defined.

Definition ex_object_tag : upload_req :=
  mk_upload (Some "gg") (Some "Zort") (Some "d") (Some "video") (TagsJSON (JSArr [JSObj])) (Some "1700000000005-6.mp4").

Lemma object_tag_breaks_vault_witness :
  up_tags ex_object_tag = TagsJSON (JSArr [JSObj]) /\ JSObj ∈ [JSObj] /\
  fst (upload_clip vsch (Some alice) ex_object_tag ex_vdb) = Reply 200 VOk /\
  render_vault (loaded_vault (vault_listing "http://localhost:3000" (Some alice) []
                                (snd (upload_clip vsch (Some alice) ex_object_tag ex_vdb)))) = None.
Proof.
  assert (JSObj ∈ [JSObj]) as Hin by by left.
  assert (fst (upload_clip vsch (Some alice) ex_object_tag ex_vdb) = Reply 200 VOk) as Hok by reflexivity.
  split; [reflexivity|]. split; [exact Hin|]. split; [exact Hok|].
  exact (object_tag_breaks_vault vsch alice ex_object_tag ex_vdb [JSObj] _ "http://localhost:3000" alice []
           eq_refl Hin Hok (rtc_refl _ _)).
Defined.

End VaultPage.
