(* ===== verification/Auth.v ===== *)
(** * Auth: Discord login, sessions and the client's view of them

    [src/server/server.js] configures passport with a Discord strategy
    whose verify callback looks the Discord id up among the active
    [users], renames the row to the current Discord username, and hands
    passport the row it read; [serializeUser] stores that whole object in
    the session and [deserializeUser] returns it unchanged on every later
    request.  [src/server/routes/authRoutes.js] has the login callback,
    logout and [/auth/check]; [ensureAuth] (vaultRoutes.js) guards the
    feed and vault routes.  On the client, [AuthContext.tsx] and
    [VaultWrapper.tsx] ask [/auth/check], and [ProtectedRoute.tsx]
    redirects to the login page.

    The state [adb] holds the [users] table and the session store (a
    session id and the user object stored in it).  Discord, the OAuth
    exchange and cookies are not modelled: a login is the profile Discord
    returned.

    Theorems: after a login with a changed Discord username the session
    keeps the old name (the row was read before the UPDATE), and posts
    made in that session carry it; a session outlives the deactivation of
    its user, while a new login is refused. *)

From Stdlib Require Import ZArith Lia Ascii String.
From stdpp Require Import base list strings.
From S2P Require Import Prelude Db FeedServer.

Module Auth.
Import Db FeedServer.

(** ** Data *)

Record user_row := mk_user_row {
  ur_id : user_key;
  ur_discord_id : string;
  ur_username : string;
  ur_avatar : option string;
  ur_is_active : bool;
  ur_role : string
}.

(** The Discord profile passport receives. *)
Record profile := mk_profile {
  pr_id : string;
  pr_username : string
}.

Definition session_id := nat.

Record adb := mk_adb {
  users : list user_row;
  sessions : list (session_id * user_row)   (** newest binding first *)
}.

(** What a login redirects to. *)
Inductive login_result := LoginOk | LoginFailed.

Inductive check_answer := CheckIn (u : user_row) | CheckOut.

(** ** Server *)

(** The verify callback: [SELECT * FROM users WHERE discord_id = $1 AND
    is_active = true]; none: [done(null, false)]; else [UPDATE users SET
    username=$1 WHERE discord_id=$2] and [done(null, user)] with the row
    read before the UPDATE. *)
Definition verify (p : profile) (d : adb) : option user_row * adb :=
  match filter (fun r => ur_discord_id r = pr_id p /\ ur_is_active r = true) (users d) with
  | [] => (None, d)
  | r :: _ =>
      (Some r,
       mk_adb (map_where (fun r' => bool_decide (ur_discord_id r' = pr_id p))
                 (fun r' => mk_user_row (ur_id r') (ur_discord_id r') (pr_username p) (ur_avatar r')
                                        (ur_is_active r') (ur_role r')) (users d))
              (sessions d))
  end.

(** [passport.authenticate("discord", { failureRedirect: "/" })] on the
    callback: on success the user object is serialized into the session. *)
Definition login (sid : session_id) (p : profile) (d : adb) : login_result * adb :=
  match verify p d with
  | (None, d') => (LoginFailed, d')
  | (Some r, d') => (LoginOk, mk_adb (users d') ((sid, r) :: sessions d'))
  end.

Fixpoint session_lookup (sid : session_id) (l : list (session_id * user_row)) : option user_row :=
  match l with
  | [] => None
  | (s, u) :: l => if Nat.eqb s sid then Some u else session_lookup sid l
  end.

(** [deserializeUser]: the stored object, as it was stored. *)
Definition session_user (sid : session_id) (d : adb) : option user_row :=
  session_lookup sid (sessions d).

(** The [req.user] the feed and vault routes see. *)
Definition as_user (r : user_row) : user := mk_user (ur_id r) (ur_username r) (ur_avatar r).

Definition request_user (sid : session_id) (d : adb) : option user :=
  as_user <$> session_user sid d.

(** [req.logout()]: the session no longer carries a user. *)
Definition logout (sid : session_id) (d : adb) : adb :=
  mk_adb (users d) (filter (fun e => fst e <> sid) (sessions d)).

(** GET /api/auth/check *)
Definition check (sid : session_id) (d : adb) : check_answer :=
  match session_user sid d with Some u => CheckIn u | None => CheckOut end.

(** An administrator deactivating a user in the database (there is no
    route for it). *)
Definition deactivate (uid : user_key) (d : adb) : adb :=
  mk_adb (map_where (fun r => bool_decide (ur_id r = uid))
            (fun r => mk_user_row (ur_id r) (ur_discord_id r) (ur_username r) (ur_avatar r) false (ur_role r))
            (users d))
         (sessions d).

(** ** Client *)

(** [AuthProvider]: [setUser(res.data.user)] when logged in; a failed
    request leaves [user] null. *)
Definition context_user (a : option check_answer) : option user_row :=
  match a with Some (CheckIn u) => Some u | _ => None end.

(** [VaultWrapper]: [setIsLoggedIn(res.data.loggedIn)], [false] on error. *)
Definition wrapper_logged_in (a : option check_answer) : bool :=
  match a with Some (CheckIn _) => true | _ => false end.

(** [ProtectedRoute]: the page, or a redirect to [/login]. *)
Inductive shown := ShowPage | RedirectLogin.

Definition protected_route (logged_in : bool) : shown :=
  if logged_in then ShowPage else RedirectLogin.

(** ** Theorems *)

(** The author of a post created by [u] is [u]'s username. *)
Lemma create_post_author u fid t fd row :
  fst (create_post (Some u) fid t fd) = Reply 201 (BPost row) -> feed_author row = user_username u.
Proof.
  unfold create_post, ensure_auth, handle, catch_500, try_catch, bind, ret, throw, opt_trim.
  destruct t; simpl; try discriminate.
  destruct (String.eqb (trim s) ""); simpl; [discriminate|].
  unfold insert_feed. destruct (decide _); simpl; [discriminate|]. by intros [= <-].
Qed.

Lemma verify_found p d r :
  NoDup (map ur_discord_id (users d)) -> r ∈ users d ->
  ur_discord_id r = pr_id p -> ur_is_active r = true ->
  fst (verify p d) = Some r.
Proof.
  intros Hnd Hin Hid Hact. unfold verify.
  assert (filter (fun r' => ur_discord_id r' = pr_id p /\ ur_is_active r' = true) (users d) = [r]) as ->.
  { rewrite <- Hid. rewrite (filter_ext_in _ (fun r' => ur_discord_id r' = ur_discord_id r)).
    - by apply (filter_key_single ur_discord_id).
    - intros x Hx. split; [tauto|]. intros Heq. split; [done|].
      by rewrite (NoDup_map_same_key ur_discord_id (users d) x r). }
  done.
Qed.

(** [C35] A user whose Discord username changed since the last login is
    logged in under the old name: the verify callback renames the row,
    but hands passport the row it read before the UPDATE, and that object
    is what the session keeps.  A post made in that session is authored
    by the old name, although the table already has the new one. *)
Theorem login_stale_username sid p d r fid t fd row :
  NoDup (map ur_discord_id (users d)) -> r ∈ users d ->
  ur_discord_id r = pr_id p -> ur_is_active r = true ->
  let d' := snd (login sid p d) in
  fst (login sid p d) = LoginOk /\
  session_user sid d' = Some r /\
  (exists r', r' ∈ users d' /\ ur_id r' = ur_id r /\ ur_username r' = pr_username p) /\
  (fst (create_post (request_user sid d') fid t fd) = Reply 201 (BPost row) ->
   feed_author row = ur_username r).
Proof.
  intros Hnd Hin Hid Hact d'.
  pose proof (verify_found p d r Hnd Hin Hid Hact) as Hv.
  unfold d', login. destruct (verify p d) as [[r0|] dv] eqn:E; simpl in Hv; [|discriminate].
  injection Hv as ->. simpl. unfold session_user. simpl. rewrite Nat.eqb_refl.
  split; [done|]. split; [done|]. split.
  - unfold verify in E. destruct (filter _ _) as [|r1 l]; [discriminate|].
    injection E as -> <-. simpl.
    exists (mk_user_row (ur_id r) (ur_discord_id r) (pr_username p) (ur_avatar r) (ur_is_active r) (ur_role r)).
    split; [|done]. unfold map_where. apply list_elem_of_fmap. exists r. split; [|done].
    by rewrite bool_decide_true.
  - unfold request_user, session_user. simpl. rewrite Nat.eqb_refl. simpl.
    exact (create_post_author (as_user r) fid t fd row).
Qed.

(** [C36] Deactivating a user does not end the sessions it has: the
    session still carries the user object, [/auth/check] still reports it
    logged in, and the feed and vault routes still see it as [req.user];
    only a new login is refused. *)
Theorem deactivated_session_persists sid sid' p d r :
  session_user sid d = Some r -> ur_discord_id r = pr_id p ->
  NoDup (map ur_id (users d)) -> NoDup (map ur_discord_id (users d)) ->
  let d' := deactivate (ur_id r) d in
  session_user sid d' = Some r /\ check sid d' = CheckIn r /\
  request_user sid d' = Some (as_user r) /\
  (Forall (fun r' => ur_discord_id r' = pr_id p -> ur_id r' = ur_id r) (users d) ->
   fst (login sid' p d') = LoginFailed).
Proof.
  intros Hs Hid Hnd1 Hnd2 d'. unfold d', check, request_user, session_user in *. simpl.
  rewrite Hs. split; [done|]. split; [done|]. split; [done|].
  intros Hall. unfold login, verify. simpl.
  rewrite filter_none; [done|]. unfold map_where. apply Forall_forall.
  intros x Hx [Hxid Hxact]. apply list_elem_of_fmap in Hx as (y & -> & Hy).
  rewrite Forall_forall in Hall. case_bool_decide as Hyr; [discriminate|].
  apply Hyr, Hall; [done|exact Hxid].
Qed.

(** ** Concrete runs *)

Definition alice_row : user_row := mk_user_row "alice" "d-1001" "Alice" (Some "a1") true "admin".
Definition bob_row : user_row := mk_user_row "bob" "d-1002" "Bob" None true "member".
Definition ex_adb : adb := mk_adb [alice_row; bob_row] [].
Definition renamed : profile := mk_profile "d-1001" "AliceTheGreat".

Lemma login_stale_username_witness :
  let d' := snd (login 7 renamed ex_adb) in
  fst (login 7 renamed ex_adb) = LoginOk /\
  session_user 7 d' = Some alice_row /\
  (exists r', r' ∈ users d' /\ ur_id r' = ur_id alice_row /\ ur_username r' = pr_username renamed) /\
  (fst (create_post (request_user 7 d') 50%N (JStr "gg") ex_db) = Reply 201 (BPost (ex_post 1)) ->
   feed_author (ex_post 1) = ur_username alice_row).
Proof. apply login_stale_username; [by_eval|by left|reflexivity|reflexivity]. Defined.

Lemma deactivated_session_persists_witness :
  let d := snd (login 7 renamed ex_adb) in
  let d' := deactivate (ur_id alice_row) d in
  session_user 7 d' = Some alice_row /\ check 7 d' = CheckIn alice_row /\
  request_user 7 d' = Some (as_user alice_row) /\
  (Forall (fun r' => ur_discord_id r' = pr_id renamed -> ur_id r' = ur_id alice_row) (users d) ->
   fst (login 8 renamed d') = LoginFailed).
Proof. apply deactivated_session_persists; [reflexivity|reflexivity|by_eval|by_eval]. Defined.

End Auth.
