(* ===== verification/CrewCreate.v ===== *)
(** * CrewCreate: the crew creation form (CreateCrew.tsx)

    [components/CreateCrew.tsx] keeps a camelCase [form] object, edits
    it with [handleChange] (every input, the [type="number"] ones
    included, writes the string [e.target.value]), with
    [handleFunFactChange], [addFunFact] and [removeFunFact], and POSTs
    it to [/api/crew], whose create route reads exactly those camelCase
    keys ([Crew.create_member]).  The router mounts the page only at
    [/crew/create], without an [:id], so its edit branch ([isEdit]) is
    never taken; it is not modelled.

    A numeric field holds the JavaScript number of the initial state or
    the text the number input gave; Postgres reads either for an
    [integer] column, and refuses a text that is not an integer
    ([pg_int_text]).

    Theorem: the create route accepts the
    form exactly when every numeric input holds a 32-bit integer, and
    then stores what was typed; a cleared or fractional input makes the
    save fail with a generic alert. *)

From Stdlib Require Import ZArith Lia Ascii String.
From stdpp Require Import base list strings pretty.
From S2P Require Import Prelude Db FeedServer Auth Crew.

Module CrewCreate.
Import Crew Auth.

(** ** Postgres reading a text as an [integer] *)

Definition digit_value (c : ascii) : option Z :=
  let n := nat_of_ascii c in
  if (48 <=? n) && (n <=? 57) then Some (Z.of_nat (n - 48)) else None.

Fixpoint digits_value (acc : Z) (s : string) : option Z :=
  match s with
  | EmptyString => Some acc
  | String c s' => match digit_value c with Some d => digits_value (10 * acc + d) s' | None => None end
  end.

(** [int4in] on the texts a number input holds: an optional sign and at
    least one decimal digit ([""], ["2.5"] and ["1e3"] are refused; the
    white space and the [0x]/[_] forms Postgres also reads never come
    out of a number input).  The range is checked by [Crew.pg_int]. *)
Definition pg_int_text (s : string) : ival :=
  let '(sign, ds) :=
    match s with
    | String c ds =>
        if Ascii.eqb c "-" then ((-1)%Z, ds) else if Ascii.eqb c "+" then (1%Z, ds) else (1%Z, s)
    | EmptyString => (1%Z, s)
    end in
  match ds with
  | EmptyString => IBad
  | _ => match digits_value 0 ds with Some n => IInt (sign * n) | None => IBad end
  end.

(** ** The form *)

(** A numeric field: the JavaScript number of the initial state, or the
    string [handleChange] stored. *)
Inductive num_value := NumInit (z : Z) | NumText (s : string).

Record create_form := mk_create_form {
  cc_name : string;
  cc_nickname : string;
  cc_avatar : string;
  cc_role : string;
  cc_panic_level : num_value;
  cc_specialty : string;
  cc_famous_for : string;
  cc_fun_facts : list sqltext;
  cc_games_played : num_value;
  cc_deaths : num_value
}.

Definition initial_create_form : create_form :=
  mk_create_form "" "" "" "" (NumInit 5) "" "" [Some ""] (NumInit 0) (NumInit 0).

(** The [name] of an input. *)
Inductive create_field :=
| CCName | CCNickname | CCAvatar | CCRole | CCPanicLevel | CCSpecialty | CCFamousFor
| CCGamesPlayed | CCDeaths.

Inductive create_edit :=
| CCChange (f : create_field) (v : string)     (** [handleChange] *)
| CCFact (i : nat) (v : string)                (** [handleFunFactChange] *)
| CCAddFact                                    (** [addFunFact] *)
| CCRemoveFact (i : nat).                      (** [removeFunFact] *)

Definition set_cc_facts (xs : list sqltext) (f : create_form) : create_form :=
  mk_create_form (cc_name f) (cc_nickname f) (cc_avatar f) (cc_role f) (cc_panic_level f)
    (cc_specialty f) (cc_famous_for f) xs (cc_games_played f) (cc_deaths f).

(** [setForm(prev => ({ ...prev, [name]: value }))] *)
Definition set_cc_field (fld : create_field) (v : string) (f : create_form) : create_form :=
  let n := NumText v in
  match fld with
  | CCName => mk_create_form v (cc_nickname f) (cc_avatar f) (cc_role f) (cc_panic_level f) (cc_specialty f) (cc_famous_for f) (cc_fun_facts f) (cc_games_played f) (cc_deaths f)
  | CCNickname => mk_create_form (cc_name f) v (cc_avatar f) (cc_role f) (cc_panic_level f) (cc_specialty f) (cc_famous_for f) (cc_fun_facts f) (cc_games_played f) (cc_deaths f)
  | CCAvatar => mk_create_form (cc_name f) (cc_nickname f) v (cc_role f) (cc_panic_level f) (cc_specialty f) (cc_famous_for f) (cc_fun_facts f) (cc_games_played f) (cc_deaths f)
  | CCRole => mk_create_form (cc_name f) (cc_nickname f) (cc_avatar f) v (cc_panic_level f) (cc_specialty f) (cc_famous_for f) (cc_fun_facts f) (cc_games_played f) (cc_deaths f)
  | CCPanicLevel => mk_create_form (cc_name f) (cc_nickname f) (cc_avatar f) (cc_role f) n (cc_specialty f) (cc_famous_for f) (cc_fun_facts f) (cc_games_played f) (cc_deaths f)
  | CCSpecialty => mk_create_form (cc_name f) (cc_nickname f) (cc_avatar f) (cc_role f) (cc_panic_level f) v (cc_famous_for f) (cc_fun_facts f) (cc_games_played f) (cc_deaths f)
  | CCFamousFor => mk_create_form (cc_name f) (cc_nickname f) (cc_avatar f) (cc_role f) (cc_panic_level f) (cc_specialty f) v (cc_fun_facts f) (cc_games_played f) (cc_deaths f)
  | CCGamesPlayed => mk_create_form (cc_name f) (cc_nickname f) (cc_avatar f) (cc_role f) (cc_panic_level f) (cc_specialty f) (cc_famous_for f) (cc_fun_facts f) n (cc_deaths f)
  | CCDeaths => mk_create_form (cc_name f) (cc_nickname f) (cc_avatar f) (cc_role f) (cc_panic_level f) (cc_specialty f) (cc_famous_for f) (cc_fun_facts f) (cc_games_played f) n
  end.

Definition apply_create_edit (f : create_form) (e : create_edit) : create_form :=
  match e with
  | CCChange fld v => set_cc_field fld v f
  | CCFact i v => set_cc_facts (js_set None i (Some v) (cc_fun_facts f)) f
  | CCAddFact => set_cc_facts (cc_fun_facts f ++ [Some ""]) f
  | CCRemoveFact i => set_cc_facts (remove_index i (cc_fun_facts f)) f
  end.

(** What Postgres makes of a numeric field sent in the JSON body. *)
Definition ival_of_num (n : num_value) : ival :=
  match n with NumInit z => IInt z | NumText s => pg_int_text s end.

(** [api.post("/crew", form)] as the create route destructures it. *)
Definition create_crew_body (f : create_form) : crew_body :=
  mk_crew_body (Some (cc_name f)) (Some (cc_nickname f)) (Some (cc_avatar f)) (Some (cc_role f))
    (ival_of_num (cc_panic_level f)) (Some (cc_specialty f)) (Some (cc_famous_for f))
    (Some (cc_fun_facts f)) (ival_of_num (cc_games_played f)) (ival_of_num (cc_deaths f)).

(** [handleSubmit]: [alert("Member created!")] and [navigate("/crew")]
    after a 2xx answer, [alert("Failed to save member")] otherwise. *)
Inductive save_outcome := SavedGoToCrew | SaveAlerted | SavePending.

Definition save_outcome_of (r : response cbody) : save_outcome :=
  match r with
  | Reply c _ => if http_ok c then SavedGoToCrew else SaveAlerted
  | NoReply => SavePending
  end.

(** The hooks of a render: [useContext], [useNavigate], [useParams], and
    the two [useState]s and the [useEffect] only past the admin check. *)
Definition create_crew_hooks (admin : bool) : list hook :=
  [UseContext; UseNavigate; UseParams] ++ (if admin then [UseState; UseState; UseEffect] else []).

(** ** What the form sends *)

(** The integer a numeric field stores, if the [integer] column takes it. *)
Definition num_int (n : num_value) : option Z :=
  match ival_of_num n with IInt z => if int4_range z then Some z else None | _ => None end.

(** The row the create route inserts for the form, if Postgres reads
    every numeric field. *)
Definition form_row (f : create_form) (id : Z) (upd : option nat) : option crew_row :=
  match num_int (cc_panic_level f), num_int (cc_games_played f), num_int (cc_deaths f) with
  | Some p, Some g, Some k =>
      Some (mk_crew id (Some (cc_name f)) (Some (cc_nickname f)) (Some (cc_avatar f)) (Some (cc_role f))
              (Some p) (Some (cc_specialty f)) (Some (cc_famous_for f)) (Some (cc_fun_facts f))
              (Some g) (Some k) upd)
  | _, _, _ => None
  end.

(** ** What Postgres reads from the form *)

(** A numeric field of the form is never sent as [null]. *)
Lemma ival_of_num_not_null n : ival_of_num n <> INull.
Proof. destruct n as [z|s]; simpl; [done|]. unfold pg_int_text. by repeat case_match. Qed.

(** Postgres reads the body of the form as the row [form_row] says. *)
Lemma row_of_create_body f id upd : row_of_body id (create_crew_body f) upd = form_row f id upd.
Proof.
  unfold row_of_body, form_row, num_int, create_crew_body. cbn [cb_panic_level cb_games_played cb_deaths].
  pose proof (ival_of_num_not_null (cc_panic_level f)) as H1.
  pose proof (ival_of_num_not_null (cc_games_played f)) as H2.
  pose proof (ival_of_num_not_null (cc_deaths f)) as H3.
  destruct (ival_of_num (cc_panic_level f)) as [|p|]; [done| |done]; simpl; destruct (int4_range p); [|done];
  destruct (ival_of_num (cc_games_played f)) as [|g|]; try done; simpl; destruct (int4_range g); try done;
  destruct (ival_of_num (cc_deaths f)) as [|k|]; try done; simpl; by destruct (int4_range k).
Qed.

(** [C27] The create route takes the form exactly when Postgres reads
    each numeric input as a 32-bit integer: then (the table's check
    passing) it stores a member with every field as typed and the page
    goes back to [/crew]; otherwise (an input cleared to [""], a
    fraction, a value out of range) it answers 500 "Failed to create
    member", the table and its sequence unchanged, and the page alerts. *)
Theorem create_crew_types sch d f :
  (crew_seq d < 2 ^ 31)%Z ->
  let upd := if updated_at_default sch then Some (cnow d) else None in
  (form_row f (crew_seq d) upd = None ->
   create_member sch (create_crew_body f) d = (Reply 500 (CMessage "Failed to create member"), d) /\
   save_outcome_of (Reply 500 (CMessage "Failed to create member")) = SaveAlerted) /\
  (forall r, form_row f (crew_seq d) upd = Some r -> crew_check sch r = true ->
   create_member sch (create_crew_body f) d
     = (Reply 200 (CRow r), mk_cdb (members d ++ [r]) (crew_seq d + 1) (cnow d)) /\
   save_outcome_of (Reply 200 (CRow r)) = SavedGoToCrew).
Proof.
  intros Hlt upd.
  unfold create_member, chandle, catch_crew, try_catch, bind, ret, insert_member.
  rewrite row_of_create_body. fold upd. split.
  - by intros ->.
  - intros r -> Hc. rewrite (proj2 (Z.ltb_lt _ _) Hlt). simpl. by rewrite Hc.
Qed.

(** ** Concrete runs *)

(** A schema whose check wants a name. *)
Definition ccsch : cschema :=
  mk_cschema (fun r => match crew_name r with Some (String _ _) => true | _ => false end) false.

Definition ex_ccdb : cdb := mk_cdb [] 1 9.

(** The admin types a name, raises the panic level, adds a fact, and
    clears the deaths input. *)
Definition cleared_deaths : create_form :=
  fold_left apply_create_edit
    [CCChange CCName "Rina"; CCChange CCPanicLevel "9"; CCFact 0 "hates ghosts"; CCChange CCDeaths ""]
    initial_create_form.

Lemma create_crew_types_witness :
  let upd := if updated_at_default ccsch then Some (cnow ex_ccdb) else None in
  (form_row cleared_deaths (crew_seq ex_ccdb) upd = None ->
   create_member ccsch (create_crew_body cleared_deaths) ex_ccdb
     = (Reply 500 (CMessage "Failed to create member"), ex_ccdb) /\
   save_outcome_of (Reply 500 (CMessage "Failed to create member")) = SaveAlerted) /\
  (forall r, form_row cleared_deaths (crew_seq ex_ccdb) upd = Some r -> crew_check ccsch r = true ->
   create_member ccsch (create_crew_body cleared_deaths) ex_ccdb
     = (Reply 200 (CRow r), mk_cdb (members ex_ccdb ++ [r]) (crew_seq ex_ccdb + 1) (cnow ex_ccdb)) /\
   save_outcome_of (Reply 200 (CRow r)) = SavedGoToCrew).
Proof. apply create_crew_types. simpl. lia. Defined.

(** The cleared input is what makes the save fail. *)
Example cleared_deaths_refused :
  form_row cleared_deaths 1 None = None /\
  form_row (apply_create_edit cleared_deaths (CCChange CCDeaths "0")) 1 None
    = Some (mk_crew 1 (Some "Rina") (Some "") (Some "") (Some "") (Some 9%Z) (Some "") (Some "")
              (Some [Some "hates ghosts"]) (Some 0%Z) (Some 0%Z) None).
Proof. split; reflexivity. Qed.

End CrewCreate.
