(* ===== verification/GameViews.v ===== *)
(** * GameViews: the game pages of the client

    [components/GamesHall.tsx] lists the games of [GET /api/games] and
    deletes one on an admin's click; [components/GameDetail.tsx] shows
    one game with its quotes and notes; [components/CreateGame.tsx] and
    [components/EditGame.tsx] are the admin forms that POST and PUT a
    game.  Each view reads the user [AuthContext] got from
    [/auth/check] ([Auth.context_user]); the admin pages render
    "Forbidden" unless its role is ["admin"].

    A view's state is a record; an event handler is a function on it; the
    answer of the request a handler sends is an input, which the theorems
    take from the routes of [Games].

    Theorems: the hall's removal of a deleted game is what a reload of
    the hall shows, whatever order the two [ORDER BY created_at DESC]
    give when the timestamps are distinct; the hall shows no quotes for any game, while the
    detail page of the same game shows all of them; a game created from
    the form opens on its detail page with what was typed (an untouched
    form creates an empty quote and an empty note); the editor's save,
    with the image untouched, erases the image. *)

From Stdlib Require Import ZArith Lia Ascii String.
From stdpp Require Import base list strings pretty.
From S2P Require Import Prelude Db FeedServer Auth Games.

Module GameViews.
Import Games Auth.

(** ** The admin check *)

(** [user?.role === "admin"] *)
Definition is_admin (u : option user_row) : bool :=
  match u with Some r => String.eqb (ur_role r) "admin" | None => false end.

(** [if (!user || user.role !== "admin") return <p>Forbidden</p>] *)
Inductive admin_page := PageForbidden | PageForm.

Definition admin_page_of (u : option user_row) : admin_page :=
  if is_admin u then PageForm else PageForbidden.

(** The hooks of a render of [CreateGame]: [useNavigate], [useContext],
    and its [useState] only past the admin check. *)
Definition create_game_hooks (admin : bool) : list hook :=
  [UseNavigate; UseContext] ++ (if admin then [UseState] else []).

(** The hooks of a render of [EditGame]: [useParams], [useNavigate],
    [useContext], then past the admin check two [useState]s and a
    [useEffect]. *)
Definition edit_game_hooks (admin : bool) : list hook :=
  [UseParams; UseNavigate; UseContext] ++ (if admin then [UseState; UseState; UseEffect] else []).

(** ** The hall (GamesHall.tsx) *)

(** An object of the [games] state: the row and its [quotes] key, if it
    has one. *)
Record game_json := mk_game_json {
  gj_row : game_row;
  gj_quotes : option (list sqltext)
}.

(** [res.data] of [GET /games]: the rows of [SELECT * FROM games], which
    have no [quotes] key.  The route answers 2xx only with [GGames]. *)
Definition hall_objects (b : gbody) : list game_json :=
  match b with GGames gs => map (fun g => mk_game_json g None) gs | _ => [] end.

Record hall := mk_hall {
  hall_games : list game_json;
  hall_loading : bool
}.

Definition hall_initial : hall := mk_hall [] true.

(** [fetchGames]: [setGames(res.data)] on a 2xx answer, the error logged
    otherwise, and [setLoading(false)] in [finally]. *)
Definition hall_fetched (r : response gbody) (h : hall) : hall :=
  match r with
  | Reply c b => mk_hall (if http_ok c then hall_objects b else hall_games h) false
  | NoReply => h
  end.

(** [handleDelete(id)] once [confirm] said yes and the DELETE resolved:
    [setGames(games.filter(g => g.id !== id))]; a rejected request only
    alerts. *)
Definition hall_deleted (id : Z) (r : response gbody) (h : hall) : hall :=
  match r with
  | Reply c _ =>
      if http_ok c then mk_hall (filter (fun o => game_id (gj_row o) <> id) (hall_games h)) (hall_loading h)
      else h
  | NoReply => h
  end.

(** [{game.quotes?.length || 0} quotes] *)
Definition quote_count (o : game_json) : nat :=
  match gj_quotes o with Some qs => length qs | None => 0 end.

Record hall_card := mk_hall_card {
  hc_id : Z;
  hc_status : sqltext;
  hc_name : sqltext;
  hc_description : sqltext;
  hc_fun_fact : sqltext;
  hc_image : sqltext;
  hc_quotes : nat;
  hc_delete : bool        (** the Delete button *)
}.

Definition hall_card_of (u : option user_row) (o : game_json) : hall_card :=
  let g := gj_row o in
  mk_hall_card (game_id g) (game_status g) (game_name g) (game_description g) (game_fun_fact g)
    (game_image g) (quote_count o) (is_admin u).

Record hall_view := mk_hall_view {
  hv_total : nat;             (** "Total Games" *)
  hv_add_button : bool;       (** "+ Tambah Game" *)
  hv_cards : list hall_card
}.

(** The page, once [loading] is false. *)
Definition render_hall (u : option user_row) (h : hall) : option hall_view :=
  if hall_loading h then None
  else Some (mk_hall_view (length (hall_games h)) (is_admin u) (map (hall_card_of u) (hall_games h))).

(** ** The detail page (GameDetail.tsx) *)

Inductive detail_view :=
| DetailLoading
| DetailMissing                         (** "Game tidak ditemukan" *)
| DetailShown (b : gbody) (edit_button : bool).

(** [fetchGame]: [setGame(res.data)] on a 2xx answer, [setGame(null)]
    otherwise; [loading] stays true while no answer came. *)
Definition game_detail (u : option user_row) (r : response gbody) : detail_view :=
  match r with
  | Reply c b => if http_ok c then DetailShown b (is_admin u) else DetailMissing
  | NoReply => DetailLoading
  end.

(** [game.quotes?.map(...)] and [game.notes?.map(...)] *)
Definition detail_quotes (v : detail_view) : list sqltext :=
  match v with DetailShown (GDetail _ qs _) _ => qs | _ => [] end.

Definition detail_notes (v : detail_view) : list sqltext :=
  match v with DetailShown (GDetail _ _ ns) _ => ns | _ => [] end.

(** A hall card is a [<Link to={`/games/${game.id}`}>]. *)
Definition hall_card_path (c : hall_card) : list string := ["games"; pretty (hc_id c)].

(** The header of the detail page: name, status, description, fun fact. *)
Definition detail_header (v : detail_view) : option (sqltext * sqltext * sqltext * sqltext) :=
  match v with
  | DetailShown (GDetail g _ _) _ => Some (game_name g, game_status g, game_description g, game_fun_fact g)
  | _ => None
  end.

(** The admin's Edit button: [navigate(`/games/edit/${game.id}`)]. *)
Definition detail_edit_path (v : detail_view) : option (list string) :=
  match v with
  | DetailShown (GDetail g _ _) true => Some ["games"; "edit"; pretty (game_id g)]
  | _ => None
  end.

(** ** The inputs of the game forms *)

(** The [name] of an input [handleChange] writes to. *)
Inductive form_field := FName | FDescription | FStatus | FFunFact | FImageUrl.

Inductive form_edit :=
| EChange (f : form_field) (v : string)          (** [handleChange] *)
| EArrayChange (t : text_table) (i : nat) (v : string)   (** [handleArrayChange] *)
| EAddItem (t : text_table)                      (** [addArrayItem] *)
| ERemoveItem (t : text_table) (i : nat).        (** [removeArrayItem] *)

(** ** The create form (CreateGame.tsx) *)

(** The [form] state; a hole an out-of-range [arr[index] = value] leaves
    in a list is [None], which [JSON.stringify] sends as [null]. *)
Record new_game_form := mk_new_game_form {
  ng_name : string;
  ng_description : string;
  ng_status : string;
  ng_fun_fact : string;
  ng_image_url : string;
  ng_quotes : list sqltext;
  ng_notes : list sqltext
}.

Definition initial_new_game_form : new_game_form :=
  mk_new_game_form "" "" "" "" "" [Some ""] [Some ""].

Definition ng_list (t : text_table) (f : new_game_form) : list sqltext :=
  match t with Quotes => ng_quotes f | Notes => ng_notes f end.

Definition set_ng_list (t : text_table) (xs : list sqltext) (f : new_game_form) : new_game_form :=
  match t with
  | Quotes => mk_new_game_form (ng_name f) (ng_description f) (ng_status f) (ng_fun_fact f) (ng_image_url f) xs (ng_notes f)
  | Notes => mk_new_game_form (ng_name f) (ng_description f) (ng_status f) (ng_fun_fact f) (ng_image_url f) (ng_quotes f) xs
  end.

Definition set_ng_field (fld : form_field) (v : string) (f : new_game_form) : new_game_form :=
  match fld with
  | FName => mk_new_game_form v (ng_description f) (ng_status f) (ng_fun_fact f) (ng_image_url f) (ng_quotes f) (ng_notes f)
  | FDescription => mk_new_game_form (ng_name f) v (ng_status f) (ng_fun_fact f) (ng_image_url f) (ng_quotes f) (ng_notes f)
  | FStatus => mk_new_game_form (ng_name f) (ng_description f) v (ng_fun_fact f) (ng_image_url f) (ng_quotes f) (ng_notes f)
  | FFunFact => mk_new_game_form (ng_name f) (ng_description f) (ng_status f) v (ng_image_url f) (ng_quotes f) (ng_notes f)
  | FImageUrl => mk_new_game_form (ng_name f) (ng_description f) (ng_status f) (ng_fun_fact f) v (ng_quotes f) (ng_notes f)
  end.

Definition apply_new_game_edit (f : new_game_form) (e : form_edit) : new_game_form :=
  match e with
  | EChange fld v => set_ng_field fld v f
  | EArrayChange t i v => set_ng_list t (js_set None i (Some v) (ng_list t f)) f
  | EAddItem t => set_ng_list t (ng_list t f ++ [Some ""]) f
  | ERemoveItem t i => set_ng_list t (remove_index i (ng_list t f)) f
  end.

(** [api.post("/games", form)] as the create route destructures it. *)
Definition new_game_body (f : new_game_form) : game_body :=
  mk_game_body (Some (ng_name f)) (Some (ng_description f)) (Some (ng_status f)) (Some (ng_fun_fact f))
    (Some (ng_image_url f)) (LArray (ng_quotes f)) (LArray (ng_notes f)).

(** What [handleSubmit] does with the answer: navigate to
    [/games/${res.data.id}] ([None] for an [id] the body lacks), alert,
    or wait. *)
Inductive create_outcome := CreatedGoTo (id : option Z) | CreateAlerted | CreatePending.

Definition create_outcome_of (r : response gbody) : create_outcome :=
  match r with
  | Reply c b => if http_ok c then CreatedGoTo (match b with GId id => Some id | _ => None end) else CreateAlerted
  | NoReply => CreatePending
  end.

(** ** The game editor (EditGame.tsx) *)

(** The [game] state object: the row and lists [GET /games/:id] sent,
    and the [image_url] key, absent until the image input changes (the
    input is named [image_url] but shows [game.image]). *)
Record game_form := mk_game_form {
  gf_row : game_row;
  gf_quotes : list sqltext;
  gf_notes : list sqltext;
  gf_image_url : option sqltext
}.

(** [setGame(res.data)]: a failed fetch leaves [game] null. *)
Definition load_form (r : response gbody) : option game_form :=
  match r with
  | Reply c (GDetail g qs ns) => if http_ok c then Some (mk_game_form g qs ns None) else None
  | _ => None
  end.

Definition set_row_field (f : form_field) (v : string) (g : game_row) : game_row :=
  match f with
  | FName => mk_game (game_id g) (Some v) (game_description g) (game_status g) (game_fun_fact g) (game_image g) (game_created_at g)
  | FDescription => mk_game (game_id g) (game_name g) (Some v) (game_status g) (game_fun_fact g) (game_image g) (game_created_at g)
  | FStatus => mk_game (game_id g) (game_name g) (game_description g) (Some v) (game_fun_fact g) (game_image g) (game_created_at g)
  | FFunFact => mk_game (game_id g) (game_name g) (game_description g) (game_status g) (Some v) (game_image g) (game_created_at g)
  | FImageUrl => g
  end.

Definition form_list (t : text_table) (f : game_form) : list sqltext :=
  match t with Quotes => gf_quotes f | Notes => gf_notes f end.

Definition set_form_list (t : text_table) (xs : list sqltext) (f : game_form) : game_form :=
  match t with
  | Quotes => mk_game_form (gf_row f) xs (gf_notes f) (gf_image_url f)
  | Notes => mk_game_form (gf_row f) (gf_quotes f) xs (gf_image_url f)
  end.

Definition apply_form_edit (f : game_form) (e : form_edit) : game_form :=
  match e with
  | EChange FImageUrl v => mk_game_form (gf_row f) (gf_quotes f) (gf_notes f) (Some (Some v))
  | EChange fld v => mk_game_form (set_row_field fld v (gf_row f)) (gf_quotes f) (gf_notes f) (gf_image_url f)
  | EArrayChange t i v => set_form_list t (js_set None i (Some v) (form_list t f)) f
  | EAddItem t => set_form_list t (form_list t f ++ [Some ""]) f
  | ERemoveItem t i => set_form_list t (remove_index i (form_list t f)) f
  end.

(** [api.put(`/games/${gameId}`, game)]: the route reads [image_url],
    not [image]. *)
Definition form_body (f : game_form) : game_body :=
  mk_game_body (game_name (gf_row f)) (game_description (gf_row f)) (game_status (gf_row f))
    (game_fun_fact (gf_row f))
    (match gf_image_url f with Some v => v | None => None end)
    (LArray (gf_quotes f)) (LArray (gf_notes f)).

Definition touches_image (e : form_edit) : bool :=
  match e with EChange FImageUrl _ => true | _ => false end.

(** [handleSubmit] of the editor: navigate to [/games/${gameId}] after
    a 2xx answer; a rejected request is only logged. *)
Inductive edit_outcome := EditedGoTo | EditLogged | EditPending.

Definition edit_outcome_of (r : response gbody) : edit_outcome :=
  match r with
  | Reply c _ => if http_ok c then EditedGoTo else EditLogged
  | NoReply => EditPending
  end.

(** ** Lemmas *)

Lemma load_form_image r f : load_form r = Some f -> gf_image_url f = None.
Proof.
  unfold load_form. destruct r as [c [] |]; try discriminate.
  destruct (http_ok c); [|discriminate]. by intros [= <-].
Qed.

Lemma edits_keep_image es f :
  Forall (fun e => touches_image e = false) es ->
  gf_image_url (fold_left apply_form_edit es f) = gf_image_url f.
Proof.
  revert f. induction es as [|e es IH]; intros f Hes; [done|].
  apply Forall_cons in Hes as [He Hes]. simpl. rewrite IH by done.
  destruct e as [[] v|[] i v|[]|[] i]; done.
Qed.

(** [C18] Saving the game editor without touching the image input erases
    the game's image: the form keeps the fetched image under [image],
    the input writes [image_url], and the route sets [image = $3] from
    [image_url], which is then [undefined], so NULL.  Any other edits of
    the name, texts, quotes or notes do not matter. *)
Theorem edit_game_erases_image sch d g img f es :
  games_wf sch d -> g ∈ games d -> game_image g = Some img ->
  load_form (fst (get_game (PInt (game_id g)) d)) = Some f ->
  Forall (fun e => touches_image e = false) es ->
  let b := form_body (fold_left apply_form_edit es f) in
  game_check sch (updated_game g b (gnow d)) = true ->
  forallb (text_check sch) (gf_quotes (fold_left apply_form_edit es f)) = true ->
  forallb (text_check sch) (gf_notes (fold_left apply_form_edit es f)) = true ->
  fst (update_game sch (PInt (game_id g)) b d) = Reply 200 (GGame (updated_game g b (gnow d))) /\
  filter (fun g' => game_id g' = game_id g) (games (snd (update_game sch (PInt (game_id g)) b d)))
    = [updated_game g b (gnow d)] /\
  game_image (updated_game g b (gnow d)) = None.
Proof.
  intros Hwf Hin _ Hload Hes b Hc Hqc Hnc.
  assert (gb_image_url b = None) as Himg.
  { unfold b, form_body. rewrite edits_keep_image, (load_form_image _ _ Hload) by done. done. }
  destruct (update_game_existing_run sch b g d _ _ Hwf Hin Hc eq_refl eq_refl) as [H1 H2];
    [by intros ys [= <-]|by intros ys [= <-]|].
  split; [done|]. split; [done|]. exact Himg.
Qed.

(** ** The hall against the routes *)

Section Views.
Context (sch : gschema) (u : option user_row).

(** The hall as loaded from [d]. *)
Lemma hall_of_listing d :
  hall_fetched (fst (list_games d)) hall_initial
  = mk_hall (map (fun g => mk_game_json g None) (sort_by game_created_desc (games d))) false.
Proof. reflexivity. Qed.

(** With the model's order of [ORDER BY created_at DESC], the hall's
    own removal of a deleted game's card is the reloaded hall. *)
Lemma hall_delete_sorted d g :
  games_wf sch d -> g ∈ games d ->
  let h := hall_fetched (fst (list_games d)) hall_initial in
  let '(r, d') := delete_game sch (PInt (game_id g)) d in
  hall_deleted (game_id g) r h = hall_fetched (fst (list_games d')) hall_initial.
Proof.
  intros Hwf Hin h. rewrite delete_game_run by done. unfold h. rewrite !hall_of_listing.
  cbn -[sort_by]. f_equal. rewrite <- (map_filter_comm _ (fun g' => game_id g' <> game_id g)
    (fun o => game_id (gj_row o) <> game_id g)) by done.
  f_equal. apply filter_sort_by; [apply game_created_desc_total|apply game_created_desc_trans].
Qed.

(** The hall as a GET whose [ORDER BY] gave the rows [o]. *)
Definition hall_of_rows (o : list game_row) : hall :=
  hall_fetched (Reply 200 (GGames o)) hall_initial.

Lemma list_games_order_unique d o :
  NoDup (map game_created_at (games d)) -> order_by_desc game_created_at (games d) o ->
  hall_of_rows o = hall_fetched (fst (list_games d)) hall_initial.
Proof.
  intros Hnd Ho. rewrite hall_of_listing. unfold hall_of_rows. cbn.
  by rewrite (sort_by_desc_unique game_created_at _ _ Hnd Ho).
Qed.

(** [C22] Once the DELETE of a game succeeded, the hall's own removal of
    its card gives exactly what reloading the hall would show: the
    remaining games, newest first.  Each GET is its own query, whose
    [ORDER BY created_at DESC] may order games with equal timestamps as
    it likes; with distinct [created_at] this holds for every order the
    first load and the reload may get. *)
Theorem hall_delete_matches_reload d g o1 o2 :
  games_wf sch d -> g ∈ games d -> NoDup (map game_created_at (games d)) ->
  order_by_desc game_created_at (games d) o1 ->
  let '(r, d') := delete_game sch (PInt (game_id g)) d in
  order_by_desc game_created_at (games d') o2 ->
  hall_deleted (game_id g) r (hall_of_rows o1) = hall_of_rows o2.
Proof.
  intros Hwf Hin Hnd Ho1. pose proof (hall_delete_sorted d g Hwf Hin) as H. cbn zeta in H.
  rewrite (list_games_order_unique d o1 Hnd Ho1).
  destruct (delete_game sch (PInt (game_id g)) d) as [r d'] eqn:E. intros Ho2. rewrite H.
  rewrite delete_game_run in E by done. injection E as <- <-.
  symmetry. apply list_games_order_unique; [|done]. cbn. by apply NoDup_map_filter.
Qed.

(** [C23] The hall shows "0 quotes" on every card: the rows of
    [GET /games] have no [quotes] key, so [game.quotes?.length || 0] is 0;
    the detail page of the same game shows every one of its quotes. *)
Theorem hall_hides_quotes d g :
  games_wf sch d -> g ∈ games d ->
  (exists v, render_hall u (hall_fetched (fst (list_games d)) hall_initial) = Some v /\
     Exists (fun c => hc_id c = game_id g) (hv_cards v) /\
     Forall (fun c => hc_quotes c = 0) (hv_cards v)) /\
  detail_quotes (game_detail u (fst (get_game (PInt (game_id g)) d))) = texts_of Quotes (game_id g) d.
Proof.
  intros Hwf Hin. split.
  - rewrite hall_of_listing. eexists. split; [reflexivity|]. simpl. rewrite map_map. split.
    + apply Exists_exists. exists (hall_card_of u (mk_game_json g None)). split; [|done].
      apply list_elem_of_In, (in_map (fun x => hall_card_of u (mk_game_json x None))), list_elem_of_In.
      by rewrite (sort_by_perm game_created_desc).
    + apply Forall_map, Forall_true. done.
  - by rewrite (get_game_run sch).
Qed.

(** A game created from the form is answered with its new id, and
    the detail page the form navigates to shows the game as typed, with
    the form's quotes and notes in order (an untouched form has one empty
    quote and one empty note, and creates them). *)
Theorem created_game_detail d f :
  games_wf sch d -> texts_fk sch = true -> (game_seq d < 2 ^ 31)%Z ->
  game_check sch (new_game (game_seq d) (new_game_body f) (gnow d)) = true ->
  forallb (text_check sch) (ng_quotes f) = true -> forallb (text_check sch) (ng_notes f) = true ->
  let '(r, d') := create_game sch (new_game_body f) d in
  create_outcome_of r = CreatedGoTo (Some (game_seq d)) /\
  game_detail u (fst (get_game (PInt (game_seq d)) d'))
    = DetailShown (GDetail (new_game (game_seq d) (new_game_body f) (gnow d)) (ng_quotes f) (ng_notes f))
                  (is_admin u).
Proof.
  intros Hwf Hon Hlt Hg Hq Hn.
  rewrite (create_game_run sch _ d (ng_quotes f) (ng_notes f)) by done.
  split; [done|]. by rewrite (get_game_after_create sch).
Qed.
End Views.

(** ** Concrete runs *)

Definition alice_admin : option user_row := Some (mk_user_row "alice" "d-1001" "Alice" None true "admin").

Lemma edit_game_erases_image_witness :
  let f := mk_game_form phasmo [Some "I'm in the van"] [Some "bring salt"] None in
  let es := [EChange FName "Phasmophobia 2"; EAddItem Quotes] in
  let b := form_body (fold_left apply_form_edit es f) in
  fst (update_game sch_strict (PInt (game_id phasmo)) b ex_gdb)
    = Reply 200 (GGame (updated_game phasmo b (gnow ex_gdb))) /\
  filter (fun g' => game_id g' = game_id phasmo)
    (games (snd (update_game sch_strict (PInt (game_id phasmo)) b ex_gdb)))
    = [updated_game phasmo b (gnow ex_gdb)] /\
  game_image (updated_game phasmo b (gnow ex_gdb)) = None.
Proof.
  apply (edit_game_erases_image sch_strict ex_gdb phasmo "phasmo.png");
    [exact ex_gdb_wf|by left|reflexivity|reflexivity|repeat constructor|reflexivity..].
Defined.


Lemma hall_delete_matches_reload_witness :
  let o1 := sort_by game_created_desc (games ex_gdb) in
  let o2 := sort_by game_created_desc (games (snd (delete_game sch_strict (PInt (game_id phasmo)) ex_gdb))) in
  NoDup (map game_created_at (games ex_gdb)) /\
  hall_deleted (game_id phasmo) (fst (delete_game sch_strict (PInt (game_id phasmo)) ex_gdb)) (hall_of_rows o1)
    = hall_of_rows o2.
Proof.
  intros o1 o2. assert (NoDup (map game_created_at (games ex_gdb))) as Hnd by by_eval.
  split; [exact Hnd|].
  pose proof (hall_delete_matches_reload sch_strict ex_gdb phasmo o1 o2 ex_gdb_wf ltac:(by left) Hnd
                (sort_by_order_by_desc game_created_at _)) as H.
  unfold o2 in *. destruct (delete_game sch_strict (PInt (game_id phasmo)) ex_gdb) as [r d'].
  exact (H (sort_by_order_by_desc game_created_at _)).
Defined.

Lemma hall_hides_quotes_witness :
  (exists v, render_hall alice_admin (hall_fetched (fst (list_games ex_gdb)) hall_initial) = Some v /\
     Exists (fun c => hc_id c = game_id phasmo) (hv_cards v) /\
     Forall (fun c => hc_quotes c = 0) (hv_cards v)) /\
  detail_quotes (game_detail alice_admin (fst (get_game (PInt (game_id phasmo)) ex_gdb)))
    = texts_of Quotes (game_id phasmo) ex_gdb.
Proof. apply (hall_hides_quotes sch_strict); [exact ex_gdb_wf|by left]. Defined.

(** The untouched create form: the new game opens with one empty quote
    and one empty note. *)
Lemma created_game_detail_witness :
  let '(r, d') := create_game sch_strict (new_game_body initial_new_game_form) ex_gdb in
  create_outcome_of r = CreatedGoTo (Some (game_seq ex_gdb)) /\
  game_detail alice_admin (fst (get_game (PInt (game_seq ex_gdb)) d'))
    = DetailShown (GDetail (new_game (game_seq ex_gdb) (new_game_body initial_new_game_form) (gnow ex_gdb))
                           [Some ""] [Some ""]) (is_admin alice_admin).
Proof.
  apply (created_game_detail sch_strict alice_admin ex_gdb initial_new_game_form);
    [exact ex_gdb_wf|reflexivity|simpl; lia|reflexivity..].
Defined.

End GameViews.
