(* ===== verification/Forms.v ===== *)
(** * Forms: the admin forms as the browser and React run them

    The admin forms ([CreateGame.tsx], [EditGame.tsx], [CreateCrew.tsx],
    [EditCrew.tsx]) render controlled inputs.  Each input has a [value]
    prop read from the form state and an [onChange] handler that writes
    the state: [handleChange] by the input's [name] attribute
    ([e.target.name]), the list handlers by the index they close over.
    What an input shows after the user edits it is decided by React,
    which reconciles the DOM text with the [value] prop of the new render.

    [FormPage] is the interface a form page offers: the inputs a state
    renders, each with its name, value prop and handler.  [shown_after f
    k t] is what input [k] shows once the user has made its text [t]: the
    handler runs on [t], the page renders the new state, React reconciles.
    The handlers are the ones of [GameViews] and [CrewCreate] and [Crew];
    this file adds the rendered inputs and the name dispatch.

    Theorems: in CreateGame, CreateCrew and EditCrew every input shows
    what was typed (EditCrew's number inputs show 0 once cleared, as
    [Number("")] is 0), so a sequence of edits acts on the input as on a
    plain text box; in EditGame every input does but the image input of
    a game that has an image: named [image_url] but showing [game.image],
    it keeps showing the stored image while each keystroke's text goes
    to [image_url], which the save writes.  The DOM runs of EditGame
    refine the edit model of [GameViews] ([edit_game_dom_refines]): each
    change event is the edit of the field its label names, so saving
    after typing anywhere but in the image input sends no image. *)

From Stdlib Require Import ZArith Lia Ascii String.
From stdpp Require Import base list strings pretty.
From S2P Require Import Prelude Db FeedServer Auth Games Crew CrewCreate GameViews.

Module Forms.
Import Games Crew CrewCreate GameViews.

(** ** React's controlled inputs *)

(** The [value] prop: a string, [null] or [undefined] ([VText None],
    which leaves the input uncontrolled), or a number. *)
Inductive vprop := VText (v : option string) | VNum (n : fnum).

(** [Number(text)] as the handlers call it.  Of its results only
    [Number("") = 0] matters here; the development holds for every
    conversion with that property. *)
#[export] Instance fnum_eq_dec : EqDecision fnum.
Proof. solve_decision. Defined.

Class JsNumber := {
  js_Number : string -> fnum;
  js_Number_empty : js_Number "" = FInt 0
}.

Section Reconcile.
Context `{JsNumber}.

(** ReactDOM's update of an input's DOM text [node] to the [value] prop
    of a render: a string replaces a different text; a number replaces
    it when [node != value] (the loose comparison reads [node] with
    [Number]) or when it is 0 and the text empty; [null] leaves the
    text.  A fraction or an infinite value only comes from the input's
    own text, which the comparison finds equal to it. *)
Definition reconcile (node : string) (p : vprop) : string :=
  match p with
  | VText None => node
  | VText (Some v) => v
  | VNum (FInt z) =>
      if bool_decide ((z = 0%Z /\ node = "") \/ js_Number node <> FInt z) then pretty z else node
  | VNum _ => node
  end.

End Reconcile.

(** An input of a page whose state is [F]: its [name] attribute ([None]
    for the inputs of a list), its [value] prop and its [onChange] on the
    new text. *)
Record input (F : Type) := mk_input {
  in_name : option string;
  in_value : vprop;
  in_change : string -> F -> F
}.
Arguments mk_input {F} _ _ _.
Arguments in_name {F} _.
Arguments in_value {F} _.
Arguments in_change {F} _ _ _.

(** The interface of a form page: the inputs a state renders, in
    document order. *)
Class FormPage (F : Type) := page_inputs : F -> list (input F).

(** [<input name={n} value={v} onChange={handleChange}>]: the handler
    reads the name from [e.target.name]. *)
Definition named {F} (n : string) (v : vprop) (h : string -> string -> F -> F) : input F :=
  mk_input (Some n) v (h n).

(** [xs.map((x, i) => <input value={x} onChange={e => h(i, e.target.value)}>)] *)
Definition list_inputs {F} (xs : list sqltext) (h : nat -> string -> F -> F) : list (input F) :=
  imap (fun i x => mk_input None (VText x) (h i)) xs.

Section Page.
Context `{JsNumber} {F : Type} `{FormPage F}.

(** The change event of input [k] with the text [t]. *)
Definition change_input (k : nat) (t : string) (f : F) : F :=
  match page_inputs f !! k with Some i => in_change i t f | None => f end.

(** What input [k] of the page of [f] shows when its DOM text is [t]. *)
Definition shown_in (f : F) (k : nat) (t : string) : option string :=
  (fun i => reconcile t (in_value i)) <$> page_inputs f !! k.

(** What input [k] shows once the user made its text [t]. *)
Definition shown_after (f : F) (k : nat) (t : string) : option string :=
  if decide (k < length (page_inputs f)) then shown_in (change_input k t f) k t else None.

(** Whether input [k] has a number as its [value]. *)
Definition is_number_input (f : F) (k : nat) : bool :=
  match page_inputs f !! k with Some i => match in_value i with VNum _ => true | VText _ => false end | None => false end.

(** The user edits the DOM text of input [k] ([e], e.g. appending a
    character); the pair is the state and that input's text. *)
Definition edit_input (k : nat) (e : string -> string) (p : F * string) : F * string :=
  let t := e (snd p) in
  let f' := change_input k t (fst p) in
  (f', default t (shown_in f' k t)).

End Page.

(** ** The game forms *)

(** The keys [handleChange] writes, by input name; another name would
    add a key that nothing reads. *)
Definition game_key (n : string) : option form_field :=
  if String.eqb n "name" then Some FName
  else if String.eqb n "description" then Some FDescription
  else if String.eqb n "status" then Some FStatus
  else if String.eqb n "fun_fact" then Some FFunFact
  else if String.eqb n "image_url" then Some FImageUrl
  else None.

(** CreateGame's [setForm({ ...form, [e.target.name]: e.target.value })] *)
Definition ng_handle_change (n v : string) (f : new_game_form) : new_game_form :=
  match game_key n with Some fld => apply_new_game_edit f (EChange fld v) | None => f end.

(** [handleArrayChange(type, i, e.target.value)] *)
Definition ng_list_change (tb : text_table) (i : nat) (v : string) (f : new_game_form) : new_game_form :=
  apply_new_game_edit f (EArrayChange tb i v).

(** CreateGame's five named inputs. *)
Definition ng_named (f : new_game_form) : list (input new_game_form) :=
  [named "name" (VText (Some (ng_name f))) ng_handle_change;
   named "description" (VText (Some (ng_description f))) ng_handle_change;
   named "status" (VText (Some (ng_status f))) ng_handle_change;
   named "fun_fact" (VText (Some (ng_fun_fact f))) ng_handle_change;
   named "image_url" (VText (Some (ng_image_url f))) ng_handle_change].

(** CreateGame's inputs: the named ones, then the quotes and the notes. *)
#[export] Instance create_game_page : FormPage new_game_form := fun f =>
  ng_named f ++ list_inputs (ng_quotes f) (ng_list_change Quotes) ++ list_inputs (ng_notes f) (ng_list_change Notes).

(** EditGame's [setGame({ ...game, [e.target.name]: e.target.value })] *)
Definition eg_handle_change (n v : string) (f : game_form) : game_form :=
  match game_key n with Some fld => apply_form_edit f (EChange fld v) | None => f end.

Definition eg_list_change (tb : text_table) (i : nat) (v : string) (f : game_form) : game_form :=
  apply_form_edit f (EArrayChange tb i v).

(** EditGame's named inputs: the image input is named [image_url] and
    shows [game.image]. *)
Definition eg_named (f : game_form) : list (input game_form) :=
  [named "name" (VText (game_name (gf_row f))) eg_handle_change;
   named "description" (VText (game_description (gf_row f))) eg_handle_change;
   named "status" (VText (game_status (gf_row f))) eg_handle_change;
   named "fun_fact" (VText (game_fun_fact (gf_row f))) eg_handle_change;
   named "image_url" (VText (game_image (gf_row f))) eg_handle_change].

#[export] Instance edit_game_page : FormPage game_form := fun f =>
  eg_named f ++ list_inputs (gf_quotes f) (eg_list_change Quotes) ++ list_inputs (gf_notes f) (eg_list_change Notes).

(** ** The crew forms *)

(** CreateCrew's keys, by input name (camelCase, as the create route
    reads them). *)
Definition crew_create_key (n : string) : option create_field :=
  if String.eqb n "name" then Some CCName
  else if String.eqb n "nickname" then Some CCNickname
  else if String.eqb n "avatar" then Some CCAvatar
  else if String.eqb n "role" then Some CCRole
  else if String.eqb n "panicLevel" then Some CCPanicLevel
  else if String.eqb n "specialty" then Some CCSpecialty
  else if String.eqb n "famousFor" then Some CCFamousFor
  else if String.eqb n "gamesPlayed" then Some CCGamesPlayed
  else if String.eqb n "deaths" then Some CCDeaths
  else None.

(** CreateCrew's [setForm(prev => ({ ...prev, [name]: value }))] *)
Definition cc_handle_change (n v : string) (f : create_form) : create_form :=
  match crew_create_key n with Some fld => apply_create_edit f (CCChange fld v) | None => f end.

(** [value={form.panicLevel}]: the initial number, or the string an edit
    stored. *)
Definition num_prop (n : num_value) : vprop :=
  match n with NumInit z => VNum (FInt z) | NumText s => VText (Some s) end.

(** [handleFunFactChange(i, e.target.value)] *)
Definition cc_fact_change (i : nat) (v : string) (f : create_form) : create_form :=
  apply_create_edit f (CCFact i v).

Definition cc_named (f : create_form) : list (input create_form) :=
  [named "name" (VText (Some (cc_name f))) cc_handle_change;
   named "nickname" (VText (Some (cc_nickname f))) cc_handle_change;
   named "avatar" (VText (Some (cc_avatar f))) cc_handle_change;
   named "role" (VText (Some (cc_role f))) cc_handle_change;
   named "panicLevel" (num_prop (cc_panic_level f)) cc_handle_change;
   named "specialty" (VText (Some (cc_specialty f))) cc_handle_change;
   named "famousFor" (VText (Some (cc_famous_for f))) cc_handle_change].

Definition cc_tail (f : create_form) : list (input create_form) :=
  [named "gamesPlayed" (num_prop (cc_games_played f)) cc_handle_change;
   named "deaths" (num_prop (cc_deaths f)) cc_handle_change].

(** CreateCrew's inputs: seven named ones, the fun facts, two more. *)
#[export] Instance create_crew_page : FormPage create_form := fun f =>
  cc_named f ++ list_inputs (cc_fun_facts f) cc_fact_change ++ cc_tail f.

(** EditCrew's keys: the text inputs and the number inputs. *)
Definition crew_text_key (n : string) : option crew_text_field :=
  if String.eqb n "name" then Some CFName
  else if String.eqb n "nickname" then Some CFNickname
  else if String.eqb n "avatar" then Some CFAvatar
  else if String.eqb n "role" then Some CFRole
  else if String.eqb n "specialty" then Some CFSpecialty
  else if String.eqb n "famous_for" then Some CFFamousFor
  else None.

Definition crew_num_key (n : string) : option crew_num_field :=
  if String.eqb n "panic_level" then Some CFPanicLevel
  else if String.eqb n "games_played" then Some CFGamesPlayed
  else if String.eqb n "deaths" then Some CFDeaths
  else None.

(** EditCrew's [handleChange]: [Number(value)] for the three number
    fields, [value] otherwise, at [[name]]. *)
Definition ec_handle_change `{JsNumber} (n v : string) (c : crew_form) : crew_form :=
  match crew_num_key n with
  | Some fld => apply_crew_edit c (CENum fld (js_Number v))
  | None => match crew_text_key n with Some fld => apply_crew_edit c (CEText fld v) | None => c end
  end.

(** [handleArrayChange(i, e.target.value)] *)
Definition ec_fact_change (i : nat) (v : string) (c : crew_form) : crew_form :=
  apply_crew_edit c (CEFact i v).

Definition ec_named `{JsNumber} (c : crew_form) : list (input crew_form) :=
  [named "name" (VText (cf_name c)) ec_handle_change;
   named "nickname" (VText (cf_nickname c)) ec_handle_change;
   named "avatar" (VText (cf_avatar c)) ec_handle_change;
   named "role" (VText (cf_role c)) ec_handle_change;
   named "panic_level" (VNum (cf_panic_level c)) ec_handle_change;
   named "specialty" (VText (cf_specialty c)) ec_handle_change;
   named "famous_for" (VText (cf_famous_for c)) ec_handle_change].

Definition ec_tail `{JsNumber} (c : crew_form) : list (input crew_form) :=
  [named "games_played" (VNum (cf_games_played c)) ec_handle_change;
   named "deaths" (VNum (cf_deaths c)) ec_handle_change].

(** EditCrew's inputs: seven named ones, the fun facts, two more. *)
#[export] Instance edit_crew_page `{JsNumber} : FormPage crew_form := fun c =>
  ec_named c ++ list_inputs (cf_fun_facts c) ec_fact_change ++ ec_tail c.

(** ** Lemmas *)

Lemma length_list_inputs {F} xs (h : nat -> string -> F -> F) : length (list_inputs xs h) = length xs.
Proof. apply length_imap. Qed.

Lemma lookup_app_plus {A} (l1 l2 : list A) i : (l1 ++ l2) !! (length l1 + i) = l2 !! i.
Proof. rewrite lookup_app_r by lia. f_equal. lia. Qed.

Lemma lookup_list_inputs {F} xs (h : nat -> string -> F -> F) i :
  list_inputs xs h !! i = (fun x => mk_input None (VText x) (h i)) <$> xs !! i.
Proof. apply list_lookup_imap. Qed.

Section Lemmas.
Context `{JsNumber} {F : Type} `{FormPage F}.

(** Input [k] exists: what it shows is what the page after its handler
    shows. *)
Lemma shown_after_change f k t x :
  page_inputs f !! k = Some x -> shown_after f k t = shown_in (in_change x t f) k t.
Proof.
  intros Hk. unfold shown_after, change_input. rewrite Hk.
  by rewrite decide_True by (apply lookup_lt_is_Some; by eexists).
Qed.

(** An input of a list block whose handler sets item [i] to the text
    shows the text. *)
Lemma lookup_block (pre post : F -> list (input F)) (L : F -> list sqltext)
    (h : nat -> string -> F -> F) f i :
  (forall g, page_inputs g = pre g ++ list_inputs (L g) h ++ post g) ->
  i < length (L f) ->
  exists x, page_inputs f !! (length (pre f) + i) = Some (mk_input None (VText x) (h i)).
Proof.
  intros Hp Hi. destruct (lookup_lt_is_Some_2 (L f) i Hi) as [x Hx]. exists x.
  rewrite Hp, lookup_app_plus, lookup_app_l by (rewrite length_list_inputs; lia).
  rewrite lookup_list_inputs. unfold sqltext in *. by rewrite Hx.
Qed.

Lemma lookup_at (pre post : F -> list (input F)) (x : F -> input F) f :
  (forall g, page_inputs g = pre g ++ x g :: post g) -> page_inputs f !! length (pre f) = Some (x f).
Proof. intros Hp. by rewrite Hp, <- (Nat.add_0_r (length _)), lookup_app_plus. Qed.

Lemma shown_after_block (pre post : F -> list (input F)) (L : F -> list sqltext)
    (h : nat -> string -> F -> F) f i t :
  (forall g, page_inputs g = pre g ++ list_inputs (L g) h ++ post g) ->
  i < length (L f) ->
  length (pre (h i t f)) = length (pre f) ->
  L (h i t f) = <[i := Some t]> (L f) ->
  shown_after f (length (pre f) + i) t = Some t.
Proof.
  intros Hp Hi Hpre HL. destruct (lookup_block pre post L h f i Hp Hi) as [x Hx].
  rewrite (shown_after_change _ _ _ _ Hx).
  unfold shown_in. cbn [in_change]. rewrite Hp, <- Hpre, lookup_app_plus.
  rewrite lookup_app_l by (rewrite length_list_inputs, HL, length_insert; lia).
  rewrite lookup_list_inputs, HL, list_lookup_insert_eq by done. done.
Qed.

(** The inputs of a list block have text values. *)
Lemma is_number_input_block (pre post : F -> list (input F)) (L : F -> list sqltext)
    (h : nat -> string -> F -> F) f k :
  (forall g, page_inputs g = pre g ++ list_inputs (L g) h ++ post g) ->
  length (pre f) <= k < length (pre f) + length (L f) -> is_number_input f k = false.
Proof.
  intros Hp Hk. destruct (lookup_block pre post L h f (k - length (pre f)) Hp ltac:(lia)) as [x Hx].
  unfold is_number_input. by replace k with (length (pre f) + (k - length (pre f))) by lia; rewrite Hx.
Qed.

(** The same, by the position of the input on the page. *)
Lemma shown_after_range (pre post : F -> list (input F)) (L : F -> list sqltext)
    (h : nat -> string -> F -> F) f k t :
  (forall g, page_inputs g = pre g ++ list_inputs (L g) h ++ post g) ->
  length (pre f) <= k < length (pre f) + length (L f) ->
  length (pre (h (k - length (pre f)) t f)) = length (pre f) ->
  L (h (k - length (pre f)) t f) = <[k - length (pre f) := Some t]> (L f) ->
  shown_after f k t = Some t.
Proof.
  intros Hp Hk Hpre HL. replace k with (length (pre f) + (k - length (pre f))) by lia.
  apply (shown_after_block pre post L h); auto with lia.
Qed.

(** A single input [x] after the inputs [pre]. *)
Lemma shown_after_at (pre post : F -> list (input F)) (x : F -> input F) f t :
  (forall g, page_inputs g = pre g ++ x g :: post g) ->
  length (pre (in_change (x f) t f)) = length (pre f) ->
  shown_after f (length (pre f)) t = Some (reconcile t (in_value (x (in_change (x f) t f)))).
Proof.
  intros Hp Hpre. rewrite (shown_after_change _ _ _ _ (lookup_at pre post x f Hp)).
  unfold shown_in. rewrite <- Hpre. by rewrite (lookup_at pre post x _ Hp).
Qed.

(** The change event of an input of a list block is its handler on
    its index. *)
Lemma change_input_block (pre post : F -> list (input F)) (L : F -> list sqltext)
    (h : nat -> string -> F -> F) f i t :
  (forall g, page_inputs g = pre g ++ list_inputs (L g) h ++ post g) ->
  i < length (L f) -> change_input (length (pre f) + i) t f = h i t f.
Proof.
  intros Hp Hi. destruct (lookup_block pre post L h f i Hp Hi) as [x Hx]. unfold change_input. by rewrite Hx.
Qed.

(** The last two inputs of a page. *)
Lemma shown_after_pair (pre : F -> list (input F)) (a b : F -> input F) f t :
  (forall g, page_inputs g = pre g ++ [a g; b g]) ->
  length (pre (in_change (a f) t f)) = length (pre f) ->
  length (pre (in_change (b f) t f)) = length (pre f) ->
  shown_after f (length (pre f)) t = Some (reconcile t (in_value (a (in_change (a f) t f)))) /\
  shown_after f (S (length (pre f))) t = Some (reconcile t (in_value (b (in_change (b f) t f)))).
Proof.
  intros Hp Ha Hb. split; [by apply (shown_after_at pre (fun g => [b g]) a)|].
  replace (S (length (pre f))) with (length (pre f ++ [a f])) by (rewrite length_app; simpl; lia).
  rewrite (shown_after_at (fun g => pre g ++ [a g]) (fun _ => []) b); [done| |by rewrite !length_app, Hb].
  intros g. by rewrite Hp, <- app_assoc.
Qed.

End Lemmas.

Lemma reconcile_text `{JsNumber} t : reconcile t (VText (Some t)) = t.
Proof. done. Qed.

(** A number input holding [Number] of its own text shows the text, or
    0 once cleared. *)
Lemma reconcile_own_number `{JsNumber} t :
  reconcile t (VNum (js_Number t)) = if String.eqb t "" then "0" else t.
Proof.
  destruct (String.eqb_spec t "") as [->|Ht]; [by rewrite js_Number_empty|].
  destruct (js_Number t) as [|z| |] eqn:E; simpl; try done.
  rewrite bool_decide_false; [done|]. intros [[_ ?]|?]; congruence.
Qed.

Ltac named_input := erewrite shown_after_change by reflexivity; reflexivity.

(** ** The game forms *)

Lemma length_create_game_page f :
  length (page_inputs f) = 5 + length (ng_quotes f) + length (ng_notes f).
Proof. unfold page_inputs, create_game_page. rewrite !length_app, !length_list_inputs. simpl. lia. Qed.

Lemma length_edit_game_page f :
  length (page_inputs f) = 5 + length (gf_quotes f) + length (gf_notes f).
Proof. unfold page_inputs, edit_game_page. rewrite !length_app, !length_list_inputs. simpl. lia. Qed.

(** Every input of the CreateGame form shows what the admin typed:
    the [name] of each named input is the key its [value] reads, and
    each quote and note input writes the item it shows. *)
Theorem create_game_echo `{JsNumber} (f : new_game_form) k t :
  k < length (page_inputs f) -> shown_after f k t = Some t.
Proof.
  rewrite length_create_game_page. intros Hk.
  destruct (decide (k < 5)).
  { do 5 (destruct k as [|k]; [named_input|]). lia. }
  destruct (decide (k < 5 + length (ng_quotes f))).
  - apply (shown_after_range ng_named (fun g => list_inputs (ng_notes g) (ng_list_change Notes))
             ng_quotes (ng_list_change Quotes)); simpl; [done|lia|done|].
    apply js_set_in. lia.
  - apply (shown_after_range (fun g => ng_named g ++ list_inputs (ng_quotes g) (ng_list_change Quotes))
             (fun _ => []) ng_notes (ng_list_change Notes)).
    + intros g. by rewrite app_nil_r, <- app_assoc.
    + rewrite length_app, length_list_inputs. simpl. lia.
    + simpl. by rewrite !length_list_inputs.
    + simpl. rewrite length_list_inputs. apply js_set_in. simpl. lia.
Qed.

(** In EditGame every input shows what the admin typed, but the image
    input only when the game has no image (a [null] value leaves the
    input uncontrolled). *)
Theorem edit_game_echo `{JsNumber} f k t :
  k < length (page_inputs f) -> (k = 4 -> game_image (gf_row f) = None) ->
  shown_after f k t = Some t.
Proof.
  rewrite length_edit_game_page. intros Hk Himg.
  destruct (decide (k < 5)).
  { do 4 (destruct k as [|k]; [named_input|]).
    destruct k as [|k]; [|lia]. erewrite shown_after_change by reflexivity.
    unfold shown_in. simpl. by rewrite Himg. }
  destruct (decide (k < 5 + length (gf_quotes f))).
  - apply (shown_after_range eg_named (fun g => list_inputs (gf_notes g) (eg_list_change Notes))
             gf_quotes (eg_list_change Quotes)); simpl; [done|lia|done|].
    apply js_set_in. lia.
  - apply (shown_after_range (fun g => eg_named g ++ list_inputs (gf_quotes g) (eg_list_change Quotes))
             (fun _ => []) gf_notes (eg_list_change Notes)).
    + intros g. by rewrite app_nil_r, <- app_assoc.
    + rewrite length_app, length_list_inputs. simpl. lia.
    + simpl. by rewrite !length_list_inputs.
    + simpl. rewrite length_list_inputs. apply js_set_in. simpl. lia.
Qed.

(** The editor's fields in document order, as its labels name them:
    Name, Description, Status, Fun Fact, Image URL, the quotes, the
    notes; the edit that writes [t] into field [k]. *)
Definition eg_edit_of (f : game_form) (k : nat) (t : string) : form_edit :=
  match k with
  | 0 => EChange FName t
  | 1 => EChange FDescription t
  | 2 => EChange FStatus t
  | 3 => EChange FFunFact t
  | 4 => EChange FImageUrl t
  | _ => if k - 5 <? length (gf_quotes f) then EArrayChange Quotes (k - 5) t
         else EArrayChange Notes (k - 5 - length (gf_quotes f)) t
  end.

Lemma eg_edit_of_image f k t : touches_image (eg_edit_of f k t) = true <-> k = 4.
Proof.
  destruct k as [|[|[|[|[|k]]]]]; simpl; try (split; intros; (done || discriminate || lia)).
  destruct (_ <? _); split; intros; (discriminate || lia).
Qed.

(** Every change event of the EditGame page is the editor's edit of
    the field its label names. *)
Lemma edit_game_change_edit `{JsNumber} (f : game_form) k t :
  k < length (page_inputs f) -> change_input k t f = apply_form_edit f (eg_edit_of f k t).
Proof.
  rewrite length_edit_game_page. intros Hk.
  destruct (decide (k < 5)).
  { destruct k as [|[|[|[|[|k]]]]]; [reflexivity..|lia]. }
  assert (eg_edit_of f k t = if k - 5 <? length (gf_quotes f) then EArrayChange Quotes (k - 5) t
          else EArrayChange Notes (k - 5 - length (gf_quotes f)) t) as ->
    by (destruct k as [|[|[|[|[|k]]]]]; [lia..|reflexivity]).
  destruct (Nat.ltb_spec (k - 5) (length (gf_quotes f))).
  - replace k with (length (eg_named f) + (k - 5)) at 1 by (simpl; lia).
    by rewrite (change_input_block eg_named (fun g => list_inputs (gf_notes g) (eg_list_change Notes))
                  gf_quotes (eg_list_change Quotes)) by (done || simpl; lia).
  - replace k with (length (eg_named f ++ list_inputs (gf_quotes f) (eg_list_change Quotes))
                    + (k - 5 - length (gf_quotes f))) at 1
      by (rewrite length_app, length_list_inputs; simpl; lia).
    rewrite (change_input_block (fun g => eg_named g ++ list_inputs (gf_quotes g) (eg_list_change Quotes))
               (fun _ => []) gf_notes (eg_list_change Notes)); [done| |simpl; lia].
    intros g. by rewrite app_nil_r, <- app_assoc.
Qed.

Lemma change_input_keeps_image `{JsNumber} (f : game_form) k t :
  k <> 4 -> gf_image_url (change_input k t f) = gf_image_url f.
Proof.
  intros Hk. destruct (decide (k < length (page_inputs f))) as [Hl|Hl].
  - rewrite (edit_game_change_edit f k t Hl).
    apply (edits_keep_image [eg_edit_of f k t]). constructor; [|constructor].
    destruct (touches_image _) eqn:E; [|done]. by apply eg_edit_of_image in E.
  - unfold change_input. by rewrite lookup_ge_None_2 by lia.
Qed.

(** The edits a run of change events makes, state by state. *)
Fixpoint dom_edits (f : game_form) (evs : list (nat * string)) : list form_edit :=
  match evs with
  | [] => []
  | (k, t) :: evs => let e := eg_edit_of f k t in e :: dom_edits (apply_form_edit f e) evs
  end.

(** Each event of the run is on an input of the page it meets. *)
Fixpoint dom_in_range `{JsNumber} (f : game_form) (evs : list (nat * string)) : Prop :=
  match evs with
  | [] => True
  | (k, t) :: evs => k < length (page_inputs f) /\ dom_in_range (change_input k t f) evs
  end.

(** [C20] The DOM runs of the EditGame page refine the edit model of
    [GameViews]: any run of change events on the page's inputs leaves
    the form that the editor's edits of the fields their labels name
    leave, so the theorems on edits hold of what the admin does in the
    browser; the run touches the image exactly when one of its events
    is on the image input. *)
Theorem edit_game_dom_refines `{JsNumber} (f : game_form) evs :
  dom_in_range f evs ->
  fold_left (fun g ev => change_input ev.1 ev.2 g) evs f = fold_left apply_form_edit (dom_edits f evs) f /\
  (Forall (fun e => touches_image e = false) (dom_edits f evs) <-> Forall (fun ev => ev.1 <> 4) evs).
Proof.
  revert f. induction evs as [|[k t] evs IH]; intros f Hr; [by split; [|split; constructor]|].
  destruct Hr as [Hk Hr]. simpl. rewrite (edit_game_change_edit f k t Hk) in Hr |- *.
  destruct (IH _ Hr) as [Hrun Hall]. split; [exact Hrun|].
  rewrite !Forall_cons, Hall. simpl. pose proof (eg_edit_of_image f k t) as He.
  destruct (touches_image (eg_edit_of f k t)).
  - split; [by intros [? _]|]. intros [Hk4 _]. by destruct Hk4; apply He.
  - split; intros [_ Hf]; split; try done. intros ->. by destruct He as [_ He]; specialize (He eq_refl).
Qed.

(** Saving the editor after any sequence of keystrokes in its inputs but
    the image one sends no image, which the route writes as NULL. *)
Theorem edit_game_dom_erases_image `{JsNumber} r f evs :
  load_form r = Some f -> Forall (fun ev => ev.1 <> 4) evs ->
  gb_image_url (form_body (fold_left (fun f ev => change_input ev.1 ev.2 f) evs f)) = None.
Proof.
  intros Hl Hevs. unfold form_body. simpl.
  assert (forall g, gf_image_url (fold_left (fun f ev => change_input ev.1 ev.2 f) evs g) = gf_image_url g) as ->.
  { induction evs as [|ev evs IH]; intros g; [done|]. apply Forall_cons in Hevs as [Hev Hevs]. simpl.
    rewrite IH by done. by apply change_input_keeps_image. }
  by rewrite (load_form_image r f Hl).
Qed.

(** The user types the character [c] at the end of the text. *)
Definition append_char (c : ascii) (s : string) : string := s +:+ String c EmptyString.

Lemma image_keystroke `{JsNumber} f img c :
  game_image (gf_row f) = Some img ->
  edit_input 4 (append_char c) (f, img) =
    (mk_game_form (gf_row f) (gf_quotes f) (gf_notes f) (Some (Some (append_char c img))), img).
Proof. intros Himg. unfold edit_input, shown_in. simpl. by rewrite Himg. Qed.

(** [C19] Typing into EditGame's image input of a game that has an image
    does not change what the input shows: it is named [image_url] but
    shows [game.image], which no keystroke changes, so React puts the
    stored image back after each one.  Each keystroke's text (the
    stored image and the last character typed) goes to [image_url], and
    the save sends it: the route stores an image the admin never saw. *)
Theorem edit_game_image_frozen `{JsNumber} f img cs c :
  game_image (gf_row f) = Some img ->
  let p := fold_left (fun p c => edit_input 4 (append_char c) p) (cs ++ [c]) (f, img) in
  snd p = img /\
  gb_image_url (form_body (fst p)) = Some (img +:+ String c EmptyString) /\
  forall g now, game_image (updated_game g (form_body (fst p)) now) = Some (img +:+ String c EmptyString).
Proof.
  intros Himg p.
  assert (forall cs f, game_image (gf_row f) = Some img ->
            exists f', fold_left (fun p c => edit_input 4 (append_char c) p) cs (f, img) = (f', img) /\
                       gf_row f' = gf_row f) as Hrun.
  { intros cs0. induction cs0 as [|c0 cs0 IH]; intros f0 H0; [by exists f0|]. simpl.
    rewrite image_keystroke by done.
    destruct (IH (mk_game_form (gf_row f0) (gf_quotes f0) (gf_notes f0) (Some (Some (append_char c0 img)))))
      as (f' & -> & Hr); [done|]. by exists f'. }
  destruct (Hrun cs f Himg) as (f' & Hf' & Hr).
  unfold p. rewrite fold_left_app, Hf'. cbn [fold_left]. rewrite image_keystroke by (by rewrite Hr).
  split; [done|]. split; done.
Qed.

Lemma length_create_crew_page (f : create_form) : length (page_inputs f) = 9 + length (cc_fun_facts f).
Proof. unfold page_inputs, create_crew_page. rewrite !length_app, !length_list_inputs. simpl. lia. Qed.

Lemma length_edit_crew_page `{JsNumber} (c : crew_form) : length (page_inputs c) = 9 + length (cf_fun_facts c).
Proof. unfold page_inputs, edit_crew_page. rewrite !length_app, !length_list_inputs. simpl. lia. Qed.

(** Every input of the CreateCrew form shows what the admin typed, its
    number inputs too: they store the string. *)
Theorem create_crew_echo `{JsNumber} (f : create_form) k t :
  k < length (page_inputs f) -> shown_after f k t = Some t.
Proof.
  rewrite length_create_crew_page. intros Hk.
  destruct (decide (k < 7)).
  { do 7 (destruct k as [|k]; [named_input|]). lia. }
  destruct (decide (k < 7 + length (cc_fun_facts f))).
  { apply (shown_after_range cc_named cc_tail cc_fun_facts cc_fact_change); simpl; [done|lia|done|].
    apply js_set_in. lia. }
  set (pre := fun g => cc_named g ++ list_inputs (cc_fun_facts g) cc_fact_change).
  assert (length (pre f) = 7 + length (cc_fun_facts f)) as Hpre
    by (unfold pre; rewrite length_app, length_list_inputs; done).
  destruct (shown_after_pair pre (fun g => named "gamesPlayed" (num_prop (cc_games_played g)) cc_handle_change)
              (fun g => named "deaths" (num_prop (cc_deaths g)) cc_handle_change) f t) as [H1 H2];
    [intros g; unfold pre; by rewrite <- app_assoc|done|done|].
  assert (k = length (pre f) \/ k = S (length (pre f))) as [->| ->] by lia; [exact H1|exact H2].
Qed.

(** [C26] Every input of the EditCrew form shows what the admin typed:
    each named input's [name] is the key its [value] reads (the number
    inputs through [Number(value)]) and each fun-fact input writes the
    item it shows; only a cleared number input shows 0, as its handler
    stores [Number("")], which is 0. *)
Theorem edit_crew_echo `{JsNumber} (c : crew_form) k t :
  k < length (page_inputs c) ->
  shown_after c k t = Some (if is_number_input c k && String.eqb t "" then "0" else t).
Proof.
  rewrite length_edit_crew_page. intros Hk.
  destruct (decide (k < 7)).
  { do 4 (destruct k as [|k]; [named_input|]).
    destruct k as [|k].
    { erewrite shown_after_change by reflexivity. unfold shown_in. cbn -[reconcile].
      by rewrite reconcile_own_number. }
    do 2 (destruct k as [|k]; [named_input|]). lia. }
  destruct (decide (k < 7 + length (cf_fun_facts c))).
  { rewrite (is_number_input_block ec_named ec_tail cf_fun_facts ec_fact_change) by (done || simpl; lia).
    apply (shown_after_range ec_named ec_tail cf_fun_facts ec_fact_change); simpl; [done|lia|done|].
    apply js_set_in. lia. }
  set (pre := fun g => ec_named g ++ list_inputs (cf_fun_facts g) ec_fact_change).
  assert (length (pre c) = 7 + length (cf_fun_facts c)) as Hpre
    by (unfold pre; rewrite length_app, length_list_inputs; done).
  set (a := fun g => named "games_played" (VNum (cf_games_played g)) ec_handle_change).
  set (b := fun g => named "deaths" (VNum (cf_deaths g)) ec_handle_change).
  assert (forall g, page_inputs g = pre g ++ [a g; b g]) as Hp by (intros g; unfold pre; by rewrite <- app_assoc).
  destruct (shown_after_pair pre a b c t Hp) as [H1 H2]; [done|done|].
  unfold is_number_input.
  assert (k = length (pre c) \/ k = length (pre c ++ [a c])) as [->| ->]
    by (rewrite length_app, Hpre; simpl; lia).
  - rewrite (lookup_at pre (fun g => [b g]) a c Hp), H1. cbn -[reconcile]. by rewrite reconcile_own_number.
  - rewrite (lookup_at (fun g => pre g ++ [a g]) (fun _ => []) b c) by (intros g; by rewrite Hp, <- app_assoc).
    replace (length (pre c ++ [a c])) with (S (length (pre c))) by (rewrite length_app; simpl; lia).
    rewrite H2. cbn -[reconcile]. by rewrite reconcile_own_number.
Qed.

(** ** Concrete runs *)

(** A [Number] for the witnesses: the decimal texts of integers, [""]
    read as 0. *)
#[export] Instance decimal_number : JsNumber.
Proof.
  refine {| js_Number t := if String.eqb t "" then FInt 0
                           else match pg_int_text t with IInt z => FInt z | _ => FFrac end |}.
  reflexivity.
Defined.

(** Budi's editor, loaded. *)
Definition ex_crew_form : crew_form := form_of_row budi.

Lemma edit_crew_echo_witness :
  4 < length (page_inputs ex_crew_form) /\
  shown_after ex_crew_form 4 "" = Some "0" /\ shown_after ex_crew_form 0 "Budiman" = Some "Budiman".
Proof.
  assert (4 < length (page_inputs ex_crew_form)) as H4 by (vm_compute; lia).
  assert (0 < length (page_inputs ex_crew_form)) as H0 by (vm_compute; lia).
  split; [exact H4|]. split.
  - exact (edit_crew_echo ex_crew_form 4 "" H4).
  - exact (edit_crew_echo ex_crew_form 0 "Budiman" H0).
Defined.

(** A game with an image, in its editor. *)
Definition ex_game_form : game_form :=
  mk_game_form (mk_game 1 (Some "Zort") None (Some "Co-op") None (Some "zort.jpg") 3) [Some "RUN"] [] None.

Lemma edit_game_image_frozen_witness :
  game_image (gf_row ex_game_form) = Some "zort.jpg" /\
  let p := fold_left (fun p c => edit_input 4 (append_char c) p) (["n"; "e"] ++ ["w"])%char (ex_game_form, "zort.jpg") in
  snd p = "zort.jpg" /\
  gb_image_url (form_body (fst p)) = Some ("zort.jpg" +:+ "w") /\
  forall g now, game_image (updated_game g (form_body (fst p)) now) = Some ("zort.jpg" +:+ "w").
Proof.
  assert (game_image (gf_row ex_game_form) = Some "zort.jpg") as H by reflexivity.
  split; [exact H|]. exact (edit_game_image_frozen ex_game_form "zort.jpg" ["n"; "e"]%char "w"%char H).
Defined.

Definition ex_edits : list (nat * string) := [(0, "Zort 2"); (5, "RUN!!"); (3, "no light")].

Lemma edit_game_dom_refines_witness :
  dom_in_range ex_game_form ex_edits /\
  fold_left (fun g ev => change_input ev.1 ev.2 g) ex_edits ex_game_form
    = fold_left apply_form_edit (dom_edits ex_game_form ex_edits) ex_game_form.
Proof.
  assert (dom_in_range ex_game_form ex_edits) as H by (vm_compute; repeat split; lia).
  split; [exact H|]. exact (proj1 (edit_game_dom_refines ex_game_form ex_edits H)).
Defined.

End Forms.
