(* ===== verification/AppShell.v ===== *)
(** * AppShell: routing, the navigation bar and the admin pages' renders

    [src/projectdank/src/Routes.tsx] gives [createBrowserRouter] the
    pages as children of the root route; react-router ranks the route
    paths ([computeScore]: 10 for a static segment, 3 for a [:param], 1
    for an empty one, 2 for an index route, plus the number of segments;
    ties keep the order of definition) and takes the first that matches
    the pathname, segment by segment and without regard to case.
    [components/Navbar.tsx] marks the link of the current section and
    asks [/auth/check] for its Login/Logout button;
    [components/VaultWrapper.tsx] asks it too before showing the vault.
    [components/AuthContext.tsx] gives the pages the user of
    [/auth/check], [null] until it answered; without a provider above
    the router the context is [null] ([context_values]), which three
    admin pages read through [|| {}] and CreateCrew destructures as is
    ([read_user]).

    Theorems: the [/games/...] paths resolve to the creation form for
    "create" (in any case) and to the detail page of the game otherwise,
    and the crew creation form never receives an [id]; at most one
    navigation link is active on any path; every admin page (creating
    or editing a game or a member) crashes when an admin loads it
    directly or reloads it, as its first render returns "Forbidden"
    before its state hooks and the render with the admin calls them;
    without a provider, CreateCrew throws and the others show
    "Forbidden". *)

From Stdlib Require Import ZArith Lia Ascii String.
From stdpp Require Import base list strings pretty.
From S2P Require Import Prelude Db FeedServer Auth Crew CrewCreate Games GameViews.

Module AppShell.
Import Auth Games Crew CrewCreate GameViews.

(** ** The route table (Routes.tsx) *)

Inductive page :=
| PHome | PGamesHall | PGameDetail | PVault | PFeed | PCrew | PLogin
| PCreateGame | PEditGame | PCreateCrew | PEditCrew.

(** A segment of a route path: a literal or a [:param]. *)
Inductive seg := Lit (s : string) | Dyn (name : string).

Record route := mk_route {
  r_index : bool;
  r_segs : list seg;      (** the segments below "/" *)
  r_page : page
}.

(** The children of the root route "/", in the order of the file. *)
Definition routes : list route := [
  mk_route true [] PHome;
  mk_route false [Lit "games"] PGamesHall;
  mk_route false [Lit "games"; Dyn "gameId"] PGameDetail;
  mk_route false [Lit "vault"] PVault;
  mk_route false [Lit "feed"] PFeed;
  mk_route false [Lit "crew"] PCrew;
  mk_route false [Lit "login"] PLogin;
  mk_route false [Lit "games"; Lit "create"] PCreateGame;
  mk_route false [Lit "games"; Lit "edit"; Dyn "gameId"] PEditGame;
  mk_route false [Lit "crew"; Lit "create"] PCreateCrew;
  mk_route false [Lit "crew"; Lit "edit"; Dyn "id"] PEditCrew
].

(** ** react-router's ranking and matching *)

Definition seg_value (s : seg) : nat :=
  match s with Dyn _ => 3 | Lit EmptyString => 1 | Lit _ => 10 end.

(** [computeScore] of the joined path: ["/games"] splits into
    [["", "games"]], the index route's ["/"] into [["", ""]]. *)
Definition route_score (r : route) : nat :=
  let parts := if r_index r then [Lit ""; Lit ""] else Lit "" :: r_segs r in
  length parts + (if r_index r then 2 else 0) + sum_list (map seg_value parts).

(** [rankRouteBranches]: higher score first, ties in definition order. *)
Definition ranked (rs : list route) : list route :=
  sort_by (fun a b => route_score b <=? route_score a) rs.

Definition lower_ascii (c : ascii) : ascii :=
  let n := nat_of_ascii c in if (65 <=? n) && (n <=? 90) then ascii_of_nat (n + 32) else c.

Fixpoint lower_string (s : string) : string :=
  match s with EmptyString => EmptyString | String c s' => String (lower_ascii c) (lower_string s') end.

(** The compiled pattern of [matchPath] (flag [i]): literals compare
    without case, a [:param] takes a non-empty segment. *)
Fixpoint match_segs (pat : list seg) (p : list string) : option (list (string * string)) :=
  match pat, p with
  | [], [] => Some []
  | Lit l :: pat', x :: p' => if String.eqb (lower_string l) (lower_string x) then match_segs pat' p' else None
  | Dyn n :: pat', x :: p' =>
      if String.eqb x "" then None else (fun ps => (n, x) :: ps) <$> match_segs pat' p'
  | _, _ => None
  end.

Definition match_route (r : route) (p : list string) : option (list (string * string)) :=
  if r_index r then match p with [] => Some [] | _ => None end else match_segs (r_segs r) p.

Fixpoint first_match (rs : list route) (p : list string) : option (page * list (string * string)) :=
  match rs with
  | [] => None
  | r :: rs' => match match_route r p with Some ps => Some (r_page r, ps) | None => first_match rs' p end
  end.

(** The page and the [useParams()] of the pathname [/s1/s2/...]. *)
Definition resolve (p : list string) : option (page * list (string * string)) :=
  first_match (ranked routes) p.

(** ** The navigation bar (Navbar.tsx) *)

(** [isActive(path)]: the home link only on ["/"], the others on every
    pathname that starts with their path. *)
Definition is_active (pathname path : string) : bool :=
  if String.eqb path "/" then String.eqb pathname "/" else String.prefix path pathname.

Definition nav_paths : list string := ["/"; "/games"; "/vault"; "/feed"; "/crew"].

(** [isLoggedIn]: [null] until [/auth/check] answered, then
    [res.data.loggedIn], [false] on a failed request. *)
Definition nav_logged_in (a : option (option check_answer)) : option bool :=
  match a with
  | None => None
  | Some (Some (CheckIn _)) => Some true
  | Some _ => Some false
  end.

Inductive auth_button := NoButton | LogoutButton | LoginLink.

Definition nav_button (l : option bool) : auth_button :=
  match l with None => NoButton | Some true => LogoutButton | Some false => LoginLink end.

(** [NavLink]: a [<Link to>] with its label, highlighted when active. *)
Record nav_item := mk_nav_item {
  ni_to : string;
  ni_label : string;
  ni_active : bool
}.

Definition nav_labels : list (string * string) :=
  [("/", "Home"); ("/games", "Games Hall"); ("/vault", "Vault"); ("/feed", "Feed"); ("/crew", "Crew")].

(** The desktop navigation and the auth button. *)
Definition render_nav (pathname : string) (a : option (option check_answer)) : list nav_item * auth_button :=
  (map (fun '(p, l) => mk_nav_item p l (is_active pathname p)) nav_labels, nav_button (nav_logged_in a)).

(** [handleLogout]: a full page load of the server's logout route. *)
Definition logout_href (api_url : string) : string := api_url +:+ "/auth/logout".

(** ** Pathnames *)

(** [pathname.split("/")] *)
Fixpoint split_slash (s : string) : list string :=
  match s with
  | EmptyString => [""]
  | String c s' =>
      let rest := split_slash s' in
      if Ascii.eqb c "/" then "" :: rest
      else match rest with x :: r => String c x :: r | [] => [String c ""] end
  end.

(** The segments the matcher compares: the text before the leading "/"
    is dropped, and so is the empty segment of a trailing "/" (the
    compiled pattern ends in [\/*$]). *)
Definition path_segs (pathname : string) : list string :=
  let parts := match split_slash pathname with "" :: ps => ps | ps => ps end in
  match rev parts with "" :: r => rev r | _ => parts end.

(** ** The vault wrapper (VaultWrapper.tsx) *)

(** "Loading..." while [isLoggedIn] is [null], then [ProtectedRoute]. *)
Definition vault_wrapper (a : option (option check_answer)) : option shown :=
  match a with None => None | Some r => Some (protected_route (wrapper_logged_in r)) end.

(** ** The admin pages and the auth context *)

(** The value [useContext(AuthContext)] returns on the successive
    renders of a page loaded directly: [null] without a provider above
    the router ([None]); with the provider, [{ user, loading }], whose
    [user] is [null] until [/auth/check] answered, then its user. *)
Definition context_values (provider : bool) (a : option check_answer) : list (option (option user_row)) :=
  if provider then [Some None; Some (context_user a)] else [None; None].
Inductive admin_route := ARCreateGame | AREditGame | ARCreateCrew | AREditCrew.

Definition admin_hooks (p : admin_route) (admin : bool) : list hook :=
  match p with
  | ARCreateGame => create_game_hooks admin
  | AREditGame => edit_game_hooks admin
  | ARCreateCrew => create_crew_hooks admin
  | AREditCrew => edit_crew_hooks admin
  end.

(** The [user] a page reads from that value: CreateGame, EditGame and
    EditCrew destructure [useContext(AuthContext) || {}], which is [{}]
    without a provider; CreateCrew destructures [useContext(AuthContext)]
    itself, and destructuring [null] throws a TypeError ([None]). *)
Definition read_user (p : admin_route) (c : option (option user_row)) : option (option user_row) :=
  match c, p with
  | Some u, _ => Some u
  | None, ARCreateCrew => None
  | None, _ => Some None
  end.

(** What one render shows: the form or "Forbidden"; [None] when it threw. *)
Definition page_view (p : admin_route) (c : option (option user_row)) : option admin_page :=
  admin_page_of <$> read_user p c.

(** Whether React renders the page through the successive context
    values without throwing. *)
Definition page_renders (p : admin_route) (cs : list (option (option user_row))) : bool :=
  match mapM (read_user p) cs with
  | None => false
  | Some [] => true
  | Some (u :: rest) => renders_ok (admin_hooks p (is_admin u)) (map (fun u => admin_hooks p (is_admin u)) rest)
  end.

(** ** Lemmas *)

Lemma prefix_common a b s :
  String.prefix a s = true -> String.prefix b s = true ->
  String.prefix a b = true \/ String.prefix b a = true.
Proof.
  revert a b. induction s as [|c s IH]; intros [|x a] [|y b]; simpl; auto; try discriminate.
  destruct (ascii_dec x c) as [->|]; [|discriminate]. destruct (ascii_dec y c) as [->|]; [|discriminate].
  destruct (ascii_dec c c) as [_|]; [|done]. apply IH.
Qed.

Lemma prefix_exclusive a b s :
  String.prefix a b = false -> String.prefix b a = false ->
  String.prefix a s = true -> String.prefix b s = false.
Proof.
  intros Hab Hba Ha. destruct (String.prefix b s) eqn:Hb; [|done].
  destruct (prefix_common a b s Ha Hb); congruence.
Qed.

Lemma lower_string_cons c s : lower_string (String c s) = String (lower_ascii c) (lower_string s).
Proof. reflexivity. Qed.

Lemma lower_ascii_digit d : lower_ascii (pretty_N_char d) = pretty_N_char d.
Proof. unfold pretty_N_char. repeat case_match; reflexivity. Qed.

Lemma digit_not_c d : pretty_N_char d <> "c"%char.
Proof. unfold pretty_N_char. repeat case_match; discriminate. Qed.

(** A number's text never reads as "create". *)
Lemma create_not_pretty (z : Z) : String.eqb "create" (lower_string (pretty z)) = false.
Proof.
  destruct (pretty_Z_head z) as (c & s & -> & [->|[d ->]]); rewrite lower_string_cons;
    apply String.eqb_neq; intros [= Hc _].
  rewrite lower_ascii_digit in Hc. by apply (digit_not_c d).
Qed.

(** ** Theorems *)

(** A path [/games/x] opens the creation form when [x] is
    "create" in any case (the static segment outranks [:gameId]) and the
    detail page of game [x] otherwise; [/crew/create] opens the crew
    creation form with no [id] parameter, so its edit branch is never
    taken. *)
Theorem resolve_games_crew x :
  x <> "" ->
  resolve ["games"; x] =
    (if String.eqb "create" (lower_string x) then Some (PCreateGame, [])
     else Some (PGameDetail, [("gameId", x)])) /\
  resolve ["crew"; "create"] = Some (PCreateCrew, []).
Proof.
  intros Hx. split; [|reflexivity].
  unfold resolve. vm_compute (ranked routes).
  cbn [first_match match_route r_index r_segs r_page match_segs].
  rewrite (proj2 (String.eqb_neq x "") Hx).
  change (lower_string "edit") with "edit". change (lower_string "create") with "create".
  by destruct (String.eqb "edit" (lower_string x)), (String.eqb "create" (lower_string x)).
Qed.

(** At most one link of the navigation bar is marked active, on
    any pathname. *)
Theorem nav_one_active pathname :
  length (List.filter (is_active pathname) nav_paths) <= 1.
Proof.
  unfold nav_paths, is_active. simpl.
  destruct (String.eqb_spec pathname "/") as [->|_]; [reflexivity|]. simpl.
  destruct (String.prefix "/games" pathname) eqn:Eg.
  { rewrite (prefix_exclusive "/games" "/vault" pathname), (prefix_exclusive "/games" "/feed" pathname),
      (prefix_exclusive "/games" "/crew" pathname) by done. simpl. lia. }
  destruct (String.prefix "/vault" pathname) eqn:Ev.
  { rewrite (prefix_exclusive "/vault" "/feed" pathname), (prefix_exclusive "/vault" "/crew" pathname)
      by done. simpl. lia. }
  destruct (String.prefix "/feed" pathname) eqn:Ef.
  { rewrite (prefix_exclusive "/feed" "/crew" pathname) by done. simpl. lia. }
  destruct (String.prefix "/crew" pathname); simpl; lia.
Qed.

(** [C21] An admin who loads or reloads an admin page directly crashes
    it: the first render, before [/auth/check] answered, returns
    "Forbidden" after the page's first hooks, and the render with the
    admin calls its state hooks, which React refuses.  Reached from
    another page, once the user is known, it renders.  Without a provider
    above the router, CreateCrew throws a TypeError at its first render
    (it destructures the [null] context), while the three other pages
    show "Forbidden" on every render. *)
Theorem admin_pages_crash_on_load p r a :
  ur_role r = "admin" ->
  page_renders p (context_values true (Some (CheckIn r))) = false /\
  page_renders p [Some (Some r); Some (Some r)] = true /\
  (p = ARCreateCrew -> page_renders p (context_values false a) = false /\ page_view p None = None) /\
  (p <> ARCreateCrew -> page_renders p (context_values false a) = true /\
     Forall (fun c => page_view p c = Some PageForbidden) (context_values false a)).
Proof.
  intros Hr. unfold context_values, page_renders, page_view, admin_page_of, is_admin, context_user. simpl.
  rewrite !Hr. split_and!; [by destruct p|by destruct p|intros ->; done|].
  intros Hp. destruct p; try done; (split; [done|by repeat constructor]).
Qed.

(** [/games/<id>] of a game id opens the detail page of that game. *)
Lemma resolve_game_link (z : Z) : resolve ["games"; pretty z] = Some (PGameDetail, [("gameId", pretty z)]).
Proof.
  destruct (resolve_games_crew (pretty z)) as [-> _]; [exact (pretty_Z_nonempty z)|].
  by rewrite create_not_pretty.
Qed.

(** Every link of the navigation bar opens its section, whatever the
    current pathname and the state of [/auth/check]. *)
Theorem nav_links_resolve pathname a :
  map (fun i => fst <$> resolve (path_segs (ni_to i))) (fst (render_nav pathname a))
    = [Some PHome; Some PGamesHall; Some PVault; Some PFeed; Some PCrew].
Proof. vm_compute. reflexivity. Qed.

Lemma resolve_edit_game (x : string) : x <> "" -> resolve ["games"; "edit"; x] = Some (PEditGame, [("gameId", x)]).
Proof. destruct x as [|c x]; [done|]. intros _. vm_compute. reflexivity. Qed.

(** The links of the game views open the intended pages: every card of
    the hall the detail page of its game; the detail page of a game
    shows an admin an Edit button that opens the editor of that game,
    and shows it to nobody else. *)
Theorem game_view_links u h :
  (forall hv, render_hall u h = Some hv ->
     Forall (fun c => resolve (hall_card_path c) = Some (PGameDetail, [("gameId", pretty (hc_id c))])) (hv_cards hv)) /\
  (forall r, is_admin u = false -> detail_edit_path (game_detail u r) = None) /\
  (forall g qs ns, is_admin u = true ->
     exists p, detail_edit_path (game_detail u (Reply 200 (GDetail g qs ns))) = Some p /\
               resolve p = Some (PEditGame, [("gameId", pretty (game_id g))])).
Proof.
  split_and!.
  - intros hv _. apply Forall_forall. intros c _. apply resolve_game_link.
  - intros r Hu. destruct r as [c b|]; simpl; [|done].
    destruct (http_ok c); simpl; [|done]. rewrite Hu. by destruct b.
  - intros g qs ns Hu. simpl. rewrite Hu. eexists. split; [reflexivity|].
    apply resolve_edit_game. exact (pretty_Z_nonempty (game_id g)).
Qed.

(** ** Concrete runs *)

Lemma resolve_games_crew_witness :
  resolve ["games"; "CREATE"] =
    (if String.eqb "create" (lower_string "CREATE") then Some (PCreateGame, [])
     else Some (PGameDetail, [("gameId", "CREATE")])) /\
  resolve ["crew"; "create"] = Some (PCreateCrew, []).
Proof. apply resolve_games_crew. discriminate. Defined.

Lemma admin_pages_crash_on_load_witness :
  let alice := mk_user_row "alice" "d-1001" "Alice" None true "admin" in
  ur_role alice = "admin" /\
  page_renders ARCreateCrew (context_values true (Some (CheckIn alice))) = false /\
  page_renders ARCreateCrew (context_values false None) = false /\
  page_renders AREditCrew (context_values false None) = true.
Proof.
  intros alice. assert (ur_role alice = "admin") as H by reflexivity.
  split_and!; [exact H|exact (proj1 (admin_pages_crash_on_load ARCreateCrew alice None H))
              |exact (proj1 (proj1 (proj2 (proj2 (admin_pages_crash_on_load ARCreateCrew alice None H))) eq_refl))
              |exact (proj1 (proj2 (proj2 (proj2 (admin_pages_crash_on_load AREditCrew alice None H))) ltac:(done)))].
Defined.

(** A trailing "/" is ignored; the root has no segment. *)
Example ex_path_segs :
  path_segs "/" = [] /\ path_segs "/games/" = ["games"] /\ path_segs "/crew/edit/7" = ["crew"; "edit"; "7"] /\
  resolve (path_segs "/Games/Create/") = Some (PCreateGame, []).
Proof. split_and!; vm_compute; reflexivity. Qed.

End AppShell.
