(* ===== verification/Home.v ===== *)
(** * Home: the active-games window and the quote of the day

    [components/Home.tsx] fetches [GET /api/games] and [GET /api/quotes]
    ([src/server/routes/quotesRoutes.js]: every quote row), attaches to
    each game the contents of its quotes, and keeps the first three games
    as the "active" ones; an admin can add a game from the hall, which
    keeps the last three selected.  Whenever the active games change,
    and every ten seconds, the quote shown is a random quote of the first
    active game, or one of three built-in quotes when it has none.

    The page state is [home_state]; an event is the answer of the fetch,
    a selection in the hall, or a tick of the interval, each with the
    index [Math.floor(Math.random() * n)] drew (any number, reduced
    modulo [n]).  The games and quotes come from a [Games.gdb].

    Theorem: in every state the page reaches, there are at most three
    active games, with distinct ids, all taken from the fetched games,
    each fetched game carries exactly its quotes when the quotes request
    succeeded, and the quote shown is a built-in one or a quote of the
    first active game; each active card links to the detail page of a
    game of the database, and only an admin sees the hall's buttons. *)

From Stdlib Require Import ZArith Lia Ascii String.
From stdpp Require Import base list strings pretty.
From S2P Require Import Prelude Db FeedServer Auth Games GameViews AppShell.

Module Home.
Import Auth Games GameViews AppShell.

Record home_game := mk_home_game {
  hg_row : game_row;
  hg_quotes : list sqltext
}.

Record home_state := mk_home {
  h_games : list home_game;
  h_active : list home_game;
  h_quote : sqltext
}.

Definition default_quotes : list sqltext :=
  [Some "Guraggag Gareggog"; Some "Sakaratil Cuak"; Some "SUNSETTTT!!"].

(** [list[Math.floor(Math.random() * list.length)]] for a non-empty list. *)
Definition pick (xs : list sqltext) (rnd : nat) : sqltext :=
  nth (rnd mod length xs) xs None.

(** [generateQuote] *)
Definition generate_quote (gs : list home_game) (rnd : nat) : sqltext :=
  match gs with
  | [] => pick default_quotes rnd
  | g :: _ => match hg_quotes g with [] => pick default_quotes rnd | qs => pick qs rnd end
  end.

Definition initial_home (rnd : nat) : home_state := mk_home [] [] (pick default_quotes rnd).

(** GET /api/quotes: [SELECT * FROM quotes]. *)
Definition quotes_route (d : gdb) : list text_row := quotes d.

(** [quotesData.filter(q => q.game_id === game.id).map(q => q.content)] *)
Definition attach_quotes (qs : list text_row) (g : game_row) : home_game :=
  mk_home_game g (map text_content (filter (fun q => text_game_id q = game_id g) qs)).

(** [setActiveGames] followed by the [[activeGames]] effect, which picks
    a quote when the list is not empty. *)
Definition set_active (gs : list home_game) (rnd : nat) (s : home_state) : home_state :=
  mk_home (h_games s) gs (match gs with [] => h_quote s | _ => generate_quote gs rnd end).

(** [fetchData]: the games answer and, if that request succeeded, the
    quotes answer ([[]] when it failed). *)
Definition fetch_home (games_answer : response gbody) (quotes_answer : option (list text_row))
    (rnd : nat) (s : home_state) : home_state :=
  match games_answer with
  | Reply c (GGames gs) =>
      if (200 <=? c) && (c <? 300) then
        let gq := map (attach_quotes (default [] quotes_answer)) gs in
        set_active (take 3 gq) rnd (mk_home gq (h_active s) (h_quote s))
      else s
  | _ => s
  end.

(** [handleSelectActiveGame]: [[...prev, game].slice(-3)] unless present. *)
Definition select_active (g : home_game) (rnd : nat) (s : home_state) : home_state :=
  if existsb (fun a => Z.eqb (game_id (hg_row a)) (game_id (hg_row g))) (h_active s) then s
  else let l := h_active s ++ [g] in set_active (drop (length l - 3) l) rnd s.

Inductive home_event :=
| HSelect (i : nat) (rnd : nat)     (** the [i]-th game of the hall *)
| HTick (rnd : nat).                (** the ten-second interval *)

Definition home_step (s : home_state) (e : home_event) : home_state :=
  match e with
  | HSelect i rnd => match h_games s !! i with Some g => select_active g rnd s | None => s end
  | HTick rnd => match h_active s with [] => s | _ => mk_home (h_games s) (h_active s) (generate_quote (h_active s) rnd) end
  end.

(** The page mounted on database [d]: the fetch (the quotes request
    succeeding or not), then the user's events. *)
Definition run_home (d : gdb) (quotes_ok : bool) (rnd : nat) (es : list home_event) : home_state :=
  fold_left home_step es
    (fetch_home (fst (list_games d)) (if quotes_ok then Some (quotes_route d) else None) rnd
       (initial_home rnd)).

(** ** What the page shows *)

(** An active game's card: [<Link to={`/games/${game.id}`}>] with the
    image, the name and the status. *)
Record home_card := mk_home_card {
  hm_link : list string;
  hm_image : sqltext;
  hm_name : sqltext;
  hm_status : sqltext
}.

Definition home_card_of (g : home_game) : home_card :=
  mk_home_card ["games"; pretty (game_id (hg_row g))] (game_image (hg_row g)) (game_name (hg_row g))
    (game_status (hg_row g)).

Record home_view := mk_home_view {
  hm_quote : sqltext;                  (** [{currentQuote}] *)
  hm_cards : list home_card;           (** [activeGames.map(...)] *)
  hm_hall : option (list sqltext)      (** the admin's selection buttons, [games.map(...)] *)
}.

(** [user?.role === "admin"] guards the hall; without a provider the
    page reads [user] from [{}]. *)
Definition render_home (u : option user_row) (s : home_state) : home_view :=
  mk_home_view (h_quote s) (map home_card_of (h_active s))
    (if is_admin u then Some (map (fun g => game_name (hg_row g)) (h_games s)) else None).

(** ** The invariant *)

Definition game_key (g : home_game) : Z := game_id (hg_row g).

Definition quote_shown_ok (s : home_state) : Prop :=
  h_quote s ∈ default_quotes \/ exists g rest, h_active s = g :: rest /\ h_quote s ∈ hg_quotes g.

Definition quotes_attached (d : gdb) (gs : list home_game) : Prop :=
  Forall (fun g => hg_quotes g = map text_content (filter (fun q => text_game_id q = game_key g) (quotes d))) gs.

Record home_inv (d : gdb) (quotes_ok : bool) (s : home_state) : Prop := {
  active_len : length (h_active s) <= 3;
  active_nodup : NoDup (map game_key (h_active s));
  active_from_hall : Forall (fun g => g ∈ h_games s) (h_active s);
  hall_quotes : quotes_ok = true -> quotes_attached d (h_games s);
  quote_ok : quote_shown_ok s
}.

Lemma pick_elem xs rnd : xs <> [] -> pick xs rnd ∈ xs.
Proof.
  intros Hne. unfold pick. apply list_elem_of_In, nth_In. apply Nat.mod_upper_bound.
  destruct xs; [done|simpl; lia].
Qed.

Lemma generate_quote_ok gs rnd :
  generate_quote gs rnd ∈ default_quotes \/
  exists g rest, gs = g :: rest /\ generate_quote gs rnd ∈ hg_quotes g.
Proof.
  destruct gs as [|g rest]; simpl; [left; by apply pick_elem|].
  destruct (hg_quotes g) as [|q qs] eqn:Hq; [left; by apply pick_elem|].
  right. exists g, rest. split; [done|]. rewrite Hq. by apply pick_elem.
Qed.

Lemma set_active_quote gs rnd s :
  quote_shown_ok s -> gs <> [] -> quote_shown_ok (set_active gs rnd s).
Proof.
  intros _ Hne. unfold quote_shown_ok, set_active. simpl.
  destruct gs as [|g rest]; [done|]. apply generate_quote_ok.
Qed.

Lemma take_sub {A} (l : list A) n : Forall (fun x => x ∈ l) (take n l).
Proof. apply Forall_forall. intros x Hx. by apply (subseteq_take n l). Qed.

Lemma fetch_home_inv sch d quotes_ok rnd :
  games_wf sch d ->
  home_inv d quotes_ok
    (fetch_home (fst (list_games d)) (if quotes_ok then Some (quotes_route d) else None) rnd
       (initial_home rnd)).
Proof.
  intros Hwf.
  assert (fst (list_games d) = Reply 200 (GGames (sort_by game_created_desc (games d)))) as -> by done.
  unfold fetch_home. cbn -[take attach_quotes sort_by pick generate_quote default_quotes].
  set (gq := map (attach_quotes (default [] (if quotes_ok then Some (quotes_route d) else None)))
                 (sort_by game_created_desc (games d))).
  assert (NoDup (map game_key gq)) as Hnd.
  { unfold gq. rewrite map_map. simpl.
    rewrite (sort_by_perm game_created_desc (games d)). exact (ids_unique _ _ Hwf). }
  split; unfold set_active; cbn [h_active h_games h_quote].
  - rewrite length_take. lia.
  - rewrite <- firstn_map. eapply sublist_NoDup; [exact Hnd|apply sublist_take].
  - apply take_sub.
  - intros Hq. unfold quotes_attached, gq. rewrite Hq. apply Forall_map, Forall_forall. by intros g _.
  - unfold quote_shown_ok. cbn [h_active h_quote].
    destruct (take 3 gq) as [|g0 rest]; [left; by apply pick_elem|]. apply generate_quote_ok.
Qed.

Lemma existsb_key_false g gs :
  existsb (fun a => Z.eqb (game_id (hg_row a)) (game_id (hg_row g))) gs = false ->
  game_key g ∉ map game_key gs.
Proof.
  intros Hex Hin. apply list_elem_of_fmap in Hin as (a & Ha & Hin).
  assert (existsb (fun a => Z.eqb (game_id (hg_row a)) (game_id (hg_row g))) gs = true) as Ht;
    [|congruence].
  apply existsb_exists. exists a. split; [by apply list_elem_of_In|]. apply Z.eqb_eq. done.
Qed.

Lemma select_active_inv d quotes_ok g rnd s :
  g ∈ h_games s -> home_inv d quotes_ok s -> home_inv d quotes_ok (select_active g rnd s).
Proof.
  intros Hg [Hlen Hnd Hsub Hq Hquote]. unfold select_active.
  destruct (existsb _ (h_active s)) eqn:Hex; [by split|].
  set (l := h_active s ++ [g]).
  assert (NoDup (map game_key l)) as Hndl.
  { unfold l. rewrite map_app. apply NoDup_app. split; [done|]. split; [|apply NoDup_singleton].
    intros x Hx Hin. apply list_elem_of_singleton in Hin as ->. by apply (existsb_key_false g (h_active s)). }
  assert (drop (length l - 3) l <> []) as Hne.
  { intros Hd. apply (f_equal length) in Hd. rewrite length_drop in Hd.
    unfold l in Hd. rewrite length_app in Hd. simpl in Hd. lia. }
  split; unfold set_active; cbn [h_active h_games h_quote].
  - rewrite length_drop. lia.
  - rewrite <- skipn_map. eapply sublist_NoDup; [exact Hndl|apply sublist_drop].
  - apply Forall_forall. intros x Hx. apply (subseteq_drop _ l) in Hx.
    unfold l in Hx. apply elem_of_app in Hx as [Hx|Hx]; [|by apply list_elem_of_singleton in Hx as ->].
    rewrite Forall_forall in Hsub. by apply Hsub.
  - exact Hq.
  - unfold quote_shown_ok. cbn [h_active h_quote].
    destruct (drop (length l - 3) l) as [|g0 rest]; [done|]. apply generate_quote_ok.
Qed.

Lemma home_step_inv d quotes_ok s e : home_inv d quotes_ok s -> home_inv d quotes_ok (home_step s e).
Proof.
  intros Hinv. destruct e as [i rnd|rnd]; simpl.
  - destruct (h_games s !! i) as [g|] eqn:Hi; [|done].
    apply select_active_inv; [by eapply list_elem_of_lookup_2|done].
  - destruct (h_active s) as [|g0 rest] eqn:Ha; [done|].
    destruct Hinv as [Hlen Hnd Hsub Hq _]. rewrite Ha in Hlen, Hnd, Hsub.
    split; cbn [h_active h_games h_quote]; try done.
    unfold quote_shown_ok. cbn [h_active h_quote]. apply generate_quote_ok.
Qed.

Lemma home_step_games s e : h_games (home_step s e) = h_games s.
Proof.
  destruct e as [i rnd|rnd]; simpl.
  - destruct (h_games s !! i) as [g|]; [|done]. unfold select_active.
    by destruct (existsb _ (h_active s)).
  - by destruct (h_active s).
Qed.

(** The hall holds the games of the database, with their quotes. *)
Lemma run_home_games_from_db d quotes_ok rnd es g :
  g ∈ h_games (run_home d quotes_ok rnd es) -> hg_row g ∈ games d.
Proof.
  unfold run_home. assert (forall s es', h_games (fold_left home_step es' s) = h_games s) as ->.
  { intros s0 es'. revert s0. induction es' as [|e es' IH]; intros s0; [done|]. simpl.
    by rewrite IH, home_step_games. }
  assert (fst (list_games d) = Reply 200 (GGames (sort_by game_created_desc (games d)))) as -> by done.
  cbn -[take attach_quotes sort_by pick generate_quote default_quotes].
  intros (r & -> & Hr)%list_elem_of_fmap. simpl.
  by rewrite (sort_by_perm game_created_desc (games d)) in Hr.
Qed.

(** Every state the page reaches keeps [home_inv]. *)
Lemma run_home_inv sch d quotes_ok rnd es :
  games_wf sch d -> home_inv d quotes_ok (run_home d quotes_ok rnd es).
Proof.
  intros Hwf. unfold run_home. generalize (fetch_home_inv sch d quotes_ok rnd Hwf).
  generalize (fetch_home (fst (list_games d)) (if quotes_ok then Some (quotes_route d) else None) rnd
                (initial_home rnd)).
  induction es as [|e es IH]; intros s0 Hs0; [done|]. simpl. by apply IH, home_step_inv.
Qed.

(** [C40] In every state the home page reaches (its fetch, then any
    selections in the game hall and ticks of the quote interval), there
    are at most three active games, with distinct ids, all taken from the
    fetched games; each fetched game carries exactly the contents of its
    quotes when the quotes request succeeded; and the quote shown is a
    built-in one or a quote of the first active game. *)
Theorem home_active_games sch d quotes_ok rnd es :
  games_wf sch d ->
  let s := run_home d quotes_ok rnd es in
  length (h_active s) <= 3 /\
  NoDup (map (fun g => game_id (hg_row g)) (h_active s)) /\
  Forall (fun g => g ∈ h_games s) (h_active s) /\
  (quotes_ok = true -> Forall (fun g => hg_quotes g =
     map text_content (filter (fun q => text_game_id q = game_id (hg_row g)) (quotes d))) (h_games s)) /\
  (h_quote s ∈ default_quotes \/ exists g rest, h_active s = g :: rest /\ h_quote s ∈ hg_quotes g).
Proof.
  intros Hwf s. by destruct (run_home_inv sch d quotes_ok rnd es Hwf) as [H1 H2 H3 H4 H5].
Qed.

(** In every state the page reaches, each active card links to the
    detail page of its game, a game of the database; the hall's
    selection buttons are shown to admins only. *)
Theorem home_links sch d quotes_ok rnd es u :
  games_wf sch d ->
  let s := run_home d quotes_ok rnd es in
  Forall (fun c => exists g, g ∈ games d /\
            resolve (hm_link c) = Some (PGameDetail, [("gameId", pretty (game_id g))]) /\
            hm_name c = game_name g) (hm_cards (render_home u s)) /\
  (is_Some (hm_hall (render_home u s)) <-> is_admin u = true).
Proof.
  intros Hwf s. split.
  - destruct (run_home_inv sch d quotes_ok rnd es Hwf) as [_ _ Hsub _ _].
    apply Forall_map. eapply Forall_impl; [exact Hsub|]. intros g Hg.
    exists (hg_row g). split; [eapply run_home_games_from_db; exact Hg|].
    split; [apply resolve_game_link|done].
  - simpl. destruct (is_admin u); split; intros H; [done|eauto|by destruct H|done].
Qed.

Lemma home_active_games_witness :
  let s := run_home ex_gdb true 4 [HTick 2; HSelect 0 1] in
  length (h_active s) <= 3 /\
  NoDup (map (fun g => game_id (hg_row g)) (h_active s)) /\
  Forall (fun g => g ∈ h_games s) (h_active s) /\
  (true = true -> Forall (fun g => hg_quotes g =
     map text_content (filter (fun q => text_game_id q = game_id (hg_row g)) (quotes ex_gdb))) (h_games s)) /\
  (h_quote s ∈ default_quotes \/ exists g rest, h_active s = g :: rest /\ h_quote s ∈ hg_quotes g).
Proof. apply (home_active_games sch_strict), ex_gdb_wf. Defined.

End Home.
