(* ===== verification/CrewPage.v ===== *)
(** * CrewPage: the crew page (Crew.tsx)

    [components/Crew.tsx] fetches [GET /api/crew] once, shows
    "Loading..." until the request settled ([finally]), then three
    statistics and one card per member; an admin sees an add button and,
    on each card, Edit (a navigation to [/crew/edit/<id>]) and Delete
    (a [confirm], the DELETE, then the local removal of the card, or an
    alert when the request failed).

    The page state is a record of its two [useState]s; the answers of
    the requests and the user's answer to [confirm] are inputs.

    Theorems: once a confirmed delete succeeded, the cards are exactly
    what a reload would show; the page shows "Loading..." only until the
    fetch settles, whatever its answer; every card's Edit link opens the
    editor of that member. *)

From Stdlib Require Import ZArith Lia Ascii String.
From stdpp Require Import base list strings pretty.
From S2P Require Import Prelude Db FeedServer Auth Crew GameViews AppShell.

Module CrewPage.
Import Auth Crew GameViews AppShell.

(** ** State and handlers *)

Record crew_page := mk_crew_page {
  cp_data : list crew_row;    (** [crewData] *)
  cp_loading : bool           (** [loading] *)
}.

Definition initial_crew_page : crew_page := mk_crew_page [] true.

(** [fetchCrew]: [setCrewData(res.data)] when the request resolved,
    [setLoading(false)] in every case. *)
Definition crew_fetched (r : response cbody) (p : crew_page) : crew_page :=
  match r with
  | Reply c (CRows rs) => if http_ok c then mk_crew_page rs false else mk_crew_page (cp_data p) false
  | _ => mk_crew_page (cp_data p) false
  end.

(** [handleDelete(id)]: nothing unless confirmed; after the DELETE
    resolved, the card is removed; a failed request only alerts.  The
    boolean is whether the alert "Gagal hapus member" is shown. *)
Definition crew_delete (confirmed : bool) (id : Z) (r : response cbody) (p : crew_page) : crew_page * bool :=
  if negb confirmed then (p, false)
  else match r with
       | Reply c _ => if http_ok c then (mk_crew_page (crew_after_delete id (cp_data p)) (cp_loading p), false)
                      else (p, true)
       | NoReply => (p, false)
       end.

(** ** What the page shows *)

(** A number as a JSX child: [null] renders nothing. *)
Definition jsx_num (o : option Z) : string := match o with Some z => pretty z | None => "" end.

Record member_card := mk_member_card {
  mc_id : Z;
  mc_nickname : sqltext;
  mc_name : sqltext;
  mc_role : sqltext;
  mc_panic : string;            (** [{member.panic_level}/10] *)
  mc_bar_width : string;        (** [`${member.panic_level * 10}%`]: [null * 10] is 0 *)
  mc_specialty : sqltext;
  mc_famous_for : sqltext;
  mc_fun_facts : list sqltext;  (** [(member.fun_facts || [])] *)
  mc_games : string;
  mc_deaths : string;
  mc_admin_buttons : bool;
  mc_edit_path : list string    (** [navigate(`/crew/edit/${member.id}`)] *)
}.

Definition member_card_of (u : option user_row) (m : crew_row) : member_card :=
  mk_member_card (crew_id m) (crew_nickname m) (crew_name m) (crew_role m)
    (jsx_num (crew_panic_level m) +:+ "/10")
    (pretty (10 * default 0 (crew_panic_level m))%Z +:+ "%")
    (crew_specialty m) (crew_famous_for m) (default [] (crew_fun_facts m))
    (jsx_num (crew_games_played m)) (jsx_num (crew_deaths m)) (is_admin u)
    ["crew"; "edit"; pretty (crew_id m)].

Record crew_view := mk_crew_view {
  cv_members : nat;
  cv_avg_panic : number;
  cv_total_deaths : Z;
  cv_add_button : bool;
  cv_cards : list member_card
}.

(** [None] is "Loading...". *)
Definition render_crew (u : option user_row) (p : crew_page) : option crew_view :=
  if cp_loading p then None
  else Some (mk_crew_view (length (cp_data p)) (avg_panic (cp_data p)) (total_deaths (cp_data p))
               (is_admin u) (map (member_card_of u) (cp_data p))).

(** ** Order of the listing *)

Lemma str_leb_total a b : str_leb a b = false -> str_leb b a = true.
Proof.
  revert b. induction a as [|x a IH]; intros [|y b]; simpl; try done.
  destruct (Nat.ltb_spec (nat_of_ascii x) (nat_of_ascii y)); [done|].
  destruct (Nat.eqb_spec (nat_of_ascii x) (nat_of_ascii y)) as [Heq|Hne].
  - rewrite Heq, Nat.ltb_irrefl, Nat.eqb_refl. apply IH.
  - intros _. destruct (Nat.ltb_spec (nat_of_ascii y) (nat_of_ascii x)); [done|lia].
Qed.

Lemma str_leb_trans a b c : str_leb a b = true -> str_leb b c = true -> str_leb a c = true.
Proof.
  revert b c. induction a as [|x a IH]; intros [|y b] [|z c]; simpl; try done.
  destruct (Nat.ltb_spec (nat_of_ascii x) (nat_of_ascii y)) as [Hxy|Hxy];
  destruct (Nat.ltb_spec (nat_of_ascii y) (nat_of_ascii z)) as [Hyz|Hyz];
  destruct (Nat.ltb_spec (nat_of_ascii x) (nat_of_ascii z)) as [Hxz|Hxz]; try done;
  repeat match goal with
         | |- context [Nat.eqb ?m ?n] => destruct (Nat.eqb_spec m n)
         end; try done; try lia.
  apply IH.
Qed.

Lemma name_asc_total a b : name_asc a b = false -> name_asc b a = true.
Proof. unfold name_asc. destruct (crew_name a), (crew_name b); try done. apply str_leb_total. Qed.

Lemma name_asc_trans a b c : name_asc a b = true -> name_asc b c = true -> name_asc a c = true.
Proof.
  unfold name_asc. destruct (crew_name a), (crew_name b), (crew_name c); try done. apply str_leb_trans.
Qed.

(** ** The delete run *)

Lemma delete_member_run id d :
  int4_range id = true ->
  delete_member (PInt id) d =
    (Reply 200 (CMessage "Deleted"), mk_cdb (filter (fun m => crew_id m <> id) (members d)) (crew_seq d) (cnow d)).
Proof. intros Hid. unfold delete_member, chandle, catch_crew, crew_param. by rewrite Hid. Qed.

Lemma crew_fetched_listing d p :
  crew_fetched (fst (list_crew d)) p = mk_crew_page (sort_by name_asc (members d)) false.
Proof. reflexivity. Qed.

(** ** Theorems *)

(** Once the admin confirmed the delete of a member with an [integer]
    id and the route answered, the page's own removal of the card gives
    exactly the cards a reload would show: the remaining members in name
    order. *)
Theorem crew_delete_matches_reload d id :
  int4_range id = true ->
  let p := crew_fetched (fst (list_crew d)) initial_crew_page in
  let '(r, d') := delete_member (PInt id) d in
  fst (crew_delete true id r p) = crew_fetched (fst (list_crew d')) initial_crew_page.
Proof.
  intros Hid p. rewrite delete_member_run by done. unfold p. rewrite !crew_fetched_listing.
  cbn -[sort_by]. f_equal. unfold crew_after_delete.
  apply filter_sort_by; [apply name_asc_total|apply name_asc_trans].
Qed.

(** The page shows "Loading..." until the fetch settles and the
    statistics and cards afterwards, whatever the answer: a failed
    fetch shows an empty crew (0 members, an average of NaN). *)
Theorem crew_loading_ends u r :
  render_crew u initial_crew_page = None /\
  exists v, render_crew u (crew_fetched r initial_crew_page) = Some v /\
    cv_members v = length (cv_cards v) /\
    (cv_members v = 0 -> cv_avg_panic v = NaN).
Proof.
  split; [done|].
  assert (forall p, cp_loading (crew_fetched r p) = false) as Hl
    by (intros p; destruct r as [c []|]; simpl; try done; by destruct (http_ok c)).
  unfold render_crew. rewrite Hl. eexists. split; [reflexivity|]. simpl. rewrite length_map.
  split; [done|]. by destruct (cp_data (crew_fetched r initial_crew_page)).
Qed.

(** Each card's Edit button opens the member editor with the id of its
    member. *)
Theorem crew_edit_links u m :
  resolve (mc_edit_path (member_card_of u m)) = Some (PEditCrew, [("id", pretty (crew_id m))]).
Proof.
  simpl. destruct (pretty (crew_id m)) as [|c x] eqn:E.
  - by apply pretty_Z_nonempty in E.
  - vm_compute. reflexivity.
Qed.

(** ** Concrete runs *)

Lemma crew_delete_matches_reload_witness :
  let p := crew_fetched (fst (list_crew ex_cdb)) initial_crew_page in
  let '(r, d') := delete_member (PInt 1) ex_cdb in
  fst (crew_delete true 1 r p) = crew_fetched (fst (list_crew d')) initial_crew_page.
Proof. apply crew_delete_matches_reload. reflexivity. Defined.

(** A member with a NULL panic level shows "/10" and an empty bar. *)
Example ex_null_panic_card :
  mc_panic (member_card_of None (mk_crew 9 (Some "X") None None None None None None None None None None)) = "/10" /\
  mc_bar_width (member_card_of None (mk_crew 9 (Some "X") None None None None None None None None None None)) = "0%".
Proof. split; reflexivity. Qed.

End CrewPage.
