(* ===== verification/Server.v ===== *)
(** * Server: the Express application and its dispatch

    [src/server/server.js] mounts the routers under their prefixes, then
    [express.static] on [/uploads], then [GET /] and [GET /test-users].
    A request goes through these layers in order: a mounted router
    strips its prefix and tries its routes in the order of its file (a
    route whose method or path differs passes the request on, and so
    does a router none of whose routes match); [ensureAuth] ends an
    anonymous request with 401 before the handler; the static layer
    answers a GET for a file of [uploads/] and passes anything else on;
    past the last layer Express answers 404.  Paths compare without
    regard to case and a [:param] takes one non-empty segment, as in the
    pattern react-router compiles ([AppShell.match_segs]).  The browser
    requests, for a media URL of the vault, the path before its first
    [?] or [#] ([url_request_path]); percent-decoding is not modelled.

    Theorems: anonymous and authenticated requests go to the same
    handler, except that an anonymous request to a route guarded by
    [ensureAuth] is answered 401; every route that writes games or crew
    members has no guard, so an anonymous request reaches its handler;
    [/test-users] gives anyone every row of [users]; every clip file
    the upload route stored is served to anonymous requests, when its
    name is plain; a file whose original extension holds a [#] is stored
    under a name its URL never requests. *)

From Stdlib Require Import ZArith Lia Ascii String.
From stdpp Require Import base list strings pretty.
From S2P Require Import Prelude Db FeedServer Vault VaultPage Auth GameViews AppShell.

Module Server.
Import FeedServer Vault VaultPage Auth GameViews AppShell.

(** ** Routes *)

Inductive meth := GET | POST | PUT | DELETE.

#[export] Instance meth_eq_dec : EqDecision meth.
Proof. solve_decision. Defined.

(** The middleware in front of a handler. *)
Inductive guard := Open | EnsureAuth.

(** The handlers of the application. *)
Inductive endpoint :=
| EFeedList | EFeedPost | EFeedLike | EFeedComment
| EUpload | EVideos | EVault
| EDiscord | EDiscordCallback | ELogout | ECheck
| EGameCreate | EGameGet | EGameUpdate | EGamesList | EGameDelete
| ECrewList | ECrewGet | ECrewCreate | ECrewUpdate | ECrewDelete
| EQuotes | ERoot | ETestUsers.

#[export] Instance endpoint_eq_dec : EqDecision endpoint.
Proof. solve_decision. Defined.

Record xroute := mk_xroute {
  x_meth : meth;
  x_path : list seg;
  x_guard : guard;
  x_endpoint : endpoint
}.

(** [routes/feedRoutes.js] *)
Definition feed_routes : list xroute := [
  mk_xroute GET [] EnsureAuth EFeedList;
  mk_xroute POST [] EnsureAuth EFeedPost;
  mk_xroute POST [Dyn "id"; Lit "like"] EnsureAuth EFeedLike;
  mk_xroute POST [Dyn "id"; Lit "comment"] EnsureAuth EFeedComment ].

(** [routes/uploadRoutes.js]: [ensureAuth] runs before multer. *)
Definition upload_routes : list xroute := [
  mk_xroute POST [Lit "upload"] EnsureAuth EUpload;
  mk_xroute GET [Lit "videos"] Open EVideos ].

(** [routes/vaultRoutes.js] *)
Definition vault_routes : list xroute := [mk_xroute GET [Lit "vault"] EnsureAuth EVault].

(** [routes/authRoutes.js] *)
Definition auth_routes : list xroute := [
  mk_xroute GET [Lit "discord"] Open EDiscord;
  mk_xroute GET [Lit "discord"; Lit "callback"] Open EDiscordCallback;
  mk_xroute GET [Lit "logout"] Open ELogout;
  mk_xroute GET [Lit "check"] Open ECheck ].

(** [routes/gameRoutes.js], in the order of the file. *)
Definition game_routes : list xroute := [
  mk_xroute POST [] Open EGameCreate;
  mk_xroute GET [Dyn "gameId"] Open EGameGet;
  mk_xroute PUT [Dyn "gameId"] Open EGameUpdate;
  mk_xroute GET [] Open EGamesList;
  mk_xroute DELETE [Dyn "gameId"] Open EGameDelete ].

(** [routes/crewRoutes.js] *)
Definition crew_routes : list xroute := [
  mk_xroute GET [] Open ECrewList;
  mk_xroute GET [Dyn "id"] Open ECrewGet;
  mk_xroute POST [] Open ECrewCreate;
  mk_xroute PUT [Dyn "id"] Open ECrewUpdate;
  mk_xroute DELETE [Dyn "id"] Open ECrewDelete ].

(** [routes/quotesRoutes.js] *)
Definition quotes_routes : list xroute := [mk_xroute GET [] Open EQuotes].

(** A layer of the application. *)
Inductive layer :=
| Mount (prefix : list string) (rs : list xroute)   (** [app.use(prefix, router)] *)
| Static (prefix : list string)                      (** [app.use(prefix, express.static(dir))] *)
| AppRoute (r : xroute).                             (** [app.get(path, handler)] *)

(** [server.js], in the order of its [app.use] and [app.get] calls. *)
Definition app : list layer := [
  Mount ["api"; "feedupdate"] feed_routes;
  Mount ["api"; "upload"] upload_routes;
  Mount ["api"; "vault"] vault_routes;
  Mount ["api"; "auth"] auth_routes;
  Mount ["api"; "games"] game_routes;
  Mount ["api"; "crew"] crew_routes;
  Mount ["api"; "quotes"] quotes_routes;
  Static ["uploads"];
  AppRoute (mk_xroute GET [] Open ERoot);
  AppRoute (mk_xroute GET [Lit "test-users"] Open ETestUsers) ].

(** ** Dispatch *)

(** How a request ends. *)
Inductive outcome :=
| Handle (e : endpoint) (params : list (string * string))
| Unauthorized                  (** [ensureAuth]: 401 [{ error: "Unauthorized" }] *)
| ServeFile (f : string)        (** [express.static] sends [uploads/f] *)
| NotFound.                     (** Express's final handler *)

(** [app.use(prefix, ...)] matches whole segments without regard to
    case and hands the rest of the path to the layer. *)
Fixpoint strip_prefix (pre p : list string) : option (list string) :=
  match pre, p with
  | [], _ => Some p
  | x :: pre', y :: p' => if String.eqb (lower_string x) (lower_string y) then strip_prefix pre' p' else None
  | _ :: _, [] => None
  end.

(** [ensureAuth], or the handler directly. *)
Definition guarded (authed : bool) (r : xroute) (ps : list (string * string)) : outcome :=
  match x_guard r with
  | EnsureAuth => if authed then Handle (x_endpoint r) ps else Unauthorized
  | Open => Handle (x_endpoint r) ps
  end.

(** A router: its first route with the method and a matching path. *)
Fixpoint route_in (authed : bool) (m : meth) (rs : list xroute) (p : list string) : option outcome :=
  match rs with
  | [] => None
  | r :: rs' =>
      if decide (x_meth r = m) then
        match match_segs (x_path r) p with
        | Some ps => Some (guarded authed r ps)
        | None => route_in authed m rs' p
        end
      else route_in authed m rs' p
  end.

(** [express.static]: a GET for a file of the directory is answered
    with it; anything else goes on. *)
Definition serve_static (files : list string) (m : meth) (rest : list string) : option outcome :=
  match m, rest with
  | GET, [f] => if decide (f ∈ files) then Some (ServeFile f) else None
  | _, _ => None
  end.

Definition run_layer (authed : bool) (files : list string) (m : meth) (p : list string) (l : layer) : option outcome :=
  match l with
  | Mount pre rs => strip_prefix pre p ≫= route_in authed m rs
  | Static pre => strip_prefix pre p ≫= serve_static files m
  | AppRoute r => route_in authed m [r] p
  end.

Fixpoint run_layers (authed : bool) (files : list string) (m : meth) (p : list string) (ls : list layer) : outcome :=
  match ls with
  | [] => NotFound
  | l :: ls' => match run_layer authed files m p l with Some o => o | None => run_layers authed files m p ls' end
  end.

(** The outcome of a request with method [m] for the path segments [p],
    [authed] when the session carries a user, with [files] in
    [uploads/]. *)
Definition dispatch (authed : bool) (files : list string) (m : meth) (p : list string) : outcome :=
  run_layers authed files m p app.

(** ** What the browser requests for a media URL *)

(** The part of a URL that is its path: everything before a [?] (the
    query) or a [#] (the fragment). *)
Fixpoint url_cut (s : string) : string :=
  match s with
  | EmptyString => EmptyString
  | String c s' => if Ascii.eqb c "?" || Ascii.eqb c "#" then EmptyString else String c (url_cut s')
  end.

(** The path segments of the request a [src] of the server's origin
    [base] makes.  The percent-decoding that [express.static] applies is
    not modelled: it leaves a segment without [%] unchanged, and the
    theorems below only use such segments. *)
Definition url_request_path (base url : string) : option (list string) :=
  if String.prefix base url then
    match split_slash (url_cut (substring (String.length base) (String.length url - String.length base) url)) with
    | "" :: segs => Some segs
    | _ => None
    end
  else None.

(** A file name that a URL carries as it is: no [/], [?], [#] or [%]. *)
Definition url_plain (f : string) : bool :=
  forallb (fun c => negb (Ascii.eqb c "/" || Ascii.eqb c "?" || Ascii.eqb c "#" || Ascii.eqb c "%"))
    (list_ascii_of_string f).

(** ** GET /test-users *)

Inductive tbody := TRows (rs : list user_row) | TError (msg : string).

(** [SELECT * FROM users] sent as it is; a failed query answers 500
    with the driver's message. *)
Definition test_users (fault : option string) (d : adb) : response tbody :=
  match fault with
  | Some msg => Reply 500 (TError msg)
  | None => Reply 200 (TRows (users d))
  end.

(** ** The admin guard (routes/adminRoutes.js) *)

(** [requireAdmin]: 403 [{ message: "Forbidden" }] unless the session
    user's role is "admin"; [None] is [next()].  The file is imported
    by no module (and would throw when loaded: its routes use [router]
    before its declaration and a [gameController] it never imports). *)
Definition require_admin (u : user_row) : option (response string) :=
  if String.eqb (ur_role u) "admin" then None else Some (Reply 403 "Forbidden").

(** ** Guards *)

Definition layer_routes (l : layer) : list xroute :=
  match l with Mount _ rs => rs | Static _ => [] | AppRoute r => [r] end.

Definition app_routes : list xroute := concat (map layer_routes app).

#[export] Instance guard_eq_dec : EqDecision guard.
Proof. solve_decision. Defined.

(** The handlers [ensureAuth] stands in front of. *)
Definition guarded_endpoints : list endpoint :=
  map x_endpoint (filter (fun r => x_guard r = EnsureAuth) app_routes).

(** What an anonymous request gets where an authenticated one gets [o]. *)
Definition anon (o : outcome) : outcome :=
  match o with
  | Handle e ps => if bool_decide (e ∈ guarded_endpoints) then Unauthorized else o
  | _ => o
  end.

(** A route is guarded exactly when its handler is one of the guarded
    ones: no handler is reached both through a guarded and an open
    route. *)
Definition route_consistent (r : xroute) : Prop := x_guard r = EnsureAuth <-> x_endpoint r ∈ guarded_endpoints.

Lemma app_routes_consistent : Forall route_consistent app_routes.
Proof. unfold route_consistent. by_eval. Qed.

Lemma guarded_anon r ps : route_consistent r -> guarded false r ps = anon (guarded true r ps).
Proof.
  unfold route_consistent, guarded, anon. intros Hr.
  destruct (x_guard r) eqn:Hg; case_bool_decide as He; try done;
    [apply Hr in He; discriminate | exfalso; apply He, Hr; reflexivity].
Qed.

Lemma route_in_anon m rs p :
  Forall route_consistent rs -> route_in false m rs p = anon <$> route_in true m rs p.
Proof.
  induction 1 as [|r rs Hr _ IH]; simpl; [done|].
  case_decide; [|exact IH]. destruct (match_segs (x_path r) p); [|exact IH].
  simpl. f_equal. by apply guarded_anon.
Qed.

Lemma run_layer_anon files m p l :
  Forall route_consistent (layer_routes l) ->
  run_layer false files m p l = anon <$> run_layer true files m p l.
Proof.
  destruct l as [pre rs|pre|r]; simpl; intros Hl.
  - destruct (strip_prefix pre p); simpl; [by apply route_in_anon|done].
  - destruct (strip_prefix pre p) as [rest|]; simpl; [|done].
    destruct m; try done. destruct rest as [|f [|]]; try done. simpl. by case_decide.
  - exact (route_in_anon m [r] p Hl).
Qed.

Lemma run_layers_anon files m p ls :
  Forall (fun l => Forall route_consistent (layer_routes l)) ls ->
  run_layers false files m p ls = anon (run_layers true files m p ls).
Proof.
  induction 1 as [|l ls Hl _ IH]; simpl; [done|].
  rewrite (run_layer_anon files m p l Hl). by destruct (run_layer true files m p l).
Qed.

(** ** Static files *)

(** A stored file is served at [/uploads/<file>]: no router before the
    static layer takes a path that starts with "uploads". *)
Lemma strip_api_uploads pre rest : strip_prefix ("api" :: pre) ("uploads" :: rest) = None.
Proof. reflexivity. Qed.

Lemma strip_uploads rest : strip_prefix ["uploads"] ("uploads" :: rest) = Some rest.
Proof. reflexivity. Qed.

Lemma dispatch_uploads authed files f :
  f ∈ files -> dispatch authed files GET ["uploads"; f] = ServeFile f.
Proof.
  intros Hf. unfold dispatch, app. cbn [run_layers run_layer].
  rewrite !strip_api_uploads, strip_uploads. cbn. by rewrite decide_True.
Qed.

Lemma string_app_cons c (a x : string) : String c a +:+ x = String c (a +:+ x).
Proof. reflexivity. Qed.

Lemma prefix_app (a x : string) : String.prefix a (a +:+ x) = true.
Proof.
  induction a as [|c a IH]; [by destruct x|]. rewrite string_app_cons. simpl.
  destruct (ascii_dec c c); [exact IH|done].
Qed.

Lemma string_length_app (a x : string) : String.length (a +:+ x) = String.length a + String.length x.
Proof. induction a as [|c a IH]; [reflexivity|]. rewrite string_app_cons. simpl. by rewrite IH. Qed.

Lemma string_app_assoc (a b x : string) : a +:+ (b +:+ x) = (a +:+ b) +:+ x.
Proof. induction a as [|c a IH]; [reflexivity|]. rewrite !string_app_cons. by rewrite IH. Qed.

Lemma string_app_nil_r (a : string) : a +:+ "" = a.
Proof. induction a as [|c a IH]; [reflexivity|]. rewrite string_app_cons. by rewrite IH. Qed.

Lemma substring_app (a x : string) :
  substring (String.length a) (String.length (a +:+ x) - String.length a) (a +:+ x) = x.
Proof.
  rewrite string_length_app, Nat.add_comm, Nat.add_sub.
  induction a as [|c a IH]; [|rewrite string_app_cons; simpl; exact IH].
  change ("" +:+ x) with x. simpl.
  induction x as [|c x IH]; simpl; [done|by rewrite IH].
Qed.

Lemma url_cut_app (a x : string) :
  url_plain a = true -> url_cut (a +:+ x) = a +:+ url_cut x.
Proof.
  induction a as [|c a IH]; [done|]. rewrite !string_app_cons. intros H.
  apply andb_prop in H as [Hc Ha]. apply negb_true_iff in Hc. repeat rewrite orb_false_iff in Hc.
  destruct Hc as [[[_ H1] H2] _]. simpl. rewrite H1, H2. simpl. by rewrite IH.
Qed.

Lemma url_cut_plain (a : string) : url_plain a = true -> url_cut a = a.
Proof. intros H. pose proof (url_cut_app a "" H) as E. by rewrite !string_app_nil_r in E. Qed.

Lemma split_slash_plain (a : string) : url_plain a = true -> split_slash a = [a].
Proof.
  induction a as [|c a IH]; [done|]. intros H. apply andb_prop in H as [Hc Ha].
  apply negb_true_iff in Hc. repeat rewrite orb_false_iff in Hc.
  destruct Hc as [[[H0 _] _] _]. simpl. rewrite H0. by rewrite IH.
Qed.

Lemma url_plain_app (a x : string) : url_plain (a +:+ x) = url_plain a && url_plain x.
Proof.
  induction a as [|c a IH]; [done|]. rewrite string_app_cons. unfold url_plain in *. simpl.
  rewrite IH. by rewrite andb_assoc.
Qed.

(** The decimal text of a number is plain. *)
Lemma url_plain_pretty_N (x : N) : url_plain (pretty x) = true.
Proof.
  assert (forall y s, url_plain s = true -> url_plain (pretty_N_go y s) = true) as Hgo.
  { intros y. induction (N.lt_wf_0 y) as [y _ IH]. intros s Hs.
    destruct (decide (y = 0)%N) as [->|Hy]; [by rewrite pretty_N_go_0|].
    rewrite pretty_N_go_step by lia. apply IH; [apply N.div_lt; lia|].
    unfold url_plain. simpl. fold (url_plain s). rewrite Hs, andb_true_r.
    unfold pretty_N_char. by repeat case_match. }
  unfold pretty, pretty_N. case_decide; [done|]. by apply Hgo.
Qed.

Lemma dispatch_uploads_missing authed files f :
  f ∉ files -> dispatch authed files GET ["uploads"; f] = NotFound.
Proof.
  intros Hf. unfold dispatch, app. cbn [run_layers run_layer].
  rewrite !strip_api_uploads, strip_uploads. cbn. rewrite decide_False by done. reflexivity.
Qed.

(** The media URL of a stored file whose name is plain requests
    [/uploads/<file>]. *)
Lemma url_request_path_upload base f :
  url_plain f = true -> url_request_path base (upload_url base f) = Some ["uploads"; f].
Proof.
  intros Hf. unfold url_request_path, upload_url. rewrite prefix_app, substring_app.
  rewrite !string_app_cons. simpl. rewrite url_cut_plain by done. simpl.
  by rewrite split_slash_plain.
Qed.

(** ** Theorems *)

(** The application treats an anonymous request as an authenticated
    one, except that where the latter reaches a handler guarded by
    [ensureAuth] (the feed, the upload and the vault) the former is
    answered 401: the guards depend on the handler, not on the path
    that reached it. *)
Theorem dispatch_anonymous files m p :
  dispatch false files m p = anon (dispatch true files m p).
Proof.
  apply run_layers_anon. pose proof app_routes_consistent as H. unfold app_routes in H.
  apply Forall_forall. intros l Hl. apply Forall_forall. intros r Hr.
  eapply Forall_forall in H; [exact H|]. apply list_elem_of_In, in_concat. exists (layer_routes l).
  split; [apply in_map; by apply list_elem_of_In|by apply list_elem_of_In].
Qed.

(** [C39] A request without a session reaches the handlers that create,
    update and delete games and crew members: these routes have no
    guard, although the client shows their forms to admins only. *)
Theorem anonymous_game_crew_writes files id :
  id <> "" ->
  dispatch false files POST ["api"; "games"] = Handle EGameCreate [] /\
  dispatch false files PUT ["api"; "games"; id] = Handle EGameUpdate [("gameId", id)] /\
  dispatch false files DELETE ["api"; "games"; id] = Handle EGameDelete [("gameId", id)] /\
  dispatch false files POST ["api"; "crew"] = Handle ECrewCreate [] /\
  dispatch false files PUT ["api"; "crew"; id] = Handle ECrewUpdate [("id", id)] /\
  dispatch false files DELETE ["api"; "crew"; id] = Handle ECrewDelete [("id", id)].
Proof.
  intros Hid. destruct id as [|c id]; [done|]. split_and!; vm_compute; reflexivity.
Qed.

(** [GET /test-users] answers any request, with or without a session,
    with every row of [users]: Discord ids, roles and whether the
    account is active. *)
Theorem test_users_public authed files d :
  dispatch authed files GET ["test-users"] = Handle ETestUsers [] /\
  test_users None d = Reply 200 (TRows (users d)).
Proof. split; reflexivity. Qed.

(** [C33] In every state the upload routes reach, each local card of the
    vault page opens in its modal [<base>/uploads/<file>]; when the stored
    names are plain (no [/], [?], [#] or [%]), the browser requests
    [/uploads/<file>] for that URL, and the application answers it with
    that file, to anonymous requests as well: a clip's media never points
    at a missing file, and it is public although the vault is not. *)
Theorem local_media_served sch base u a d vs v authed :
  vreachable sch d -> Forall (fun f => url_plain f = true) (disk d) ->
  v ∈ fetch_vault (vault_listing base (Some u) (youtube_videos a) d) vs -> vp_source v = "local" ->
  exists f src, media_src (modal_media_of v) = Some src /\
    url_request_path base src = Some ["uploads"; f] /\
    dispatch authed (disk d) GET ["uploads"; f] = ServeFile f.
Proof.
  intros Hr Hplain Hv Hs. destruct (local_media_on_disk sch base u a d vs v Hr Hv Hs) as (f & Hf & Hm).
  exists f, (upload_url base f). split_and!; [exact Hm| |by apply dispatch_uploads].
  apply url_request_path_upload. by eapply Forall_forall in Hplain.
Qed.

(** [C34] multer keeps the extension of the uploaded file's name.  When that
    extension holds a [#], the media URL's path stops before it: the
    browser requests a file named by the part before the [#], which is
    not the stored file, so the clip's media never loads (a 404, or
    another file that happens to have that name). *)
Theorem media_link_cut_at_hash base now rand orig e1 e2 :
  extname orig = e1 +:+ String "#" e2 -> url_plain e1 = true ->
  let f := multer_filename now rand orig in
  let p := pretty now +:+ "-" +:+ pretty rand +:+ e1 in
  url_request_path base (upload_url base f) = Some ["uploads"; p] /\
  forall authed files, dispatch authed files GET ["uploads"; p] <> ServeFile f.
Proof.
  intros He He1 f p.
  assert (url_plain p = true) as Hp by (unfold p; rewrite !url_plain_app, !url_plain_pretty_N, He1; done).
  assert (f = p +:+ String "#" e2) as Hf.
  { unfold f, p, multer_filename. rewrite He. by rewrite <- !string_app_assoc. }
  split.
  - unfold url_request_path, upload_url. rewrite prefix_app, substring_app, Hf.
    rewrite !string_app_cons. simpl. change ("" +:+ (p +:+ String "#" e2)) with (p +:+ String "#" e2).
    rewrite (url_cut_app p (String "#" e2) Hp). simpl.
    rewrite string_app_nil_r. by rewrite split_slash_plain.
  - intros authed files. assert (p <> f) as Hne.
    { rewrite Hf. intros Heq. apply (f_equal String.length) in Heq.
      rewrite string_length_app in Heq. simpl in Heq. lia. }
    destruct (decide (p ∈ files)) as [Hin|Hin].
    + rewrite dispatch_uploads by done. congruence.
    + by rewrite dispatch_uploads_missing.
Qed.

(** [requireAdmin] lets through exactly the users the client's admin
    pages accept, but no layer of the application runs it: every route
    of the game and crew routers is open. *)
Theorem require_admin_unused r :
  (require_admin r = None <-> is_admin (Some r) = true) /\
  Forall (fun x => x_guard x = Open) (game_routes ++ crew_routes).
Proof.
  split; [|by repeat constructor]. unfold require_admin, is_admin.
  destruct (String.eqb (ur_role r) "admin"); split; done.
Qed.

(** ** Concrete runs *)

Lemma anonymous_game_crew_writes_witness :
  dispatch false [] POST ["api"; "games"] = Handle EGameCreate [] /\
  dispatch false [] PUT ["api"; "games"; "7"] = Handle EGameUpdate [("gameId", "7")] /\
  dispatch false [] DELETE ["api"; "games"; "7"] = Handle EGameDelete [("gameId", "7")] /\
  dispatch false [] POST ["api"; "crew"] = Handle ECrewCreate [] /\
  dispatch false [] PUT ["api"; "crew"; "7"] = Handle ECrewUpdate [("id", "7")] /\
  dispatch false [] DELETE ["api"; "crew"; "7"] = Handle ECrewDelete [("id", "7")].
Proof. apply anonymous_game_crew_writes. discriminate. Defined.

Lemma local_media_served_witness :
  vreachable vsch ex_reached /\ Forall (fun f => url_plain f = true) (disk ex_reached) /\
  exists f src, media_src (modal_media_of (video_of_item (local_item "http://localhost:3000" (hd ex_clip (clips ex_reached)))))
              = Some src /\
            url_request_path "http://localhost:3000" src = Some ["uploads"; f] /\
            dispatch false (disk ex_reached) GET ["uploads"; f] = ServeFile f.
Proof.
  assert (vreachable vsch ex_reached) as Hr by (apply vreach_upload, vreach_empty).
  assert (Forall (fun f => url_plain f = true) (disk ex_reached)) as Hp by (vm_compute; repeat constructor).
  split; [exact Hr|]. split; [exact Hp|].
  apply (local_media_served vsch "http://localhost:3000" alice YtNoEnv ex_reached []);
    [exact Hr|exact Hp|vm_compute; constructor|reflexivity].
Defined.

(** A file uploaded as "clip.mp4#1" at time 17 with random part 42 is
    stored as "17-42.mp4#1", and its card asks for "17-42.mp4". *)
Lemma media_link_cut_at_hash_witness :
  extname "clip.mp4#1" = ".mp4" +:+ String "#" "1" /\
  url_request_path "http://localhost:3000" (upload_url "http://localhost:3000" (multer_filename 17 42 "clip.mp4#1"))
    = Some ["uploads"; "17-42.mp4"].
Proof.
  assert (extname "clip.mp4#1" = ".mp4" +:+ String "#" "1") as H by reflexivity.
  split; [exact H|].
  exact (proj1 (media_link_cut_at_hash "http://localhost:3000" 17 42 "clip.mp4#1" ".mp4" "1" H eq_refl)).
Defined.

(** The feed and the vault answer an anonymous request 401, an
    anonymous upload never reaches multer, and the same paths in another
    case reach the same handlers. *)
Example ex_anonymous_guarded :
  dispatch false [] GET ["api"; "feedupdate"] = Unauthorized /\
  dispatch false [] POST ["api"; "upload"; "upload"] = Unauthorized /\
  dispatch false [] GET ["API"; "Vault"; "VAULT"] = Unauthorized /\
  dispatch true [] GET ["API"; "Vault"; "VAULT"] = Handle EVault [] /\
  dispatch false [] GET ["api"; "upload"; "videos"] = Handle EVideos [] /\
  dispatch false [] GET ["uploads"; "missing.mp4"] = NotFound.
Proof. split_and!; vm_compute; reflexivity. Qed.

End Server.
