(* ===== verification/App.v ===== *)
(** * App: the whole server, request by request

    [src/server/server.js] answers a request by dispatching it
    ([Server.dispatch]) to one of the handlers that the other files model
    on their own state: the feed routes on the feed tables
    ([FeedServer]), the game routes on [games]/[quotes]/[notes]
    ([Games]), the crew routes ([Crew]), the upload and vault routes on
    [clips] and the [uploads] directory ([Vault]), the auth routes and
    the sessions ([Auth]).  This file puts those states side by side in
    [app_state] and writes [serve_http], one step of the server on a
    whole HTTP request: its method, its path segments, its session
    cookie, its query and body, and the values the environment supplies
    while it runs ([crypto.randomUUID()], Discord's answer on the login
    callback, the YouTube answer, [BASE_URL]).

    Path parameters are texts: Postgres reads a game or member id with
    its [integer] parser ([param_of_text]) and a post id with its [uuid]
    parser, which is a parameter of the section ([uuid_of]: the model
    stands for UUIDs by numbers).  A post id that is not a UUID makes the
    first statement of the like or comment handler throw.

    The login callback runs passport's verify function, whose user query
    may fail ([rq_users_fail]): [done(err)] then ends the request with
    Express's 500.

    Theorems: a request without a session never changes the feed,
    the clips or the uploads; the three requests of a login (the
    Discord link, the callback, [/api/auth/check]) bind the session to
    the user's row and the navbar shows Logout.  Requests are served one at a time here:
    the interleaving of the statements of concurrent requests is
    [FeedRace]'s subject. *)

From Stdlib Require Import ZArith Lia Ascii String.
From stdpp Require Import base list strings.
From S2P Require Import Prelude Db FeedServer Games Crew Vault Auth CrewCreate AppShell Home Server.

Module App.
Import Db FeedServer Games Crew Vault Auth CrewCreate AppShell Home Server.

(** ** State and requests *)

Record app_state := mk_app {
  st_feed : db;
  st_games : gdb;
  st_crew : cdb;
  st_vault : vdb;
  st_auth : adb
}.

(** The body Express parsed: JSON ([express.json]) or the multipart
    form multer reads. *)
Inductive req_body :=
| BodyNone
| BodyText (t : jsval)          (** [{ text }] *)
| BodyGame (b : game_body)
| BodyCrew (b : crew_body)
| BodyUpload (r : upload_req).

Record http_request := mk_http {
  rq_meth : meth;
  rq_path : list string;
  rq_sid : session_id;          (** the session of the cookie *)
  rq_limit : number;            (** [Number(req.query.limit)] *)
  rq_offset : number;           (** [Number(req.query.offset)] *)
  rq_body : req_body;
  rq_uuid : uuid;               (** what [crypto.randomUUID()] returns during the request *)
  rq_profile : option profile;  (** Discord's answer on the login callback *)
  rq_yt : yt_answer;            (** what [getYoutubeVideos] resolves to *)
  rq_base : option string;      (** [process.env.BASE_URL] *)
  rq_users_fail : bool          (** the verify callback's query of [users] throws *)
}.

(** What a handler reads of a body of another shape: every field
    [undefined]. *)
Definition text_of (b : req_body) : jsval := match b with BodyText t => t | _ => JUndefined end.

Definition game_of (b : req_body) : game_body :=
  match b with BodyGame g => g | _ => mk_game_body None None None None None LFalsy LFalsy end.

Definition crew_of (b : req_body) : crew_body :=
  match b with BodyCrew c => c | _ => mk_crew_body None None None None INull None None None INull INull end.

Definition upload_of (b : req_body) : upload_req :=
  match b with BodyUpload r => r | _ => mk_upload None None None None TagsAbsent None end.

(** [req.params.<name>] *)
Definition path_param (name : string) (ps : list (string * string)) : string :=
  default "" (snd <$> List.find (fun p => String.eqb (fst p) name) ps).

(** The text of an [integer] parameter as Postgres reads it. *)
Definition param_of_text (s : string) : param :=
  match pg_int_text s with IInt z => PInt z | _ => PText s end.

(** The answer of the application. *)
Inductive app_body :=
| AFeed (b : body)
| AGames (b : gbody)
| ACrew (b : cbody)
| AVault (b : vbody)
| ACheck (a : check_answer)
| AUsers (b : tbody)
| AQuotes (qs : list text_row)
| AText (s : string)              (** [res.send(...)] *)
| AFile (f : string)              (** a file of [uploads/] *)
| ARedirect (to : string)         (** a redirect: to Discord, [FRONT_END_URL] or "/" *)
| AUnauthorized                   (** [ensureAuth]'s 401 *)
| ANotFound                       (** Express's 404 *)
| AServerError.                   (** Express's default error handler: a 500 page *)

Definition lift {B} (f : B -> app_body) (r : response B) : response app_body :=
  match r with Reply c b => Reply c (f b) | NoReply => NoReply end.

Section Serve.
Context (fsch : schema) (gsch : gschema) (csch : cschema) (vsch : vschema).
Context (uuid_of : string -> option uuid).

(** The like route on a post id that is not a UUID: the SELECT throws
    inside the [try]. *)
Definition like_bad_id (u : option user) : FeedServer.route :=
  ensure_auth u (fun _ => handle (ret (Reply 500 (BError "Like failed")))).

(** The comment route on such an id: the validation, then the INSERT
    throws inside the [try]. *)
Definition comment_bad_id (u : option user) (text : jsval) : FeedServer.route :=
  ensure_auth u (fun _ => handle (
    t <- opt_trim text ;;
    match t with
    | Some content =>
        if String.eqb content "" then ret (Reply 400 (BError "Comment text required"))
        else ret (Reply 500 (BError "Comment failed"))
    | None => ret (Reply 400 (BError "Comment text required"))
    end)).

Definition on_feed (k : FeedServer.route) (s : app_state) : response app_body * app_state :=
  let '(r, d) := k (st_feed s) in (lift AFeed r, mk_app d (st_games s) (st_crew s) (st_vault s) (st_auth s)).

Definition on_games (k : groute) (s : app_state) : response app_body * app_state :=
  let '(r, d) := k (st_games s) in (lift AGames r, mk_app (st_feed s) d (st_crew s) (st_vault s) (st_auth s)).

Definition on_crew (k : croute) (s : app_state) : response app_body * app_state :=
  let '(r, d) := k (st_crew s) in (lift ACrew r, mk_app (st_feed s) (st_games s) d (st_vault s) (st_auth s)).

Definition set_auth (a : adb) (s : app_state) : app_state :=
  mk_app (st_feed s) (st_games s) (st_crew s) (st_vault s) a.

(** The handler [e] reached with the path parameters [ps]. *)
Definition handle_endpoint (e : endpoint) (ps : list (string * string)) (rq : http_request) (s : app_state)
    : response app_body * app_state :=
  let u := request_user (rq_sid rq) (st_auth s) in
  match e with
  | EFeedList => on_feed (get_feed u (rq_limit rq) (rq_offset rq)) s
  | EFeedPost => on_feed (create_post u (rq_uuid rq) (text_of (rq_body rq))) s
  | EFeedLike =>
      on_feed (match uuid_of (path_param "id" ps) with
               | Some fid => toggle_like fsch u fid (rq_uuid rq)
               | None => like_bad_id u
               end) s
  | EFeedComment =>
      on_feed (match uuid_of (path_param "id" ps) with
               | Some fid => add_comment fsch u fid (rq_uuid rq) (text_of (rq_body rq))
               | None => comment_bad_id u (text_of (rq_body rq))
               end) s
  | EUpload =>
      let '(r, v) := upload_clip vsch u (upload_of (rq_body rq)) (st_vault s) in
      (lift AVault r, mk_app (st_feed s) (st_games s) (st_crew s) v (st_auth s))
  | EVideos => (lift AVault (videos_listing (st_vault s)), s)
  | EVault => (lift AVault (vault_listing (base_url (rq_base rq)) u (youtube_videos (rq_yt rq)) (st_vault s)), s)
  | EDiscord => (Reply 302 (ARedirect "discord"), s)
  | EDiscordCallback =>
      match rq_profile rq with
      | Some p =>
          if rq_users_fail rq then (Reply 500 AServerError, s)
          else match login (rq_sid rq) p (st_auth s) with
               | (LoginOk, a) => (Reply 302 (ARedirect "FRONT_END_URL"), set_auth a s)
               | (LoginFailed, a) => (Reply 302 (ARedirect "/"), set_auth a s)
               end
      | None => (Reply 302 (ARedirect "/"), s)
      end
  | ELogout => (Reply 302 (ARedirect "FRONT_END_URL"), set_auth (logout (rq_sid rq) (st_auth s)) s)
  | ECheck => (Reply 200 (ACheck (check (rq_sid rq) (st_auth s))), s)
  | EGameCreate => on_games (create_game gsch (game_of (rq_body rq))) s
  | EGameGet => on_games (get_game (param_of_text (path_param "gameId" ps))) s
  | EGameUpdate => on_games (update_game gsch (param_of_text (path_param "gameId" ps)) (game_of (rq_body rq))) s
  | EGamesList => on_games list_games s
  | EGameDelete => on_games (delete_game gsch (param_of_text (path_param "gameId" ps))) s
  | ECrewList => on_crew list_crew s
  | ECrewGet => on_crew (get_member (param_of_text (path_param "id" ps))) s
  | ECrewCreate => on_crew (create_member csch (crew_of (rq_body rq))) s
  | ECrewUpdate => on_crew (update_member csch (param_of_text (path_param "id" ps)) (crew_of (rq_body rq))) s
  | ECrewDelete => on_crew (delete_member (param_of_text (path_param "id" ps))) s
  | EQuotes => (Reply 200 (AQuotes (quotes_route (st_games s))), s)
  | ERoot => (Reply 200 (AText "Backend is running."), s)
  | ETestUsers => (lift AUsers (test_users None (st_auth s)), s)
  end.

(** One request: the dispatch of [server.js], then the handler. *)
Definition serve_http (rq : http_request) (s : app_state) : response app_body * app_state :=
  match dispatch (bool_decide (is_Some (session_user (rq_sid rq) (st_auth s)))) (disk (st_vault s))
                 (rq_meth rq) (rq_path rq) with
  | Handle e ps => handle_endpoint e ps rq s
  | Unauthorized => (Reply 401 AUnauthorized, s)
  | ServeFile f => (Reply 200 (AFile f), s)
  | NotFound => (Reply 404 ANotFound, s)
  end.

(** Time passing between requests: [NOW()] advances in every database. *)
Definition app_tick (s : app_state) : app_state :=
  mk_app (snd (serve fsch Tick (st_feed s))) (gtick (st_games s)) (st_crew s) (vtick (st_vault s)) (st_auth s).

Definition app_empty : app_state :=
  mk_app empty_db games_empty (mk_cdb [] 1 0) (mk_vdb [] 1 0 []) (mk_adb [] []).

(** ** Requests without a session *)

Lemma handle_endpoint_frame e ps rq s :
  e ∉ [EFeedList; EFeedPost; EFeedLike; EFeedComment; EUpload] ->
  st_feed (snd (handle_endpoint e ps rq s)) = st_feed s /\
  st_vault (snd (handle_endpoint e ps rq s)) = st_vault s.
Proof.
  intros He. destruct e; cbn [handle_endpoint];
    try (exfalso; apply He; by repeat constructor);
    unfold on_games, on_crew, set_auth;
    repeat match goal with |- context [let '(_, _) := ?x in _] => destruct x end;
    try (destruct (rq_profile rq) as [p|]; [destruct (rq_users_fail rq); [|destruct (login _ _ _) as [[] ?]]|]);
    done.
Qed.

(** [C38] A request without a session never changes the feed tables,
    the clips or the files of [uploads/]: whatever its method, path and
    body, the routes that write them answer it 401 before their
    handler runs (the game, crew and auth routes it may reach write
    only their own tables). *)
Theorem anonymous_keeps_feed_vault rq s :
  session_user (rq_sid rq) (st_auth s) = None ->
  st_feed (snd (serve_http rq s)) = st_feed s /\ st_vault (snd (serve_http rq s)) = st_vault s.
Proof.
  intros Hu. unfold serve_http. rewrite Hu. cbn [is_Some].
  rewrite bool_decide_false by (intros [? ?]; discriminate).
  rewrite dispatch_anonymous.
  destruct (dispatch true _ _ _) as [e ps| | |]; cbn [anon]; try done.
  case_bool_decide as Hg; [done|]. apply handle_endpoint_frame.
  intros Hin. apply Hg.
  repeat (apply elem_of_cons in Hin as [->|Hin]; [by_eval|]). by apply not_elem_of_nil in Hin.
Qed.

(** ** Logging in *)

(** What the navbar makes of the answer of [/auth/check]: [None] while
    it is pending, [Some None] when axios rejects (the [.catch]), the
    answer otherwise. *)
Definition check_result (r : response app_body) : option (option check_answer) :=
  match r with
  | Reply c (ACheck a) => if http_ok c then Some (Some a) else Some None
  | Reply _ _ => Some None
  | NoReply => None
  end.

(** The browser following a link or loading a URL: a [GET] with the
    session cookie [sid]; [prof] is the Discord profile passport gets on
    the callback. *)
Definition get_request (p : list string) (sid : session_id) (prof : option profile) : http_request :=
  mk_http GET p sid NaN NaN BodyNone 0%N prof YtNoEnv None false.

Lemma login_found sid p d r :
  fst (verify p d) = Some r ->
  login sid p d = (LoginOk, mk_adb (users (snd (verify p d))) ((sid, r) :: sessions (snd (verify p d)))).
Proof. unfold login. destruct (verify p d) as [[r'|] d']; simpl; congruence. Qed.

(** [C37] Logging in works end to end: a browser, with a session or not,
    that follows the login link (the navbar's or the login page's, both
    [VITE_DISCORD_AUTH], the server's [/api/auth/discord]) is sent to
    Discord; when Discord returns the profile of an active registered
    user, the callback binds the session to that user's row (as read
    before the UPDATE) and sends the browser to the front end; then
    [/api/auth/check] answers that user and the navbar shows Logout. *)
Theorem login_flow s sid prof r :
  fst (verify prof (st_auth s)) = Some r ->
  let '(r1, s1) := serve_http (get_request ["api"; "auth"; "discord"] sid None) s in
  let '(r2, s2) := serve_http (get_request ["api"; "auth"; "discord"; "callback"] sid (Some prof)) s1 in
  let '(r3, _) := serve_http (get_request ["api"; "auth"; "check"] sid None) s2 in
  r1 = Reply 302 (ARedirect "discord") /\ r2 = Reply 302 (ARedirect "FRONT_END_URL") /\
  r3 = Reply 200 (ACheck (CheckIn r)) /\ snd (render_nav "/" (check_result r3)) = LogoutButton.
Proof.
  intros Hv.
  assert (forall b fs, dispatch b fs GET ["api"; "auth"; "discord"] = Handle EDiscord []) as D1 by reflexivity.
  assert (forall b fs, dispatch b fs GET ["api"; "auth"; "discord"; "callback"] = Handle EDiscordCallback [])
    as D2 by reflexivity.
  assert (forall b fs, dispatch b fs GET ["api"; "auth"; "check"] = Handle ECheck []) as D3 by reflexivity.
  unfold get_request.
  unfold serve_http at 1. cbn [rq_meth rq_path]. rewrite D1. cbn [handle_endpoint].
  unfold serve_http at 1. cbn [rq_meth rq_path]. rewrite D2. cbn [handle_endpoint rq_profile rq_sid rq_users_fail].
  rewrite (login_found sid prof (st_auth s) r Hv).
  unfold serve_http. cbn [rq_meth rq_path]. rewrite D3. cbn [handle_endpoint rq_sid st_auth set_auth].
  unfold check, session_user. simpl. by rewrite Nat.eqb_refl.
Qed.

End Serve.

(** ** Concrete runs *)

Definition ex_request (m : meth) (p : list string) (b : req_body) : http_request :=
  mk_http m p 0 NaN NaN b 9%N None YtNoEnv None false.

Lemma anonymous_keeps_feed_vault_witness :
  let rq := ex_request POST ["api"; "feedupdate"] (BodyText (JStr "hi")) in
  session_user (rq_sid rq) (st_auth app_empty) = None /\
  st_feed (snd (serve_http sch_fk sch_strict csch vsch (fun _ => None) rq app_empty)) = st_feed app_empty /\
  st_vault (snd (serve_http sch_fk sch_strict csch vsch (fun _ => None) rq app_empty)) = st_vault app_empty.
Proof.
  intros rq. assert (session_user (rq_sid rq) (st_auth app_empty) = None) as H by reflexivity.
  split; [exact H|]. exact (anonymous_keeps_feed_vault sch_fk sch_strict csch vsch (fun _ => None) rq app_empty H).
Defined.

(** Alice, registered and active, logs in from a fresh browser. *)
Definition ex_with_users : app_state := set_auth ex_adb app_empty.

Lemma login_flow_witness :
  fst (verify (mk_profile "d-1001" "Alice") (st_auth ex_with_users)) = Some alice_row /\
  let '(r1, s1) := serve_http sch_fk sch_strict csch vsch (fun _ => None)
                     (get_request ["api"; "auth"; "discord"] 5 None) ex_with_users in
  let '(r2, s2) := serve_http sch_fk sch_strict csch vsch (fun _ => None)
                     (get_request ["api"; "auth"; "discord"; "callback"] 5 (Some (mk_profile "d-1001" "Alice"))) s1 in
  let '(r3, _) := serve_http sch_fk sch_strict csch vsch (fun _ => None)
                    (get_request ["api"; "auth"; "check"] 5 None) s2 in
  r1 = Reply 302 (ARedirect "discord") /\ r2 = Reply 302 (ARedirect "FRONT_END_URL") /\
  r3 = Reply 200 (ACheck (CheckIn alice_row)) /\ snd (render_nav "/" (check_result r3)) = LogoutButton.
Proof.
  assert (fst (verify (mk_profile "d-1001" "Alice") (st_auth ex_with_users)) = Some alice_row) as H by reflexivity.
  split; [exact H|].
  exact (login_flow sch_fk sch_strict csch vsch (fun _ => None) ex_with_users 5 (mk_profile "d-1001" "Alice") alice_row H).
Defined.

End App.
