(* ===== verification/Legacy.v ===== *)
(** * Legacy: the components no module imports

    [components/VideoPlayerModal.tsx] and [components/CommunityFeed.tsx]
    are in the client's sources but no module imports them ([Vault.tsx]
    has its own [VideoModal], [Routes.tsx] mounts [FeedWrapper]).  They
    are modelled as written, for the day they are mounted.

    [VideoPlayerModal] locks the page's scroll and listens for Escape in
    an effect that depends on [onClose]; the document state it touches
    ([document.body.style.overflow] and the [keydown] listeners of
    [window]) is [doc], and a run of the parent's renders, the unmount,
    keys and clicks is a sequence of [player_event]s.

    [CommunityFeed] fetches the feed and posts to it with [fetch], which
    sends no cookie to the API's origin: its requests reach [App] without
    a session.

    Theorems: in every state a run reaches, the shown modal has exactly
    one Escape listener, which calls the current [onClose], and the
    scroll is locked; once it is gone no listener is left, and the
    page's overflow is the one it had or [""] (the cleanup does not
    restore a previous value).  CommunityFeed's requests are refused
    with 401 and change nothing: its posts state becomes the error
    object, and a post adds nothing. *)

From Stdlib Require Import ZArith Lia Ascii String.
From stdpp Require Import base list strings.
From S2P Require Import Prelude Db FeedServer Games Crew Vault VaultPage Auth Server App.

Module Legacy.
Import Db FeedServer Games Crew Vault VaultPage Auth Server App.

(** ** VideoPlayerModal.tsx *)

(** The document as the modal touches it; a [keydown] listener is the
    [handleEsc] of one effect run, known by the [onClose] it closes
    over. *)
Record doc := mk_doc {
  body_overflow : string;
  key_listeners : list nat
}.

(** [window.removeEventListener("keydown", handleEsc)]: that function
    only, once. *)
Fixpoint remove_once (x : nat) (l : list nat) : list nat :=
  match l with
  | [] => []
  | y :: l => if decide (x = y) then l else y :: remove_once x l
  end.

(** The effect of a render with [onClose] [cb]. *)
Definition esc_setup (cb : nat) (d : doc) : doc := mk_doc "hidden" (key_listeners d ++ [cb]).

(** Its cleanup. *)
Definition esc_cleanup (cb : nat) (d : doc) : doc := mk_doc "" (remove_once cb (key_listeners d)).

Inductive player_event :=
| PRender (cb : nat)          (** the parent renders the modal with [onClose] [cb] *)
| PUnmount                    (** the parent stops rendering it *)
| PKeyDown (key : string)     (** a key pressed anywhere *)
| PClickBackdrop              (** the outer [div]: [onClick={onClose}] *)
| PClickFrame                 (** inside the frame: [e.stopPropagation()] *)
| PClickClose.                (** the X button, inside the frame *)

(** The [onClose] of the committed effect ([None]: not mounted) and the
    document. *)
Record player := mk_player {
  pl_effect : option nat;
  pl_doc : doc
}.

(** One event: the new state and the [onClose] calls it makes.  A
    render with a new [onClose] runs the old effect's cleanup, then the
    new effect; the same [onClose] runs nothing. *)
Definition player_step (e : player_event) (p : player) : player * list nat :=
  match e, pl_effect p with
  | PRender cb, None => (mk_player (Some cb) (esc_setup cb (pl_doc p)), [])
  | PRender cb, Some cb0 =>
      if decide (cb = cb0) then (p, [])
      else (mk_player (Some cb) (esc_setup cb (esc_cleanup cb0 (pl_doc p))), [])
  | PUnmount, Some cb0 => (mk_player None (esc_cleanup cb0 (pl_doc p)), [])
  | PKeyDown k, _ => (p, if String.eqb k "Escape" then key_listeners (pl_doc p) else [])
  | PClickBackdrop, Some cb | PClickClose, Some cb => (p, [cb])
  | _, _ => (p, [])
  end.

(** The frame: the YouTube [<iframe>] for a YouTube entry, a [<video>]
    for anything else. *)
Definition player_frame (v : video) : modal_media :=
  if String.eqb (vp_source v) "youtube"
  then MEmbed ("https://www.youtube.com/embed/" +:+ template_text (vp_youtube_id v) +:+ "?autoplay=1")
  else MVideo (vp_video_url v).

(** The states a page whose overflow is [o] and which has no such
    listener reaches. *)
Inductive player_reachable (o : string) : player -> Prop :=
| pr_start : player_reachable o (mk_player None (mk_doc o []))
| pr_step e p : player_reachable o p -> player_reachable o (fst (player_step e p)).

Definition player_inv (o : string) (p : player) : Prop :=
  match pl_effect p with
  | Some cb => pl_doc p = mk_doc "hidden" [cb]
  | None => key_listeners (pl_doc p) = [] /\ (body_overflow (pl_doc p) = o \/ body_overflow (pl_doc p) = "")
  end.

Lemma player_step_inv o e p : player_inv o p -> player_inv o (fst (player_step e p)).
Proof.
  unfold player_inv, player_step. intros Hi.
  destruct e as [cb| |k| | |]; destruct (pl_effect p) as [cb0|] eqn:E; cbn; rewrite ?E; try exact Hi.
  - destruct (decide (cb = cb0)); cbn; [by rewrite E|].
    rewrite Hi. unfold esc_setup, esc_cleanup. simpl. by rewrite decide_True.
  - destruct (pl_doc p) as [ov ls]. simpl in *. destruct Hi as [-> _]. done.
  - rewrite Hi. unfold esc_cleanup. simpl. rewrite decide_True by done. by split; [|right].
Qed.

Lemma player_reachable_inv o p : player_reachable o p -> player_inv o p.
Proof. induction 1; [by split; [|left]|by apply player_step_inv]. Qed.

(** The player would put an image clip of the vault in a [<video>]
    element, where [Vault.tsx]'s own modal shows an [<img>]. *)
Lemma player_frame_local_image base c :
  clip_type c = Some "image" ->
  player_frame (video_of_item (local_item base c)) = MVideo (Some (upload_url base (clip_file_path c))) /\
  modal_media_of (video_of_item (local_item base c)) = MImage (Some (upload_url base (clip_file_path c))).
Proof.
  intros Ht. unfold player_frame, modal_media_of, video_of_item, local_item. simpl. rewrite Ht. simpl.
  by rewrite upload_url_nonempty.
Qed.

(** In every state a run of renders, unmounts, keys and clicks
    reaches from a page without such a listener: while the modal is
    shown, the scroll is locked and Escape calls the current [onClose]
    exactly once (one listener, whatever the number of renders with new
    callbacks); once it is gone, Escape calls nothing and the page's
    overflow is the one it had or [""]: the cleanup does not restore it. *)
Theorem player_escape_once o p :
  player_reachable o p ->
  (forall cb, pl_effect p = Some cb ->
     body_overflow (pl_doc p) = "hidden" /\ snd (player_step (PKeyDown "Escape") p) = [cb]) /\
  (pl_effect p = None ->
     snd (player_step (PKeyDown "Escape") p) = [] /\
     (body_overflow (pl_doc p) = o \/ body_overflow (pl_doc p) = "")).
Proof.
  intros Hr. pose proof (player_reachable_inv o p Hr) as Hi. unfold player_inv in Hi.
  split.
  - intros cb Hcb. rewrite Hcb in Hi. simpl. by rewrite Hi.
  - intros Hn. rewrite Hn in Hi. destruct Hi as [Hl Ho]. simpl. by rewrite Hl.
Qed.

(** ** CommunityFeed.tsx *)

(** [posts] and [loading]; [posts] is what [setPosts] was given: the
    JSON of the GET answer ([None]: still [[]]), and the posts
    [handlePost] prepended. *)
Record community := mk_community {
  cm_data : option app_body;
  cm_added : list app_body;
  cm_loading : bool
}.

Definition community_initial : community := mk_community None [] true.

(** [fetch("http://localhost:3000/api/feedupdate", init)]: no cookie goes
    to the API's origin, so the session is one without a user. *)
Definition community_request (m : meth) (b : req_body) (sid : session_id) (id : uuid) : http_request :=
  mk_http m ["api"; "feedupdate"] sid NaN NaN b id None YtNoEnv None false.

(** [.then(res => res.json()).then(data => setPosts(data)).finally(() =>
    setLoading(false))]; an answer that never comes leaves the page
    loading. *)
Definition community_fetched (r : response app_body) (c : community) : community :=
  match r with
  | Reply _ b => mk_community (Some b) (cm_added c) false
  | NoReply => c
  end.

(** [handlePost]: [if (!res.ok) return], else [setPosts(prev => [newPost,
    ...prev])]. *)
Definition community_posted (r : response app_body) (c : community) : community :=
  match r with
  | Reply code b => if http_ok code then mk_community (cm_data c) (b :: cm_added c) (cm_loading c) else c
  | NoReply => c
  end.

(** [if (loading) return <p>Loading feed...</p>; return <Feed posts={posts}
    onPost={handlePost} />]: [Feed] takes no props, so it shows its own
    page whatever [posts] holds. *)
Inductive community_view := CLoading | CFeedPage.

Definition render_community (c : community) : community_view :=
  if cm_loading c then CLoading else CFeedPage.

Section Community.
Context (fsch : schema) (gsch : gschema) (csch : cschema) (vsch : vschema) (uuid_of : string -> option uuid).

Lemma serve_feed_anonymous s m b sid id :
  session_user sid (st_auth s) = None -> m = GET \/ m = POST ->
  serve_http fsch gsch csch vsch uuid_of (community_request m b sid id) s = (Reply 401 AUnauthorized, s).
Proof. intros Hs Hm. unfold serve_http. simpl. rewrite Hs. by destruct Hm as [-> | ->]. Qed.

(** CommunityFeed's requests carry no session, so the feed routes
    refuse them, whatever the server's state: the GET answers 401, the
    page's [posts] becomes the error object and loading ends; the POST
    answers 401, [handlePost] returns, and neither changes the server. *)
Theorem community_feed_refused s sid id t c :
  session_user sid (st_auth s) = None ->
  let get := serve_http fsch gsch csch vsch uuid_of (community_request GET BodyNone sid id) s in
  let post := serve_http fsch gsch csch vsch uuid_of (community_request POST (BodyText (JStr t)) sid id) s in
  get = (Reply 401 AUnauthorized, s) /\ post = (Reply 401 AUnauthorized, s) /\
  community_fetched (fst get) community_initial = mk_community (Some AUnauthorized) [] false /\
  community_posted (fst post) c = c.
Proof.
  intros Hs get post.
  assert (get = (Reply 401 AUnauthorized, s)) as Hg by (apply serve_feed_anonymous; auto).
  assert (post = (Reply 401 AUnauthorized, s)) as Hp by (apply serve_feed_anonymous; auto).
  by rewrite Hg, Hp.
Qed.

End Community.

(** ** Concrete runs *)

(** The parent renders twice with fresh callbacks, the user presses a
    key, then the modal is closed. *)
Definition ex_player_events : list player_event := [PRender 1; PRender 2; PKeyDown "a"; PRender 3].

Lemma player_escape_once_witness :
  let p := fold_left (fun p e => fst (player_step e p)) ex_player_events (mk_player None (mk_doc "auto" [])) in
  player_reachable "auto" p /\
  body_overflow (pl_doc p) = "hidden" /\ snd (player_step (PKeyDown "Escape") p) = [3].
Proof.
  intros p.
  assert (player_reachable "auto" p) as Hr
    by (repeat apply pr_step; apply pr_start).
  split; [exact Hr|]. exact (proj1 (player_escape_once "auto" p Hr) 3 eq_refl).
Defined.

Lemma community_feed_refused_witness :
  session_user 7 (st_auth app_empty) = None /\
  serve_http sch_fk sch_strict Crew.csch Vault.vsch (fun _ => None)
    (community_request GET BodyNone 7 1%N) app_empty = (Reply 401 AUnauthorized, app_empty).
Proof.
  assert (session_user 7 (st_auth app_empty) = None) as H by reflexivity.
  split; [exact H|].
  exact (proj1 (community_feed_refused sch_fk sch_strict Crew.csch Vault.vsch (fun _ => None) app_empty 7 1%N "hi"
                  community_initial H)).
Defined.

End Legacy.
